(* ===== verification/_CoqProject ===== *)
-Q . S2P
Prelude.v
Errors.v
TaskState.v
Sync.v
Instance.v
Cells.v
InstanceData.v
Paths.v
Files.v
Text.v
Oci.v
Local.v
Windows.v
Threads.v
LocalThreads.v
Telemetry.v
Stub.v
Context.v
Engine.v
Container.v
EndToEnd.v
UnixStub.v
Client.v
Wasmtime.v
ContentStore.v
SharedStore.v
ClientStub.v
ContentStub.v
SharedStub.v
TarBuilder.v
HttpProxy.v
Engines.v
Cli.v
StressTest.v
StressClient.v
StressMocks.v
StressMain.v
StressStub.v
ReadBack.v
Testing.v
EngineTests.v
TarCommand.v
BuildScripts.v
UnitTests.v
ClientTests.v
Benchmarks.v
DemoApp.v
