(* ===== verification/Prelude.v ===== *)
(** * Verification of runwasi

    runwasi is a library, in Rust, for writing containerd shims that run
    WebAssembly, together with shims for the runtimes wasmtime, wasmedge, wasmer
    and wamr, a builder of OCI archives, and a stress test.  A shim is a process
    that containerd starts for a pod and to which it sends task requests over
    ttrpc.  In what follows CSW stands for src/crates/containerd-shim-wasm/src.

    ** How the parts work together

    containerd sends a request; the task service ([Local]) looks the task up and
    calls its [InstanceData], an [Instance] with a life-cycle state behind a
    lock.  [Instance] is a trait: the Unix implementation builds a libcontainer
    container in a zygote process, with an [Executor] that decides in the
    container process whether to run a Linux program or to give the container to
    the [Engine].  Building it loads the wasm layers of the image from
    containerd's content store, where precompiled layers are cached.  The exit of
    the container reaches the service through a [WaitableCell] that a monitor
    thread sets.

    ** Files

    - Prelude: results, the programs [prog] in which handlers are written and
      their execution, machine integers, strings.
    - Errors (CSW/sandbox/error.rs): the errors and their ttrpc form.
    - TaskState (CSW/sandbox/shim/task_state.rs): states and transitions.
    - Sync (CSW/sandbox/sync.rs): [WaitableCell], operation by operation, and its
      refinement into an atomic cell.
    - Instance (CSW/sandbox/instance.rs, shim/events.rs): the trait as the class
      [Instance], its configuration, and [InstanceLaws], what the service relies
      on of an implementation.
    - Cells: the exit cells of a shim process, used by both implementations.
    - InstanceData (CSW/sandbox/shim/instance_data.rs): instances in a shared
      heap, with their locks.
    - Paths, Files, Text: what the code uses of std::path, std::fs and str.
    - Oci (CSW/sandbox/oci.rs): specs, environments and prestart hooks.
    - Local (CSW/sandbox/shim/local.rs): every request of the task service.
    - Windows (CSW/sys/windows): the instance of Windows, a stub.
    - Threads: interleaving of programs, the thread that holds each lock, and four
      ways to reason about what every interleaving keeps.
    - LocalThreads: the service under concurrency, its locks and its answers.
    - Telemetry (CSW/sandbox/shim/otel.rs, and what the feature adds to
      shim/local.rs): exporter settings, the set-up of the tracer, trace contexts,
      the interval thread of [wait].
    - Stub (CSW/sandbox/shim/local/tests.rs): the service on the stub instance of
      the repository and a small host; witnesses, and races.
    - Context (CSW/container/context.rs, path.rs, wasm.rs): entry points, sources
      and path resolution.
    - Engine (CSW/container/engine.rs, CSW/sys/unix/container/executor.rs): the
      engine trait with its defaults, and the executor.
    - Container (CSW/sys/unix/container/container.rs and instance.rs,
      CSW/sandbox/instance_utils.rs): the Unix instance.
    - EndToEnd: the laws of libcontainer and of the kernel, and the way of a container
      from its bundle to the exit code that is reported.
    - UnixStub: the service on the Unix instance, and a runtime that keeps the laws.
    - Client (CSW/sandbox/containerd/client.rs and lease.rs): the client of
      containerd's content store.
    - Wasmtime (src/crates/containerd-shim-wasmtime/src/instance.rs): the engine and
      its configuration.
    - ContentStore: the laws of containerd's content, lease, image and container
      services, and the life of the cache of compiled layers over any store that
      keeps them.
    - SharedStore: what containerd promises at each single step, and the loads of any
      number of engines that share the store.  Its engines have names and versions
      without slashes, and the bytes that the store holds do not collide under its hash.
    - ClientStub: a content store and a compiler, on which the two run together.
    - ContentStub: a store that keeps the laws, and what goes wrong in it when loads
      are interrupted or meet.  SharedStub: loads of two engines in it, and what each
      loses to the other.
    - TarBuilder (src/crates/oci-tar-builder/src): the archive builder.
    - HttpProxy (src/crates/containerd-shim-wasmtime/src/http_proxy.rs).
    - Engines (instance.rs of the wasmedge, wasmer and wamr crates).
    - Cli (CSW/sandbox/shim/cli.rs and events.rs, CSW/sandbox/cli.rs, and the main.rs of
      the four shims): the command line, [shim_main], and the sender of events.
    - StressTest (src/crates/stress-test/src/main.rs and utils.rs): the scheduler.
    - StressClient (src/crates/stress-test/src/containerd) and StressMocks
      (src/crates/stress-test/src/mocks): its back ends; the second one drives the
      task service of Local.
    - StressMain (main.rs, traits.rs and utils.rs of the same crate): the command,
      the futures of its tasks, its main loop and the reaping of children.
      StressStub: hosts for all of them, and a process table.
    - ReadBack: what the client of the shims saves, read by the client of the stress
      test from the same store.
    - Testing (CSW/testing.rs): the test harness, with its helpers for ctr.
      EngineTests (CSW/container/tests.rs): a test of the harness on the Unix instance.
    - TarCommand (src/crates/oci-tar-builder/src/bin.rs): the archive command.
    - BuildScripts (build.rs of containerd-shim-wasm-test-modules and of
      wasi-demo-app): the test modules, and the image of the demo application.
    - UnitTests and ClientTests: the unit tests of context.rs, error.rs, otel.rs,
      local.rs, sync.rs and client.rs, as tests that the definitions pass.
    - Benchmarks (src/benches) and DemoApp (src/crates/wasi-demo-app/src/main.rs and the
      test modules in Rust): what is measured, and the guests, as interaction trees.

    ** How code is modelled

    A handler is a [prog S E A]: a tree of atomic actions on a shared state [S]
    that ends in a value, an error ([?] in the code) or a panic, may block, and
    may spawn threads.  What one acquisition of a lock protects is one action;
    code that releases a lock and takes it again is two, so that other threads
    run in between.  [run] executes a program alone; [cstep] (file Threads)
    interleaves any number of them with new requests.  [attempt], [finally] and
    [unless_ok] are a match on a result, a guard dropped on every way out, and a
    guard that is forgotten on success.  Guests, one of which never ends, are
    interaction trees of the ITree library.  The state of a shared object is in one
    place: instances in a heap of addresses, exit cells in a list.

    Integers are in Z and are kept at their width where the code converts or
    counts ([as_u32], [as_i64], the wrap-around of counters).  Strings and paths
    are their bytes.

    Code of other crates, of containerd and of the operating system is a
    parameter, in classes of operations: [Os] (processes), [Host] (clock, spec
    files, mounts, threads), [Youki] (libcontainer, the zygote, waitid), [Fs]
    (a snapshot of files and environment), [Containerd] (the gRPC services),
    [WasmtimeApi], [WasmEdgeSdk], [WasmerSdk], [WamrSdk], [TarEnv] (file
    contents, hash and serialisers), [OtelSdk], [Process_], [Services] and [MockOs]
    and [Processes] (stress test), [TestHost], [CommandHost], [Net], [ModuleHost] and
    [DemoHost].  What a theorem needs of them is stated in [InstanceLaws], [FsLaws],
    [WasmtimeLaws], [ContentLaws], [ContentIntegrity], [StreamLaws], [RuntimeLaws] and
    [ProcessLaws], or as a hypothesis about the outcome of one call; the stub files give
    instances of all of them.  [ProcessLaws] is about the system calls kill and waitpid
    and about a list of children that names children only, and may leave some out.  The
    [Instance] trait is proved against, not assumed: the stub and the Unix
    instance both discharge [InstanceLaws].

    ** What the theorems show

    - The task service: each request on each branch (create, start, delete and
      state in full; unknown tasks, exec and checkpoints refused), and under
      every interleaving a held lock belongs to a thread that is still running and that
      alone can release it, a free instance is in a settled state, the service only
      moves forward, and the process ids and exits in its answers are those on record.
    - [WaitableCell] refines an atomic write-once cell, loses no wakeup, and
      returns the value that was set.
    - The Unix instance records an exit for every start, whatever fails, and the
      monitor thread reports the right code.
    - From the bundle to the exit code: what the engine exits with is what is reported,
      and a container that the engine refuses is not built.
    - The executor decides once, and as documented; entry points and paths are
      resolved as described.
    - The content store: layers keep the order of the manifest, content is
      written completely in bounded chunks, leases are released; over every store
      that keeps the laws the first load of an image compiles and stores its layers
      and every later one finds them; a lost compiled layer falls back to the
      original.  However loads of any engines interleave on it, a load gives an engine
      only what the manifest names or what an engine of the same name and version has
      compiled from it.
    - wasmtime: the layers it is given run as the content that the manifest names; when [precompile]
      answers for every layer.
    - The archive builder closes its archive under references, and its command
      leaves an archive or no file; the HTTP server shuts down gracefully.
    - The stress test counts correctly, its loop refines the steps that are counted,
      a passed test has taken each of its tasks through create, start, wait and delete, and
      the loop that ends it kills and reaps every child that the kernel lists.  It takes its
      tasks through the whole life cycle of the shim, deletes each part of a task once, gives
      its tasks different ids, and asks to unmount inner mounts first, as far as the calls succeed.
    - The test harness lays out the bundle that a test asks for, reports what the
      instance did, and its wait for the garbage collector ends.
    - Round trips: content that one client saves is what the other reads back; the function of a test is
      the one that the engine calls; a trace context reaches the child processes.
    - Divergences: theorems that show a reachable state the code does not mean
      to reach (concurrent creation, failed hooks, the interval thread, the
      barrier of the stress test, and others) say so in their comments.

    ** Fuel

    Six definitions take fuel.  [write_chunks] (Client) has one iteration per
    chunk; each takes at least one byte, so the length of the data plus one is
    enough, which [write_chunks_complete] proves.  [interval_thread] (Telemetry)
    models a thread that need not end; its theorem holds for every amount.
    [reap_children] (StressMain) has one iteration per reading of the children; the
    amount of reaping that is left plus one is enough, which
    [main_reaps_listed_children] proves.  [removal_loop] (Testing) has one iteration per call of ctr; [content_removal_ends]
    gives the number that is enough.  [follow] (Files) follows 40 links, the limit of
    Linux.  [decode_layers] (ClientStub) takes the length of its input.
    Everything else is structural recursion, or a step relation.

    ** What is not modelled

    The named pipes of Windows, the body streams of the HTTP server, the parsing of
    command lines, the helper that blocks on a future, and the tests that run real
    modules in real engines: I/O, glue, or code of other crates.  The zygote is a process
    that runs a function on its slot and returns or fails; how values get there is of
    another crate; how a panic inside it comes out is a parameter, [zygote_panicked].
    Numbers that only reach logs are left out. *)
From Stdlib Require Export Ascii String.
From stdpp Require Export base decidable option list gmap strings fin_maps pretty numbers.
#[export] Set Warnings "-clear-no-such-hyp".

(** * Results *)

(** Rust's [Result<A, E>]. *)
Inductive result (E A : Type) : Type :=
| Ok (a : A)
| Err (e : E).
Arguments Ok {E A} a.
Arguments Err {E A} e.

Definition is_err {E A} (r : result E A) : bool :=
  match r with Ok _ => false | Err _ => true end.

(** [Option::ok_or]. *)
Definition ok_or {E A} (o : option A) (e : E) : result E A :=
  match o with Some a => Ok a | None => Err e end.

(** [Option::unwrap_or]. *)
Definition unwrap_or {A} (o : option A) (d : A) : A :=
  match o with Some a => a | None => d end.

(** * Effects

    [prog S E A] is a handler over the shared state [S] that returns an [A],
    fails with an [E] (the error path of [?]), or panics.  [Act] is one atomic
    step: it is enabled when its function returns [Some]; a step that is not
    enabled blocks (a lock that is taken, a condition variable that waits).
    [Fork] spawns a thread, whose body returns nothing and cannot fail. *)
Inductive prog (S E A : Type) : Type :=
| Ret (a : A)
| Throw (e : E)
| Panic (msg : string)
| Act (B : Type) (f : S → option (B * S)) (k : B → prog S E A)
| Fork (t : prog S Empty_set unit) (k : prog S E A).
Arguments Ret {S E A} a.
Arguments Throw {S E A} e.
Arguments Panic {S E A} msg.
Arguments Act {S E A B} f k.
Arguments Fork {S E A} t k.

Abbreviation thread S := (prog S Empty_set unit).

Section combinators.
Context {S : Type}.

Fixpoint bind {E A B : Type} (p : prog S E A) (k : A → prog S E B) : prog S E B :=
  match p with
  | Ret a => k a
  | Throw e => Throw e
  | Panic m => Panic m
  | Act f q => Act f (λ b, bind (q b) k)
  | Fork t q => Fork t (bind q k)
  end.

(** One atomic step that is always enabled. *)
Definition atomically {E A} (f : S → A * S) : prog S E A :=
  Act (λ s, Some (f s)) Ret.

(** One atomic step that blocks until [f] returns [Some]. *)
Definition await {E A} (f : S → option (A * S)) : prog S E A := Act f Ret.

Definition gets {E A} (f : S → A) : prog S E A := atomically (λ s, (f s, s)).

Definition modify {E} (f : S → S) : prog S E unit := atomically (λ s, (tt, f s)).

(** [match p { Ok(a) => .., Err(e) => .. }]: the error becomes a value. *)
Fixpoint attempt {E E' A : Type} (p : prog S E A) : prog S E' (result E A) :=
  match p with
  | Ret a => Ret (Ok a)
  | Throw e => Ret (Err e)
  | Panic m => Panic m
  | Act f q => Act f (λ b, attempt (q b))
  | Fork t q => Fork t (attempt q)
  end.

(** What is left to a caller in another process of a [p] that panics. *)
Fixpoint catch_panic {E A : Type} (p : prog S E A) : prog S E (result string A) :=
  match p with
  | Ret a => Ret (Ok a)
  | Throw e => Throw e
  | Panic m => Ret (Err m)
  | Act f q => Act f (λ b, catch_panic (q b))
  | Fork t q => Fork t (catch_panic q)
  end.

(** [Result::map_err]. *)
Fixpoint map_err {E E' A : Type} (g : E → E') (p : prog S E A) : prog S E' A :=
  match p with
  | Ret a => Ret a
  | Throw e => Throw (g e)
  | Panic m => Panic m
  | Act f q => Act f (λ b, map_err g (q b))
  | Fork t q => Fork t (map_err g q)
  end.

(** A value whose [Drop] runs when the scope [p] ends: [d] on a normal or an
    early error return, [u] when a panic unwinds. *)
Fixpoint finally {E A : Type} (p : prog S E A) (d u : prog S E unit) : prog S E A :=
  match p with
  | Ret a => bind d (λ _, Ret a)
  | Throw e => bind d (λ _, Throw e)
  | Panic m => bind u (λ _, Panic m)
  | Act f q => Act f (λ b, finally (q b) d u)
  | Fork t q => Fork t (finally q d u)
  end.

(** A value that [p] moves away when it succeeds: its [Drop], [d], runs only on
    an early error return or when a panic unwinds. *)
Fixpoint unless_ok {E A : Type} (p : prog S E A) (d : prog S E unit) : prog S E A :=
  match p with
  | Ret a => Ret a
  | Throw e => bind d (λ _, Throw e)
  | Panic m => bind d (λ _, Panic m)
  | Act f q => Act f (λ b, unless_ok (q b) d)
  | Fork t q => Fork t (unless_ok q d)
  end.

(** [Result::expect]: an error is a panic with the message; [unwrap] has its own. *)
Definition expect {E E' A : Type} (message : string) (p : prog S E A) : prog S E' A :=
  bind (attempt p) (λ r, match r with Ok a => Ret a | Err _ => Panic message end).

(** The [?] operator on a pure result. *)
Definition lift_result {E A} (r : result E A) : prog S E A :=
  match r with Ok a => Ret a | Err e => Throw e end.

(** A computation that cannot fail, at any error type. *)
Definition infallible {E A : Type} (p : prog S Empty_set A) : prog S E A :=
  map_err (λ e : Empty_set, match e with end) p.

(** [for x in l { body(x)?; }], collecting the values. *)
Fixpoint for_each {E X A} (body : X → prog S E A) (l : list X) : prog S E (list A) :=
  match l with
  | [] => Ret []
  | x :: l' =>
      bind (body x) (λ a, bind (for_each body l') (λ r, Ret (a :: r)))
  end.
End combinators.

(** Running a handler of a component inside a larger state. *)
Fixpoint zoom {S W : Type} (get : S → W) (put : W → S → S)
    {E A : Type} (p : prog W E A) : prog S E A :=
  match p with
  | Ret a => Ret a
  | Throw e => Throw e
  | Panic m => Panic m
  | Act f q =>
      Act (λ s, match f (get s) with
                | Some (b, w) => Some (b, put w s)
                | None => None
                end) (λ b, zoom get put (q b))
  | Fork t q => Fork (zoom get put t) (zoom get put q)
  end.

Definition UNWRAP : string := "called `Result::unwrap()` on an `Err` value".
Abbreviation unwrap p := (expect UNWRAP p).

Declare Scope prog_scope.
Delimit Scope prog_scope with prog.
Notation "'let!' x := p 'in' k" := (bind p (λ x, k))
  (at level 10, x pattern, p at level 200, k at level 200,
   format "'let!'  x  :=  p  'in' '//' k") : prog_scope.
Notation "p ;; k" := (bind p (λ _, k))
  (at level 100, right associativity, format "p ;; '//' k") : prog_scope.

(** * Running a handler alone

    [run p s] executes [p] with no interference: its outcome, the state it
    leaves and the threads it spawned (not yet run), in spawning order. *)
Inductive outcome (E A : Type) : Type :=
| Done (a : A)
| Failed (e : E)
| Panicked (msg : string)
| Blocked.
Arguments Done {E A} a.
Arguments Failed {E A} e.
Arguments Panicked {E A} msg.
Arguments Blocked {E A}.

Fixpoint run {S E A : Type} (p : prog S E A) (s : S) : outcome E A * S * list (thread S) :=
  match p with
  | Ret a => (Done a, s, [])
  | Throw e => (Failed e, s, [])
  | Panic m => (Panicked m, s, [])
  | Act f k =>
      match f s with
      | Some (b, s') => run (k b) s'
      | None => (Blocked, s, [])
      end
  | Fork t k => let '(o, s', ts) := run k s in (o, s', t :: ts)
  end.

(** What follows the outcome of a first part [r] when the rest is [k]. *)
Definition and_then {S E A B} (r : outcome E A * S * list (thread S))
    (k : A → S → outcome E B * S * list (thread S)) : outcome E B * S * list (thread S) :=
  let '(o, s, ts) := r in
  match o with
  | Done a => let '(o', s', ts') := k a s in (o', s', ts ++ ts')
  | Failed e => (Failed e, s, ts)
  | Panicked m => (Panicked m, s, ts)
  | Blocked => (Blocked, s, ts)
  end.

Lemma run_bind {S E A B} (p : prog S E A) (k : A → prog S E B) s :
  run (bind p k) s = and_then (run p s) (λ a, run (k a)).
Proof.
  revert s; induction p as [E A a|E A e|E A m|E A C f q IH|E A t IHt q IH]; intros s; simpl; try done.
  - by destruct (run (k a) s) as [[??]?].
  - by destruct (f s) as [[b s']|].
  - rewrite IH. destruct (run q s) as [[[?|?|?|] ?] ?]; simpl; try done.
    by destruct (run (k a) s0) as [[??]?].
Qed.

Definition attempt_outcome {E E' A} (o : outcome E A) : outcome E' (result E A) :=
  match o with
  | Done a => Done (Ok a)
  | Failed e => Done (Err e)
  | Panicked m => Panicked m
  | Blocked => Blocked
  end.

Lemma run_attempt {S E E' A} (p : prog S E A) s :
  run (attempt (E' := E') p) s =
  let '(o, s', ts) := run p s in (attempt_outcome o, s', ts).
Proof.
  revert s; induction p as [E A a|E A e|E A m|E A C f q IH|E A t IHt q IH]; intros s; simpl; try done.
  - by destruct (f s) as [[b s']|].
  - rewrite IH. by destruct (run q s) as [[??]?].
Qed.

Definition catch_outcome {E A} (o : outcome E A) : outcome E (result string A) :=
  match o with
  | Done a => Done (Ok a)
  | Failed e => Failed e
  | Panicked m => Done (Err m)
  | Blocked => Blocked
  end.

Lemma run_catch_panic {S E A} (p : prog S E A) s :
  run (catch_panic p) s = let '(o, s', ts) := run p s in (catch_outcome o, s', ts).
Proof.
  revert s; induction p as [E A a|E A e|E A m|E A C f q IH|E A t IHt q IH]; intros s; simpl; try done.
  - by destruct (f s) as [[b s']|].
  - rewrite IH. by destruct (run q s) as [[??]?].
Qed.

Lemma run_expect {S E E' A : Type} message (p : prog S E A) s a s' ts :
  run p s = (Done a, s', ts) → run (expect (E' := E') message p) s = (Done a, s', ts).
Proof.
  intros Hp. unfold expect. rewrite run_bind, run_attempt, Hp. simpl. by rewrite app_nil_r.
Qed.

Definition map_err_outcome {E E' A : Type} (g : E → E') (o : outcome E A) : outcome E' A :=
  match o with
  | Done a => Done a
  | Failed e => Failed (g e)
  | Panicked m => Panicked m
  | Blocked => Blocked
  end.

Lemma run_map_err {S E E' A} (g : E → E') (p : prog S E A) s :
  run (map_err g p) s = let '(o, s', ts) := run p s in (map_err_outcome g o, s', ts).
Proof.
  revert s; induction p as [E A a|E A e|E A m|E A C f q IH|E A t IHt q IH]; intros s; simpl; try done.
  - by destruct (f s) as [[b s']|].
  - rewrite IH. by destruct (run q s) as [[??]?].
Qed.

(** The outcome of a scope with a [Drop] value: it runs unless [p] blocks. *)
Lemma run_finally {S E A : Type} (p : prog S E A) (d u : prog S E unit) s :
  run (finally p d u) s =
  let '(o, s1, ts1) := run p s in
  match o with
  | Done a => and_then (Done a, s1, ts1) (λ a s, and_then (run d s) (λ _ s, (Done a, s, [])))
  | Failed e => and_then (Done tt, s1, ts1) (λ _ s, and_then (run d s) (λ _ s, (Failed e, s, [])))
  | Panicked m => and_then (Done tt, s1, ts1) (λ _ s, and_then (run u s) (λ _ s, (Panicked m, s, [])))
  | Blocked => (Blocked, s1, ts1)
  end.
Proof.
  revert s; induction p as [E A a|E A e|E A m|E A C f q IH|E A t IHt q IH]; intros s; simpl;
    rewrite ?run_bind; simpl.
  1-2: by destruct (run d s) as [[[?|?|?|] ?] ?]; simpl; rewrite ?app_nil_r.
  - by destruct (run u s) as [[[?|?|?|] ?] ?]; simpl; rewrite ?app_nil_r.
  - by destruct (f s) as [[b s']|].
  - rewrite IH. destruct (run q s) as [[[?|?|?|] s0] ?]; simpl; try done;
      first [by destruct (run d s0) as [[[?|?|?|] ?] ?]
            |by destruct (run u s0) as [[[?|?|?|] ?] ?]].
Qed.

(** Scopes with the same [Drop] whose bodies run the same run the same. *)
Lemma run_finally_cong {S E A : Type} (p q : prog S E A) (d u : prog S E unit) s s' :
  run p s = run q s' → run (finally p d u) s = run (finally q d u) s'.
Proof. intros Hpq. by rewrite !run_finally, Hpq. Qed.

(** A first part that returns and spawns nothing. *)
Lemma run_bind_done {S E A B : Type} (p : prog S E A) (k : A → prog S E B) s a s' :
  run p s = (Done a, s', []) → run (bind p k) s = run (k a) s'.
Proof. intros Hp. rewrite run_bind, Hp. simpl. by destruct (run (k a) s') as [[??]?]. Qed.

(** A sequence that returns: both parts do. *)
Lemma run_bind_inv {S E A B : Type} (p : prog S E A) (k : A → prog S E B) s b s' ts :
  run (bind p k) s = (Done b, s', ts) →
  ∃ a s1 ts1 ts2, run p s = (Done a, s1, ts1) ∧ run (k a) s1 = (Done b, s', ts2) ∧ ts = ts1 ++ ts2.
Proof.
  rewrite run_bind. destruct (run p s) as [[[a|e|m|] s1] ts1] eqn:Hp; simpl; try done.
  destruct (run (k a) s1) as [[o s2] ts2] eqn:Hk. intros [= -> -> <-]. by eexists _, _, _, _.
Qed.

Lemma run_map_err_inv {S E E' A : Type} (g : E → E') (p : prog S E A) s a s' ts :
  run (map_err g p) s = (Done a, s', ts) → run p s = (Done a, s', ts).
Proof. rewrite run_map_err. destruct (run p s) as [[[?|?|?|] ?] ?]; simpl; congruence. Qed.

Lemma run_unless_ok {S E A : Type} (p : prog S E A) (d : prog S E unit) s :
  run (unless_ok p d) s =
  let '(o, s1, ts1) := run p s in
  match o with
  | Failed e => and_then (Done tt, s1, ts1) (λ _ s, and_then (run d s) (λ _ s, (Failed e, s, [])))
  | Panicked m => and_then (Done tt, s1, ts1) (λ _ s, and_then (run d s) (λ _ s, (Panicked m, s, [])))
  | o => (o, s1, ts1)
  end.
Proof.
  revert s; induction p as [E A a|E A e|E A m|E A C f q IH|E A t IHt q IH]; intros s; simpl;
    rewrite ?run_bind; simpl; try done.
  1-2: by destruct (run d s) as [[[?|?|?|] ?] ?]; simpl; rewrite ?app_nil_r.
  - by destruct (f s) as [[b s']|].
  - rewrite IH. destruct (run q s) as [[[?|?|?|] s0] ?]; simpl; try done;
      by destruct (run d s0) as [[[?|?|?|] ?] ?].
Qed.

Lemma run_unless_ok_inv {S E A : Type} (p : prog S E A) d s a s' ts :
  run (unless_ok p d) s = (Done a, s', ts) → run p s = (Done a, s', ts).
Proof.
  rewrite run_unless_ok. destruct (run p s) as [[[?|?|?|] s1] ?]; simpl; try done.
  all: by destruct (run d s1) as [[[?|?|?|] ?] ?].
Qed.

(** A lens law: what [put] stores is what [get] reads, and storing twice keeps
    the last value.  [zoom] then runs the component on its part of the state. *)
Class Lens {S W : Type} (get : S → W) (put : W → S → S) : Prop := {
  lens_get_put w s : get (put w s) = w;
  lens_put_put w w' s : put w' (put w s) = put w' s;
  lens_put_get s : put (get s) s = s;
}.

Lemma run_zoom {S W E A} (get : S → W) (put : W → S → S) `{!Lens get put}
    (p : prog W E A) (s : S) :
  run (zoom get put p) s =
  let '(o, w, ts) := run p (get s) in (o, put w s, zoom get put <$> ts).
Proof.
  assert (∀ w, run (zoom get put p) (put w s) =
    let '(o, w, ts) := run p w in (o, put w s, zoom get put <$> ts)) as Hrun.
  { induction p as [E A a|E A e|E A m|E A C f q IH|E A t IHt q IH]; intros w; simpl; try done.
    - rewrite (lens_get_put (get:=get) (put:=put)). destruct (f w) as [[b w']|]; [|done].
      rewrite <-IH. by rewrite (lens_put_put (get:=get) (put:=put)).
    - rewrite IH. by destruct (run q w) as [[??]?]. }
  rewrite <-(lens_put_get (get:=get) (put:=put) s) at 1. apply Hrun.
Qed.

(** [runs_to p s Q]: whatever the outcome of [p] on [s], [Q] holds of it and of
    the state it leaves. *)
Definition runs_to {S E A : Type} (p : prog S E A) (s : S) (Q : outcome E A → S → Prop) : Prop :=
  Q (run p s).1.1 (run p s).1.2.

(** [Q] for the outcomes that end a [bind] early, [K] for a returned value. *)
Definition cont {S E A B : Type} (K : A → S → Prop) (Q : outcome E B → S → Prop)
    (o : outcome E A) (s : S) : Prop :=
  match o with
  | Done a => K a s
  | Failed e => Q (Failed e) s
  | Panicked m => Q (Panicked m) s
  | Blocked => Q Blocked s
  end.

Lemma runs_to_bind {S E A B : Type} (p : prog S E A) (k : A → prog S E B) s Q :
  runs_to p s (cont (λ a s1, runs_to (k a) s1 Q) Q) → runs_to (bind p k) s Q.
Proof.
  unfold runs_to. rewrite run_bind. destruct (run p s) as [[[a|?|?|] s1] ts1]; simpl; try done.
  by destruct (run (k a) s1) as [[??]?].
Qed.

Lemma runs_to_mono {S E A : Type} (p : prog S E A) s (Q Q' : outcome E A → S → Prop) :
  runs_to p s Q → (∀ o s', Q o s' → Q' o s') → runs_to p s Q'.
Proof. unfold runs_to. auto. Qed.

(** * Returned values

    [yields Q p]: every value that [p] can return satisfies [Q], whatever the
    steps it makes read, so also when other threads run in between. *)
Fixpoint yields {S E A : Type} (Q : A → Prop) (p : prog S E A) : Prop :=
  match p with
  | Ret a => Q a
  | Throw _ | Panic _ => True
  | Act f k => ∀ b, yields Q (k b)
  | Fork _ k => yields Q k
  end.

Lemma yields_run {S E A : Type} (Q : A → Prop) (p : prog S E A) s a s' ts :
  yields Q p → run p s = (Done a, s', ts) → Q a.
Proof.
  revert s s' ts. induction p as [E A a'|E A e|E A m|E A C f q IH|E A t IHt q IH];
    intros s s' ts; simpl; try done.
  - by intros HQ [= <- _ _].
  - intros Hq. destruct (f s) as [[b s1]|]; [|done]. by eapply IH.
  - intros Hq. destruct (run q s) as [[o s1] ts1] eqn:Hr. intros [= -> -> <-]. by eapply IH.
Qed.

Lemma yields_mono {S E A : Type} (Q Q' : A → Prop) (p : prog S E A) :
  yields Q p → (∀ a, Q a → Q' a) → yields Q' p.
Proof.
  induction p as [E A a'|E A e|E A m|E A C f q IH|E A t IHt q IH]; simpl; naive_solver.
Qed.

Lemma yields_bind {S E A B : Type} (Q : B → Prop) (p : prog S E A) (k : A → prog S E B) :
  yields (λ a, yields Q (k a)) p → yields Q (bind p k).
Proof.
  induction p as [E A a'|E A e|E A m|E A C f q IH|E A t IHt q IH]; simpl; auto.
Qed.

Lemma yields_any {S E A : Type} (Q : A → Prop) (p : prog S E A) : (∀ a, Q a) → yields Q p.
Proof.
  intros HQ. induction p as [E A a'|E A e|E A m|E A C f q IH|E A t IHt q IH]; simpl; auto.
Qed.

Lemma yields_map_err {S E E' A : Type} (g : E → E') (Q : A → Prop) (p : prog S E A) :
  yields Q p → yields Q (map_err g p).
Proof.
  induction p as [E A a'|E A e|E A m|E A C f q IH|E A t IHt q IH]; simpl; auto.
Qed.

Lemma yields_unless_ok {S E A : Type} (Q : A → Prop) (p : prog S E A) d :
  yields Q p → yields Q (unless_ok p d).
Proof.
  induction p as [E A a'|E A e|E A m|E A C f q IH|E A t IHt q IH]; simpl; auto;
    intros _; apply yields_bind, yields_any; by intros.
Qed.

Lemma yields_lift {S E A : Type} (Q : A → Prop) (r : result E A) :
  (∀ a, r = Ok a → Q a) → yields Q (lift_result (S := S) r).
Proof. destruct r; simpl; auto. Qed.

(** * Reduction of handlers

    [go] computes the parts of a run that are known, and stops at [bind]. *)
Create HintDb shim.
Create Rewrite HintDb runs.
#[export] Hint Rewrite @run_bind @run_attempt @run_map_err @run_finally : runs.

Ltac go := cbn [and_then run attempt_outcome map_err_outcome catch_outcome atomically await gets modify
  lift_result ok_or negb orb andb fst snd].

(** Case analysis on every [match] of the goal, closing what is immediate. *)
Ltac split_cases := repeat (case_match; simplify_eq/=; try done).

(** * Machine integers

    A [w]-bit integer is a [Z]; an [as] cast wraps as Rust's does. *)
Abbreviation u32 := Z.
Abbreviation i32 := Z.
Abbreviation i64 := Z.
Abbreviation u64 := Z.
Abbreviation usize := Z.
Abbreviation byte := Z.

Definition as_unsigned (w z : Z) : Z := (z `mod` 2 ^ w)%Z.
Definition as_signed (w z : Z) : Z :=
  let m := (z `mod` 2 ^ w)%Z in
  if bool_decide (m < 2 ^ (w - 1))%Z then m else (m - 2 ^ w)%Z.

Definition as_u32 : Z → u32 := as_unsigned 32.
Definition as_i32 : Z → i32 := as_signed 32.
Definition as_i64 : Z → i64 := as_signed 64.
Definition as_usize : Z → usize := as_unsigned 64.

Definition in_u32 (z : Z) : Prop := (0 ≤ z < 2 ^ 32)%Z.
Definition in_i32 (z : Z) : Prop := (- 2 ^ 31 ≤ z < 2 ^ 31)%Z.
Definition in_i64 (z : Z) : Prop := (- 2 ^ 63 ≤ z < 2 ^ 63)%Z.

Lemma as_u32_id z : in_u32 z → as_u32 z = z.
Proof. unfold in_u32, as_u32, as_unsigned. intros ?. by rewrite Z.mod_small. Qed.

Lemma as_u32_range z : in_u32 (as_u32 z).
Proof. unfold in_u32, as_u32, as_unsigned. apply Z.mod_pos_bound. lia. Qed.

Lemma as_signed_id (w z : Z) :
  (0 < w)%Z → (- 2 ^ (w - 1) ≤ z < 2 ^ (w - 1))%Z → as_signed w z = z.
Proof.
  intros Hw Hz. unfold as_signed.
  assert (2 ^ w = 2 * 2 ^ (w - 1))%Z as Hpow.
  { rewrite <-Z.pow_succ_r by lia. f_equal; lia. }
  destruct (decide (0 ≤ z)%Z).
  - rewrite Z.mod_small by lia. by rewrite bool_decide_eq_true_2 by lia.
  - rewrite <-(Z_mod_plus_full z 1 (2 ^ w)), Z.mod_small by lia.
    rewrite bool_decide_eq_false_2 by lia. lia.
Qed.

Lemma as_i32_id z : in_i32 z → as_i32 z = z.
Proof. intros Hz. unfold as_i32. apply as_signed_id; [lia|]. unfold in_i32 in Hz. lia. Qed.

(** * Strings

    A Rust [str] is its sequence of bytes; the separators the code splits on
    are ASCII, so splitting bytes and splitting characters agree. *)
Local Open Scope string_scope.

(** A double quote, and [{:?}] of a text without characters that need an escape. *)
Definition quote : string := String (ascii_of_nat 34) EmptyString.
Definition quoted (s : string) : string := quote +:+ s +:+ quote.

(** [str::split_once(c)]. *)
Fixpoint split_once (c : ascii) (s : string) : option (string * string) :=
  match s with
  | EmptyString => None
  | String a s' =>
      if bool_decide (a = c) then Some ("", s')
      else match split_once c s' with
           | Some (l, r) => Some (String a l, r)
           | None => None
           end
  end.

(** [str::split(c)]: always at least one piece. *)
Fixpoint split (c : ascii) (s : string) : list string :=
  match s with
  | EmptyString => [""]
  | String a s' =>
      if bool_decide (a = c) then "" :: split c s'
      else match split c s' with
           | x :: l => String a x :: l
           | [] => [String a ""]
           end
  end.

(** [[str]::join(sep)]. *)
Fixpoint join (sep : string) (l : list string) : string :=
  match l with
  | [] => ""
  | [x] => x
  | x :: l' => x +:+ sep +:+ join sep l'
  end.

(** [str::starts_with]. *)
Definition starts_with (p s : string) : bool := String.prefix p s.

Fixpoint has_char (c : ascii) (s : string) : bool :=
  match s with
  | EmptyString => false
  | String a s' => bool_decide (a = c) || has_char c s'
  end.

Lemma split_once_Some c s l r :
  split_once c s = Some (l, r) ↔ s = l +:+ String c r ∧ has_char c l = false.
Proof.
  revert l r; induction s as [|a s IH]; intros l r; simpl.
  - split; [done|]. intros [Hs _]. by destruct l.
  - case_bool_decide as Ha.
    + subst a. split.
      * intros [= <- <-]. done.
      * intros [Hs Hl]. destruct l as [|b l]; simpl in *; [by inversion Hs|].
        injection Hs as -> ->. by rewrite bool_decide_eq_true_2 in Hl.
    + destruct (split_once c s) as [[l' r']|] eqn:E.
      * destruct (proj1 (IH l' r') eq_refl) as [-> Hl'].
        split.
        -- intros [= <- <-]. simpl. by rewrite bool_decide_eq_false_2.
        -- intros [Hs Hl]. destruct l as [|b l]; simpl in *; [by inversion Hs|].
           injection Hs as -> Hs. apply orb_false_iff in Hl as [_ Hl].
           pose proof (proj2 (IH l r) (conj Hs Hl)). simplify_eq. done.
      * split; [done|]. intros [Hs Hl]. destruct l as [|b l]; simpl in *; [by inversion Hs|].
        injection Hs as -> Hs. apply orb_false_iff in Hl as [_ Hl].
        by pose proof (proj2 (IH l r) (conj Hs Hl)).
Qed.

Lemma split_once_None c s : split_once c s = None ↔ has_char c s = false.
Proof.
  induction s as [|a s IH]; simpl; [done|].
  case_bool_decide; simpl; [done|]. rewrite <-IH.
  by destruct (split_once c s) as [[??]|].
Qed.

Lemma split_cons c s : ∃ x l, split c s = x :: l.
Proof.
  induction s as [|a s IH]; simpl; [by eauto|].
  case_bool_decide; [by eauto|]. destruct IH as (x & l & ->). eauto.
Qed.

(** [split] in terms of [split_once]. *)
Lemma split_unfold c s :
  split c s = match split_once c s with
              | Some (l, r) => l :: split c r
              | None => [s]
              end.
Proof.
  induction s as [|a s IH]; simpl; [done|].
  case_bool_decide; [done|]. rewrite IH.
  by destruct (split_once c s) as [[l r]|].
Qed.

Lemma join_split c s : join (String c "") (split c s) = s.
Proof.
  induction s as [|a s IH]; simpl; [done|].
  destruct (split_cons c s) as (x & l & Hl).
  case_bool_decide; subst; rewrite Hl in *; simpl in *.
  - by rewrite IH.
  - destruct l; simpl in *; by rewrite <-IH.
Qed.

Lemma has_char_app c s t : has_char c (s +:+ t) = has_char c s || has_char c t.
Proof. induction s as [|a s IH]; simpl; [done|]. by rewrite IH, orb_assoc. Qed.

Lemma string_app_nil_r (s : string) : s +:+ "" = s.
Proof. induction s as [|a s IH]; [done|]. change (String a (s +:+ "") = String a s). by rewrite IH. Qed.

Lemma string_app_inj_l (s t u : string) : s +:+ t = s +:+ u → t = u.
Proof. induction s as [|a s IH]; simpl; [done|]. intros [= H]. auto. Qed.

Lemma string_length_app (s t : string) :
  String.length (s +:+ t) = (String.length s + String.length t)%nat.
Proof.
  induction s as [|a s IH]; [done|].
  change (Datatypes.S (String.length (s +:+ t)) = Datatypes.S (String.length s + String.length t)).
  by rewrite IH.
Qed.

Lemma string_app_assoc (s t u : string) : (s +:+ t) +:+ u = s +:+ t +:+ u.
Proof.
  induction s as [|a s IH]; [done|].
  change (String a ((s +:+ t) +:+ u) = String a (s +:+ t +:+ u)). by rewrite IH.
Qed.

Lemma string_app_inj_r (s t u : string) : s +:+ u = t +:+ u → s = t.
Proof.
  revert t. induction s as [|a s IH]; intros [|b t] Heq; [done|..].
  - apply (f_equal String.length) in Heq. rewrite !string_length_app in Heq. simpl in Heq. lia.
  - apply (f_equal String.length) in Heq. rewrite !string_length_app in Heq. simpl in Heq. lia.
  - injection Heq as -> Heq. f_equal. by apply IH.
Qed.
