(* ===== verification/Errors.v ===== *)
(** Error values of the sandbox (crates/containerd-shim-wasm/src/sandbox/error.rs)
    and their conversion into ttrpc errors, the form in which containerd sees
    them.  Errors of other crates are kept as the text their [Display] prints,
    plus what the code inspects of them (the kind of an I/O error). *)
From S2P Require Import Prelude.
Local Open Scope string_scope.

(** [std::io::ErrorKind], with the kinds the code distinguishes. *)
Inductive ErrorKind :=
| KindNotFound
| KindBrokenPipe
| KindConnectionRefused
| KindConnectionAborted
| KindConnectionReset
| KindOther.

#[export] Instance ErrorKind_eq_dec : EqDecision ErrorKind.
Proof. solve_decision. Defined.

Record IoError := { kind : ErrorKind; io_message : string }.

(** [containerd_shim::Error]: the variants the code names; [ShimOther] is any
    other variant, with the text it displays. *)
Inductive ShimError :=
| ShimInvalidArgument (s : string)
| ShimNotFoundError (s : string)
| ShimUnimplemented (s : string)
| ShimOther (s : string).

(** [enum Error]. *)
Inductive Error :=
| Oci (s : string)
| Stdio (e : IoError)
| Others (s : string)
| Shim (e : ShimError)
| NotFound (s : string)
| AlreadyExists (s : string)
| InvalidArgument (s : string)
| AnyErr (s : string)
| FailedPrecondition (s : string)
| Json (s : string)
| Errno (s : string)
| Libcontainer (s : string)
| Containerd (s : string).

(** [ttrpc::Code] and [ttrpc::Error], as far as the conversion uses them. *)
Inductive Code :=
| CODE_UNKNOWN
| CODE_INVALID_ARGUMENT
| CODE_NOT_FOUND
| CODE_ALREADY_EXISTS
| CODE_FAILED_PRECONDITION.

#[export] Instance Code_eq_dec : EqDecision Code.
Proof. solve_decision. Defined.

Inductive TtrpcError :=
| RpcStatus (code : Code) (message : string)
| TtrpcOthers (message : string).

Section conversion.
(** [impl Display for containerd_shim::Error], which is not in this repository. *)
Variable shim_display : ShimError → string.

(** [Display] of [Error], derived from the [#[error(..)]] attributes. *)
Definition to_string (e : Error) : string :=
  match e with
  | Oci s | Others s | AnyErr s | FailedPrecondition s | Json s
  | Errno s | Libcontainer s | Containerd s => s
  | Stdio e => io_message e
  | Shim e => shim_display e
  | NotFound s => "not found: " +:+ s
  | AlreadyExists s => "already exists: " +:+ s
  | InvalidArgument s => "invalid argument: " +:+ s
  end.

(** [impl From<Error> for ttrpc::Error]. *)
Definition into_ttrpc (e : Error) : TtrpcError :=
  match e with
  | Shim s =>
      match s with
      | ShimInvalidArgument m => RpcStatus CODE_INVALID_ARGUMENT m
      | ShimNotFoundError m => RpcStatus CODE_NOT_FOUND m
      | _ => RpcStatus CODE_UNKNOWN (shim_display s)
      end
  | NotFound s => RpcStatus CODE_NOT_FOUND s
  | AlreadyExists s => RpcStatus CODE_ALREADY_EXISTS s
  | InvalidArgument s => RpcStatus CODE_INVALID_ARGUMENT s
  | FailedPrecondition s => RpcStatus CODE_FAILED_PRECONDITION s
  | Oci _ => RpcStatus CODE_UNKNOWN (to_string e)
  | AnyErr s => RpcStatus CODE_UNKNOWN s
  | _ => TtrpcOthers (to_string e)
  end.

(** The message under which each code other than [UNKNOWN] is reported. *)
Definition carries (c : Code) (m : string) (e : Error) : Prop :=
  match c with
  | CODE_UNKNOWN => False
  | CODE_INVALID_ARGUMENT => e = InvalidArgument m ∨ e = Shim (ShimInvalidArgument m)
  | CODE_NOT_FOUND => e = NotFound m ∨ e = Shim (ShimNotFoundError m)
  | CODE_ALREADY_EXISTS => e = AlreadyExists m
  | CODE_FAILED_PRECONDITION => e = FailedPrecondition m
  end.

Lemma into_ttrpc_classified c m e :
  c ≠ CODE_UNKNOWN → into_ttrpc e = RpcStatus c m ↔ carries c m e.
Proof.
  intros Hc. split.
  - destruct e as [| | |[]| | | | | | | | |]; simpl; intros [=]; subst; simpl; auto.
  - destruct c; simpl; [done|intros [-> | ->]|intros [-> | ->]|intros ->|intros ->]; done.
Qed.

(** Every error is reported: the text is never lost, and the variants that
    have no code of their own arrive as their full [Display] text. *)
Lemma into_ttrpc_unclassified e :
  (∀ c m, c ≠ CODE_UNKNOWN → ¬ carries c m e) ↔
  into_ttrpc e = RpcStatus CODE_UNKNOWN (to_string e) ∨
  into_ttrpc e = TtrpcOthers (to_string e).
Proof.
  split.
  - intros Hno. destruct e as [| | |[]| | | | | | | | |]; simpl; auto; exfalso.
    + by apply (Hno CODE_INVALID_ARGUMENT s); simpl; auto.
    + by apply (Hno CODE_NOT_FOUND s); simpl; auto.
    + by apply (Hno CODE_NOT_FOUND s); simpl; auto.
    + by apply (Hno CODE_ALREADY_EXISTS s); simpl; auto.
    + by apply (Hno CODE_INVALID_ARGUMENT s); simpl; auto.
    + by apply (Hno CODE_FAILED_PRECONDITION s); simpl; auto.
  - intros Hu c m Hc Hcar. apply (into_ttrpc_classified c m e) in Hcar; [|done].
    destruct Hu; congruence.
Qed.
End conversion.
