(* ===== verification/TaskState.v ===== *)
(** The life cycle of a task (sandbox/shim/task_state.rs): the five states and
    the guarded transitions that the task service makes between them. *)
From S2P Require Import Prelude Errors.
Local Open Scope string_scope.

Inductive TaskState :=
| Created
| Starting
| Started
| Exited
| Deleting.

#[export] Instance TaskState_eq_dec : EqDecision TaskState.
Proof. solve_decision. Defined.

(** [#[derive(Debug)]]. *)
Definition debug (s : TaskState) : string :=
  match s with
  | Created => "Created" | Starting => "Starting" | Started => "Started"
  | Exited => "Exited" | Deleting => "Deleting"
  end.

(** [from] and [to] are the texts that [{:?}] prints: the name of a state, and a text
    in quotes for the [&str] that [kill] passes. *)
Definition state_transition_error {A} (from to : string) : result Error A :=
  Err (FailedPrecondition ("invalid state transition: " +:+ from +:+ " => " +:+ to)).

(** [*self = match self { .. }?; Ok(())]: on an error [self] is left as it was. *)
Definition assign (self : TaskState) (next : result Error TaskState) :
    result Error unit * TaskState :=
  match next with
  | Ok s => (Ok tt, s)
  | Err e => (Err e, self)
  end.

Definition start (self : TaskState) : result Error unit * TaskState :=
  assign self match self with
              | Created => Ok Starting
              | _ => state_transition_error (debug self) (debug Starting)
              end.

Definition kill (self : TaskState) : result Error unit * TaskState :=
  assign self match self with
              | Started => Ok Started
              | _ => state_transition_error (debug self) (quoted "Killing")
              end.

Definition delete (self : TaskState) : result Error unit * TaskState :=
  assign self match self with
              | Created | Exited => Ok Deleting
              | _ => state_transition_error (debug self) (debug Deleting)
              end.

Definition started (self : TaskState) : result Error unit * TaskState :=
  assign self match self with
              | Starting => Ok Started
              | _ => state_transition_error (debug self) (debug Started)
              end.

Definition stop (self : TaskState) : result Error unit * TaskState :=
  assign self match self with
              | Started | Starting => Ok Exited
              | Deleting => Ok Exited
              | _ => state_transition_error (debug self) (debug Exited)
              end.

(** ** The life cycle as a relation *)

(** The operations, the transitions they are meant for, and the name under
    which a refused transition is reported. *)
Inductive op := OpStart | OpKill | OpDelete | OpStarted | OpStop.

Definition apply_op (o : op) : TaskState → result Error unit * TaskState :=
  match o with
  | OpStart => start | OpKill => kill | OpDelete => delete
  | OpStarted => started | OpStop => stop
  end.

Definition target (o : op) : string :=
  match o with
  | OpStart => "Starting" | OpKill => quoted "Killing" | OpDelete => "Deleting"
  | OpStarted => "Started" | OpStop => "Exited"
  end.

Inductive transition : op → TaskState → TaskState → Prop :=
| tr_start : transition OpStart Created Starting
| tr_started : transition OpStarted Starting Started
| tr_kill : transition OpKill Started Started
| tr_stop_started : transition OpStop Started Exited
| tr_stop_starting : transition OpStop Starting Exited
| tr_delete_created : transition OpDelete Created Deleting
| tr_delete_exited : transition OpDelete Exited Deleting
| tr_delete_failed : transition OpStop Deleting Exited.
#[export] Hint Constructors transition : shim.

Lemma transition_functional o s s1 s2 :
  transition o s s1 → transition o s s2 → s1 = s2.
Proof. by destruct 1; inversion 1. Qed.

#[export] Instance transition_dec o s : Decision (∃ s', transition o s s').
Proof.
  refine (match o, s with
  | OpStart, Created | OpKill, Started | OpDelete, Created | OpDelete, Exited
  | OpStarted, Starting | OpStop, Started | OpStop, Starting | OpStop, Deleting => left _
  | _, _ => right _
  end); first [by eauto with shim | by intros [? H]; inversion H].
Defined.

(** An operation succeeds exactly on the transitions of the relation, and makes
    that transition; otherwise it leaves the state and reports both states. *)
Lemma apply_op_correct o s :
  match apply_op o s with
  | (Ok _, s') => transition o s s'
  | (Err e, s') =>
      s' = s ∧ (¬ ∃ s'', transition o s s'') ∧
      e = FailedPrecondition
            ("invalid state transition: " +:+ debug s +:+ " => " +:+ target o)
  end.
Proof.
  destruct o, s; simpl; auto with shim;
    (split; [done|]; split; [|done]; intros [? Ht]; inversion Ht).
Qed.

(** How far a task has come: no operation returns to an earlier phase. *)
Definition phase (s : TaskState) : nat :=
  match s with
  | Created => 0 | Starting => 1 | Started => 2 | Exited | Deleting => 3
  end.

Lemma transition_phase o s s' : transition o s s' → (phase s ≤ phase s')%nat.
Proof. destruct 1; simpl; lia. Qed.

(** The transitions that the callers make while they hold the lock of the
    state, and whose result they discard ("always [Ok(())]"). *)
Lemma start_then_ok s s' :
  start s = (Ok tt, s') →
  started s' = (Ok tt, Started) ∧ stop s' = (Ok tt, Exited).
Proof. by destruct s; intros [= <-]. Qed.

Lemma delete_then_ok s s' : delete s = (Ok tt, s') → stop s' = (Ok tt, Exited).
Proof. by destruct s; intros [= <-]. Qed.
