(* ===== verification/Sync.v ===== *)
(** [WaitableCell] (sandbox/sync.rs): a cell that is set at most once and that
    threads wait on, built from a mutex, a condition variable and a [OnceCell].

    Every call is modelled down to the operations on the mutex and the condition
    variable, and calls of different threads interleave between them.  [exec]
    makes one such operation of one thread; the condition variable may also
    wake a thread for no reason, as [std::sync::Condvar] documents.  The file
    ends with the refinement of this machine into an atomic cell, which is what
    the other components use. *)
From S2P Require Import Prelude.

Section WaitableCell.
Context {T : Type}.

(** [Option<Duration>] of [wait_timeout], split as the code's [match] splits it. *)
Inductive timeout := NoTimeout | ZeroTimeout | Timeout.

(** Where a thread is inside [set] or [wait_timeout]; between two operations. *)
Inductive pc :=
(* set *)
| SetLock (v : T)                        (* self.inner.mutex.lock() *)
| SetCell (v : T)                        (* self.inner.cell.set(val) *)
| SetNotify (v : T) (r : result T unit)  (* self.inner.cvar.notify_all() *)
| SetUnlock (v : T) (r : result T unit)  (* _guard is dropped *)
| SetDone (v : T) (r : result T unit)
(* wait_timeout *)
| WaitLock (t : timeout)                 (* self.inner.mutex.lock() *)
| WaitCheck (t : timeout)                (* the condition of wait_while *)
| WaitSleep (t : timeout)                (* parked, the mutex is released *)
| WaitRelock (t : timeout)               (* woken, locks the mutex again *)
| WaitGet (t : timeout)                  (* self.inner.cell.get() *)
| WaitUnlock (t : timeout) (o : option T) (* _guard is dropped *)
| WaitDone (t : timeout) (o : option T).

(** [WaitableCellImpl]: who holds the mutex, the cell, and the threads, of
    which those at [WaitSleep] are queued on [cvar]. *)
Record WaitableCell := mkCell {
  mutex : option nat;
  cell : option T;
  threads : gmap nat pc;
}.

(** What the environment decides of a step: [true] is a spurious wakeup of a
    sleeping thread, or the expiry of the timeout of a waiting one. *)
Abbreviation choice := bool.

Definition lock (σ : WaitableCell) (i : nat) (next : pc) : option WaitableCell :=
  match mutex σ with
  | None => Some (mkCell (Some i) (cell σ) (<[i:=next]> (threads σ)))
  | Some _ => None
  end.

Definition unlock (σ : WaitableCell) (i : nat) (next : pc) : option WaitableCell :=
  Some (mkCell None (cell σ) (<[i:=next]> (threads σ))).

Definition goto (σ : WaitableCell) (i : nat) (next : pc) : option WaitableCell :=
  Some (mkCell (mutex σ) (cell σ) (<[i:=next]> (threads σ))).

(** [Condvar::notify_all] on one thread. *)
Definition wake (p : pc) : pc :=
  match p with WaitSleep t => WaitRelock t | _ => p end.

Definition exec (i : nat) (ch : choice) (σ : WaitableCell) : option WaitableCell :=
  match threads σ !! i with
  | None => None
  | Some p =>
    match p with
    | SetLock v => lock σ i (SetCell v)
    | SetCell v =>
        match cell σ with
        | None => Some (mkCell (mutex σ) (Some v) (<[i:=SetNotify v (Ok tt)]> (threads σ)))
        | Some _ => goto σ i (SetNotify v (Err v))
        end
    | SetNotify v r =>
        Some (mkCell (mutex σ) (cell σ) (<[i:=SetUnlock v r]> (wake <$> threads σ)))
    | SetUnlock v r => unlock σ i (SetDone v r)
    | SetDone _ _ => None
    | WaitLock ZeroTimeout => lock σ i (WaitGet ZeroTimeout)
    | WaitLock t => lock σ i (WaitCheck t)
    | WaitCheck t =>
        match cell σ, t, ch with
        | Some _, _, _ => goto σ i (WaitGet t)
        | None, Timeout, true => goto σ i (WaitGet t)
        | None, _, _ => unlock σ i (WaitSleep t)
        end
    | WaitSleep t => if ch then goto σ i (WaitRelock t) else None
    | WaitRelock t => lock σ i (WaitCheck t)
    | WaitGet t => goto σ i (WaitUnlock t (cell σ))
    | WaitUnlock t o => unlock σ i (WaitDone t o)
    | WaitDone _ _ => None
    end
  end.

(** [WaitableCell::new] / [default], with no call in progress. *)
Definition new : WaitableCell := mkCell None None ∅.

(** A step of the system: a thread calls a method, or a call makes progress. *)
Inductive step : WaitableCell → WaitableCell → Prop :=
| step_call_set σ i v :
    threads σ !! i = None →
    step σ (mkCell (mutex σ) (cell σ) (<[i:=SetLock v]> (threads σ)))
| step_call_wait σ i t :
    threads σ !! i = None →
    step σ (mkCell (mutex σ) (cell σ) (<[i:=WaitLock t]> (threads σ)))
| step_exec σ σ' i ch : exec i ch σ = Some σ' → step σ σ'.

Definition reachable : WaitableCell → Prop := rtc step new.

(** ** Invariant *)

Definition holds_lock (p : pc) : bool :=
  match p with
  | SetCell _ | SetNotify _ _ | SetUnlock _ _
  | WaitCheck _ | WaitGet _ | WaitUnlock _ _ => true
  | _ => false
  end.

(** What is known at each point of a call, given the content of the cell. *)
Definition pc_ok (c : option T) (p : pc) : Prop :=
  match p with
  | SetNotify v (Ok _) | SetUnlock v (Ok _) | SetDone v (Ok _) => c = Some v
  | SetNotify v (Err v') | SetUnlock v (Err v') | SetDone v (Err v') =>
      v' = v ∧ is_Some c
  | WaitGet NoTimeout => is_Some c
  | WaitUnlock NoTimeout o | WaitDone NoTimeout o => is_Some o ∧ o = c
  | WaitUnlock _ (Some v) | WaitDone _ (Some v) => c = Some v
  | WaitSleep t | WaitRelock t | WaitCheck t => t ≠ ZeroTimeout
  | _ => True
  end.

Definition won (p : pc) : bool :=
  match p with
  | SetNotify _ (Ok _) | SetUnlock _ (Ok _) | SetDone _ (Ok _) => true
  | _ => false
  end.

Definition notifying (p : pc) : bool :=
  match p with SetNotify _ _ => true | _ => false end.

Record wf (σ : WaitableCell) : Prop := {
  (** mutual exclusion: the holder is exactly the thread inside the guard *)
  wf_mutex i p : threads σ !! i = Some p → holds_lock p = true ↔ mutex σ = Some i;
  (** the mutex is never held by a thread that is gone *)
  wf_holder i : mutex σ = Some i → is_Some (threads σ !! i);
  wf_pc i p : threads σ !! i = Some p → pc_ok (cell σ) p;
  (** only one call of [set] succeeds *)
  wf_won i j p q : threads σ !! i = Some p → threads σ !! j = Some q →
    won p = true → won q = true → i = j;
  wf_unset i p : cell σ = None → threads σ !! i = Some p → won p = false;
  (** no lost wakeup: nobody sleeps on a cell that is set, unless the thread
      that holds the mutex is about to notify *)
  wf_sleep i t : threads σ !! i = Some (WaitSleep t) → is_Some (cell σ) →
    ∃ j q, threads σ !! j = Some q ∧ notifying q = true;
}.

Ltac lookups := repeat match goal with
  | H : <[_:=_]> _ !! _ = Some _ |- _ =>
      apply lookup_insert_Some in H; destruct H as [[? ?]|[? H]]; subst
  end.

Lemma wf_new : wf new.
Proof. by split; simpl; intros; try done; simplify_map_eq. Qed.

(** A call is added at its first operation, [SetLock] or [WaitLock]. *)
Lemma wf_call σ i p :
  wf σ → threads σ !! i = None → holds_lock p = false → won p = false →
  pc_ok (cell σ) p → (∀ t, p ≠ WaitSleep t) →
  wf (mkCell (mutex σ) (cell σ) (<[i:=p]> (threads σ))).
Proof.
  intros [Hm Hh Hp Hw Hu Hs] Hi Hl Hwon Hok Hsl. split; simpl.
  - intros j q ?; lookups; [|eauto]. rewrite Hl. split; [done|].
    intros [? Hj]%Hh. congruence.
  - intros j Hj. apply Hh in Hj as [q Hj]. exists q. by rewrite lookup_insert_ne by congruence.
  - intros j q ?; lookups; eauto.
  - intros j k q r ??; lookups; [congruence..|eauto].
  - intros j q ??; lookups; eauto.
  - intros j t ? Hc; lookups; [by destruct (Hsl t)|].
    destruct (Hs j t) as (k & q & Hk & ?); [done..|].
    exists k, q. by rewrite lookup_insert_ne by congruence.
Qed.

(** How a step of thread [i] from [p] to [p'] may change the mutex. *)
Definition mutex_step (i : nat) (p p' : pc) (m m' : option nat) : Prop :=
  (m' = m ∧ holds_lock p' = holds_lock p) ∨
  (m = None ∧ m' = Some i ∧ holds_lock p' = true) ∨
  (holds_lock p = true ∧ m' = None ∧ holds_lock p' = false).

Lemma wf_mutex_step σ i p p' m' :
  wf σ → threads σ !! i = Some p → mutex_step i p p' (mutex σ) m' →
  (∀ j q, <[i:=p']> (threads σ) !! j = Some q → holds_lock q = true ↔ m' = Some j) ∧
  (∀ j, m' = Some j → is_Some (<[i:=p']> (threads σ) !! j)).
Proof.
  intros [Hm Hh _ _ _ _] Hi Hstep. pose proof (Hm i p Hi) as Hip. split.
  - intros j q Hj. lookups.
    + destruct Hstep as [[-> ->]|[(_ & -> & ->)|(_ & -> & ->)]]; naive_solver.
    + pose proof (Hm j q Hj) as Hjq.
      destruct Hstep as [[-> _]|[(Hn & -> & _)|(Hp & -> & _)]]; [done|..].
      * rewrite Hn in Hjq. split; [by intros ?%Hjq|congruence].
      * apply Hip in Hp. rewrite Hp in Hjq. split; [intros ?%Hjq; congruence|done].
  - intros j Hj. destruct (decide (i = j)) as [<-|Hne].
    { rewrite lookup_insert_eq. by eexists. }
    rewrite lookup_insert_ne by done.
    destruct Hstep as [[-> _]|[(_ & -> & _)|(_ & -> & _)]]; [auto|congruence|done].
Qed.

(** A step that leaves the cell and does not notify. *)
Lemma wf_move σ i p p' m' :
  wf σ → threads σ !! i = Some p → mutex_step i p p' (mutex σ) m' →
  pc_ok (cell σ) p' → won p' = won p → notifying p = false →
  (∀ t, p' = WaitSleep t → cell σ = None) →
  wf (mkCell m' (cell σ) (<[i:=p']> (threads σ))).
Proof.
  intros Hwf Hi Hstep Hok Hwon Hnot Hsl.
  destruct (wf_mutex_step σ i p p' m' Hwf Hi Hstep) as [Hm' Hh'].
  destruct Hwf as [Hm Hh Hp Hw Hu Hs]. split; simpl; [done|done|..].
  - intros j q ?; lookups; eauto.
  - intros j k q r ??; lookups; [done|rewrite Hwon; eauto..|eauto].
  - intros j q ??; lookups; [rewrite Hwon|]; eauto.
  - intros j t ? Hc; lookups; [by rewrite (Hsl t) in Hc by done; destruct Hc|].
    destruct (Hs j t) as (k & q & Hk & Hq); [done..|].
    exists k, q. by rewrite lookup_insert_ne by congruence.
Qed.

(** The one step that fills the cell. *)
Lemma wf_set σ i v :
  wf σ → threads σ !! i = Some (SetCell v) → cell σ = None →
  wf (mkCell (mutex σ) (Some v) (<[i:=SetNotify v (Ok tt)]> (threads σ))).
Proof.
  intros Hwf Hi Hc.
  destruct (wf_mutex_step σ i (SetCell v) (SetNotify v (Ok tt)) (mutex σ) Hwf Hi)
    as [Hm' Hh']; [by left|].
  destruct Hwf as [Hm Hh Hp Hw Hu Hs]. split; simpl; [done|done|..].
  - intros j q Hj; lookups; [done|]. specialize (Hp j q Hj). rewrite Hc in Hp.
    destruct q as [| | ? []|? []|? []| | | | |[]|[] []|[] []]; naive_solver.
  - intros j k q r Hj Hk Hq Hr; lookups; [done|..]; exfalso;
      match goal with
      | Hl : threads σ !! _ = Some ?p, Hw : won ?p = true |- _ =>
          rewrite (Hu _ p Hc Hl) in Hw; done
      end.
  - done.
  - intros j t _ _. exists i, (SetNotify v (Ok tt)). by rewrite lookup_insert_eq.
Qed.

Lemma wake_holds p : holds_lock (wake p) = holds_lock p.
Proof. by destruct p. Qed.
Lemma wake_won p : won (wake p) = won p.
Proof. by destruct p. Qed.
Lemma wake_ok c p : pc_ok c p → pc_ok c (wake p).
Proof. by destruct p. Qed.
Lemma wake_not_sleep p t : wake p ≠ WaitSleep t.
Proof. by destruct p. Qed.

(** Waking every sleeper keeps the invariant, whatever the notifier is. *)
Lemma wf_notify σ i v r :
  wf σ → threads σ !! i = Some (SetNotify v r) →
  wf (mkCell (mutex σ) (cell σ) (<[i:=SetUnlock v r]> (wake <$> threads σ))).
Proof.
  intros [Hm Hh Hp Hw Hu Hs] Hi.
  assert (∀ j q, (wake <$> threads σ) !! j = Some q →
    ∃ q', threads σ !! j = Some q' ∧ q = wake q') as Hwake.
  { intros j q. rewrite lookup_fmap. destruct (threads σ !! j) as [q'|]; simpl; [|done].
    intros [= <-]. eauto. }
  split; simpl.
  - intros j q ?; lookups; [exact (Hm _ _ Hi)|].
    destruct (Hwake j q) as (q' & Hq' & ->); [done|]. rewrite wake_holds. eauto.
  - intros j [q Hj]%Hh. destruct (decide (i = j)) as [<-|].
    { rewrite lookup_insert_eq. eauto. }
    rewrite lookup_insert_ne, lookup_fmap, Hj by done. eauto.
  - intros j q ?; lookups; [exact (Hp _ _ Hi)|].
    destruct (Hwake j q) as (q' & Hq' & ->); [done|]. apply wake_ok. eauto.
  - assert (won (SetUnlock v r) = won (SetNotify v r)) as Hsame by by destruct r.
    intros j k q r' ?? Hq Hr'; lookups; [done|..];
      repeat match goal with H : (wake <$> _) !! _ = Some _ |- _ =>
        apply Hwake in H as (? & ? & ->) end;
      rewrite ?wake_won, ?Hsame in *; eauto.
  - intros j q ??; lookups; [exact (Hu _ _ ltac:(done) Hi)|].
    destruct (Hwake j q) as (q' & Hq' & ->); [done|]. rewrite wake_won. eauto.
  - intros j t ? _; lookups; [done|]. destruct (Hwake j (WaitSleep t)) as (q' & _ & Hq'); [done|].
    by destruct (wake_not_sleep q' t).
Qed.

(** Applies [wf_move] to a step that takes, keeps or releases the mutex. *)
Ltac moves Hwf Hi :=
  eapply (wf_move _ _ _ _ _ Hwf Hi);
  [first [by left | by right; left | by right; right]|..]; try done.

Lemma wf_exec σ σ' i ch : wf σ → exec i ch σ = Some σ' → wf σ'.
Proof.
  unfold exec, lock, unlock, goto. intros Hwf.
  destruct (threads σ !! i) as [p|] eqn:Hi; [|done].
  pose proof (wf_pc σ Hwf i p Hi) as Hok.
  destruct p as [v|v|v r|v r| |t|t|t|t|t|t o|]; simpl in Hok; try done.
  - destruct (mutex σ) eqn:Hm; [done|]. intros [= <-]. by moves Hwf Hi.
  - destruct (cell σ) eqn:Hc; intros [= <-]; [rewrite <-Hc; by moves Hwf Hi|by apply wf_set].
  - intros [= <-]. by apply wf_notify.
  - intros [= <-]. by moves Hwf Hi; destruct r.
  - destruct t; destruct (mutex σ) eqn:Hm; try done; intros [= <-]; by moves Hwf Hi.
  - destruct (cell σ) eqn:Hc; [|destruct t, ch; try done]; intros [= <-]; rewrite <-Hc;
      by moves Hwf Hi; simpl; rewrite ?Hc; destruct t.
  - destruct ch; [|done]. intros [= <-]. by moves Hwf Hi.
  - destruct (mutex σ) eqn:Hm; [done|]. intros [= <-]. by moves Hwf Hi.
  - intros [= <-]. by moves Hwf Hi; destruct t, (cell σ).
  - intros [= <-]. by moves Hwf Hi.
Qed.

Lemma wf_step σ σ' : wf σ → step σ σ' → wf σ'.
Proof.
  intros Hwf Hst. destruct Hst as [σ i v Hi|σ i t Hi|σ σ' i ch He].
  - by apply wf_call.
  - by apply wf_call.
  - by eapply wf_exec.
Qed.

Lemma wf_reachable σ : reachable σ → wf σ.
Proof.
  unfold reachable. intros H.
  assert (∀ σ0, rtc step σ0 σ → wf σ0 → wf σ) as Hrtc.
  { induction 1; eauto using wf_step. }
  eauto using wf_new.
Qed.

(** ** Termination once the cell is set *)

(** Operations left of a call when the cell is set. *)
Definition rank (p : pc) : nat :=
  match p with
  | SetLock _ => 4 | SetCell _ => 3 | SetNotify _ _ => 2 | SetUnlock _ _ => 1
  | SetDone _ _ => 0
  | WaitSleep _ => 5 | WaitRelock _ => 4 | WaitLock _ => 4 | WaitCheck _ => 3
  | WaitGet _ => 2 | WaitUnlock _ _ => 1 | WaitDone _ _ => 0
  end.

Definition work (m : gmap nat pc) : nat := map_fold (λ _ p n, rank p + n) 0 m.

Lemma work_insert m i p p' :
  m !! i = Some p → work (<[i:=p']> m) + rank p = work m + rank p'.
Proof.
  intros Hi. unfold work.
  rewrite (map_fold_delete_L _ _ i p' (<[i:=p']> m)) by (try lia; by rewrite lookup_insert_eq).
  rewrite (map_fold_delete_L _ _ i p m) by (try done; lia).
  rewrite delete_insert_eq. lia.
Qed.

Lemma work_wake m : work (wake <$> m) ≤ work m.
Proof.
  unfold work. induction m as [|i p m Hi IH] using map_ind.
  - by rewrite fmap_empty.
  - rewrite fmap_insert, !map_fold_insert_L by (try lia; by rewrite ?lookup_fmap, ?Hi).
    enough (rank (wake p) ≤ rank p) by lia. destruct p; simpl; lia.
Qed.

Definition finished (p : pc) : bool :=
  match p with SetDone _ _ | WaitDone _ _ => true | _ => false end.

(** Every operation of a call uses up work when the cell is set ... *)
Lemma exec_work σ σ' i ch v :
  cell σ = Some v → exec i ch σ = Some σ' →
  cell σ' = Some v ∧ work (threads σ') < work (threads σ).
Proof.
  unfold exec, lock, unlock, goto. intros Hc.
  destruct (threads σ !! i) as [p|] eqn:Hi; [|done].
  assert (∀ p', rank p' < rank p → work (<[i:=p']> (threads σ)) < work (threads σ)) as Hw.
  { intros p' Hr. pose proof (work_insert (threads σ) i p p' Hi). lia. }
  destruct p as [| |v' r| | |[]| | | | | |]; rewrite ?Hc;
    try (destruct (mutex σ); [done|]); try destruct ch;
    intros [= <-]; simpl; (split; [done|]); try (apply Hw; simpl; lia).
  all: pose proof (work_insert (wake <$> threads σ) i (SetNotify v' r) (SetUnlock v' r))
    as Hins; rewrite lookup_fmap, Hi in Hins; specialize (Hins eq_refl);
    pose proof (work_wake (threads σ)); simpl in Hins; lia.
Qed.

(** ... and without any spurious wakeup, a call can always go on. *)
Lemma exec_progress σ i p v :
  wf σ → cell σ = Some v → threads σ !! i = Some p → finished p = false →
  ∃ j σ', exec j false σ = Some σ'.
Proof.
  intros Hwf Hc Hi Hfin.
  destruct (mutex σ) as [j|] eqn:Hm.
  - destruct (wf_holder σ Hwf j Hm) as [q Hj].
    assert (holds_lock q = true) as Hq by by apply (wf_mutex σ Hwf j q Hj).
    exists j. unfold exec, unlock, goto. rewrite Hj, Hc. destruct q; try done; eauto.
  - assert (holds_lock p = false) as Hfree.
    { apply not_true_is_false. rewrite (wf_mutex σ Hwf i p Hi). by rewrite Hm. }
    exists i. unfold exec, lock, goto. rewrite Hi, Hm.
    destruct p as [| | | | |[]| |t| | | |]; try done; eauto.
    destruct (wf_sleep σ Hwf i t Hi) as (j & q & Hj & Hq); [by rewrite Hc|].
    assert (mutex σ = Some j) by (apply (wf_mutex σ Hwf j q Hj); by destruct q).
    congruence.
Qed.

(** ** The atomic cell

    The contract of [WaitableCell]: [set] and the end of a wait each happen at
    one instant.  A wait without timeout returns only when there is a value. *)
Inductive acall :=
| ASet (v : T) (r : option (result T unit))
| AWait (t : timeout) (o : option (option T)).

Record AtomicCell := mkAtomic { acell : option T; acalls : gmap nat acall }.

Definition anew : AtomicCell := mkAtomic None ∅.

Inductive astep : AtomicCell → AtomicCell → Prop :=
| astep_call_set c m i v :
    m !! i = None → astep (mkAtomic c m) (mkAtomic c (<[i:=ASet v None]> m))
| astep_call_wait c m i t :
    m !! i = None → astep (mkAtomic c m) (mkAtomic c (<[i:=AWait t None]> m))
| astep_set m i v :
    m !! i = Some (ASet v None) →
    astep (mkAtomic None m) (mkAtomic (Some v) (<[i:=ASet v (Some (Ok tt))]> m))
| astep_set_again c m i v :
    m !! i = Some (ASet v None) →
    astep (mkAtomic (Some c) m) (mkAtomic (Some c) (<[i:=ASet v (Some (Err v))]> m))
| astep_wait c m i t :
    m !! i = Some (AWait t None) →
    astep (mkAtomic (Some c) m) (mkAtomic (Some c) (<[i:=AWait t (Some (Some c))]> m))
| astep_timeout m i t :
    m !! i = Some (AWait t None) → t ≠ NoTimeout →
    astep (mkAtomic None m) (mkAtomic None (<[i:=AWait t (Some None)]> m)).

(** The instants: [set] at [cell.set], a wait at its last [cell.get]. *)
Definition abs_pc (p : pc) : acall :=
  match p with
  | SetLock v | SetCell v => ASet v None
  | SetNotify v r | SetUnlock v r | SetDone v r => ASet v (Some r)
  | WaitLock t | WaitCheck t | WaitSleep t | WaitRelock t | WaitGet t => AWait t None
  | WaitUnlock t o | WaitDone t o => AWait t (Some o)
  end.

Definition abs (σ : WaitableCell) : AtomicCell :=
  mkAtomic (cell σ) (abs_pc <$> threads σ).

Lemma abs_lookup (m : gmap nat pc) i p :
  m !! i = Some p → (abs_pc <$> m) !! i = Some (abs_pc p).
Proof. intros Hi. by rewrite lookup_fmap, Hi. Qed.

(** A step that stays between two instants is invisible. *)
Lemma abs_stutter (m : gmap nat pc) i p p' :
  m !! i = Some p → abs_pc p' = abs_pc p → abs_pc <$> <[i:=p']> m = abs_pc <$> m.
Proof.
  intros Hi Hp. rewrite fmap_insert, Hp. apply insert_id. by rewrite lookup_fmap, Hi.
Qed.

Lemma abs_wake (m : gmap nat pc) : abs_pc <$> (wake <$> m) = abs_pc <$> m.
Proof.
  rewrite <-map_fmap_compose. apply map_fmap_ext. intros i p _. by destruct p.
Qed.

Lemma exec_refines σ σ' i ch :
  wf σ → exec i ch σ = Some σ' → abs σ' = abs σ ∨ astep (abs σ) (abs σ').
Proof.
  unfold exec, lock, unlock, goto, abs. intros Hwf.
  destruct (threads σ !! i) as [p|] eqn:Hi; [|done].
  pose proof (wf_pc σ Hwf i p Hi) as Hok.
  pose proof (abs_lookup _ i p Hi) as Habs.
  assert (∀ p', abs_pc p' = abs_pc p →
    mkAtomic (cell σ) (abs_pc <$> <[i:=p']> (threads σ)) =
    mkAtomic (cell σ) (abs_pc <$> threads σ)) as Hst.
  { intros p' Hp'. by rewrite (abs_stutter _ i p). }
  destruct p as [v|v|v r|v r| |t|t|t|t|t|t o|]; simpl in Hok, Habs; try done.
  - destruct (mutex σ); [done|]. intros [= <-]. by left; apply Hst.
  - right. destruct (cell σ); simplify_eq/=; rewrite fmap_insert; by constructor.
  - intros [= <-]. left; simpl. f_equal. rewrite fmap_insert, abs_wake, insert_id; done.
  - intros [= <-]. by left; apply Hst.
  - destruct t; destruct (mutex σ); try done; intros [= <-]; by left; apply Hst.
  - destruct (cell σ), t, ch; intros [= <-]; by left; apply Hst.
  - destruct ch; [|done]. intros [= <-]. by left; apply Hst.
  - destruct (mutex σ); [done|]. intros [= <-]. by left; apply Hst.
  - intros [= <-]. right. simpl. rewrite fmap_insert; simpl.
    destruct (cell σ); constructor; try done. intros ->. by destruct Hok.
  - intros [= <-]. by left; apply Hst.
Qed.

Lemma step_refines σ σ' :
  wf σ → step σ σ' → abs σ' = abs σ ∨ astep (abs σ) (abs σ').
Proof.
  intros Hwf Hst. destruct Hst as [σ i v Hi|σ i t Hi|σ σ' i ch He].
  - right. unfold abs; simpl. rewrite fmap_insert. constructor. by rewrite lookup_fmap, Hi.
  - right. unfold abs; simpl. rewrite fmap_insert. constructor. by rewrite lookup_fmap, Hi.
  - by eapply exec_refines.
Qed.

(** ** Properties *)

(** C2: every state of the fine-grained cell is a state of the atomic one, so
    the calls behave as if [set] and each completed wait happened at an instant. *)
Theorem waitable_cell_refines_atomic σ :
  reachable σ → rtc astep anew (abs σ).
Proof.
  unfold reachable. intros Hr.
  assert (∀ σ0 σ1, rtc step σ0 σ1 → wf σ0 → rtc astep (abs σ0) (abs σ1)) as Hsim.
  { induction 1 as [|x y z Hxy _ IH]; intros Hwf; [done|].
    destruct (step_refines x y Hwf Hxy) as [<-|Ha]; eauto using wf_step, rtc_l. }
  replace anew with (abs new) by (unfold abs, anew; simpl; by rewrite fmap_empty).
  eauto using wf_new.
Qed.

(** What a finished call of [set] says about the cell. *)
Lemma set_done σ i v r :
  reachable σ → threads σ !! i = Some (SetDone v r) →
  (r = Ok tt ∧ cell σ = Some v ∧ (∀ σ', rtc step σ σ' → cell σ' = Some v) ∧
   ∀ j v', threads σ !! j = Some (SetDone v' (Ok tt)) → j = i) ∨
  (r = Err v ∧ is_Some (cell σ)).
Proof.
  intros Hr Hi. pose proof (wf_reachable σ Hr) as Hwf.
  pose proof (wf_pc σ Hwf i _ Hi) as Hok. destruct r as [[]|e]; simpl in Hok.
  - left. repeat split; [done| |].
    + intros σ' Hst. clear Hr Hwf Hi. induction Hst as [|x y z Hxy _ IH]; [done|].
      apply IH. destruct Hxy as [| |x y j ch He]; [done|done|].
      by apply (exec_work x y j ch v).
    + intros j v' Hj. by eapply (wf_won σ Hwf j i).
  - right. by destruct Hok as [-> ?].
Qed.

(** C22: only one call of [set] ever returns [Ok], the cell holds its value from
    then on, and every other call gets its own value back; a wait without
    timeout that has returned has a value, the value in the cell, so the
    [unwrap] in [WaitableCell::wait] does not panic. *)
Theorem calls_return_the_value σ :
  reachable σ →
  (∀ i v r, threads σ !! i = Some (SetDone v r) →
    (r = Ok tt ∧ cell σ = Some v ∧ (∀ σ', rtc step σ σ' → cell σ' = Some v) ∧
     ∀ j v', threads σ !! j = Some (SetDone v' (Ok tt)) → j = i) ∨
    (r = Err v ∧ is_Some (cell σ))) ∧
  (∀ i o, threads σ !! i = Some (WaitDone NoTimeout o) → ∃ v, o = Some v ∧ cell σ = Some v).
Proof.
  intros Hr. split; [by intros i v r; apply set_done|]. intros i o Hi.
  pose proof (wf_pc σ (wf_reachable σ Hr) i _ Hi) as [[v ->] Hc]. eauto.
Qed.

(** C4: no wakeup is lost and no wait hangs.  Once the cell is set, the
    operations of the calls in progress run out after [work] of them, whatever
    the scheduler does, and they do not stop before every call has returned. *)
Theorem calls_terminate_once_set σ v :
  reachable σ → cell σ = Some v →
  (∀ σ' i ch, exec i ch σ = Some σ' →
     reachable σ' ∧ cell σ' = Some v ∧ work (threads σ') < work (threads σ)) ∧
  ((∀ i, exec i false σ = None) →
     ∀ i p, threads σ !! i = Some p →
       (∃ w r, p = SetDone w r) ∨ (∃ t o, p = WaitDone t o)).
Proof.
  intros Hr Hc. pose proof (wf_reachable σ Hr) as Hwf. split.
  - intros σ' i ch He. split.
    + eapply rtc_r; [exact Hr|]. by eapply step_exec.
    + by eapply exec_work.
  - intros Hstuck i p Hi. destruct (finished p) eqn:Hfin; [destruct p; try done; eauto|].
    destruct (exec_progress σ i p v Hwf Hc Hi Hfin) as (j & σ' & He).
    by rewrite Hstuck in He.
Qed.

(** ** The cell as other components use it

    By the refinement above a call is one atomic step on the content of the
    cell: [set_value] for [set], [wait_value] for [wait_timeout]. *)
Definition set_value (v : T) (c : option T) : result T unit * option T :=
  match c with
  | None => (Ok tt, Some v)
  | Some _ => (Err v, c)
  end.

Definition wait_value {E} (t : timeout) : prog (option T) E (option T) :=
  match t with
  | NoTimeout => await (λ c, match c with Some v => Some (Some v, c) | None => None end)
  | ZeroTimeout | Timeout => gets id
  end.

Lemma set_value_astep c m i v :
  m !! i = Some (ASet v None) →
  let '(r, c') := set_value v c in
  astep (mkAtomic c m) (mkAtomic c' (<[i:=ASet v (Some r)]> m)).
Proof. by destruct c; constructor. Qed.

Lemma wait_value_astep c c' m i t o ts :
  m !! i = Some (AWait t None) →
  run (E := Empty_set) (wait_value t) c = (Done o, c', ts) →
  astep (mkAtomic c m) (mkAtomic c' (<[i:=AWait t (Some o)]> m)).
Proof. destruct t, c; simpl; intros ? [= <- <- _]; by constructor. Qed.

(** [WaitableCellSetGuard]: dropping the guard calls [set] with the value of
    its closure and discards the result. *)
Definition guard_drop (f : unit → T) (c : option T) : option T := (set_value (f tt) c).2.

Lemma guard_drop_set f c : is_Some (guard_drop f c).
Proof. by destruct c; eexists. Qed.

Lemma guard_drop_keeps f v : guard_drop f (Some v) = Some v.
Proof. done. Qed.
End WaitableCell.

Arguments WaitableCell : clear implicits.
Arguments pc : clear implicits.
Arguments AtomicCell : clear implicits.

(** ** Witnesses: a waiter goes to sleep, a setter wakes it, a late setter fails *)

Definition schedule {T} (l : list (nat * bool)) (σ : WaitableCell T) : option (WaitableCell T) :=
  foldl (λ o '(i, ch), o ≫= exec i ch) (Some σ) l.

Lemma schedule_rtc {T} l (σ σ' : WaitableCell T) :
  schedule l σ = Some σ' → rtc step σ σ'.
Proof.
  unfold schedule. revert σ. induction l as [|[i ch] l IH]; simpl; intros σ Hl.
  - by injection Hl as ->.
  - destruct (exec i ch σ) as [σ1|] eqn:He.
    + eapply rtc_l; [by eapply step_exec|]. by apply IH.
    + exfalso. clear -Hl. induction l as [|[??] l IH]; simpl in *; [done|auto].
Qed.

Definition three_calls : WaitableCell nat :=
  mkCell None None {[0 := WaitLock NoTimeout; 1 := SetLock 42; 2 := SetLock 24]}.

Lemma three_calls_reachable : reachable three_calls.
Proof.
  unfold reachable, three_calls.
  eapply rtc_l; [exact (step_call_set new 2 24 eq_refl)|].
  eapply rtc_l; [exact (step_call_set (mkCell None None {[2 := SetLock 24]}) 1 42 eq_refl)|].
  apply rtc_once.
  exact (step_call_wait (mkCell None None {[1 := SetLock 42; 2 := SetLock 24]}) 0 NoTimeout eq_refl).
Qed.

(** The waiter checks, sleeps; [set(42)] runs and wakes it; [set(24)] fails. *)
Definition sched_all : list (nat * bool) :=
  [(0,false); (0,false); (1,false); (1,false); (1,false); (1,false);
   (2,false); (2,false); (2,false); (2,false);
   (0,false); (0,false); (0,false); (0,false)].

Definition all_done : WaitableCell nat :=
  mkCell None (Some 42) {[0 := WaitDone NoTimeout (Some 42); 1 := SetDone 42 (Ok tt);
                          2 := SetDone 24 (Err 24)]}.

Lemma all_done_reachable : reachable all_done.
Proof.
  unfold reachable. etrans; [apply three_calls_reachable|].
  apply (schedule_rtc sched_all). vm_compute. reflexivity.
Qed.

Lemma waitable_cell_refines_atomic_witness : rtc astep anew (abs all_done).
Proof. apply waitable_cell_refines_atomic. exact all_done_reachable. Defined.

Lemma calls_return_the_value_witness :
  (∀ i v r, threads all_done !! i = Some (SetDone v r) →
    (r = Ok tt ∧ cell all_done = Some v ∧ (∀ σ', rtc step all_done σ' → cell σ' = Some v) ∧
     ∀ j v', threads all_done !! j = Some (SetDone v' (Ok tt)) → j = i) ∨
    (r = Err v ∧ is_Some (cell all_done))) ∧
  (∀ i o, threads all_done !! i = Some (WaitDone NoTimeout o) →
    ∃ v, o = Some v ∧ cell all_done = Some v).
Proof. apply (calls_return_the_value all_done all_done_reachable). Defined.

Lemma all_done_stuck i : exec i false all_done = None.
Proof.
  unfold exec, all_done; simpl.
  destruct (decide (i = 0)) as [->|]; [by simplify_map_eq|].
  destruct (decide (i = 1)) as [->|]; [by simplify_map_eq|].
  destruct (decide (i = 2)) as [->|]; by simplify_map_eq.
Qed.

Lemma calls_terminate_once_set_witness :
  reachable all_done ∧
  ∀ i p, threads all_done !! i = Some p →
    (∃ w r, p = SetDone w r) ∨ (∃ t o, p = WaitDone t o).
Proof.
  split; [exact all_done_reachable|].
  apply (calls_terminate_once_set all_done 42 all_done_reachable eq_refl).
  exact all_done_stuck.
Defined.
