(* ===== verification/Instance.v ===== *)
(** The [Instance] trait and its configuration (sandbox/instance.rs), and the
    time values that travel with exit codes (sandbox/shim/events.rs).

    [Instance] is the interface between the task service, which is generic over
    it, and the runtimes that implement it; [InstanceLaws] is what the service
    relies on of an implementation. *)
From S2P Require Import Prelude Errors Sync.
Local Open Scope string_scope.

(** A path, as the bytes of its [OsStr]. *)
Abbreviation path := string.

(** ** InstanceConfig *)

Record InstanceConfig := mkConfig {
  stdin : path;
  stdout : path;
  stderr : path;
  bundle : path;
  namespace : string;
  containerd_address : string;
}.

Definition config_new (namespace containerd_address : string) : InstanceConfig :=
  {| namespace := namespace; containerd_address := containerd_address;
     stdin := ""; stdout := ""; stderr := ""; bundle := "" |}.

Definition set_stdin (p : path) (c : InstanceConfig) : InstanceConfig :=
  mkConfig p (stdout c) (stderr c) (bundle c) (namespace c) (containerd_address c).
Definition set_stdout (p : path) (c : InstanceConfig) : InstanceConfig :=
  mkConfig (stdin c) p (stderr c) (bundle c) (namespace c) (containerd_address c).
Definition set_stderr (p : path) (c : InstanceConfig) : InstanceConfig :=
  mkConfig (stdin c) (stdout c) p (bundle c) (namespace c) (containerd_address c).
Definition set_bundle (p : path) (c : InstanceConfig) : InstanceConfig :=
  mkConfig (stdin c) (stdout c) (stderr c) p (namespace c) (containerd_address c).

(** ** Time *)

(** [chrono::DateTime<Utc>]: seconds since the epoch and nanoseconds of the
    second ([timestamp_subsec_nanos] is below 2,000,000,000: a leap second
    counts on). *)
Record DateTime := mkTime { timestamp : i64; timestamp_subsec_nanos : u32 }.

Definition valid_time (t : DateTime) : Prop :=
  (0 ≤ timestamp_subsec_nanos t < 2000000000)%Z.

(** [protobuf::well_known_types::timestamp::Timestamp]. *)
Record Timestamp := mkTimestamp { seconds : i64; nanos : i32 }.

Definition to_timestamp (t : DateTime) : Timestamp :=
  {| seconds := timestamp t; nanos := as_i32 (timestamp_subsec_nanos t) |}.

(** The cast to [i32] never changes the nanoseconds of a time. *)
Lemma to_timestamp_lossless t :
  valid_time t → to_timestamp t = mkTimestamp (timestamp t) (timestamp_subsec_nanos t).
Proof.
  unfold valid_time, to_timestamp. intros Ht. rewrite as_i32_id; [done|].
  unfold in_i32. lia.
Qed.

(** An exit: the code and the time, [(u32, DateTime<Utc>)]. *)
Abbreviation exit := (u32 * DateTime)%type.

(** [std::time::Duration], in nanoseconds. *)
Abbreviation Duration := N.

(** ** The trait *)

(** The operations of a type that implements [Instance], as handlers over the
    state [W] of the host: the processes, files and containers behind it. *)
Class Instance (W : Type) := {
  T : Type;
  new : string → InstanceConfig → prog W Error T;
  start : T → prog W Error u32;
  kill : T → u32 → prog W Error unit;
  delete : T → prog W Error unit;
  wait_timeout : T → option Duration → prog W Empty_set (option exit);
}.
Arguments T {W} _.

(** The provided method [Instance::wait]. *)
Definition wait `{I : Instance W} {E} (i : T I) : prog W E exit :=
  bind (infallible (wait_timeout i None)) (λ r,
    match r with
    | Some x => Ret x
    | None => Panic "called `Option::unwrap()` on a `None` value"
    end).

(** What the trait documents of [wait_timeout]: it is determined by whether the
    instance has finished; a zero timeout returns at once, no timeout returns
    only when the instance has finished. *)
Class InstanceLaws {W : Type} (I : Instance W) := {
  exit_status : T I → W → option exit;
  wait_zero i w :
    run (wait_timeout i (Some 0%N)) w = (Done (exit_status i w), w, []);
  wait_none i w :
    run (wait_timeout i None) w =
    match exit_status i w with
    | Some x => (Done (Some x), w, [])
    | None => (Blocked, w, [])
    end;
}.

Section waits.
Context `{L : InstanceLaws W}.

(** Under the laws the [unwrap] of [wait] never panics: the call returns the
    exit, or is still waiting for it. *)
Lemma run_wait {E} i w :
  run (wait (E := E) i) w =
  match exit_status i w with
  | Some x => (Done x, w, [])
  | None => (Blocked, w, [])
  end.
Proof.
  unfold wait, infallible. rewrite run_bind, run_map_err, wait_none.
  by destruct (exit_status i w).
Qed.

Lemma run_wait_zero {E} i w :
  run (infallible (E := E) (wait_timeout i (Some 0%N))) w =
  (Done (exit_status i w), w, []).
Proof. unfold infallible. by rewrite run_map_err, wait_zero. Qed.
End waits.
#[export] Hint Rewrite @run_wait @run_wait_zero : runs.
