(* ===== verification/Cells.v ===== *)
(** The memory of a runtime: the exit cells of its instances.

    Both implementations of [Instance] in the crate keep the exit of an instance
    in a [WaitableCell].  [ShimState P] is the state of a shim process on a host in
    state [P]: the cells, by number, next to the host.  A call of a cell is one
    step on it, which the refinement of the file Sync justifies. *)
From S2P Require Import Prelude Errors Sync Instance.

Record ShimState (P : Type) := mkShim { host : P; cells : list (option exit) }.
Arguments mkShim {P}. Arguments host {P}. Arguments cells {P}.

Section cells.
Context {P : Type}.
Implicit Types (w : ShimState P).

Definition set_host (p : P) w : ShimState P := mkShim p (cells w).
Definition cell_of (c : nat) w : option exit := mjoin (cells w !! c).
Definition put_cell (c : nat) (x : option exit) w : ShimState P := mkShim (host w) (<[c:=x]> (cells w)).

#[export] Instance host_lens : Lens host set_host.
Proof. split; intros; unfold set_host; simpl; by try destruct s. Qed.

Definition on_shim {E A : Type} (p : prog P E A) : prog (ShimState P) E A := zoom host set_host p.

(** [WaitableCell::new] *)
Definition new_cell {E : Type} : prog (ShimState P) E nat :=
  atomically (λ w, (length (cells w), mkShim (host w) (cells w ++ [None]))).

(** [WaitableCell::set] *)
Definition cell_set {E : Type} (c : nat) (x : exit) : prog (ShimState P) E (result exit unit) :=
  atomically (λ w, let '(r, x') := set_value x (cell_of c w) in (r, put_cell c x' w)).

(** How [wait_timeout] splits its argument. *)
Definition timeout_of (t : option Duration) : timeout :=
  match t with
  | None => NoTimeout
  | Some d => if bool_decide (d = 0%N) then ZeroTimeout else Timeout
  end.

(** [WaitableCell::wait_timeout], then [copied] *)
Definition cell_wait {E : Type} (c : nat) (t : option Duration) :
    prog (ShimState P) E (option exit) :=
  zoom (cell_of c) (put_cell c) (wait_value (timeout_of t)).

Lemma put_cell_id c w : put_cell c (cell_of c w) w = w.
Proof.
  unfold put_cell, cell_of. destruct w as [h l]; simpl. f_equal.
  destruct (l !! c) as [x|] eqn:Hc; simpl; [by apply list_insert_id|].
  apply list_insert_ge. by apply lookup_ge_None.
Qed.

Lemma cell_of_put c x w : (c < length (cells w))%nat → cell_of c (put_cell c x w) = x.
Proof. intros Hc. unfold cell_of; simpl. by rewrite list_lookup_insert_eq. Qed.

Lemma run_cell_wait {E : Type} c t w :
  run (E := E) (cell_wait c t) w =
  match t, cell_of c w with
  | None, None => (Blocked, w, [])
  | _, x => (Done x, w, [])
  end.
Proof.
  unfold cell_wait, timeout_of. destruct t as [d|]; [case_bool_decide|].
  1,2: simpl; by rewrite put_cell_id.
  simpl. destruct (cell_of c w) eqn:Hx; [|done]. by rewrite <-Hx, put_cell_id.
Qed.

Lemma run_cell_set {E : Type} c x w :
  run (E := E) (cell_set c x) w =
  match cell_of c w with
  | None => (Done (Ok tt), put_cell c (Some x) w, [])
  | Some _ => (Done (Err x), w, [])
  end.
Proof.
  unfold cell_set; simpl. destruct (cell_of c w) eqn:Hx; simpl; [|done].
  by rewrite <-Hx, put_cell_id.
Qed.

Lemma run_on_shim {E A : Type} (p : prog P E A) w :
  run (on_shim p) w = let '(o, h, ts) := run p (host w) in (o, set_host h w, on_shim <$> ts).
Proof. unfold on_shim. by rewrite run_zoom by apply _. Qed.

(** No call of the host touches a cell. *)
Lemma cell_of_host c p w : cell_of c (set_host p w) = cell_of c w.
Proof. done. Qed.
End cells.
#[export] Hint Rewrite @run_cell_wait @run_cell_set @run_on_shim : runs.

(** What the laws of [Instance] come down to for a runtime whose instances keep
    their exit in a cell. *)
Lemma cell_instance_laws {P} (I : Instance (ShimState P)) (cell_ix : T I → nat)
    (Hwait : ∀ i t, wait_timeout i t = cell_wait (cell_ix i) t) : InstanceLaws I.
Proof.
  refine {| exit_status i w := cell_of (cell_ix i) w |}.
  - intros i w. by rewrite Hwait, run_cell_wait.
  - intros i w. rewrite Hwait, run_cell_wait. by destruct (cell_of _ w).
Defined.
