(* ===== verification/InstanceData.v ===== *)
(** [InstanceData] (sandbox/shim/instance_data.rs): an instance together with
    its life-cycle state, shared by the threads of the service.

    The service holds instances in [Arc]s: [Heap] maps an address to the shared
    value.  [state] is behind an [RwLock] that is only ever taken for writing;
    [lock] is that lock; it is poisoned when a thread panics while it holds it.
    The operations take it, call the instance, and update the state in separate
    steps, so other threads run in between. *)
From S2P Require Import Prelude Errors TaskState Sync Instance.
Local Open Scope string_scope.

Abbreviation loc := nat.

Inductive Lock := Free | Held | Poisoned.

Record InstanceData (T : Type) := mkData {
  instance : T;
  cfg : InstanceConfig;
  pid : option u32;          (* OnceLock<u32> *)
  state : TaskState;
  lock : Lock;               (* the RwLock of [state] *)
}.
Arguments mkData {T}. Arguments instance {T}. Arguments cfg {T}.
Arguments pid {T}. Arguments state {T}. Arguments lock {T}.

Section operations.
Context {W : Type} {I : Instance W}.

Record Heap := mkHeap { arena : gmap loc (InstanceData (T I)); world : W }.

Definition set_world (w : W) (h : Heap) : Heap := mkHeap (arena h) w.
Definition set_data (l : loc) (d : InstanceData (T I)) (h : Heap) : Heap :=
  mkHeap (<[l:=d]> (arena h)) (world h).

#[export] Instance world_lens : Lens world set_world.
Proof. split; intros; unfold set_world; simpl; by try destruct s. Qed.

(** A call of the instance. *)
Definition call {E A} (p : prog W E A) : prog Heap E A := zoom world set_world p.

(** One step on the shared value at [l]; an [Arc] keeps it alive. *)
Definition with_data {E A} (l : loc)
    (f : InstanceData (T I) → option (A * InstanceData (T I))) : prog Heap E A :=
  await (λ h, match arena h !! l with
              | Some d => match f d with
                          | Some (a, d') => Some (a, set_data l d' h)
                          | None => None
                          end
              | None => None
              end).

Definition read {E A} (l : loc) (f : InstanceData (T I) → A) : prog Heap E A :=
  with_data l (λ d, Some (f d, d)).

Definition set_lock (k : Lock) (d : InstanceData (T I)) : InstanceData (T I) :=
  mkData (instance d) (cfg d) (pid d) (state d) k.

(** [self.state.write().unwrap()] *)
Definition lock_state {E} (l : loc) : prog Heap E unit :=
  bind (with_data l (λ d, match lock d with
                          | Free => Some (true, set_lock Held d)
                          | Held => None
                          | Poisoned => Some (false, d)
                          end))
       (λ ok : bool, if ok then Ret tt else Panic "PoisonError").

(** the guard goes out of scope, normally or while a panic unwinds *)
Definition unlock_state {E} (l : loc) : prog Heap E unit :=
  with_data l (λ d, Some (tt, set_lock Free d)).
Definition poison_state {E} (l : loc) : prog Heap E unit :=
  with_data l (λ d, Some (tt, set_lock Poisoned d)).

(** [s.op()], with the lock held *)
Definition transition {E} (l : loc) (f : TaskState → result Error unit * TaskState) :
    prog Heap E (result Error unit) :=
  with_data l (λ d, let '(r, s) := f (state d) in
                    Some (r, mkData (instance d) (cfg d) (pid d) s (lock d))).

Definition set_state {E} (l : loc) (s : TaskState) : prog Heap E unit :=
  with_data l (λ d, Some (tt, mkData (instance d) (cfg d) (pid d) s (lock d))).

(** [OnceLock::set], its result discarded *)
Definition set_pid {E} (l : loc) (p : u32) : prog Heap E unit :=
  with_data l (λ d, Some (tt, mkData (instance d) (cfg d)
    (match pid d with Some q => Some q | None => Some p end) (state d) (lock d))).

(** [Arc::new]: a fresh address. *)
Definition alloc {E} (d : InstanceData (T I)) : prog Heap E loc :=
  atomically (λ h, let l := fresh (dom (arena h)) in (l, set_data l d h)).

Local Open Scope prog_scope.

Definition InstanceData_new (id : string) (c : InstanceConfig) :
    prog Heap Error (InstanceData (T I)) :=
  let! inst := call (Instance.new id c) in
  Ret {| instance := inst; cfg := c; pid := None;
         state := Created; lock := Free |}.

Definition get_pid {E} (l : loc) : prog Heap E (option u32) := read l pid.

Definition config {E} (l : loc) : prog Heap E InstanceConfig := read l cfg.

Definition start (l : loc) : prog Heap Error u32 :=
  lock_state l ;;
  finally
    (let! r := transition l TaskState.start in
     lift_result r ;;
     let! inst := read l instance in
     let! res := attempt (call (Instance.start inst)) in
     (match res with
      | Ok p => set_pid l p ;; transition l TaskState.started ;; Ret tt
      | Err _ => transition l TaskState.stop ;; Ret tt
      end) ;;
     lift_result res)
    (unlock_state l) (poison_state l).

Definition kill (l : loc) (signal : u32) : prog Heap Error unit :=
  lock_state l ;;
  finally
    (let! r := transition l TaskState.kill in
     lift_result r ;;
     let! inst := read l instance in
     call (Instance.kill inst signal))
    (unlock_state l) (poison_state l).

Definition delete (l : loc) : prog Heap Error unit :=
  lock_state l ;;
  finally
    (let! r := transition l TaskState.delete in
     lift_result r ;;
     let! inst := read l instance in
     let! res := attempt (call (Instance.delete inst)) in
     (if is_err res then transition l TaskState.stop ;; Ret tt else Ret tt) ;;
     lift_result res)
    (unlock_state l) (poison_state l).

Definition wait {E} (l : loc) : prog Heap E exit :=
  let! inst := read l instance in
  let! res := call (Instance.wait inst) in
  lock_state l ;;
  set_state l Exited ;;
  unlock_state l ;;
  Ret res.

Definition wait_timeout {E} (l : loc) (t : option Duration) : prog Heap E (option exit) :=
  let! inst := read l instance in
  let! res := call (infallible (Instance.wait_timeout inst t)) in
  match res with
  | Some _ => lock_state l ;; set_state l Exited ;; unlock_state l ;; Ret res
  | None => Ret res
  end.
End operations.
Arguments Heap {W} I.

(** ** What each operation does when it runs alone *)

Section specs.
Context {W : Type} {I : Instance W}.
Implicit Types (h : Heap I) (d : InstanceData (T I)).

(** The value at [l] with a new process id, state and lock. *)
Definition upd d (p : option u32) (s : TaskState) (k : Lock) : InstanceData (T I) :=
  mkData (instance d) (cfg d) p s k.

(** The heap after [l] became [d] while the host went to [w]. *)
Definition after h (l : loc) d (w : W) : Heap I := mkHeap (<[l:=d]> (arena h)) w.

Lemma run_call {E A} (p : prog W E A) h :
  run (call p) h =
  let '(o, w, ts) := run p (world h) in (o, set_world w h, call <$> ts).
Proof. unfold call. by rewrite run_zoom by apply _. Qed.

Lemma run_with_data {E A} l (f : _ → option (A * InstanceData (T I))) h d :
  arena h !! l = Some d →
  run (E := E) (with_data l f) h =
  match f d with
  | Some (a, d') => (Done a, set_data l d' h, [])
  | None => (Blocked, h, [])
  end.
Proof. intros Hl. unfold with_data; simpl. rewrite Hl. by destruct (f d) as [[??]|]. Qed.

Lemma restore h l d s k :
  arena h !! l = Some d → state d = s → lock d = k →
  mkHeap (<[l:=mkData (instance d) (cfg d) (pid d) s k]> (arena h)) (world h) = h.
Proof.
  intros Hl <- <-. rewrite insert_id by (rewrite Hl; by destruct d). by destruct h.
Qed.

Lemma after_id h l d : arena h !! l = Some d → after h l d (world h) = h.
Proof. intros Hl. unfold after. rewrite insert_id by done. by destruct h. Qed.
End specs.
#[export] Hint Rewrite @run_call : runs.

(** Computes a handler on a value [l] that is known, up to the next call of the
    instance, and through that call. *)
Ltac data_steps :=
  unfold get_pid, config, lock_state, unlock_state, poison_state, read, transition,
    set_state, set_pid, with_data, after, set_data, set_world, set_lock, upd;
  repeat first
    [ progress simpl
    | match goal with H : arena _ !! _ = Some _ |- _ => rewrite H end
    | match goal with H : lock _ = _ |- _ => rewrite H end
    | match goal with H : state _ = _ |- _ => rewrite H end
    | match goal with H : run _ _ = _ |- _ => rewrite H end
    | rewrite lookup_insert_eq
    | rewrite insert_insert_eq
    | rewrite app_nil_r ].
Ltac calls := rewrite ?run_finally, ?run_bind, ?run_attempt, ?run_call.

Section specs2.
Context {W : Type} {I : Instance W}.
Implicit Types (h : Heap I) (d : InstanceData (T I)).

Lemma start_spec h l d :
  arena h !! l = Some d → lock d = Free →
  run (start l) h =
  match state d with
  | Created =>
      let '(o, w, ts) := run (Instance.start (instance d)) (world h) in
      match o with
      | Done p => (Done p, after h l (upd d (Some (unwrap_or (pid d) p)) Started Free) w, call <$> ts)
      | Failed e => (Failed e, after h l (upd d (pid d) Exited Free) w, call <$> ts)
      | Panicked m => (Panicked m, after h l (upd d (pid d) Starting Poisoned) w, call <$> ts)
      | Blocked => (Blocked, after h l (upd d (pid d) Starting Held) w, call <$> ts)
      end
  | s => (Failed (FailedPrecondition
            ("invalid state transition: " +:+ debug s +:+ " => Starting")), h, [])
  end.
Proof.
  intros Hl Hk. unfold start.
  destruct (state d) eqn:Hs; data_steps.
  all: try by erewrite restore.
  calls. destruct (run (Instance.start (instance d)) _) as [[[p|e|m|] w] ts] eqn:Hr; data_steps; try done.
  by destruct (pid d).
Qed.

Lemma kill_spec h l d sig :
  arena h !! l = Some d → lock d = Free →
  run (kill l sig) h =
  match state d with
  | Started =>
      let '(o, w, ts) := run (Instance.kill (instance d) sig) (world h) in
      (o, after h l (upd d (pid d) Started
            match o with Panicked _ => Poisoned | Blocked => Held | _ => Free end) w, call <$> ts)
  | s => (Failed (FailedPrecondition
            ("invalid state transition: " +:+ debug s +:+ " => " +:+ quoted "Killing")), h, [])
  end.
Proof.
  intros Hl Hk. unfold kill.
  destruct (state d) eqn:Hs; data_steps; try by erewrite restore.
  calls. destruct (run (Instance.kill (instance d) sig) _) as [[[[]|e|m|] w] ts] eqn:Hr;
    by data_steps.
Qed.

Lemma delete_spec h l d :
  arena h !! l = Some d → lock d = Free →
  run (delete l) h =
  match state d with
  | Created | Exited =>
      let '(o, w, ts) := run (Instance.delete (instance d)) (world h) in
      (o, after h l (match o with
                     | Done _ => upd d (pid d) Deleting Free
                     | Failed _ => upd d (pid d) Exited Free
                     | Panicked _ => upd d (pid d) Deleting Poisoned
                     | Blocked => upd d (pid d) Deleting Held
                     end) w, call <$> ts)
  | s => (Failed (FailedPrecondition
            ("invalid state transition: " +:+ debug s +:+ " => Deleting")), h, [])
  end.
Proof.
  intros Hl Hk. unfold delete.
  destruct (state d) eqn:Hs; data_steps; try by erewrite restore.
  all: calls; destruct (run (Instance.delete (instance d)) _) as [[[[]|e|m|] w] ts] eqn:Hr;
    by data_steps.
Qed.

Lemma delete_done_spec h l d w ts :
  arena h !! l = Some d → lock d = Free → state d = Created ∨ state d = Exited →
  run (Instance.delete (instance d)) (world h) = (Done tt, w, ts) →
  run (delete l) h = (Done tt, after h l (upd d (pid d) Deleting Free) w, call <$> ts).
Proof.
  intros Hl Hk Hs Hr. rewrite (delete_spec h l d), Hr by done.
  by destruct Hs as [-> | ->].
Qed.

(** An instance that has finished is [Exited] after a wait; a wait without
    timeout on one that has not finished keeps waiting. *)
Lemma wait_spec {E} `{L : !InstanceLaws I} h l d :
  arena h !! l = Some d → lock d = Free →
  run (E := E) (wait l) h =
  match exit_status (instance d) (world h) with
  | Some x => (Done x, after h l (upd d (pid d) Exited Free) (world h), [])
  | None => (Blocked, h, [])
  end.
Proof.
  intros Hl Hk. unfold wait. data_steps. calls. rewrite run_wait.
  simpl. rewrite insert_id by done.
  destruct (exit_status (instance d) (world h)); by data_steps; destruct h.
Qed.

Lemma wait_timeout_zero_spec {E} `{L : !InstanceLaws I} h l d :
  arena h !! l = Some d → lock d = Free →
  run (E := E) (wait_timeout l (Some 0%N)) h =
  (Done (exit_status (instance d) (world h)),
   match exit_status (instance d) (world h) with
   | Some _ => after h l (upd d (pid d) Exited Free) (world h)
   | None => h
   end, []).
Proof.
  intros Hl Hk. unfold wait_timeout. data_steps. calls. rewrite run_wait_zero.
  simpl. rewrite insert_id by done.
  destruct (exit_status (instance d) (world h)); by data_steps; destruct h.
Qed.

Lemma get_pid_spec {E} h l d :
  arena h !! l = Some d → run (E := E) (get_pid l) h = (Done (pid d), h, []).
Proof.
  intros Hl. data_steps. rewrite insert_id by done. by destruct h.
Qed.

Lemma config_spec {E} h l d :
  arena h !! l = Some d → run (E := E) (config l) h = (Done (cfg d), h, []).
Proof.
  intros Hl. data_steps. rewrite insert_id by done. by destruct h.
Qed.
End specs2.
