(* ===== verification/Paths.v ===== *)
(** Unix paths: what the code uses of [std::path::Path] and [PathBuf]. A path is
    its string of bytes; its components are as the standard library documents
    them (repeated separators and [.] components other than a leading one are
    skipped). *)
From S2P Require Import Prelude.
Local Open Scope string_scope.

Inductive Component :=
| RootDir
| CurDir
| ParentDir
| Normal (s : string).

#[export] Instance Component_eq_dec : EqDecision Component.
Proof. solve_decision. Defined.

Definition is_absolute (p : string) : bool := starts_with "/" p.

Definition classify (s : string) : option Component :=
  if bool_decide (s = "") then None
  else if bool_decide (s = ".") then None
  else if bool_decide (s = "..") then Some ParentDir
  else Some (Normal s).

(** [Path::components]. *)
Definition components (p : string) : list Component :=
  let pieces := split "/" p in
  (if is_absolute p then [RootDir]
   else match pieces with
        | x :: _ => if bool_decide (x = ".") then [CurDir] else []
        | [] => []
        end) ++ omap classify pieces.

(** [Path::join]: an absolute path replaces, otherwise one separator is added
    unless there is one at the end. *)
Fixpoint ends_with_sep (p : string) : bool :=
  match p with
  | EmptyString => false
  | String a EmptyString => bool_decide (a = "/"%char)
  | String _ p' => ends_with_sep p'
  end.

Definition path_join (p q : string) : string :=
  if is_absolute q then q
  else if bool_decide (p = "") || ends_with_sep p then p +:+ q
  else p +:+ "/" +:+ q.

(** [Path::file_name]: the last component, when it is a normal one. *)
Definition file_name (p : string) : option string :=
  match list.last (components p) with
  | Some (Normal s) => Some s
  | _ => None
  end.

(** [str::rsplit_once(c)]. *)
Fixpoint rsplit_once (c : ascii) (s : string) : option (string * string) :=
  match s with
  | EmptyString => None
  | String a s' =>
      match rsplit_once c s' with
      | Some (l, r) => Some (String a l, r)
      | None => if bool_decide (a = c) then Some ("", s') else None
      end
  end.

(** [rsplit_file_at_dot] of the standard library: the parts before and after
    the last dot; a name that starts with its only dot has no extension. *)
Definition rsplit_file_at_dot (f : string) : option string * option string :=
  if bool_decide (f = "..") then (Some f, None)
  else match rsplit_once "." f with
       | Some ("", _) => (Some f, None)
       | Some (l, r) => (Some l, Some r)
       | None => (None, Some f)
       end.

(** [Path::file_stem]: [before.or(after)]. *)
Definition file_stem (p : string) : option string :=
  file_name p ≫= λ f,
    let '(before, after) := rsplit_file_at_dot f in
    match before with Some s => Some s | None => after end.

(** [Path::extension]: [before.and(after)]. *)
Definition extension (p : string) : option string :=
  file_name p ≫= λ f,
    let '(before, after) := rsplit_file_at_dot f in
    match before with Some _ => after | None => None end.

Lemma rsplit_once_Some c s l r :
  rsplit_once c s = Some (l, r) ↔ s = l +:+ String c r ∧ has_char c r = false.
Proof.
  revert l r; induction s as [|a s IH]; intros l r; simpl.
  - split; [done|]. intros [Hs _]. by destruct l.
  - destruct (rsplit_once c s) as [[l' r']|] eqn:E.
    + destruct (proj1 (IH l' r') eq_refl) as [Hs Hr'].
      split.
      * intros [= <- <-]. split; [by rewrite Hs|done].
      * intros [Hs' Hr]. destruct l as [|b l]; inversion Hs' as [[Ha Hs2]].
        -- rewrite <-Hs2, Hs, has_char_app in Hr. simpl in Hr.
           rewrite bool_decide_eq_true_2, orb_true_r in Hr by done. done.
        -- pose proof (proj2 (IH l r) (conj Hs2 Hr)). by simplify_eq.
    + assert (∀ l r, s = l +:+ String c r → has_char c r = false → False) as Hno.
      { intros l0 r0 H1 H2. by pose proof (proj2 (IH l0 r0) (conj H1 H2)). }
      case_bool_decide as Ha; subst.
      * split.
        -- intros [= <- <-]. split; [done|].
           clear IH. destruct (has_char c s) eqn:Hc; [exfalso|done].
           revert E Hc. clear. induction s as [|b s IH]; simpl; [done|].
           destruct (rsplit_once c s) as [[??]|]; [done|].
           case_bool_decide; simpl; [done|]. auto.
        -- intros [Hs Hr]. destruct l as [|b l]; inversion Hs; subst; [done|].
           exfalso; eauto.
      * split; [done|]. intros [Hs Hr].
        destruct l as [|b l]; inversion Hs; subst; [done|].
        exfalso; eauto.
Qed.

Example join_examples :
  path_join "/a" "b" = "/a/b" ∧ path_join "/a/" "b" = "/a/b" ∧
  path_join "/a" "/b" = "/b" ∧ path_join "" "b" = "b".
Proof. done. Qed.

Example components_examples :
  components "/usr//bin/." = [RootDir; Normal "usr"; Normal "bin"] ∧
  components "./a/../b/" = [CurDir; Normal "a"; ParentDir; Normal "b"] ∧
  components "a" = [Normal "a"] ∧ components "" = [].
Proof. done. Qed.

Example stem_examples :
  file_stem "/app/app.wasm" = Some "app" ∧ file_stem "my_module.wat" = Some "my_module" ∧
  file_stem ".bashrc" = Some ".bashrc" ∧ file_stem "a.tar.gz" = Some "a.tar" ∧
  file_stem "" = None ∧ file_stem "/x/.." = None ∧ extension "a.tar.gz" = Some "gz".
Proof. done. Qed.

(** [Path::starts_with]: whole components are compared. *)
Definition path_starts_with (p base : string) : bool :=
  bool_decide (components base `prefix_of` components p).

(** A path as the kernel prints it: absolute, without empty or dot components. *)
Definition plain_name (n : string) : Prop :=
  n ≠ "" ∧ n ≠ "." ∧ n ≠ ".." ∧ has_char "/" n = false.

Fixpoint render (names : list string) : string :=
  match names with
  | [] => ""
  | n :: names => "/" +:+ n +:+ render names
  end.

Lemma split_app c n s : has_char c n = false → split c (n +:+ String c s) = n :: split c s.
Proof.
  induction n as [|a n IH]; simpl; [by rewrite bool_decide_eq_true_2|].
  intros [Ha Hn]%orb_false_iff. apply bool_decide_eq_false in Ha.
  rewrite bool_decide_eq_false_2 by done. by rewrite IH.
Qed.

Lemma split_single c n : has_char c n = false → split c n = [n].
Proof.
  induction n as [|a n IH]; simpl; [done|].
  intros [Ha Hn]%orb_false_iff. apply bool_decide_eq_false in Ha.
  rewrite bool_decide_eq_false_2 by done. by rewrite IH.
Qed.

Lemma split_render n names :
  Forall plain_name (n :: names) → split "/" (n +:+ render names) = n :: names.
Proof.
  revert n. induction names as [|m names IH]; intros n Hall; simpl.
  - apply Forall_cons_1 in Hall as [(_&_&_&Hn) _].
    rewrite string_app_nil_r. by apply split_single.
  - apply Forall_cons_1 in Hall as [(_&_&_&Hn) Hall].
    change (split "/" (n +:+ String "/" (m +:+ render names)) = n :: m :: names).
    rewrite split_app by done. f_equal. by apply IH.
Qed.

Lemma classify_plain n : plain_name n → classify n = Some (Normal n).
Proof. intros (H1&H2&H3&_). unfold classify. by rewrite !bool_decide_eq_false_2. Qed.

Lemma omap_classify names : Forall plain_name names → omap classify names = Normal <$> names.
Proof.
  induction 1 as [|m ms Hm _ IH]; [done|].
  change (omap classify (m :: ms)) with
    (match classify m with Some y => y :: omap classify ms | None => omap classify ms end).
  by rewrite classify_plain, IH.
Qed.

Lemma components_render names :
  names ≠ [] → Forall plain_name names → components (render names) = RootDir :: (Normal <$> names).
Proof.
  destruct names as [|n names]; [done|]. intros _ Hall. unfold components.
  assert (split "/" (render (n :: names)) = "" :: n :: names) as ->.
  { change (split "/" (String "/" (n +:+ render names)) = "" :: n :: names).
    change (String "/" (n +:+ render names)) with ("" +:+ String "/" (n +:+ render names)).
    rewrite split_app by done. by rewrite split_render. }
  assert (is_absolute (render (n :: names)) = true) as ->.
  { unfold is_absolute, starts_with.
    change (render (n :: names)) with (String "/" (n +:+ render names)). simpl.
    by destruct (n +:+ render names). }
  change (RootDir :: omap classify (n :: names) = RootDir :: (Normal <$> n :: names)).
  by rewrite omap_classify.
Qed.

(** *** File names *)

Lemma split_snoc c s t : has_char c t = false → split c (s +:+ String c t) = (split c s ++ [t])%list.
Proof.
  intros Ht. induction s as [|a s IH].
  - simpl. rewrite bool_decide_eq_true_2 by done. by rewrite split_single.
  - change (String a s +:+ String c t) with (String a (s +:+ String c t)). simpl.
    case_bool_decide; [by rewrite IH|]. rewrite IH. by destruct (split_cons c s) as (x & l & ->).
Qed.

Lemma split_pieces c s x : x ∈ split c s → has_char c x = false.
Proof.
  revert x. induction s as [|a s IH]; intros x; simpl; [by intros ->%list_elem_of_singleton|].
  case_bool_decide as Ha.
  - intros [->|Hx]%elem_of_cons; [done|by apply IH].
  - destruct (split_cons c s) as (y & l & Hs). rewrite Hs in *.
    intros [->|Hx]%elem_of_cons.
    + simpl. rewrite bool_decide_eq_false_2 by done. apply IH. by left.
    + apply IH. by right.
Qed.

Lemma file_name_plain p f : file_name p = Some f → plain_name f.
Proof.
  unfold file_name. destruct (list.last (components p)) as [[| | |s]|] eqn:Hl; try done. intros [= ->].
  apply list.last_Some_elem_of in Hl. unfold components in Hl.
  apply elem_of_app in Hl as [Hl|Hl].
  { repeat case_match; set_solver. }
  apply list_elem_of_omap in Hl as (x & Hx & Hc). unfold classify in Hc.
  repeat (case_bool_decide; [done|]). simplify_eq. repeat split; try done. by eapply split_pieces.
Qed.

Lemma file_name_in d f : plain_name f → file_name (d +:+ "/" +:+ f) = Some f.
Proof.
  intros Hf. pose proof Hf as (_ & _ & _ & Hs). unfold file_name, components.
  change ("/" +:+ f) with (String "/" f). rewrite split_snoc, omap_app by done.
  change (omap classify [f]) with (match classify f with Some y => [y] | None => [] end).
  by rewrite classify_plain, app_assoc, list.last_snoc by done.
Qed.

Lemma not_absolute s : has_char "/" s = false → is_absolute s = false.
Proof.
  destruct s as [|a s]; [done|]. cbn [has_char]. intros [Ha _]%orb_false_iff.
  unfold is_absolute, starts_with. cbn [String.prefix].
  apply bool_decide_eq_false in Ha. by destruct (ascii_dec "/" a).
Qed.
