(* ===== verification/Files.v ===== *)
(** Files: what the code uses of [std::fs], on a map of paths.

    [HasFiles] is a state that has files, so that components which share them, such
    as the test harness and the instance under test, work on the same ones. *)
From S2P Require Import Prelude Errors Sync Instance Paths.
Local Open Scope string_scope.

(** ** Files *)

Inductive Node :=
| NFile (b : list byte)
| NDir
| NLink (target : path).

Abbreviation Files := (gmap path Node).

(** The final component of a path is followed through at most 40 links, as Linux
    does; the directories that the harness works in are not links. *)
Fixpoint follow (n : nat) (fs : Files) (p : path) : option path :=
  match fs !! p with
  | Some (NLink t) => match n with O => None | Datatypes.S n => follow n fs t end
  | _ => Some p
  end.

Definition parent (p : path) : path := match rsplit_once "/" p with Some (d, _) => d | None => "" end.

Definition is_dir (fs : Files) (p : path) : bool :=
  bool_decide (p = "") || match fs !! p with Some NDir => true | _ => false end.

(** A new entry at [p]. *)
Definition link_node (p : path) (x : Node) (fs : Files) : result string Files :=
  match fs !! p with
  | Some _ => Err "File exists"
  | None => if is_dir fs (parent p) then Ok (<[p := x]> fs) else Err "No such file or directory"
  end.

Definition create_dir (p : path) : Files → result string Files := link_node p NDir.
Definition make_symlink (target p : path) : Files → result string Files := link_node p (NLink target).

(** [fs::write], and [File::create] with what is written to it. *)
Definition fs_write (p : path) (b : list byte) (fs : Files) : result string Files :=
  match follow 40 fs p with
  | None => Err "Too many levels of symbolic links"
  | Some q =>
      match fs !! q with
      | Some NDir => Err "Is a directory"
      | Some _ => Ok (<[q := NFile b]> fs)
      | None => if is_dir fs (parent q) then Ok (<[q := NFile b]> fs)
                else Err "No such file or directory"
      end
  end.

Definition fs_read (p : path) (fs : Files) : result string (list byte) :=
  match follow 40 fs p with
  | None => Err "Too many levels of symbolic links"
  | Some q => match fs !! q with
              | Some (NFile b) => Ok b
              | Some _ => Err "Is a directory"
              | None => Err "No such file or directory"
              end
  end.

Definition remove_file (p : path) (fs : Files) : result string Files :=
  match fs !! p with
  | Some NDir => Err "Is a directory"
  | Some _ => Ok (base.delete p fs)
  | None => Err "No such file or directory"
  end.

(** [Path::is_symlink] *)
Definition is_symlink (p : path) (fs : Files) : bool :=
  match fs !! p with Some (NLink _) => true | _ => false end.

(** ** A state with files *)

Class HasFiles (W : Type) := {
  files : W → Files;
  put_files : Files → W → W;
  files_lens :: Lens files put_files;
}.

Section on_files.
Context {W : Type} {HF : HasFiles W}.
Implicit Types (w : W) (fs : Files).
Local Open Scope prog_scope.

(** A change of the files that can fail. *)
Definition on_files (f : Files → result string Files) : prog W string unit :=
  let! r := atomically (λ w, match f (files w) with
                             | Ok fs => (Ok tt, put_files fs w)
                             | Err e => (Err e, w)
                             end) in
  lift_result r.

Definition from_files {A : Type} (f : Files → result string A) : prog W string A :=
  let! r := gets (λ w, f (files w)) in lift_result r.

Lemma run_on_files f w :
  run (on_files f) w =
  match f (files w) with
  | Ok fs => (Done tt, put_files fs w, [])
  | Err e => (Failed e, w, [])
  end.
Proof. unfold on_files. rewrite run_bind. go. by destruct (f (files w)). Qed.

Lemma run_from_files {A : Type} (f : Files → result string A) w :
  run (from_files f) w =
  match f (files w) with Ok a => (Done a, w, []) | Err e => (Failed e, w, []) end.
Proof. unfold from_files. rewrite run_bind. go. by destruct (f (files w)). Qed.

Lemma files_put fs w : files (put_files fs w) = fs.
Proof. apply (lens_get_put (Lens := files_lens)). Qed.
Lemma put_put fs fs' w : put_files fs' (put_files fs w) = put_files fs' w.
Proof. apply (lens_put_put (Lens := files_lens)). Qed.

(** A step on the files that succeeds. *)
Lemma run_file_step {A : Type} f (k : prog W string A) w fs' :
  f (files w) = Ok fs' → run (on_files f ;; k) w = run k (put_files fs' w).
Proof.
  intros Hf. rewrite run_bind, run_on_files, Hf. go.
  by destruct (run k (put_files fs' w)) as [[??]?].
Qed.

End on_files.

(** ** A fresh directory *)

Lemma ends_with_sep_app d a s : ends_with_sep (d +:+ String a s) = ends_with_sep (String a s).
Proof.
  induction d as [|b d IH]; [done|].
  change (String b d +:+ String a s) with (String b (d +:+ String a s)). rewrite <-IH.
  by destruct d.
Qed.

(** A directory as [tempdir] makes it: a new one, at a path without a final
    separator. *)
Record fresh_dir (d : path) (fs : Files) : Prop := {
  fresh_nonempty : d ≠ "";
  fresh_no_sep : ends_with_sep d = false;
  fresh_is_dir : fs !! d = Some NDir;
  fresh_empty s : fs !! (d +:+ "/" +:+ s) = None;
}.

Lemma join_in d n fs : fresh_dir d fs → is_absolute n = false → path_join d n = d +:+ "/" +:+ n.
Proof.
  intros [Hne Hsep _ _] Hn. unfold path_join. by rewrite Hn, bool_decide_eq_false_2, Hsep by done.
Qed.

Lemma join_join d s n : is_absolute n = false → ends_with_sep (String "/" s) = false →
  path_join (d +:+ "/" +:+ s) n = d +:+ "/" +:+ s +:+ "/" +:+ n.
Proof.
  intros Hn Hs. unfold path_join. rewrite Hn. change ("/" +:+ s) with (String "/" s).
  rewrite ends_with_sep_app, Hs, bool_decide_eq_false_2; [|by destruct d].
  simpl. by rewrite string_app_assoc.
Qed.

Lemma parent_in d n : has_char "/" n = false → parent (d +:+ "/" +:+ n) = d.
Proof.
  intros Hn. unfold parent.
  by rewrite (proj2 (rsplit_once_Some "/" (d +:+ "/" +:+ n) d n)).
Qed.

(** Writing to a path where nothing, or a file, is. *)
Lemma fs_write_plain p b fs :
  is_dir fs (parent p) = true → fs !! p = None ∨ (∃ c, fs !! p = Some (NFile c)) →
  fs_write p b fs = Ok (<[p := NFile b]> fs).
Proof.
  intros Hp Hf. unfold fs_write. change 40%nat with (Datatypes.S 39). cbn [follow].
  destruct Hf as [Hf|[c Hf]]; by rewrite !Hf, ?Hp.
Qed.

Lemma dir_is_dir d fs : fs !! d = Some NDir → is_dir fs d = true.
Proof. intros H. unfold is_dir. rewrite H. apply orb_true_r. Qed.

Lemma in_dir d n fs fs' : fresh_dir d fs → fs' !! d = Some NDir →
  is_absolute n = false → has_char "/" n = false → is_dir fs' (parent (path_join d n)) = true.
Proof.
  intros Hd Hdir Ha Hn. rewrite (join_in d n fs), parent_in by done. by apply dir_is_dir.
Qed.

Lemma fs_write_in d n b fs fs' : fresh_dir d fs → fs' !! d = Some NDir →
  is_absolute n = false → has_char "/" n = false →
  fs' !! (d +:+ "/" +:+ n) = None ∨ (∃ c, fs' !! (d +:+ "/" +:+ n) = Some (NFile c)) →
  fs_write (path_join d n) b fs' = Ok (<[d +:+ "/" +:+ n := NFile b]> fs').
Proof.
  intros Hd Hdir Ha Hn Hold. rewrite <-(join_in d n fs) in Hold |- * by done.
  apply fs_write_plain; [by apply (in_dir d n fs)|done].
Qed.

Lemma create_dir_in d n fs fs' : fresh_dir d fs → fs' !! d = Some NDir →
  is_absolute n = false → has_char "/" n = false → fs' !! (d +:+ "/" +:+ n) = None →
  create_dir (path_join d n) fs' = Ok (<[d +:+ "/" +:+ n := NDir]> fs').
Proof.
  intros Hd Hdir Ha Hn Hnew. unfold create_dir, link_node.
  rewrite (in_dir d n fs) by done. rewrite (join_in d n fs) by done. by rewrite Hnew.
Qed.

Lemma fs_read_plain p b fs : fs !! p = Some (NFile b) → fs_read p fs = Ok b.
Proof. intros Hp. unfold fs_read. change 40%nat with (Datatypes.S 39). cbn [follow]. by rewrite !Hp. Qed.

(** Lookups under [d]. *)
Ltac look d := repeat first
  [rewrite lookup_insert_eq
  |rewrite lookup_insert_ne by (let H := fresh in intros H; apply (string_app_inj_l d) in H; discriminate)].
Ltac look_dir d := repeat rewrite lookup_insert_ne by
  (let H := fresh in intros H; rewrite <-(string_app_nil_r d) in H at 2;
   apply (string_app_inj_l d) in H; discriminate).

(** One step on a file of [d]. *)
Ltac step lem :=
  match goal with Hd : fresh_dir ?d ?fs |- _ =>
    erewrite run_file_step by
      (rewrite ?files_put; eapply lem;
       [exact Hd|look_dir d; by apply Hd|reflexivity|reflexivity|
        look d; first [by apply (fresh_empty _ _ Hd)|by left; apply (fresh_empty _ _ Hd)|by right; eexists]]);
    rewrite ?put_put
  end.
