(* ===== verification/Text.v ===== *)
(** Text: what the code uses of [str], on the ASCII text that it handles. *)
From S2P Require Import Prelude.
Local Open Scope string_scope.

(** ** Case *)

Definition lower (a : ascii) : ascii :=
  let n := nat_of_ascii a in
  if bool_decide (65 ≤ n ≤ 90)%nat then ascii_of_nat (n + 32) else a.

(** [str::to_lowercase], on the ASCII names of the engines. *)
Fixpoint to_lowercase (s : string) : string :=
  match s with EmptyString => "" | String a s => String (lower a) (to_lowercase s) end.

(** ** White space, prefixes and suffixes *)

(** White space, as [str::trim] removes it from the ASCII text of the kernel. *)
Definition is_space (a : ascii) : bool :=
  let n := nat_of_ascii a in bool_decide (n = 32 ∨ 9 ≤ n ≤ 13)%nat.

Fixpoint trim_start (s : string) : string :=
  match s with
  | EmptyString => ""
  | String a s' => if is_space a then trim_start s' else s
  end.

Fixpoint trim_end (s : string) : string :=
  match s with
  | EmptyString => ""
  | String a s' => match trim_end s' with
                   | EmptyString => if is_space a then "" else String a ""
                   | r => String a r
                   end
  end.

Definition trim (s : string) : string := trim_end (trim_start s).

Fixpoint strip_prefix (p s : string) : option string :=
  match p, s with
  | EmptyString, _ => Some s
  | String a p', String b s' => if bool_decide (a = b) then strip_prefix p' s' else None
  | String _ _, EmptyString => None
  end.

(** [str::strip_suffix] *)
Fixpoint strip_suffix (p s : string) : option string :=
  if bool_decide (s = p) then Some ""
  else match s with
       | EmptyString => None
       | String a s' => match strip_suffix p s' with
                        | Some r => Some (String a r)
                        | None => None
                        end
       end.

(** ** Lines and fields *)

(** [str::lines]: a final newline ends the last line; a carriage return before a
    newline belongs to it. *)
Definition newline : ascii := ascii_of_nat 10.
Definition strip_cr (s : string) : string :=
  default s (strip_suffix (String (ascii_of_nat 13) "") s).

Fixpoint drop_last_empty (l : list string) : list string :=
  match l with
  | [] => []
  | [x] => if bool_decide (x = "") then [] else [x]
  | x :: l => x :: drop_last_empty l
  end.

Definition lines (s : string) : list string := strip_cr <$> drop_last_empty (split newline s).

(** [str::split_whitespace] *)
Fixpoint fields (cur s : string) : list string :=
  let flush := if bool_decide (cur = "") then [] else [cur] in
  match s with
  | EmptyString => flush
  | String a s => if is_space a then (flush ++ fields "" s)%list else fields (cur +:+ String a "") s
  end.
Definition split_whitespace (s : string) : list string := fields "" s.

(** [str::contains] for a string *)
Fixpoint contains (needle s : string) : bool :=
  starts_with needle s ||
  match s with EmptyString => false | String _ s => contains needle s end.

Example text_examples :
  lines ("a" +:+ String newline "b" +:+ String newline "") = ["a"; "b"] ∧
  split_whitespace "overlay  /mnt/a overlay rw " = ["overlay"; "/mnt/a"; "overlay"; "rw"] ∧
  contains "llo" "hello" = true ∧ contains "xx" "hello" = false ∧ lines "" = [].
Proof. done. Qed.

(** ** Numbers *)

Definition digit (a : ascii) : option Z :=
  let n := nat_of_ascii a in
  if bool_decide (48 ≤ n ≤ 57)%nat then Some (Z.of_nat n - 48)%Z else None.

Fixpoint parse_digits (acc : Z) (s : string) : option Z :=
  match s with
  | EmptyString => Some acc
  | String a s => d ← digit a; parse_digits (acc * 10 + d)%Z s
  end.

(** [str::parse] for an unsigned integer of [w] bits: an optional plus sign, at
    least one digit, and a value that fits. *)
Definition parse_unsigned (w : Z) (s : string) : option Z :=
  let body := match s with String "+" s' => s' | _ => s end in
  if bool_decide (body = "") then None
  else v ← parse_digits 0 body; if bool_decide (v < 2 ^ w)%Z then Some v else None.

Lemma parse_digits_nonneg acc s v : (0 ≤ acc)%Z → parse_digits acc s = Some v → (0 ≤ v)%Z.
Proof.
  revert acc. induction s as [|a s IH]; intros acc Hacc; simpl; [by intros [= <-]|].
  unfold digit. case_bool_decide; simpl; [|done]. apply IH. lia.
Qed.

Lemma parse_unsigned_range w s v : parse_unsigned w s = Some v → (0 ≤ v < 2 ^ w)%Z.
Proof.
  unfold parse_unsigned. case_bool_decide; [done|].
  destruct (parse_digits 0 _) as [v'|] eqn:Hp; simpl; [|done].
  case_bool_decide; [|done]. intros [= <-]. split; [|done]. by eapply parse_digits_nonneg.
Qed.


(** *** Printed numbers are read back *)

Lemma digit_pretty (x : N) : (x < 10)%N → digit (pretty_N_char x) = Some (Z.of_N x).
Proof.
  intros Hx. destruct x as [|p]; [done|].
  do 4 (destruct p as [p|p|]; try done; try lia).
Qed.

Lemma parse_digits_pretty_go (x : N) s :
  (0 < x)%N → parse_digits 0 (pretty_N_go x s) = parse_digits (Z.of_N x) s.
Proof.
  revert s. induction (N.lt_wf_0 x) as [x _ IH]; intros s Hx.
  rewrite pretty_N_go_step by done.
  assert (parse_digits (Z.of_N (x `div` 10)) (String (pretty_N_char (x `mod` 10)) s) =
    parse_digits (Z.of_N x) s) as Hd.
  { simpl. rewrite digit_pretty by (apply N.mod_lt; lia). simpl. f_equal.
    pose proof (N.div_mod' x 10). lia. }
  destruct (decide (x `div` 10 = 0)%N) as [H0|H0].
  - rewrite H0 in *. exact Hd.
  - rewrite IH; [exact Hd|by apply N.div_lt|by apply N.neq_0_lt_0].
Qed.

Definition is_digit (a : ascii) : bool := bool_decide (is_Some (digit a)).

Fixpoint all_digits (s : string) : bool :=
  match s with EmptyString => true | String a s => is_digit a && all_digits s end.

Lemma all_digits_pretty_go (x : N) s : all_digits s = true → all_digits (pretty_N_go x s) = true.
Proof.
  revert s. induction (N.lt_wf_0 x) as [x _ IH]; intros s Hs.
  destruct (decide (x = 0)%N) as [->|H0]; [done|].
  rewrite pretty_N_go_step by lia. apply IH; [apply N.div_lt; lia|].
  simpl. unfold is_digit. by rewrite digit_pretty by (apply N.mod_lt; lia).
Qed.

Lemma pretty_digits (x : N) : all_digits (pretty x) = true.
Proof. unfold pretty, pretty_N. destruct (decide (x = 0)%N); [done|]. by apply all_digits_pretty_go. Qed.

Lemma parse_digits_pretty (x : N) : parse_digits 0 (pretty x) = Some (Z.of_N x).
Proof.
  unfold pretty, pretty_N. destruct (decide (x = 0)%N) as [->|H0]; [done|].
  by rewrite parse_digits_pretty_go by lia.
Qed.

Lemma pretty_N_nonempty (x : N) : pretty x ≠ "".
Proof.
  unfold pretty, pretty_N. destruct (decide (x = 0)%N) as [->|H0]; [done|]. intros He.
  pose proof (parse_digits_pretty_go x "" ltac:(lia)) as Hp. rewrite He in Hp.
  simpl in Hp. injection Hp. lia.
Qed.

Lemma parse_unsigned_pretty w (x : N) :
  (Z.of_N x < 2 ^ w)%Z → parse_unsigned w (pretty x) = Some (Z.of_N x).
Proof.
  intros Hx. unfold parse_unsigned.
  assert (match pretty x with String "+" s' => s' | _ => pretty x end = pretty x) as ->.
  { pose proof (pretty_digits x) as Hd. destruct (pretty x) as [|a s]; [done|]. simpl in Hd.
    destruct a as [[] [] [] [] [] [] [] []]; done. }
  rewrite bool_decide_eq_false_2 by apply pretty_N_nonempty.
  rewrite parse_digits_pretty. simpl. by rewrite bool_decide_eq_true_2.
Qed.

(** The fields of a list of numbers, each followed by a space. *)
Lemma fields_digits cur s t :
  all_digits s = true → fields cur (s +:+ t) = fields (cur +:+ s) t.
Proof.
  revert cur. induction s as [|a s IH]; intros cur Hs.
  - by rewrite string_app_nil_r.
  - simpl in Hs. apply andb_true_iff in Hs as [Ha Hs].
    change (fields cur (String a (s +:+ t)) = fields (cur +:+ String a s) t). simpl.
    assert (is_space a = false) as -> by (destruct a as [[] [] [] [] [] [] [] []]; done).
    rewrite IH by done. f_equal. by rewrite string_app_assoc.
Qed.

Definition spaced (l : list N) : string := foldr (λ x s, pretty x +:+ " " +:+ s) "" l.

Lemma split_whitespace_spaced l : split_whitespace (spaced l) = pretty <$> l.
Proof.
  unfold split_whitespace. induction l as [|x l IH]; [done|].
  rewrite fmap_cons, <-IH. change (spaced (x :: l)) with (pretty x +:+ " " +:+ spaced l).
  rewrite fields_digits by apply pretty_digits.
  change ("" +:+ pretty x) with (pretty x). simpl.
  by rewrite bool_decide_eq_false_2 by apply pretty_N_nonempty.
Qed.

Lemma parse_spaced w l :
  Forall (λ x, Z.of_N x < 2 ^ w)%Z l →
  omap (parse_unsigned w) (split_whitespace (spaced l)) = Z.of_N <$> l.
Proof.
  intros Hl. rewrite split_whitespace_spaced. induction Hl as [|x l Hx _ IH]; [done|].
  rewrite !fmap_cons. simpl. rewrite parse_unsigned_pretty by done. f_equal. exact IH.
Qed.
