(* ===== verification/Oci.v ===== *)
(** OCI helpers (sandbox/oci.rs): the runtime spec as the code reads it, the
    environment of a hook, and the prestart hooks.

    [Spec] and its parts are structures of the [oci_spec] crate; the records
    keep the fields the code accesses.  Processes belong to the operating
    system: [Os] is the interface of [std::process::Command] and [Child]. *)
From S2P Require Import Prelude Errors Sync Instance.
Local Open Scope string_scope.

(** ** The runtime spec *)

Record Hook := mkHook {
  hook_path : path;
  hook_args : option (list string);
  hook_env : option (list string);
}.

Record Hooks := mkHooks { prestart : option (list Hook) }.

Record Root := mkRoot { root_path : path }.

Record Process := mkProcess {
  process_args : option (list string);
  process_env : option (list string);
}.

Record Spec := mkSpec {
  process : option Process;
  root : option Root;
  hooks : option Hooks;
  annotations : option (gmap string string);
}.

(** [WasmLayer]: the descriptor of a layer and its bytes. *)
Record Descriptor := mkDescriptor {
  media_type : string;
  digest : string;
  size : Z;
}.

Record WasmLayer := mkLayer { config : Descriptor; layer : list Z }.

(** ** [parse_env] *)

(** One element of the iterator: [NAME=VALUE], split at the first [=]. *)
Definition parse_env_entry (e : string) : string * string :=
  match split "=" e with
  | key :: rest => (key, join "=" rest)
  | [] => ("", "")
  end.

(** [collect] into a [HashMap]: a later entry replaces an earlier one. *)
Definition parse_env (envs : list string) : gmap string string :=
  foldl (λ m e, let '(k, v) := parse_env_entry e in <[k:=v]> m) ∅ envs.

(** ** Commands and hooks *)

(** [std::process::Command], as far as it is configured here. *)
Record Command := mkCommand {
  program : path;
  arg0 : path;
  args : list string;
  env : gmap string string;   (* env_clear().envs(..) *)
}.

(** The operating system behind [Command::spawn] and [Child]. *)
Class Os (W : Type) := {
  Child : Type;
  ExitStatus : Type;
  spawn : Command → prog W IoError Child;                (* stdin is piped *)
  has_stdin : Child → bool;                              (* [child.stdin.is_some()] *)
  write_all : Child → string → prog W IoError unit;      (* to its stdin *)
  child_kill : Child → prog W IoError unit;
  child_wait : Child → prog W IoError ExitStatus;
  process_id : u32;                                      (* std::process::id() *)
}.

Section hooks.
Context {W : Type} `{!Os W}.
Local Open Scope prog_scope.

Definition hook_command (h : Hook) : Command :=
  let '(a0, rest) :=
    match hook_args h with
    | Some (a :: rest) => (a, rest)
    | _ => (hook_path h, [])
    end in
  {| program := hook_path h; arg0 := a0; args := rest;
     env := match hook_env h with Some e => parse_env e | None => ∅ end |}.

(** The state that a hook reads on its standard input. *)
Definition hook_state : string :=
  "{ " +:+ quote +:+ "pid" +:+ quote +:+ ": " +:+ pretty process_id +:+ " }".

Definition run_hook (h : Hook) : prog W Error unit :=
  let! child := map_err (λ _, AnyErr "Failed to execute hook") (spawn (hook_command h)) in
  (if has_stdin child then
     let! r := attempt (write_all child hook_state) in
     match r with
     | Ok _ => Ret tt
     | Err e =>
         if bool_decide (kind e = KindBrokenPipe) then Ret tt
         else (let! _ := attempt (E := IoError) (child_kill child) in Ret tt)
     end
   else Ret tt) ;;
  map_err Stdio (child_wait child) ;;
  Ret tt.

Definition setup_prestart_hooks (hs : option Hooks) : prog W Error unit :=
  match hs with
  | None => Ret tt
  | Some hs =>
      match prestart hs with
      | None => Panic "called `Option::unwrap()` on a `None` value"
      | Some l => for_each run_hook l ;; Ret tt
      end
  end.
End hooks.

(** ** Properties of [parse_env] *)

(** [NAME=VALUE] read directly: the name ends at the first [=]; an entry
    without one is a name with an empty value. *)
Definition env_binding (e : string) : string * string :=
  match split_once "=" e with
  | Some kv => kv
  | None => (e, "")
  end.

Lemma parse_env_entry_binding e : parse_env_entry e = env_binding e.
Proof.
  unfold parse_env_entry, env_binding. rewrite split_unfold.
  destruct (split_once "=" e) as [[k v]|]; [|done]. by rewrite join_split.
Qed.

Lemma parse_env_snoc envs e :
  parse_env (envs ++ [e]) = let '(k, v) := env_binding e in <[k:=v]> (parse_env envs).
Proof. unfold parse_env. rewrite foldl_app; simpl. by rewrite parse_env_entry_binding. Qed.

(** The value a list of bindings gives to a name: its last one. *)
Definition last_binding (k : string) (envs : list string) : option string :=
  list.last (omap (λ e, let '(k', v) := env_binding e in
                   if bool_decide (k' = k) then Some v else None) envs).

(** The environment of a hook maps every name to the value of its last
    [NAME=VALUE] entry, where the value is everything after the first [=], and
    has no other name. *)
Theorem parse_env_lookup envs k : parse_env envs !! k = last_binding k envs.
Proof.
  unfold last_binding. induction envs as [|e envs IH] using rev_ind; [done|].
  rewrite parse_env_snoc, omap_app. simpl.
  destruct (env_binding e) as [k' v]. case_bool_decide as Hk; simpl.
  - subst. by rewrite lookup_insert_eq, list.last_snoc.
  - by rewrite lookup_insert_ne, app_nil_r.
Qed.

(** An entry that was formatted as [NAME=VALUE] is read back: a name without
    [=] and any value survive, whatever [=] the value contains. *)
Theorem parse_env_roundtrip (envs : list string) k v :
  has_char "=" k = false → parse_env (envs ++ [k +:+ "=" +:+ v]) !! k = Some v.
Proof.
  intros Hk. rewrite parse_env_snoc. unfold env_binding.
  rewrite (proj2 (split_once_Some "=" (k +:+ "=" +:+ v) k v)) by done.
  by rewrite lookup_insert_eq.
Qed.

Lemma parse_env_roundtrip_witness :
  parse_env (["A=1"; "B"] ++ ["A" +:+ "=" +:+ "x=y"]) !! "A" = Some "x=y".
Proof. apply parse_env_roundtrip. reflexivity. Defined.

(** ** Properties of the hooks *)

Section hook_properties.
Context {W : Type} `{!Os W}.

(** A prestart hook fails the creation of a task only when it cannot be
    spawned or cannot be waited for: neither its exit status nor a failure to
    write the state to its standard input counts. *)
Theorem hook_failure_causes h w e w' ts :
  run (run_hook h) w = (Failed e, w', ts) →
  (∃ io w1 ts1, run (spawn (hook_command h)) w = (Failed io, w1, ts1) ∧
                e = AnyErr "Failed to execute hook") ∨
  (∃ child io w1 w2 w3 ts1 ts2, run (spawn (hook_command h)) w = (Done child, w1, ts1) ∧
     run (child_wait child) w2 = (Failed io, w3, ts2) ∧ e = Stdio io).
Proof.
  unfold run_hook. rewrite run_bind, run_map_err.
  destruct (run (spawn _) w) as [[[c|io|m|] w1] ts1] eqn:Hs; simpl; [|naive_solver..].
  rewrite run_bind. intros Hrun. right.
  destruct (run (if has_stdin c then _ else _) w1) as [[[[]|e1|m1|] w2] ts2] eqn:Hin;
    simpl in Hrun; [|exfalso|by simplify_eq..].
  - rewrite run_bind, run_map_err in Hrun.
    destruct (run (child_wait c) w2) as [[[x|io|m|] w3] ts3] eqn:Hw;
      simpl in Hrun; simplify_eq/=. by eauto 12.
  - destruct (has_stdin c); [|done].
    rewrite run_bind, run_attempt in Hin.
    destruct (run (write_all c hook_state) w1) as [[[[]|io|m|] w3] ts3];
      simpl in Hin; try done.
    case_bool_decide; simpl in Hin; [done|].
    rewrite run_bind, run_attempt in Hin.
    destruct (run (child_kill c) w3) as [[[[]|?|?|] ?] ?]; simpl in Hin; done.
Qed.

(** A spec that has hooks but no prestart list makes the shim panic; the
    OCI runtime spec makes every list of hooks optional. *)
Theorem hooks_without_prestart_panic w :
  run (setup_prestart_hooks (Some (mkHooks None))) w =
  (Panicked "called `Option::unwrap()` on a `None` value", w, []).
Proof. done. Qed.
End hook_properties.
