(* ===== verification/Local.v ===== *)
(** The task service (sandbox/shim/local.rs): [Local<T, E>] keeps the instances
    of a shim by id and serves containerd's task requests on them.

    The service is generic over the [Instance] trait and runs each request on a
    thread of its own.  A handler is a [prog] over the shared state [Local]: the
    map of instances (one [RwLock], taken for one access at a time), the
    instances behind it, the events sent so far and the exit signal.  The code
    is the one built without the [opentelemetry] feature; what that feature adds
    to [wait] is in the file Telemetry. *)
From S2P Require Import Prelude Errors TaskState Sync Instance InstanceData Paths Oci.
Local Open Scope string_scope.

(** ** Requests, responses and events (containerd_shim::api, protos::events) *)

Record Mount := mkMount { mount_type : string; mount_source : string; mount_options : list string }.

Record CreateTaskRequest := mkCreate {
  create_id : string;
  create_bundle : string;
  create_rootfs : list Mount;
  create_terminal : bool;
  create_stdin : string;
  create_stdout : string;
  create_stderr : string;
  create_checkpoint : string;
  create_parent_checkpoint : string;
}.

(** [StartRequest], [DeleteRequest], [WaitRequest] and [StateRequest]. *)
Record TaskRequest := mkReq { req_id : string; req_exec_id : string }.

Record KillRequest := mkKill { kill_id : string; kill_exec_id : string; kill_signal : u32 }.

(** [StatsRequest] and [ConnectRequest]. *)
Record IdRequest := mkIdReq { idreq_id : string }.

Record CreateTaskResponse := mkCreateResp { create_pid : u32 }.
Record StartResponse := mkStartResp { start_pid : u32 }.
Record DeleteResponse := mkDeleteResp {
  delete_pid : u32; delete_exit_status : u32; delete_exited_at : option Timestamp }.
Record WaitResponse := mkWaitResp { wait_exit_status : u32; wait_exited_at : option Timestamp }.

Inductive Status := CREATED | RUNNING | STOPPED.

Record StateResponse := mkStateResp {
  state_bundle : string; state_stdin : string; state_stdout : string; state_stderr : string;
  state_pid : u32; state_exit_status : u32; state_exited_at : option Timestamp;
  state_status : Status;
}.

Record ConnectResponse := mkConnectResp { shim_pid : u32; task_pid : u32 }.

(** [EventSender::send] takes one of these. *)
Inductive Event :=
| TaskCreate (container_id bundle : string) (rootfs : list Mount) (stdin stdout stderr : string)
| TaskStart (container_id : string) (pid : u32)
| TaskExit (container_id : string) (exit_status : u32) (exited_at : option Timestamp)
    (pid : u32) (id : string)
| TaskDelete (container_id : string) (pid : u32) (exit_status : u32)
    (exited_at : option Timestamp).

(** What the service calls of the host besides processes: the [oci_spec] crate
    reads the spec of a bundle, [containerd_shim] mounts and collects metrics. *)
Class Host (W : Type) := {
  host_os :: Os W;
  Metrics : Type;
  AnyMessage : Type;
  Spec_load : path → prog W string Spec;
  canonicalize_rootfs : path → Spec → prog W string Spec;
  create_dir_all : path → prog W IoError unit;
  mount_rootfs : option string → option string → list string → path → prog W ShimError unit;
  thread_spawn : prog W IoError unit;       (* [thread::Builder::spawn], the OS side *)
  collect_metrics : u32 → prog W string Metrics;
  convert_to_any : Metrics → result string AnyMessage;
}.

Section service.
Context {W : Type} {I : Instance W} {H : Host W}.

(** [struct Local], with the events sent through [events] and the state of
    [exit]. *)
Record Local := mkLocal {
  heap : Heap I;
  instances : gmap string loc;
  events : list Event;
  exit_signaled : bool;
  local_namespace : string;
  local_address : string;
}.

Definition set_heap (h : Heap I) (s : Local) : Local :=
  mkLocal h (instances s) (events s) (exit_signaled s) (local_namespace s) (local_address s).
Definition set_instances (m : gmap string loc) (s : Local) : Local :=
  mkLocal (heap s) m (events s) (exit_signaled s) (local_namespace s) (local_address s).
Definition add_event (e : Event) (s : Local) : Local :=
  mkLocal (heap s) (instances s) (events s ++ [e]) (exit_signaled s)
    (local_namespace s) (local_address s).
Definition signal_exit (s : Local) : Local :=
  mkLocal (heap s) (instances s) (events s) true (local_namespace s) (local_address s).

#[export] Instance heap_lens : Lens heap set_heap.
Proof. split; intros; unfold set_heap; simpl; by try destruct s. Qed.

Definition on_heap {E A} (p : prog (Heap I) E A) : prog Local E A := zoom heap set_heap p.
Definition on_host {E A} (p : prog W E A) : prog Local E A := on_heap (call p).

(** [Local::new], on a host in state [w]. *)
Definition Local_new (w : W) (namespace containerd_address : string) : Local :=
  mkLocal (mkHeap ∅ w) ∅ [] false namespace containerd_address.

Local Open Scope prog_scope.

Definition send {E} (e : Event) : prog Local E unit := modify (add_event e).

Definition get_instance (id : string) : prog Local Error loc :=
  let! i := gets (λ s, instances s !! id) in
  lift_result (ok_or i (NotFound id)).

Definition has_instance {E} (id : string) : prog Local E bool :=
  gets (λ s, bool_decide (is_Some (instances s !! id))).

Definition is_empty {E} : prog Local E bool :=
  gets (λ s, bool_decide (instances s = ∅)).

Definition instance_config {E} : prog Local E InstanceConfig :=
  gets (λ s, config_new (local_namespace s) (local_address s)).

(** [none_if(|x| x.is_empty())] *)
Definition none_if_empty (s : string) : option string :=
  if bool_decide (s = "") then None else Some s.

Definition mount_one (rootfs : path) (m : Mount) : prog Local Error unit :=
  on_host (map_err Shim (mount_rootfs (none_if_empty (mount_type m))
    (none_if_empty (mount_source m)) (mount_options m) rootfs)).

Definition task_create (req : CreateTaskRequest) : prog Local Error CreateTaskResponse :=
  if negb (bool_decide (create_checkpoint req = "")) ||
     negb (bool_decide (create_parent_checkpoint req = ""))
  then Throw (Shim (ShimUnimplemented "checkpoint is not supported"))
  else if create_terminal req
  then Throw (InvalidArgument "terminal is not supported")
  else
  let! exists_ := has_instance (create_id req) in
  if exists_ : bool then Throw (AlreadyExists (create_id req)) else
  let! spec := on_host (map_err (λ err, InvalidArgument ("could not load runtime spec: " +:+ err))
                 (Spec_load (path_join (create_bundle req) "config.json"))) in
  let! spec := on_host (map_err
                 (λ err, Shim (ShimInvalidArgument ("could not canonicalize rootfs: " +:+ err)))
                 (canonicalize_rootfs (create_bundle req) spec)) in
  let! r := lift_result (ok_or (root spec)
              (InvalidArgument "rootfs is not set in runtime spec")) in
  let rootfs := root_path r in
  let! _ := on_host (attempt (create_dir_all rootfs)) in
  for_each (mount_one rootfs) (create_rootfs req) ;;
  let! cfg := instance_config in
  let cfg := set_stderr (create_stderr req) (set_stdout (create_stdout req)
               (set_stdin (create_stdin req) (set_bundle (create_bundle req) cfg))) in
  let! data := on_heap (InstanceData_new (create_id req) cfg) in
  let! l := on_heap (alloc data) in
  modify (λ s, set_instances (<[create_id req := l]> (instances s)) s) ;;
  send (TaskCreate (create_id req) (create_bundle req) (create_rootfs req)
          (create_stdin req) (create_stdout req) (create_stderr req)) ;;
  on_host (setup_prestart_hooks (hooks spec)) ;;
  Ret {| create_pid := process_id |}.

(** The thread that [task_start] spawns for an instance it started. *)
Definition wait_thread (id : string) (l : loc) (p : u32) : thread Local :=
  let! (exit_code, time) := on_heap (InstanceData.wait l) in
  send (TaskExit id exit_code (Some (to_timestamp time)) p id).

Definition task_start (req : TaskRequest) : prog Local Error StartResponse :=
  if negb (bool_decide (req_exec_id req = ""))
  then Throw (Shim (ShimUnimplemented "exec is not supported"))
  else
  let! i := get_instance (req_id req) in
  let! p := on_heap (InstanceData.start i) in
  send (TaskStart (req_id req) p) ;;
  on_host (map_err (λ _, AnyErr "could not spawn thread to wait exit") thread_spawn) ;;
  Fork (wait_thread (req_id req) i p) (Ret {| start_pid := p |}).

Definition task_kill (req : KillRequest) : prog Local Error unit :=
  if negb (bool_decide (kill_exec_id req = ""))
  then Throw (InvalidArgument "exec is not supported")
  else
  let! i := get_instance (kill_id req) in
  on_heap (InstanceData.kill i (kill_signal req)) ;;
  Ret tt.

Definition task_delete (req : TaskRequest) : prog Local Error DeleteResponse :=
  if negb (bool_decide (req_exec_id req = ""))
  then Throw (InvalidArgument "exec is not supported")
  else
  let! i := get_instance (req_id req) in
  on_heap (InstanceData.delete i) ;;
  let! p := on_heap (get_pid i) in
  let p := unwrap_or p 0%Z in
  let! x := on_heap (InstanceData.wait_timeout i (Some 0%N)) in
  let exit_code := fst <$> x in
  let time := to_timestamp <$> (snd <$> x) in
  modify (λ s, set_instances (base.delete (req_id req) (instances s)) s) ;;
  send (TaskDelete (req_id req) p (unwrap_or exit_code 0%Z) time) ;;
  Ret {| delete_pid := p; delete_exit_status := unwrap_or exit_code 0%Z;
         delete_exited_at := time |}.

Definition task_wait (req : TaskRequest) : prog Local Error WaitResponse :=
  if negb (bool_decide (req_exec_id req = ""))
  then Throw (InvalidArgument "exec is not supported")
  else
  let! i := get_instance (req_id req) in
  let! (exit_code, time) := on_heap (InstanceData.wait i) in
  Ret {| wait_exit_status := exit_code; wait_exited_at := Some (to_timestamp time) |}.

Definition task_state (req : TaskRequest) : prog Local Error StateResponse :=
  if negb (bool_decide (req_exec_id req = ""))
  then Throw (InvalidArgument "exec is not supported")
  else
  let! i := get_instance (req_id req) in
  let! p := on_heap (get_pid i) in
  let! x := on_heap (InstanceData.wait_timeout i (Some 0%N)) in
  let exit_code := fst <$> x in
  let time := to_timestamp <$> (snd <$> x) in
  let status := match p, exit_code with
                | None, _ => CREATED
                | _, None => RUNNING
                | _, _ => STOPPED
                end in
  let! cfg := on_heap (InstanceData.config i) in
  Ret {| state_bundle := bundle cfg; state_stdin := stdin cfg;
         state_stdout := stdout cfg; state_stderr := stderr cfg;
         state_pid := unwrap_or p 0%Z; state_exit_status := unwrap_or exit_code 0%Z;
         state_exited_at := time; state_status := status |}.

(** sys/unix/metrics.rs *)
Definition get_metrics (p : u32) : prog W Error AnyMessage :=
  let! m := map_err AnyErr (collect_metrics p) in
  map_err AnyErr (lift_result (convert_to_any m)).

Definition task_stats (req : IdRequest) : prog Local Error AnyMessage :=
  let! i := get_instance (idreq_id req) in
  let! p := on_heap (get_pid i) in
  let! p := lift_result (ok_or p (InvalidArgument "task is not running")) in
  on_host (get_metrics p).

Definition connect (req : IdRequest) : prog Local Error ConnectResponse :=
  let! i := get_instance (idreq_id req) in
  let! p := on_heap (get_pid i) in
  Ret {| shim_pid := process_id; task_pid := unwrap_or p 0%Z |}.

Definition shutdown {E} : prog Local E unit :=
  let! e := is_empty in
  (if e : bool then modify signal_exit else Ret tt).

(** ** [impl Task for Local]: the ttrpc methods *)

Inductive Request :=
| RCreate (r : CreateTaskRequest) | RStart (r : TaskRequest) | RKill (r : KillRequest)
| RDelete (r : TaskRequest) | RWait (r : TaskRequest) | RConnect (r : IdRequest)
| RState (r : TaskRequest) | RShutdown | RStats (r : IdRequest).

Inductive Response :=
| PCreate (r : CreateTaskResponse) | PStart (r : StartResponse) | PEmpty
| PDelete (r : DeleteResponse) | PWait (r : WaitResponse) | PConnect (r : ConnectResponse)
| PState (r : StateResponse) | PStats (r : AnyMessage).

Definition handle (req : Request) : prog Local Error Response :=
  match req with
  | RCreate r => let! x := task_create r in Ret (PCreate x)
  | RStart r => let! x := task_start r in Ret (PStart x)
  | RKill r => let! _ := task_kill r in Ret PEmpty
  | RDelete r => let! x := task_delete r in Ret (PDelete x)
  | RWait r => let! x := task_wait r in Ret (PWait x)
  | RConnect r => let! x := connect r in Ret (PConnect x)
  | RState r => let! x := task_state r in Ret (PState x)
  | RShutdown => let! _ := shutdown in Ret PEmpty
  | RStats r => let! x := task_stats r in Ret (PStats x)
  end.

Definition serve (shim_display : ShimError → string) (req : Request) :
    prog Local TtrpcError Response :=
  map_err (into_ttrpc shim_display) (handle req).
End service.
Arguments Local {W} I.

(** ** What each handler does when it runs alone *)

Section specs.
Context {W : Type} {I : Instance W} {H : Host W}.
Implicit Types (s : Local I) (d : InstanceData (T I)).

Lemma run_on_heap {E A} (p : prog (Heap I) E A) s :
  run (on_heap p) s =
  let '(o, h, ts) := run p (heap s) in (o, set_heap h s, on_heap <$> ts).
Proof. unfold on_heap. by rewrite run_zoom by apply _. Qed.

Lemma run_on_host {E A} (p : prog W E A) s :
  run (on_host p) s =
  let '(o, w, ts) := run p (world (heap s)) in
  (o, set_heap (set_world w (heap s)) s, on_host <$> ts).
Proof.
  unfold on_host. rewrite run_on_heap, run_call.
  destruct (run p (world (heap s))) as [[o w] ts]. by rewrite <-list_fmap_compose.
Qed.

Lemma run_get_instance id s :
  run (get_instance id) s =
  match instances s !! id with
  | Some l => (Done l, s, [])
  | None => (Failed (NotFound id), s, [])
  end.
Proof. unfold get_instance. rewrite run_bind; go. by destruct (instances s !! id). Qed.

(** The instance [id] is registered at [l], with value [d], and no thread is
    inside one of its operations. *)
Record ready s (id : string) (l : loc) d : Prop := mkReady {
  ready_instance : instances s !! id = Some l;
  ready_data : arena (heap s) !! l = Some d;
  ready_free : lock d = Free;
}.

(** The service after [l] became [d] while the host went to [w]. *)
Definition moved s (l : loc) d (w : W) : Local I := set_heap (after (heap s) l d w) s.

Lemma ready_moved s id l d d' w :
  ready s id l d → lock d' = Free → ready (moved s l d' w) id l d'.
Proof. intros [Hi _ _] Hf. split; [done| |done]. by apply lookup_insert_eq. Qed.

Lemma moved_moved s l d d' w w' : moved (moved s l d w) l d' w' = moved s l d' w'.
Proof.
  unfold moved, set_heap, after; simpl. by rewrite insert_insert_eq.
Qed.

Lemma set_heap_id s : set_heap (heap s) s = s.
Proof. by destruct s. Qed.

(** The part of [id] in a request that must name an existing task. *)
Definition target (r : @Request) : option (string * string) :=
  match r with
  | RCreate _ | RShutdown => None
  | RStart r | RDelete r | RWait r | RState r => Some (req_id r, req_exec_id r)
  | RKill r => Some (kill_id r, kill_exec_id r)
  | RConnect r | RStats r => Some (idreq_id r, "")
  end.

(** A request on a task that the shim does not have fails with the ttrpc
    code [NOT_FOUND] and the id of the task, and changes nothing. *)
Lemma unknown_task disp (r : Request) id s :
  target r = Some (id, "") → instances s !! id = None →
  run (serve disp r) s = (Failed (RpcStatus CODE_NOT_FOUND id), s, []).
Proof.
  intros Ht Hi. unfold serve. rewrite run_map_err.
  assert (run (handle r) s = (Failed (NotFound id), s, [])) as ->; [|done].
  destruct r; simpl in Ht; try done; inversion Ht; subst;
    unfold handle, task_start, task_kill, task_delete, task_wait, task_state,
      task_stats, connect; rewrite ?bool_decide_eq_true_2 by done;
    go; by rewrite run_bind, run_bind, run_get_instance, Hi.
Qed.

(** [exec] and checkpoints are refused before anything is looked up: the
    state does not change, whatever tasks exist. *)
Lemma unsupported_request (r : @Request) s :
  match r with
  | RCreate r => create_checkpoint r ≠ "" ∨ create_parent_checkpoint r ≠ "" ∨
                 create_terminal r = true
  | _ => ∃ id ex, target r = Some (id, ex) ∧ ex ≠ ""
  end →
  ∃ e, run (handle r) s = (Failed e, s, []) ∧
    e ∈ [Shim (ShimUnimplemented "checkpoint is not supported");
         Shim (ShimUnimplemented "exec is not supported");
         InvalidArgument "terminal is not supported";
         InvalidArgument "exec is not supported"].
Proof.
  destruct r as [r|r|r|r|r|r|r| |r]; simpl.
  2-5, 7: intros (id & ex & [= <- <-] & Hex);
    unfold task_start, task_kill, task_delete, task_wait, task_state;
    rewrite bool_decide_eq_false_2 by done; simpl; eexists; (split; [done|]); set_solver.
  - intros Hbad. unfold task_create.
    destruct (_ || _) eqn:Hcp; simpl; [eexists; split; [done|]; set_solver|].
    apply orb_false_iff in Hcp as [H1 H2].
    rewrite negb_false_iff, bool_decide_eq_true in H1.
    rewrite negb_false_iff, bool_decide_eq_true in H2.
    destruct Hbad as [?|[?| ->]]; [done..|]. simpl. eexists; split; [done|]. set_solver.
  - intros (id & ex & [= <- <-] & ?). done.
  - intros (id & ex & ? & ?). done.
  - intros (id & ex & [= <- <-] & ?). done.
Qed.
(** C21: bad requests change nothing: one for a task that the shim does not have
    fails with the ttrpc code [NOT_FOUND] and the id of the task, and one that
    asks for a terminal, a checkpoint or an [exec] is refused before anything is
    looked up, whatever tasks exist. *)
Theorem bad_requests_rejected disp (r : @Request) s :
  (∀ id, target r = Some (id, "") → instances s !! id = None →
     run (serve disp r) s = (Failed (RpcStatus CODE_NOT_FOUND id), s, [])) ∧
  (match r with
   | RCreate r => create_checkpoint r ≠ "" ∨ create_parent_checkpoint r ≠ "" ∨
                  create_terminal r = true
   | _ => ∃ id ex, target r = Some (id, ex) ∧ ex ≠ ""
   end →
   ∃ e, run (handle r) s = (Failed e, s, []) ∧
     e ∈ [Shim (ShimUnimplemented "checkpoint is not supported");
          Shim (ShimUnimplemented "exec is not supported");
          InvalidArgument "terminal is not supported";
          InvalidArgument "exec is not supported"]).
Proof. split; [intros id; apply unknown_task|apply unsupported_request]. Qed.
End specs.
#[export] Hint Rewrite @run_on_heap @run_on_host @run_get_instance : runs.

(** Enters a handler on a task that is [ready]: the guard on [exec_id] passes
    and the instance is found. *)
Ltac enter Hi :=
  cbn [req_id req_exec_id kill_id kill_exec_id kill_signal idreq_id];
  rewrite bool_decide_eq_true_2 by done; go;
  rewrite run_bind, run_get_instance, Hi; go.

Section handlers.
Context {W : Type} {I : Instance W} {H : Host W}.
Implicit Types (s : Local I) (d : InstanceData (T I)).

Lemma on_heap_call {A} (ts : list (prog W Empty_set A)) :
  on_heap (I := I) <$> (call <$> ts) = on_host <$> ts.
Proof. by rewrite <-list_fmap_compose. Qed.

(** [start] on a task that is [ready], on every branch. *)
Lemma task_start_spec s id l d :
  ready s id l d →
  run (task_start (mkReq id "")) s =
  match state d with
  | Created =>
      let '(o, w, ts) := run (Instance.start (instance d)) (world (heap s)) in
      match o with
      | Done p =>
          let '(o', w', ts') := run thread_spawn w in
          let s' := add_event (TaskStart id p)
                      (moved s l (upd d (Some (unwrap_or (pid d) p)) Started Free) w') in
          let spawned := ((on_host <$> ts) ++ (on_host <$> ts'))%list in
          match o' with
          | Done _ => (Done (mkStartResp p), s', (spawned ++ [wait_thread id l p])%list)
          | Failed _ => (Failed (AnyErr "could not spawn thread to wait exit"), s', spawned)
          | Panicked m => (Panicked m, s', spawned)
          | Blocked => (Blocked, s', spawned)
          end
      | Failed e => (Failed e, moved s l (upd d (pid d) Exited Free) w, on_host <$> ts)
      | Panicked m => (Panicked m, moved s l (upd d (pid d) Starting Poisoned) w, on_host <$> ts)
      | Blocked => (Blocked, moved s l (upd d (pid d) Starting Held) w, on_host <$> ts)
      end
  | st => (Failed (FailedPrecondition
             ("invalid state transition: " +:+ debug st +:+ " => Starting")), s, [])
  end.
Proof.
  intros [Hi Hd Hf]. unfold task_start. enter Hi.
  rewrite run_bind, run_on_heap, (start_spec _ _ d) by done.
  destruct (state d); try (go; by rewrite set_heap_id).
  destruct (run (Instance.start (instance d)) (world (heap s))) as [[[p|e|m|] w] ts]; go;
    rewrite on_heap_call; try done.
  rewrite run_bind. unfold send; go. rewrite run_bind, run_on_host, run_map_err. simpl world.
  destruct (run thread_spawn w) as [[[[]|e|m|] w'] ts']; go; rewrite ?app_nil_r; try done.
  by rewrite <-?app_assoc.
Qed.

(** C6: what a start request does to a task.  One in the state [Created] is
    started: its process id is recorded, one [TaskStart] is sent and one thread
    is left behind that waits for the exit; when the instance cannot be started
    the task becomes [Exited], so it can still be deleted, the error is returned
    and no event is sent; when only the thread cannot be created, the request
    fails although the task runs.  In any other state the request fails with
    [FailedPrecondition] and nothing changes. *)
Theorem task_start_correct s id l d :
  ready s id l d →
  run (task_start (mkReq id "")) s =
  match state d with
  | Created =>
      let '(o, w, ts) := run (Instance.start (instance d)) (world (heap s)) in
      match o with
      | Done p =>
          let '(o', w', ts') := run thread_spawn w in
          let s' := add_event (TaskStart id p)
                      (moved s l (upd d (Some (unwrap_or (pid d) p)) Started Free) w') in
          let spawned := ((on_host <$> ts) ++ (on_host <$> ts'))%list in
          match o' with
          | Done _ => (Done (mkStartResp p), s', (spawned ++ [wait_thread id l p])%list)
          | Failed _ => (Failed (AnyErr "could not spawn thread to wait exit"), s', spawned)
          | Panicked m => (Panicked m, s', spawned)
          | Blocked => (Blocked, s', spawned)
          end
      | Failed e => (Failed e, moved s l (upd d (pid d) Exited Free) w, on_host <$> ts)
      | Panicked m => (Panicked m, moved s l (upd d (pid d) Starting Poisoned) w, on_host <$> ts)
      | Blocked => (Blocked, moved s l (upd d (pid d) Starting Held) w, on_host <$> ts)
      end
  | st => (Failed (FailedPrecondition
             ("invalid state transition: " +:+ debug st +:+ " => Starting")), s, [])
  end.
Proof. exact (task_start_spec s id l d). Qed.

Lemma task_wait_spec `{L : !InstanceLaws I} s id l d :
  ready s id l d →
  run (task_wait (mkReq id "")) s =
  match exit_status (instance d) (world (heap s)) with
  | Some (code, time) =>
      (Done (mkWaitResp code (Some (to_timestamp time))),
       moved s l (upd d (pid d) Exited Free) (world (heap s)), [])
  | None => (Blocked, s, [])
  end.
Proof.
  intros [Hi Hd Hf]. unfold task_wait. enter Hi.
  rewrite run_bind, run_on_heap, (wait_spec _ _ d) by done.
  destruct (exit_status _ _) as [[code time]|]; go; [done|by rewrite set_heap_id].
Qed.

(** The thread left by [task_start] reports the exit once, with the process id
    of the start. *)
Lemma wait_thread_reports `{L : !InstanceLaws I} s id l d p code time :
  ready s id l d → exit_status (instance d) (world (heap s)) = Some (code, time) →
  run (wait_thread id l p) s =
  (Done tt, add_event (TaskExit id code (Some (to_timestamp time)) p id)
     (moved s l (upd d (pid d) Exited Free) (world (heap s))), []).
Proof.
  intros [Hi Hd Hf] Hx. unfold wait_thread.
  rewrite run_bind, run_on_heap, (wait_spec _ _ d) by done. by rewrite Hx.
Qed.

Lemma wait_thread_blocks `{L : !InstanceLaws I} s id l d p :
  ready s id l d → exit_status (instance d) (world (heap s)) = None →
  run (wait_thread id l p) s = (Blocked, s, []).
Proof.
  intros [Hi Hd Hf] Hx. unfold wait_thread.
  rewrite run_bind, run_on_heap, (wait_spec _ _ d), Hx by done. go.
  by rewrite set_heap_id.
Qed.

(** C8: the status that containerd sees: [CREATED] until the instance has a
    process id, then [RUNNING] until it has an exit status, then [STOPPED]
    with that status. *)
Theorem task_state_correct `{L : !InstanceLaws I} s id l d :
  ready s id l d →
  run (task_state (mkReq id "")) s =
  (Done {| state_bundle := bundle (cfg d); state_stdin := stdin (cfg d);
           state_stdout := stdout (cfg d); state_stderr := stderr (cfg d);
           state_pid := unwrap_or (pid d) 0%Z;
           state_exit_status :=
             unwrap_or (fst <$> exit_status (instance d) (world (heap s))) 0%Z;
           state_exited_at := to_timestamp ∘ snd <$> exit_status (instance d) (world (heap s));
           state_status :=
             match pid d, exit_status (instance d) (world (heap s)) with
             | None, _ => CREATED
             | Some _, None => RUNNING
             | Some _, Some _ => STOPPED
             end |},
   match exit_status (instance d) (world (heap s)) with
   | None => s
   | Some _ => moved s l (upd d (pid d) Exited Free) (world (heap s))
   end, []).
Proof.
  intros [Hi Hd Hf]. unfold task_state. enter Hi.
  rewrite run_bind, run_on_heap, (get_pid_spec _ _ d) by done; go.
  rewrite run_bind, run_on_heap, set_heap_id, (wait_timeout_zero_spec _ _ d) by done; go.
  destruct (exit_status (instance d) (world (heap s))) as [[code time]|] eqn:Hx; go.
  - rewrite run_bind, run_on_heap, (config_spec _ _ (upd d (pid d) Exited Free))
      by apply lookup_insert_eq. go. by destruct (pid d).
  - rewrite !set_heap_id, run_bind, run_on_heap, (config_spec _ _ d) by done; go.
    rewrite set_heap_id. by destruct (pid d).
Qed.

(** [delete] on a task that may be deleted. *)
Lemma task_delete_spec `{L : !InstanceLaws I} s id l d w ts :
  ready s id l d → state d = Created ∨ state d = Exited →
  run (Instance.delete (instance d)) (world (heap s)) = (Done tt, w, ts) →
  let x := exit_status (instance d) w in
  let p := unwrap_or (pid d) 0%Z in
  let code := unwrap_or (fst <$> x) 0%Z in
  let time := to_timestamp <$> (snd <$> x) in
  let st := match x with Some _ => Exited | None => Deleting end in
  run (task_delete (mkReq id "")) s =
  (Done (mkDeleteResp p code time),
   add_event (TaskDelete id p code time)
     (set_instances (base.delete id (instances s)) (moved s l (upd d (pid d) st Free) w)),
   on_host <$> ts).
Proof.
  intros [Hi Hd Hf] Hs Hdel x p code time st. unfold task_delete. enter Hi.
  rewrite run_bind, run_on_heap, (delete_done_spec _ _ d w ts) by done.
  go. rewrite on_heap_call.
  rewrite run_bind, run_on_heap, (get_pid_spec _ _ (upd d (pid d) Deleting Free))
    by apply lookup_insert_eq. go.
  rewrite run_bind, run_on_heap,
    (wait_timeout_zero_spec _ _ (upd d (pid d) Deleting Free)) by (done || apply lookup_insert_eq).
  simpl. fold x. subst st.
  destruct x as [[c t]|] eqn:Hx; simpl; rewrite app_nil_r; [|done].
  unfold moved, after, set_heap, set_instances, add_event; simpl.
  by rewrite insert_insert_eq.
Qed.

(** C7: deleting a task that was never started or that has exited deletes its
    instance, removes it from the service, and reports its process id and exit
    status in the response and in one [TaskDelete]. *)
Theorem task_delete_correct `{L : !InstanceLaws I} s id l d w ts :
  ready s id l d → state d = Created ∨ state d = Exited →
  run (Instance.delete (instance d)) (world (heap s)) = (Done tt, w, ts) →
  let x := exit_status (instance d) w in
  let p := unwrap_or (pid d) 0%Z in
  let code := unwrap_or (fst <$> x) 0%Z in
  let time := to_timestamp <$> (snd <$> x) in
  let st := match x with Some _ => Exited | None => Deleting end in
  run (task_delete (mkReq id "")) s =
  (Done (mkDeleteResp p code time),
   add_event (TaskDelete id p code time)
     (set_instances (base.delete id (instances s)) (moved s l (upd d (pid d) st Free) w)),
   on_host <$> ts).
Proof. exact (task_delete_spec s id l d w ts). Qed.
End handlers.

Section creation.
Context {W : Type} {I : Instance W} {H : Host W}.
Implicit Types (s : Local I) (d : InstanceData (T I)).

(** The parts of the service that a call of the host cannot touch. *)
Definition same_tasks s s' : Prop :=
  instances s' = instances s ∧ arena (heap s') = arena (heap s) ∧ events s' = events s ∧
  exit_signaled s' = exit_signaled s ∧ local_namespace s' = local_namespace s ∧
  local_address s' = local_address s.

#[export] Instance same_tasks_preorder : PreOrder same_tasks.
Proof.
  split; [by intros s|]. intros s1 s2 s3 (?&?&?&?&?&?) (?&?&?&?&?&?).
  repeat split; etrans; eauto.
Qed.

Lemma runs_to_on_host {E A} (p : prog W E A) s Q :
  (∀ o s', same_tasks s s' → Q o s') → runs_to (on_host p) s Q.
Proof.
  unfold runs_to. rewrite run_on_host.
  destruct (run p (world (heap s))) as [[o w] ts]; simpl. intros HQ. by apply HQ.
Qed.

Lemma runs_to_mounts rootfs ms s Q :
  (∀ o s', same_tasks s s' → Q o s') → runs_to (for_each (mount_one rootfs) ms) s Q.
Proof.
  revert s Q. induction ms as [|m ms IH]; intros s Q HQ; simpl; [by apply HQ|].
  apply runs_to_bind, runs_to_on_host. intros o s1 Hs1. destruct o; simpl; auto.
  apply runs_to_bind, IH. intros o' s2 Hs2. destruct o'; simpl; apply HQ; by etrans.
Qed.

Definition task_config (req : CreateTaskRequest) s : InstanceConfig :=
  mkConfig (create_stdin req) (create_stdout req) (create_stderr req) (create_bundle req)
    (local_namespace s) (local_address s).

(** The task of [req] has been added to [s]: a new instance in the state
    [Created], and one event. *)
Definition registered (req : CreateTaskRequest) s s' : Prop :=
  instances s !! create_id req = None ∧
  ∃ l d, arena (heap s) !! l = None ∧
    instances s' = <[create_id req := l]> (instances s) ∧
    arena (heap s') = <[l := d]> (arena (heap s)) ∧
    cfg d = task_config req s ∧ pid d = None ∧ state d = Created ∧ lock d = Free ∧
    events s' = (events s ++ [TaskCreate (create_id req) (create_bundle req)
      (create_rootfs req) (create_stdin req) (create_stdout req) (create_stderr req)])%list ∧
    exit_signaled s' = exit_signaled s.

Lemma registered_host req s s1 s2 :
  registered req s s1 → same_tasks s1 s2 → registered req s s2.
Proof.
  intros (Hid & l & d & H1 & H2 & H3 & H4 & H5 & H6 & H7 & H8 & H9) (E1 & E2 & E3 & E4 & _).
  split; [done|]. exists l, d. rewrite E1, E2, E3, E4. repeat split; done.
Qed.

(** The last part of [task_create], from [Instance::new] on. *)
Lemma register_steps req spec s :
  instances s !! create_id req = None →
  runs_to
    (bind (on_heap (InstanceData_new (create_id req) (task_config req s))) (λ data,
     bind (on_heap (alloc data)) (λ l,
     bind (modify (λ s, set_instances (<[create_id req := l]> (instances s)) s)) (λ _,
     bind (send (TaskCreate (create_id req) (create_bundle req) (create_rootfs req)
          (create_stdin req) (create_stdout req) (create_stderr req))) (λ _,
     bind (on_host (setup_prestart_hooks (hooks spec))) (λ _,
     Ret {| create_pid := process_id |}))))))
    s (λ o s', registered req s s' ∨
               same_tasks s s' ∧ match o with Done _ => False | _ => True end).
Proof.
  intros Hid. apply runs_to_bind. unfold runs_to at 1. unfold InstanceData_new.
  rewrite run_on_heap, run_bind, run_call.
  destruct (run (Instance.new _ _) _) as [[[inst|e|m|] w] ts]; go; cbn [cont fst snd];
    [|by right..].
  set (d := mkData _ _ _ _ _).
  apply runs_to_bind. unfold runs_to at 1. rewrite run_on_heap. unfold alloc. go.
  cbn [cont]. simpl heap. simpl arena. set (l := fresh (dom (arena (heap s)))).
  apply runs_to_bind. unfold runs_to at 1. go. cbn [cont].
  apply runs_to_bind. unfold runs_to at 1, send. go. cbn [cont].
  apply runs_to_bind, runs_to_on_host. intros o s' Hs'.
  assert (registered req s s') as Hreg.
  { eapply registered_host; [|exact Hs']. split; [done|]. exists l, d. simpl.
    repeat split; try done. apply not_elem_of_dom. apply is_fresh. }
  by destruct o; left.
Qed.

Lemma task_create_cases req s o s' ts :
  run (task_create req) s = (o, s', ts) →
  registered req s s' ∨ (same_tasks s s' ∧ ∀ r, o ≠ Done r).
Proof.
  intros Hrun.
  enough (runs_to (task_create req) s (λ o s', registered req s s' ∨
    same_tasks s s' ∧ match o with Done _ => False | _ => True end)) as Hall.
  { unfold runs_to in Hall. rewrite Hrun in Hall. simpl in Hall.
    destruct Hall as [?|[? ?]]; [by left|right; split; [done|]]. by intros r ->. }
  clear Hrun. unfold task_create.
  destruct (_ || _); [by right|]. destruct (create_terminal req); [by right|].
  apply runs_to_bind. unfold has_instance, runs_to at 1. go. cbn [cont].
  destruct (instances s !! create_id req) eqn:Hid;
    [by rewrite bool_decide_eq_true_2 by eauto; right|].
  rewrite bool_decide_eq_false_2 by (by intros [? ?]).
  apply runs_to_bind, runs_to_on_host. intros [spec|?|?|] s1 Hs1; cbn [cont]; [|by right..].
  apply runs_to_bind, runs_to_on_host. intros [spec2|?|?|] s2 Hs2; cbn [cont]; [|by right; split; [etrans|]..].
  assert (same_tasks s s2) as Hs by (by etrans). clear Hs1 Hs2 s1.
  apply runs_to_bind. destruct (root spec2) as [r|]; unfold runs_to at 1; go; cbn [cont]; [|by right].
  apply runs_to_bind, runs_to_on_host. intros [?|?|?|] s3 Hs3; cbn [cont]; [|by right; split; [etrans|]..].
  apply runs_to_bind, runs_to_mounts. intros [?|?|?|] s4 Hs4; cbn [cont]; [|by right; split; [do 2 etrans|]..].
  assert (same_tasks s s4) as Hs' by (by do 2 etrans). clear Hs Hs3 Hs4 s2 s3.
  apply runs_to_bind. unfold instance_config, runs_to at 1. go. cbn [cont].
  destruct Hs' as (E1 & E2 & E3 & E4 & E5 & E6).
  eapply runs_to_mono; [apply (register_steps req spec2 s4); by rewrite E1|].
  intros o1 s5 [(Hn & l & d & H1 & H2 & H3 & H4 & H5 & H6 & H7 & H8 & H9)|[Hsame Ho]].
  - left. split; [done|]. exists l, d. unfold task_config in *.
    rewrite E1, E2, E3, E4, E5, E6 in *. repeat split; done.
  - right. split; [|done]. etrans; [|exact Hsame]. repeat split; done.
Qed.

(** C5: a create request either adds exactly one task, in the state [Created],
    with the configuration of the request, under a fresh address and with one
    [TaskCreate] event, or it leaves every task and the events alone; a
    request that is answered has added its task. *)
Theorem task_create_correct req s o s' ts :
  run (task_create req) s = (o, s', ts) →
  registered req s s' ∨ (same_tasks s s' ∧ ∀ r, o ≠ Done r).
Proof. exact (task_create_cases req s o s' ts). Qed.
End creation.
