(* ===== verification/Windows.v ===== *)
(** The instance of Windows (sys/windows/container/instance.rs and
    sys/windows/metrics.rs): a stub, every method of which panics.  What that means
    for the task service that is generic over it. *)
From S2P Require Import Prelude Errors TaskState Sync Instance InstanceData Paths Oci Local.
Local Open Scope string_scope.

(** [todo!()] *)
Definition TODO : string := "not yet implemented".

#[export] Instance windows_instance (W : Type) : Instance W := {|
  Instance.T := unit;                                  (* PhantomData *)
  Instance.new _ _ := Panic TODO;
  Instance.start _ := Panic TODO;
  Instance.kill _ _ := Panic TODO;
  Instance.delete _ := Panic TODO;
  Instance.wait_timeout _ _ := Panic TODO;
|}.

Section windows.
Context {W : Type} {H : Host W}.

(** sys/windows/metrics.rs: an empty message, whatever the process. *)
Definition windows_get_metrics (empty : Metrics) (p : u32) : result string AnyMessage :=
  convert_to_any empty.

(** On Windows the service answers no create request: it is refused, or the handler
    panics. *)
Theorem windows_creates_no_task req : yields (λ _, False) (task_create (I := windows_instance W) req).
Proof.
  unfold task_create. destruct (_ || _); [done|]. destruct (create_terminal req); [done|].
  apply yields_bind, yields_any. intros []; [done|].
  do 5 (apply yields_bind, yields_any; intros ?). apply yields_bind, yields_any. intros cfg.
  apply yields_bind. done.
Qed.
End windows.
