(* ===== verification/Threads.v ===== *)
(** Handlers running concurrently.

    A shim serves every request on a thread of its own and spawns further
    threads.  [cstep] interleaves the atomic steps of such threads on the shared
    state, and lets new requests arrive at any time.  [tracked] is such a run in which
    each step is labelled with its thread, and which records who holds which lock.

    The file provides four ways to prove what holds under every interleaving: [guar]
    for relations between the states before and after any step, [wp] for invariants
    that depend on what a thread owns while it holds a lock, [keeps] for invariants of
    a state that all threads share, with what a request can learn from them, and
    [sees] for what an answer says of a record that only grows. *)
From S2P Require Import Prelude.

Lemma insert_middle {A : Type} (l1 l2 : list A) x y :
  <[length l1 := y]> (l1 ++ x :: l2) = l1 ++ y :: l2.
Proof. induction l1; simpl; [done|]. by f_equal. Qed.

Section threads.
Context {S E R : Type}.

(** One step of a handler: it goes on as the returned handler. *)
Definition pstep {E' A : Type} (p : prog S E' A) (s : S) :
    option (prog S E' A * S * list (thread S)) :=
  match p with
  | Act f k => match f s with
               | Some (b, s') => Some (k b, s', [])
               | None => None
               end
  | Fork t k => Some (k, s, [t])
  | _ => None
  end.

(** A thread of the pool: one that answers a request, or a spawned one. *)
Inductive task :=
| Serving (p : prog S E R)
| Spawned (t : thread S).

(** [reqs]: the handlers that a request can start. *)
Context (reqs : prog S E R → Prop).

Inductive cstep : S * list task → S * list task → Prop :=
| cstep_arrive s ts p : reqs p → cstep (s, ts) (s, ts ++ [Serving p])
| cstep_serving s ts1 ts2 p p' s' new :
    pstep p s = Some (p', s', new) →
    cstep (s, ts1 ++ Serving p :: ts2) (s', ts1 ++ Serving p' :: ts2 ++ (Spawned <$> new))
| cstep_spawned s ts1 ts2 t t' s' new :
    pstep t s = Some (t', s', new) →
    cstep (s, ts1 ++ Spawned t :: ts2) (s', ts1 ++ Spawned t' :: ts2 ++ (Spawned <$> new)).

(** The next step of a thread of the pool. *)
Definition tstep (x : task) (s : S) : option (task * S * list (thread S)) :=
  match x with
  | Serving p => match pstep p s with Some (p', s', n) => Some (Serving p', s', n) | None => None end
  | Spawned t => match pstep t s with Some (t', s', n) => Some (Spawned t', s', n) | None => None end
  end.

(** The same steps with who makes them: a new request, or the thread at a place of
    the pool.  A thread keeps its place. *)
Inductive acts : option nat → S * list task → S * list task → Prop :=
| acts_arrive s ts p : reqs p → acts None (s, ts) (s, ts ++ [Serving p])
| acts_thread i s ts x x' s' new :
    ts !! i = Some x → tstep x s = Some (x', s', new) →
    acts (Some i) (s, ts) (s', <[i := x']> ts ++ (Spawned <$> new)).

Lemma acts_cstep who c c' : acts who c c' → cstep c c'.
Proof.
  intros [s ts p Hp|i s ts x x' s' new Hi Hx]; [by constructor|].
  rewrite insert_take_drop by (by eapply lookup_lt_Some).
  rewrite <-(take_drop_middle ts i x Hi) at 1. rewrite <-app_assoc. simpl.
  destruct x as [p|t]; simpl in Hx; case_match; simplify_eq; case_match; simplify_eq;
    case_match; simplify_eq; by constructor.
Qed.

Lemma cstep_acts c c' : cstep c c' → ∃ who, acts who c c'.
Proof.
  intros [s ts p Hp|s ts1 ts2 p p' s' new Hs|s ts1 ts2 p p' s' new Hs];
    [exists None; by constructor|exists (Some (length ts1))..].
  - rewrite app_comm_cons, (assoc_L (++)), <-(insert_middle ts1 ts2 (Serving p) (Serving p')).
    eapply acts_thread; [by apply list_lookup_middle|]. simpl. by rewrite Hs.
  - rewrite app_comm_cons, (assoc_L (++)), <-(insert_middle ts1 ts2 (Spawned p) (Spawned p')).
    eapply acts_thread; [by apply list_lookup_middle|]. simpl. by rewrite Hs.
Qed.

(** ** Relations that every step satisfies *)

(** Every atomic step of [p] and of the threads it spawns is in [G]. *)
Fixpoint guar (G : S → S → Prop) {E' A : Type} (p : prog S E' A) : Prop :=
  match p with
  | Act f k => (∀ s b s', f s = Some (b, s') → G s s') ∧ ∀ b, guar G (k b)
  | Fork t k => guar G t ∧ guar G k
  | _ => True
  end.

Lemma guar_pstep G {E' A : Type} (p p' : prog S E' A) s s' new :
  Reflexive G → guar G p → pstep p s = Some (p', s', new) →
  G s s' ∧ guar G p' ∧ Forall (guar G) new.
Proof.
  intros HG Hp Hs. destruct p as [|?|?|B f k|t k]; simpl in *; try done.
  - destruct Hp as [Hf Hk]. destruct (f s) as [[b s1]|] eqn:Hfs; [|done].
    injection Hs as <- <- <-. eauto.
  - destruct Hp as [Ht Hk]. injection Hs as <- <- <-. auto.
Qed.

Definition task_guar (G : S → S → Prop) (x : task) : Prop :=
  match x with Serving p => guar G p | Spawned t => guar G t end.

Lemma guar_spawned G new : Forall (guar G) new → Forall (task_guar G) (Spawned <$> new).
Proof. intros Hn. by apply Forall_fmap. Qed.

(** Under every interleaving two successive states are related by [G]. *)
Lemma cstep_guar G c c' :
  PreOrder G → (∀ p, reqs p → guar G p) → Forall (task_guar G) c.2 →
  rtc cstep c c' → G c.1 c'.1 ∧ Forall (task_guar G) c'.2.
Proof.
  intros HG Hreqs Hc Hst. induction Hst as [c|c1 c2 c3 H12 _ IH]; [by split|].
  enough (G c1.1 c2.1 ∧ Forall (task_guar G) c2.2) as [H1 H2].
  { destruct (IH H2) as [H3 H4]. split; [by etrans|done]. }
  clear IH c3.
  destruct H12 as [s ts p Hp|s ts1 ts2 p p' s' new Hs|s ts1 ts2 t t' s' new Hs]; simpl in *.
  - split; [done|]. apply Forall_app. split; [done|]. constructor; [|done]. by apply Hreqs.
  - apply Forall_app in Hc as [H1 H2]. inversion H2 as [|?? Hp H3]; subst.
    destruct (guar_pstep G p p' s s' new) as (?&?&?); [apply _|done..|].
    split; [done|]. apply Forall_app; split; [done|]. constructor; [done|].
    apply Forall_app; split; [done|]. by apply guar_spawned.
  - apply Forall_app in Hc as [H1 H2]. inversion H2 as [|?? Hp H3]; subst.
    destruct (guar_pstep G t t' s s' new) as (?&?&?); [apply _|done..|].
    split; [done|]. apply Forall_app; split; [done|]. constructor; [done|].
    apply Forall_app; split; [done|]. by apply guar_spawned.
Qed.
End threads.
Arguments task : clear implicits.

(** [guar] follows the structure of a handler. *)
Section guar_rules.
Context {S : Type} (G : S → S → Prop).

Lemma guar_bind {E A B : Type} (p : prog S E A) (k : A → prog S E B) :
  guar G p → (∀ a, guar G (k a)) → guar G (bind p k).
Proof. induction p as [E A a|E A e|E A m|E A C f q IH|E A t IHt q IH]; simpl; naive_solver. Qed.

Lemma guar_attempt {E E' A : Type} (p : prog S E A) : guar G p → guar G (attempt (E' := E') p).
Proof. induction p as [E A a|E A e|E A m|E A C f q IH|E A t IHt q IH]; simpl; naive_solver. Qed.

Lemma guar_map_err {E E' A : Type} (g : E → E') (p : prog S E A) : guar G p → guar G (map_err g p).
Proof. induction p as [E A a|E A e|E A m|E A C f q IH|E A t IHt q IH]; simpl; naive_solver. Qed.

Lemma guar_finally {E A : Type} (p : prog S E A) d u :
  guar G p → guar G d → guar G u → guar G (finally p d u).
Proof.
  intros Hp Hd Hu. induction p as [E A a|E A e|E A m|E A C f q IH|E A t IHt q IH];
    simpl in *; try (apply guar_bind; [done|]; done); naive_solver.
Qed.

Lemma guar_lift {E A : Type} (r : result E A) : guar G (lift_result r).
Proof. by destruct r. Qed.

Lemma guar_for_each {E X A : Type} (body : X → prog S E A) l :
  (∀ x, guar G (body x)) → guar G (for_each body l).
Proof.
  intros Hb. induction l as [|x l IH]; simpl; [done|].
  apply guar_bind; [done|]. intros a. by apply guar_bind.
Qed.

Lemma guar_gets {E A : Type} (f : S → A) : Reflexive G → guar G (gets (E := E) f).
Proof. intros HG. simpl. split; [|done]. by intros s b s' [= _ <-]. Qed.

Lemma guar_modify {E} (f : S → S) : (∀ s, G s (f s)) → guar G (modify (E := E) f).
Proof. intros HG. simpl. split; [|done]. intros s b s' [= _ <-]. apply HG. Qed.
End guar_rules.

Lemma guar_zoom {S W E A : Type} (G : S → S → Prop) (get : S → W) (put : W → S → S) (p : prog W E A) :
  guar (λ w w', ∀ s, get s = w → G s (put w' s)) p → guar G (zoom get put p).
Proof.
  induction p as [E A a|E A e|E A m|E A C f q IH|E A t IHt q IH]; simpl; try done.
  - intros [Hf Hq]. split; [|auto]. intros s b s'.
    destruct (f (get s)) as [[b' w]|] eqn:Hfs; [|done]. intros [= _ <-]. eauto.
  - naive_solver.
Qed.

Lemma guar_mono {S E A : Type} (G G' : S → S → Prop) (p : prog S E A) :
  (∀ s s', G s s' → G' s s') → guar G p → guar G' p.
Proof.
  intros HG. induction p as [E A a|E A e|E A m|E A C f q IH|E A t IHt q IH]; simpl; naive_solver.
Qed.

Lemma guar_any {S E A : Type} (G : S → S → Prop) (p : prog S E A) : (∀ s s', G s s') → guar G p.
Proof.
  intros HG. induction p as [E A a|E A e|E A m|E A C f q IH|E A t IHt q IH]; simpl; naive_solver.
Qed.

#[export] Hint Resolve guar_bind guar_attempt guar_map_err guar_finally guar_lift
  guar_for_each guar_gets guar_modify : shim.

(** ** Locks and what they protect

    [view s] maps every lock that is held in [s] to the value it protects, and
    [Inv] is what holds of the rest.  [wp o p Q]: started while it owns [o], a
    part of [view s], the handler [p] keeps [Inv] at every step whatever the
    other threads do meanwhile to what they own, and ends in an outcome and an
    ownership that satisfy [Q]. *)
Section ownership.
Context {S K V : Type} `{Countable K} (view : S → gmap K V) (Inv : S → Prop).

(** A step from [s] to [s'] that turns the owned part [o] into [o']. *)
Definition owned_step (o o' : gmap K V) (s s' : S) : Prop :=
  Inv s' ∧ ∀ r, view s = o ∪ r → o ##ₘ r → view s' = o' ∪ r ∧ o' ##ₘ r.

Fixpoint wp (o : gmap K V) {E A : Type} (p : prog S E A)
    (Q : gmap K V → outcome E A → Prop) : Prop :=
  match p with
  | Ret a => Q o (Done a)
  | Throw e => Q o (Failed e)
  | Panic m => Q o (Panicked m)
  | Act f k => ∀ s b s', Inv s → o ⊆ view s → f s = Some (b, s') →
               ∃ o', owned_step o o' s s' ∧ wp o' (k b) Q
  | Fork t k => wp ∅ t (λ o' _, o' = ∅) ∧ wp o k Q
  end.

Lemma wp_mono o {E A : Type} (p : prog S E A) Q Q' :
  wp o p Q → (∀ o x, Q o x → Q' o x) → wp o p Q'.
Proof.
  revert o. induction p as [E A a|E A e|E A m|E A C f q IH|E A t IHt q IH];
    intros o; simpl; try by auto.
  - intros Hp HQ s b s' HI Ho Hf. destruct (Hp s b s') as (o' & ? & ?); eauto.
  - intros [? ?] HQ. eauto.
Qed.

(** How a [bind] goes on after its first part. *)
Definition wp_cont {E A B : Type} (k : A → prog S E B) (Q : gmap K V → outcome E B → Prop)
    (o : gmap K V) (x : outcome E A) : Prop :=
  match x with
  | Done a => wp o (k a) Q
  | Failed e => Q o (Failed e)
  | Panicked m => Q o (Panicked m)
  | Blocked => True
  end.

Lemma wp_bind o {E A B : Type} (p : prog S E A) (k : A → prog S E B) Q :
  wp o p (wp_cont k Q) → wp o (bind p k) Q.
Proof.
  revert o. induction p as [E A a|E A e|E A m|E A C f q IH|E A t IHt q IH];
    intros o; simpl; try done.
  - intros Hp s b s' HI Ho Hf. destruct (Hp s b s') as (o' & ? & ?); eauto.
  - intros [? ?]. eauto.
Qed.

Lemma wp_attempt o {E E' A : Type} (p : prog S E A) Q :
  wp o p (λ o x, Q o (attempt_outcome x)) → wp o (attempt (E' := E') p) Q.
Proof.
  revert o. induction p as [E A a|E A e|E A m|E A C f q IH|E A t IHt q IH];
    intros o; simpl; try done.
  - intros Hp s b s' HI Ho Hf. destruct (Hp s b s') as (o' & ? & ?); eauto.
  - intros [? ?]. eauto.
Qed.

Lemma wp_map_err o {E E' A : Type} (g : E → E') (p : prog S E A) Q :
  wp o p (λ o x, Q o (map_err_outcome g x)) → wp o (map_err g p) Q.
Proof.
  revert o. induction p as [E A a|E A e|E A m|E A C f q IH|E A t IHt q IH];
    intros o; simpl; try done.
  - intros Hp s b s' HI Ho Hf. destruct (Hp s b s') as (o' & ? & ?); eauto.
  - intros [? ?]. eauto.
Qed.

(** The scope of a [Drop] value. *)
Lemma wp_finally o {E A : Type} (p : prog S E A) d u Q :
  wp o p (λ o x, match x with
    | Done a => wp o (bind d (λ _, Ret a)) Q
    | Failed e => wp o (bind d (λ _, Throw e)) Q
    | Panicked m => wp o (bind u (λ _, Panic m)) Q
    | Blocked => True
    end) → wp o (finally p d u) Q.
Proof.
  revert o. induction p as [E A a|E A e|E A m|E A C f q IH|E A t IHt q IH];
    intros o; simpl; try done.
  - intros Hp s b s' HI Ho Hf. destruct (Hp s b s') as (o' & ? & ?); eauto.
  - intros [? ?]. eauto.
Qed.

(** A handler whose steps leave the locks alone. *)
Lemma wp_neutral o {E A : Type} (p : prog S E A) (Q : gmap K V → outcome E A → Prop) :
  guar (λ s s', Inv s → Inv s' ∧ view s' = view s) p →
  (∀ x, Q o x) → wp o p Q.
Proof.
  revert o Q. induction p as [E A a|E A e|E A m|E A C f q IH|E A t IHt q IH];
    intros o Q; simpl; try by auto.
  - intros [Hf Hq] HQ s b s' HI Ho Hfs. exists o. split; [|by apply IH].
    destruct (Hf _ _ _ Hfs HI) as [HI' Hv]. split; [done|]. by rewrite Hv.
  - intros [Ht Hq] HQ. split; [by apply IHt|by apply IH].
Qed.

(** *** A pool of threads *)

Definition task_wp {E R : Type} (o : gmap K V) (x : task S E R) : Prop :=
  match x with
  | Serving p => wp o p (λ o _, o = ∅)
  | Spawned t => wp o t (λ o _, o = ∅)
  end.

Lemma wp_pstep o {E A : Type} (p p' : prog S E A) Q s s' new :
  wp o p Q → Inv s → o ⊆ view s → pstep p s = Some (p', s', new) →
  ∃ o', owned_step o o' s s' ∧ wp o' p' Q ∧
    Forall (λ t, wp ∅ t (λ o _, o = ∅)) new.
Proof.
  intros Hp HI Ho Hs. destruct p as [|?|?|B f k|t k]; simpl in *; try done.
  - destruct (f s) as [[b s1]|] eqn:Hfs; [|done]. injection Hs as <- <- <-.
    destruct (Hp s b s1) as (o' & ? & ?); eauto 10.
  - destruct Hp as [Ht Hk]. injection Hs as <- <- <-. exists o.
    split; [|by auto]. by split.
Qed.

Lemma wp_tstep o {E R : Type} (x x' : task S E R) s s' new :
  task_wp o x → Inv s → o ⊆ view s → tstep x s = Some (x', s', new) →
  ∃ o', owned_step o o' s s' ∧ task_wp o' x' ∧ Forall (task_wp (E := E) (R := R) ∅) (Spawned <$> new).
Proof.
  intros Hx HI Ho Hs. destruct x as [p|p]; simpl in *;
    destruct (pstep p s) as [[[p' s1] n]|] eqn:Hp; simplify_eq;
    destruct (wp_pstep o p p' _ s s' new Hx HI Ho Hp) as (o' & ? & ? & ?);
    exists o'; split_and!; try done; by apply Forall_fmap.
Qed.

(** *** Who holds a lock

    [h] names, for every lock that is held, the place in the pool of the thread
    whose step took it; the lock stays with that thread until a step frees it. *)
Definition holders (who : option nat) (m : gmap K V) (h : gmap K nat) : gmap K nat :=
  map_imap (λ k _, match h !! k with Some j => Some j | None => who end) m.

(** An execution with its holders. *)
Inductive tracked {E R : Type} (reqs : prog S E R → Prop) :
    (S * list (task S E R)) * gmap K nat → (S * list (task S E R)) * gmap K nat → Prop :=
| tracked_step who c c' h :
    acts reqs who c c' → tracked reqs (c, h) (c', holders who (view c'.1) h).

(** Every execution has holders. *)
Lemma tracked_complete {E R : Type} (reqs : prog S E R → Prop) c c' h :
  rtc (cstep reqs) c c' → ∃ h', rtc (tracked reqs) (c, h) (c', h').
Proof.
  intros Hst. revert h. induction Hst as [c|c1 c2 c3 H12 _ IH]; intros h; [by exists h|].
  destruct (cstep_acts _ _ _ H12) as [who Hw].
  destruct (IH (holders who (view c2.1) h)) as [h' Hh']. exists h'.
  eapply rtc_l; [by apply tracked_step|done].
Qed.

(** What the thread at place [i] holds. *)
Definition held_by (h : gmap K nat) (i : nat) (m : gmap K V) : gmap K V :=
  filter (λ kv, h !! kv.1 = Some i) m.

Lemma lookup_held_by h i m k v : held_by h i m !! k = Some v ↔ m !! k = Some v ∧ h !! k = Some i.
Proof. unfold held_by. by rewrite map_lookup_filter_Some. Qed.

(** Every lock that is held is held by a thread of the pool, and every thread owns
    exactly what it holds. *)
Record pool_owned {E R : Type} (c : S * list (task S E R)) (h : gmap K nat) : Prop := {
  po_inv : Inv c.1;
  po_held k : is_Some (view c.1 !! k) ↔ is_Some (h !! k);
  po_places k i : h !! k = Some i → (i < length c.2)%nat;
  po_owns i x : c.2 !! i = Some x → task_wp (held_by h i (view c.1)) x;
}.

Lemma held_by_outside {E R : Type} (c : S * list (task S E R)) h i :
  pool_owned c h → (length c.2 ≤ i)%nat → held_by h i (view c.1) = ∅.
Proof.
  intros Hc Hi. apply map_eq. intros k. rewrite lookup_empty.
  apply eq_None_not_Some. intros [v [_ Hk]%lookup_held_by].
  apply (po_places _ _ Hc) in Hk. lia.
Qed.

Lemma pool_owned_init {E R : Type} s :
  Inv s → view s = ∅ → pool_owned (E := E) (R := R) (s, []) ∅.
Proof.
  intros HI Hv. split; simpl; [done|..].
  - intros k. by rewrite Hv, !lookup_empty.
  - intros k i Hk. by rewrite lookup_empty in Hk.
  - intros i x Hi. done.
Qed.

(** A step of the thread at place [i] turns its part into [o'] and nothing else. *)
Lemma held_by_step {E R : Type} (c : S * list (task S E R)) h i o' s' :
  pool_owned c h → owned_step (held_by h i (view c.1)) o' c.1 s' →
  let h' := holders (Some i) (view s') h in
  held_by h' i (view s') = o' ∧
  (∀ j, j ≠ i → held_by h' j (view s') = held_by h j (view c.1)) ∧
  (∀ k, is_Some (view s' !! k) ↔ is_Some (h' !! k)) ∧
  (∀ k j, h' !! k = Some j → j = i ∨ h !! k = Some j).
Proof.
  intros Hc [_ Hst] h'.
  set (r := filter (λ kv, h !! kv.1 ≠ Some i) (view c.1)).
  destruct (Hst r) as [Hv Hd].
  { unfold held_by, r. by rewrite map_filter_union_complement. }
  { apply map_disjoint_filter_complement. }
  assert (∀ k, h' !! k = (view s' !! k) ≫= λ _, Some (default i (h !! k))) as Hh'.
  { intros k. unfold h', holders. rewrite map_lookup_imap.
    destruct (view s' !! k); simpl; [|done]. by destruct (h !! k). }
  assert (∀ k v, r !! k = Some v ↔ view c.1 !! k = Some v ∧ h !! k ≠ Some i) as Hr.
  { intros k v. unfold r. by rewrite map_lookup_filter_Some. }
  assert (∀ k, is_Some (o' !! k) → h !! k = None ∨ h !! k = Some i) as Ho'.
  { intros k [v Hk]. destruct (h !! k) as [j|] eqn:Hj; [right|by left].
    destruct (decide (j = i)) as [->|Hne]; [done|exfalso].
    destruct (proj2 (po_held _ _ Hc k)) as [w Hw]; [by rewrite Hj|].
    eapply (map_disjoint_spec o' r); [done|exact Hk|].
    apply Hr. split; [exact Hw|congruence]. }
  split_and!.
  - apply map_eq. intros k. apply option_eq. intros v. rewrite lookup_held_by, Hh', Hv.
    rewrite lookup_union_Some by done. split.
    + intros [[Hk|[Hk Hki]%Hr] Hi]; [done|].
      destruct (proj1 (po_held _ _ Hc k)) as [j Hj]; [by rewrite Hk|].
      rewrite Hj in Hi. destruct ((o' ∪ r) !! k); simpl in Hi; [|done]. by simplify_eq.
    + intros Hk. split; [by left|].
      rewrite (lookup_union_Some_l _ _ _ _ Hk). simpl.
      by destruct (Ho' k) as [->| ->]; [eexists|..].
  - intros j Hj. apply map_eq. intros k. apply option_eq. intros v.
    rewrite !lookup_held_by, Hh', Hv, lookup_union_Some by done. split.
    + intros [Hk Hi]. assert (h !! k = Some j) as Hkj.
      { destruct ((o' ∪ r) !! k); simpl in Hi; [|done].
        destruct (h !! k) as [j'|]; simplify_eq; done. }
      split; [|done]. destruct Hk as [Hk|Hk]; [|by apply Hr].
      destruct (Ho' k) as [?|?]; [by eexists|congruence..].
    + intros [Hk Hkj]. assert (r !! k = Some v) as Hrk by (apply Hr; split; [done|congruence]).
      split; [by right|]. rewrite (lookup_union_Some_r _ _ _ _ Hd Hrk). simpl. by rewrite Hkj.
  - intros k. rewrite Hh'. destruct (view s' !! k); simpl; [|done]. split; by eexists.
  - intros k j. rewrite Hh'. destruct (view s' !! k); simpl; [|done].
    destruct (h !! k); simpl; intros [= ->]; auto.
Qed.

Lemma acts_owned {E R : Type} (reqs : prog S E R → Prop) who c c' h :
  (∀ p, reqs p → wp ∅ p (λ o _, o = ∅)) → acts reqs who c c' → pool_owned c h →
  pool_owned c' (holders who (view c'.1) h).
Proof.
  intros Hreqs Hst Hc. destruct Hst as [s ts p Hp|i s ts x x' s' new Hi Hx]; simpl in *.
  - assert (holders None (view s) h = h) as ->.
    { apply map_eq. intros k. unfold holders. rewrite map_lookup_imap.
      pose proof (po_held _ _ Hc k) as Hk. simpl in Hk.
      destruct (view s !! k), (h !! k); simpl; try done; destruct Hk; naive_solver. }
    split; [apply Hc..| |]; simpl.
    + intros k i Hk. apply (po_places _ _ Hc) in Hk. rewrite length_app. simpl in *. lia.
    + intros i y [Hy|[Hge Hy]]%lookup_app_Some; [by apply Hc|].
      apply list_lookup_singleton_Some in Hy as [_ <-].
      pose proof (held_by_outside _ _ i Hc Hge) as Hout. simpl in Hout. rewrite Hout. by apply Hreqs.
  - destruct (wp_tstep (held_by h i (view s)) x x' s s' new) as (o' & Hst & Hx' & Hnew);
      [by apply (po_owns _ _ Hc)|by apply Hc|apply map_filter_subseteq|done|].
    destruct (held_by_step _ _ _ _ _ Hc Hst) as (Hme & Hothers & Hdom & Hnewh).
    pose proof (lookup_lt_Some _ _ _ Hi) as Hlt. simpl in *.
    split; simpl.
    + apply Hst.
    + done.
    + intros k j [->|Hk]%Hnewh; rewrite length_app, length_insert; [lia|].
      apply (po_places _ _ Hc) in Hk. simpl in Hk. lia.
    + intros j y [Hy|[Hge Hy]]%lookup_app_Some.
      * destruct (decide (j = i)) as [->|Hne].
        { rewrite list_lookup_insert_eq in Hy by done. injection Hy as <-. by rewrite Hme. }
        rewrite list_lookup_insert_ne in Hy by done. rewrite Hothers by done. by apply Hc.
      * rewrite length_insert in Hge. rewrite Hothers by lia.
        pose proof (held_by_outside _ _ j Hc Hge) as Hout. simpl in Hout. rewrite Hout.
        by apply (Forall_lookup_1 _ _ _ _ Hnew Hy).
Qed.

Lemma tracked_owned {E R : Type} (reqs : prog S E R → Prop) ch ch' :
  (∀ p, reqs p → wp ∅ p (λ o _, o = ∅)) →
  rtc (tracked reqs) ch ch' → pool_owned ch.1 ch.2 → pool_owned ch'.1 ch'.2.
Proof.
  intros Hreqs Hst. induction Hst as [ch|ch1 ch2 ch3 H12 _ IH]; [done|]. intros Hc. apply IH.
  destruct H12 as [who c c' h Hw]. by eapply acts_owned.
Qed.

(** A thread that has ended: it returned, failed, or panicked. *)
Definition finished {E R : Type} (x : task S E R) : Prop :=
  match x with
  | Serving (Act _ _) | Serving (Fork _ _) | Spawned (Act _ _) | Spawned (Fork _ _) => False
  | _ => True
  end.

(** The thread that holds a lock is in the pool and has not ended. *)
Lemma holder_runs {E R : Type} (c : S * list (task S E R)) h k v :
  pool_owned c h → view c.1 !! k = Some v →
  ∃ i x, h !! k = Some i ∧ c.2 !! i = Some x ∧ ¬ finished x.
Proof.
  intros Hc Hk. destruct (proj1 (po_held _ _ Hc k)) as [i Hi]; [by rewrite Hk|].
  destruct (lookup_lt_is_Some_2 c.2 i) as [x Hx]; [by eapply po_places|].
  exists i, x. do 2 (split; [done|]). intros Hfin.
  pose proof (po_owns _ _ Hc i x Hx) as Hwp.
  assert (held_by h i (view c.1) = ∅) as He by (destruct x as [[]|[]]; simpl in *; done).
  assert (held_by h i (view c.1) !! k = Some v) as Hkv by (by apply lookup_held_by).
  by rewrite He in Hkv.
Qed.

(** No other thread frees the lock or changes what it protects. *)
Lemma holder_excludes {E R : Type} (reqs : prog S E R → Prop) who c c' h k v i :
  (∀ p, reqs p → wp ∅ p (λ o _, o = ∅)) → pool_owned c h →
  view c.1 !! k = Some v → h !! k = Some i → acts reqs who c c' → who ≠ Some i →
  view c'.1 !! k = Some v.
Proof.
  intros Hreqs Hc Hk Hi Hst Hne.
  destruct Hst as [s ts p Hp|j s ts x x' s' new Hj Hx]; simpl in *; [done|].
  destruct (wp_tstep (held_by h j (view s)) x x' s s' new) as (o' & Hst & _);
    [by apply (po_owns _ _ Hc)|by apply Hc|apply map_filter_subseteq|done|].
  destruct (held_by_step _ _ _ _ _ Hc Hst) as (_ & Hothers & _).
  assert (held_by h i (view s) !! k = Some v) as Hkv by (by apply lookup_held_by).
  simpl in Hothers. rewrite <-(Hothers i) in Hkv by congruence. by apply lookup_held_by in Hkv as [? _].
Qed.
End ownership.

(** ** Invariants that every thread keeps, and what a request returns

    [keeps A Inv p Q]: started at any time in a state that satisfies [Inv], with other
    threads that keep it too, [p] and the threads it spawns keep [Inv] at every step,
    and a value that [p] returns satisfies [Q], as long as all states satisfy [A],
    which is assumed of the execution.  Nothing is owned, so [Q] can only say what no
    other thread can make false. *)
Section keeping.
Context {S : Type} (A Inv : S → Prop).

Fixpoint keeps {E X : Type} (p : prog S E X) (Q : X → Prop) : Prop :=
  match p with
  | Ret a => Q a
  | Act f k => ∀ s b s', A s → Inv s → f s = Some (b, s') → A s' → Inv s' ∧ keeps (k b) Q
  | Fork t k => keeps t (λ _, True) ∧ keeps k Q
  | _ => True
  end.

(** One step of [p], and what it keeps. *)
Local Ltac keeps_cases :=
  simpl in *; intros; try done; try by auto;
  match goal with
  | Hp : ∀ _ _ _, A _ → _, HA : A ?s, HI : Inv ?s, Hf : _ ?s = Some _, HA' : A ?s' |- _ =>
      destruct (Hp s _ s' HA HI Hf HA'); split; by eauto
  | Hp : keeps _ _ ∧ keeps _ _ |- _ => destruct Hp; split; by eauto
  | |- _ => naive_solver
  end.

Lemma keeps_mono {E X : Type} (p : prog S E X) (Q Q' : X → Prop) :
  keeps p Q → (∀ a, Q a → Q' a) → keeps p Q'.
Proof.
  intros Hp HQ. induction p as [E X a|E X e|E X m|E X C f q IH|E X t IHt q IH]; keeps_cases.
Qed.

Lemma keeps_bind {E X Y : Type} (p : prog S E X) (k : X → prog S E Y) Q :
  keeps p (λ a, keeps (k a) Q) → keeps (bind p k) Q.
Proof. induction p as [E X a|E X e|E X m|E X C f q IH|E X t IHt q IH]; keeps_cases. Qed.

(** The first part with what it returns, then the rest. *)
Lemma keeps_seq {E X Y : Type} (p : prog S E X) (k : X → prog S E Y) R Q :
  keeps p R → (∀ a, R a → keeps (k a) Q) → keeps (bind p k) Q.
Proof. intros Hp Hk. by apply keeps_bind, (keeps_mono _ R). Qed.

Lemma keeps_map_err {E E' X : Type} (g : E → E') (p : prog S E X) Q :
  keeps p Q → keeps (map_err g p) Q.
Proof. induction p as [E X a|E X e|E X m|E X C f q IH|E X t IHt q IH]; keeps_cases. Qed.

Lemma keeps_attempt {E E' X : Type} (p : prog S E X) Q :
  keeps p Q → keeps (attempt (E' := E') p) (λ r, ∀ a, r = Ok a → Q a).
Proof. induction p as [E X a|E X e|E X m|E X C f q IH|E X t IHt q IH]; keeps_cases. Qed.

Lemma keeps_unless_ok {E X : Type} (p : prog S E X) d Q :
  keeps p Q → keeps d (λ _, True) → keeps (unless_ok p d) Q.
Proof.
  intros Hp Hd. induction p as [E X a|E X e|E X m|E X C f q IH|E X t IHt q IH]; simpl in *;
    try (by apply keeps_bind, (keeps_mono _ (λ _, True))); keeps_cases.
Qed.

Lemma keeps_lift {E X : Type} (r : result E X) (Q : X → Prop) :
  (∀ a, r = Ok a → Q a) → keeps (lift_result r) Q.
Proof. destruct r; simpl; auto. Qed.

Lemma keeps_gets {E X : Type} (f : S → X) : keeps (gets (E := E) f) (λ _, True).
Proof. simpl. intros s b s' _ HI Hf _. by injection Hf as _ <-. Qed.

(** What holds of every value that can be returned need not be reproved. *)
Lemma keeps_yields {E X : Type} (p : prog S E X) (Q Q' : X → Prop) :
  keeps p Q → yields Q' p → keeps p (λ a, Q a ∧ Q' a).
Proof. induction p as [E X a|E X e|E X m|E X C f q IH|E X t IHt q IH]; keeps_cases. Qed.

Lemma keeps_pstep {E X : Type} (p p' : prog S E X) Q s s' new :
  keeps p Q → A s → Inv s → pstep p s = Some (p', s', new) → A s' →
  Inv s' ∧ keeps p' Q ∧ Forall (λ t, keeps t (λ _, True)) new.
Proof.
  intros Hp HA HI Hs HA'. destruct p as [|?|?|B f k|t k]; simpl in *; try done.
  - destruct (f s) as [[b s1]|] eqn:Hfs; [|done]. injection Hs as <- <- <-.
    destruct (Hp s b s1 HA HI Hfs HA'). auto.
  - destruct Hp as [Ht Hk]. injection Hs as <- <- <-. auto.
Qed.

(** A pool in which the requests keep the invariant; [post i] is what the one at
    place [i] is to return. *)
Definition task_keeps {E R : Type} (Q : R → Prop) (x : task S E R) : Prop :=
  match x with Serving p => keeps p Q | Spawned t => keeps t (λ _, True) end.

Definition pool_keeps {E R : Type} (post : nat → R → Prop) (c : S * list (task S E R)) : Prop :=
  Inv c.1 ∧ ∀ i x, c.2 !! i = Some x → task_keeps (post i) x.

Lemma pool_keeps_put {E R : Type} post s s' (ts1 ts2 : list (task S E R)) x x' new :
  pool_keeps post (s, ts1 ++ x :: ts2) → Inv s' → task_keeps (post (length ts1)) x' →
  Forall (λ t, keeps t (λ _, True)) new →
  pool_keeps post (s', ts1 ++ x' :: ts2 ++ (Spawned <$> new)).
Proof.
  intros [_ Hts] HI Hx Hnew. split; [done|]. intros i y. simpl in *.
  rewrite app_comm_cons, (assoc_L (++)). intros Hi.
  apply lookup_app_Some in Hi as [Hi|[_ Hi]].
  - destruct (decide (i = length ts1)) as [->|Hne].
    { rewrite list_lookup_middle in Hi by done. by injection Hi as <-. }
    apply Hts. rewrite <-Hi. rewrite !lookup_app. case_match; [done|].
    apply lookup_ge_None in H. by destruct (i - length ts1) as [|j] eqn:Hj; [lia|].
  - rewrite list_lookup_fmap in Hi. apply fmap_Some in Hi as (t & Ht & ->).
    by apply (Forall_lookup_1 _ _ _ _ Hnew Ht).
Qed.

(** A step in an execution whose states satisfy [A]. *)
Definition cstep_in {E R : Type} (reqs : prog S E R → Prop) (c c' : S * list (task S E R)) : Prop :=
  cstep reqs c c' ∧ A c.1 ∧ A c'.1.

(** Under every interleaving the invariant is kept, and each request of the pool can
    only return what it was to return. *)
Lemma cstep_keeps {E R : Type} (reqs : prog S E R → Prop) (post : nat → R → Prop) c c' :
  (∀ p i, reqs p → length c.2 ≤ i → keeps p (post i)) →
  rtc (cstep_in reqs) c c' → pool_keeps post c → pool_keeps post c'.
Proof.
  intros Hreqs Hst. revert Hreqs.
  induction Hst as [c|c1 c2 c3 (H12 & HA1 & HA2) _ IH]; intros Hreqs Hc; [done|].
  assert (length c1.2 ≤ length c2.2) as Hlen.
  { destruct H12; simpl; rewrite ?length_app; simpl; rewrite ?length_app; lia. }
  apply IH; [intros p i Hp Hi; apply Hreqs; [done|lia]|]. clear IH Hlen.
  destruct H12 as [s ts p Hp|s ts1 ts2 p p' s' new Hs|s ts1 ts2 t t' s' new Hs]; simpl in *.
  - destruct Hc as [HI Hts]. split; [done|]. intros i x Hi. simpl in *.
    apply lookup_app_Some in Hi as [Hi|[Hge Hi]]; [by apply Hts|].
    apply list_lookup_singleton_Some in Hi as [_ <-]. by apply Hreqs.
  - destruct (keeps_pstep p p' (post (length ts1)) s s' new) as (HI & Hp & Hn);
      [|done|by destruct Hc|done|done|].
    { apply (proj2 Hc (length ts1) (Serving p)). simpl. by rewrite list_lookup_middle. }
    by eapply pool_keeps_put.
  - destruct (keeps_pstep t t' (λ _, True) s s' new) as (HI & Hp & Hn);
      [|done|by destruct Hc|done|done|].
    { apply (proj2 Hc (length ts1) (Spawned t)). simpl. by rewrite list_lookup_middle. }
    by eapply pool_keeps_put.
Qed.
End keeping.

(** Less has to be kept when more is assumed. *)
Lemma keeps_assuming {S E X : Type} (A A' Inv : S → Prop) (p : prog S E X) Q :
  (∀ s, A' s → A s) → keeps A Inv p Q → keeps A' Inv p Q.
Proof.
  intros HA. induction p as [E X a|E X e|E X m|E X C f q IH|E X t IHt q IH]; simpl; try done.
  - intros Hp s b s' HA1 HI Hf HA2. destruct (Hp s b s'); auto.
  - intros [? ?]. auto.
Qed.

(** ** What a request has seen when it answers

    The other threads move the state along the preorder [G], and [M] are the states
    that an execution goes through.  [sees p Q s0]: from [s0] on, whatever the
    other threads do between the steps of [p], the value that [p] returns and any
    state of the execution at which it has returned satisfy [Q].  [Q] can speak of
    earlier states, which are in [M]. *)
Section seeing.
Context {S : Type} (G : S → S → Prop) `{!PreOrder G} (M : S → Prop).

Fixpoint sees {E A : Type} (p : prog S E A) (Q : A → S → Prop) (s0 : S) : Prop :=
  match p with
  | Ret a => ∀ s, M s → G s0 s → Q a s
  | Act f k => ∀ s b s', M s → G s0 s → f s = Some (b, s') → sees (k b) Q s'
  | Fork _ k => sees k Q s0
  | _ => True
  end.

Lemma sees_later {E A : Type} (p : prog S E A) Q s0 s1 : sees p Q s0 → G s0 s1 → sees p Q s1.
Proof.
  revert s0 s1. induction p as [E A a|E A e|E A m|E A C f q IH|E A t IHt q IH];
    intros s0 s1; simpl; try done.
  - intros Hp H01 s HM Hs. apply Hp; [done|by etrans].
  - intros Hp H01 s b s' HM Hs Hf. eapply Hp; [done| |done]. by etrans.
  - by apply IH.
Qed.

Lemma sees_bind {E A B : Type} (p : prog S E A) (k : A → prog S E B) R Q s0 :
  guar G p → sees p R s0 →
  (∀ a s1, G s0 s1 → (∀ s, M s → G s1 s → R a s) → sees (k a) Q s1) → sees (bind p k) Q s0.
Proof.
  revert s0. induction p as [E A a|E A e|E A m|E A C f q IH|E A t IHt q IH];
    intros s0; simpl; try done.
  - intros _ Hp Hk. by apply Hk.
  - intros [Hg Hgq] Hp Hk s b s' HM Hs Hf. eapply IH; [done|by eapply Hp|].
    intros a s1 H1 HR. apply Hk; [|done].
    etrans; [exact Hs|]. by etrans; [eapply Hg|].
  - intros [_ Hg] Hp Hk. by eapply IH.
Qed.

(** A part of which nothing is to be remembered. *)
Lemma sees_skip {E A B : Type} (p : prog S E A) (k : A → prog S E B) Q s0 :
  guar G p → (∀ a s1, G s0 s1 → sees (k a) Q s1) → sees (bind p k) Q s0.
Proof.
  intros Hg Hk. apply (sees_bind _ _ (λ _ _, True)); [done| |auto].
  clear Hk k. revert s0. induction p as [E A a|E A e|E A m|E A C f q IH|E A t IHt q IH];
    intros s0; simpl in *; naive_solver.
Qed.

Lemma sees_ret {E A : Type} (a : A) Q s0 :
  (∀ s, M s → G s0 s → Q a s) → sees (E := E) (Ret a) Q s0.
Proof. done. Qed.

Lemma sees_finally {E A : Type} (p : prog S E A) d u Q s0 :
  guar G p → guar G d → guar G u → sees p Q s0 → sees (finally p d u) Q s0.
Proof.
  intros Hp Hd Hu. revert s0. induction p as [E A a|E A e|E A m|E A C f q IH|E A t IHt q IH];
    intros s0; simpl in *.
  - intros HQ. apply sees_skip; [done|]. intros _ s1 H01 s HM Hs. apply HQ; [done|by etrans].
  - intros _. by apply sees_skip.
  - intros _. by apply sees_skip.
  - destruct Hp as [_ Hq]. intros HQ s b s' HM Hs Hf. apply IH; [done..|]. by eapply HQ.
  - destruct Hp as [_ Hq]. by apply IH.
Qed.

Lemma sees_lift {E A : Type} (r : result E A) Q s0 :
  (∀ a s, r = Ok a → M s → G s0 s → Q a s) → sees (lift_result r) Q s0.
Proof. destruct r; simpl; naive_solver. Qed.

Lemma sees_gets {E A B : Type} (f : S → A) (k : A → prog S E B) Q s0 :
  (∀ s, M s → G s0 s → sees (k (f s)) Q s) → sees (bind (gets f) k) Q s0.
Proof. intros Hk s b s' HM Hs [= <- <-]. by apply Hk. Qed.

Lemma sees_modify {E B : Type} (f : S → S) (k : unit → prog S E B) Q s0 :
  (∀ s, M s → G s0 s → sees (k tt) Q (f s)) → sees (bind (modify f) k) Q s0.
Proof. intros Hk s b s' HM Hs [= <- <-]. by apply Hk. Qed.

(** A request of the pool, in an execution that goes through states of [M]. *)
Lemma cstep_sees {E R : Type} (reqs : prog S E R → Prop) (Q : R → S → Prop) c c' i p :
  (∀ p, reqs p → guar G p) → Forall (task_guar G) c.2 →
  rtc (cstep reqs) c c' →
  (∀ c1, rtc (cstep reqs) c c1 → rtc (cstep reqs) c1 c' → M c1.1) →
  c.2 !! i = Some (Serving p) → sees p Q c.1 →
  ∃ p', c'.2 !! i = Some (Serving p') ∧ sees p' Q c'.1.
Proof.
  intros Hreqs Hts Hst. revert p Hts. induction Hst as [c|c1 c2 c3 H12 H23 IH];
    intros p Hts HM Hi Hp; [by eauto|].
  destruct (cstep_guar reqs G c1 c2) as [HG Hts2]; [done|done|done|by apply rtc_once|].
  assert (∃ p', c2.2 !! i = Some (Serving p') ∧ sees p' Q c2.1) as (p' & Hi' & Hp').
  { destruct (cstep_acts _ _ _ H12) as [who Hw].
    assert (M c1.1) as HMc by (apply HM; [done|by eapply rtc_l]).
    destruct Hw as [s ts q Hq|j s ts x x' s' new Hj Hx]; simpl in *.
    - exists p. split; [by apply lookup_app_l_Some|done].
    - destruct (decide (i = j)) as [<-|Hne].
      + rewrite Hi in Hj. injection Hj as <-. simpl in Hx.
        destruct (pstep p s) as [[[p' s1] n]|] eqn:Hps; [|done]. injection Hx as <- <- <-.
        exists p'. split.
        { apply lookup_app_l_Some, list_lookup_insert_eq. by eapply lookup_lt_Some. }
        destruct p as [|?|?|B f k|t k]; simpl in *; try done.
        * destruct (f s) as [[b s2]|] eqn:Hf; [|done]. injection Hps as <- <- <-. by eapply Hp.
        * by injection Hps as <- <- <-.
      + exists p. split; [|by eapply sees_later].
        apply lookup_app_l_Some. by rewrite list_lookup_insert_ne. }
  apply (IH p'); [done| |done|done].
  intros c4 H24 H43. apply HM; [by eapply rtc_l|done].
Qed.
End seeing.

(** A component of the state. *)
Lemma sees_zoom {S W E A : Type} (G : S → S → Prop) (M : S → Prop) (GW : W → W → Prop)
    (get : S → W) (put : W → S → S) `{!Lens get put} (p : prog W E A) R s0 :
  (∀ s s', G s s' → GW (get s) (get s')) → sees GW (λ _, True) p R (get s0) →
  sees G M (zoom get put p) (λ a s, R a (get s)) s0.
Proof.
  intros HG. revert s0. induction p as [E A a|E A e|E A m|E A C f q IH|E A t IHt q IH];
    intros s0; simpl; try done.
  - intros Hp s _ Hs. apply Hp; [done|by apply HG].
  - intros Hp s b s' _ Hs Hf. destruct (f (get s)) as [[b' w]|] eqn:Hfs; [|done].
    injection Hf as <- <-. apply IH. rewrite (lens_get_put (get:=get) (put:=put)).
    eapply Hp; [done| |exact Hfs]. by apply HG.
  - by apply IH.
Qed.

(** ** Executing an interleaving

    A schedule is a list of choices: a new request, or the index of the thread
    that makes the next step. *)
Inductive choice (S E R : Type) : Type :=
| Arrive (p : prog S E R)
| Step (i : nat).
Arguments Arrive {S E R} p.
Arguments Step {S E R} i.

Fixpoint interleave {S E R : Type} (l : list (choice S E R)) (c : S * list (task S E R)) :
    option (S * list (task S E R)) :=
  match l with
  | [] => Some c
  | Arrive p :: l => interleave l (c.1, c.2 ++ [Serving p])
  | Step i :: l =>
      match c.2 !! i with
      | Some x =>
          match tstep x c.1 with
          | Some (x', s', n) => interleave l (s', <[i:=x']> c.2 ++ (Spawned <$> n))
          | None => None
          end
      | None => None
      end
  end.

Lemma interleave_sound {S E R : Type} (reqs : prog S E R → Prop) l c c' :
  Forall (λ ch, match ch with Arrive p => reqs p | Step _ => True end) l →
  interleave l c = Some c' → rtc (cstep reqs) c c'.
Proof.
  revert c. induction l as [|[p|i] l IH]; intros [s ts] Hl Hc; simpl in *.
  - injection Hc as <-. constructor.
  - inversion Hl as [|?? Hp Hl']; subst. eapply rtc_l; [by apply cstep_arrive|by apply IH].
  - inversion Hl as [|?? _ Hl']; subst.
    destruct (ts !! i) as [x|] eqn:Hi; [|done].
    destruct (tstep x s) as [[[x' s'] n]|] eqn:Hx; [|done].
    eapply rtc_l; [by eapply acts_cstep, acts_thread|by apply IH].
Qed.

(** The same execution with who holds which lock. *)
Definition actor {S E R : Type} (ch : choice S E R) : option nat :=
  match ch with Arrive _ => None | Step i => Some i end.

Fixpoint track {S E R K V : Type} `{Countable K} (view : S → gmap K V) (l : list (choice S E R))
    (c : S * list (task S E R)) (h : gmap K nat) : option ((S * list (task S E R)) * gmap K nat) :=
  match l with
  | [] => Some (c, h)
  | ch :: l =>
      match interleave [ch] c with
      | Some c' => track view l c' (holders (actor ch) (view c'.1) h)
      | None => None
      end
  end.

Lemma track_sound {S E R K V : Type} `{Countable K} (view : S → gmap K V)
    (reqs : prog S E R → Prop) l c h ch' :
  Forall (λ ch, match ch with Arrive p => reqs p | Step _ => True end) l →
  track view l c h = Some ch' → rtc (tracked view reqs) (c, h) ch'.
Proof.
  revert c h. induction l as [|ch l IH]; intros [s ts] h Hl Hc; simpl in Hc.
  - injection Hc as <-. constructor.
  - inversion Hl as [|?? Hp Hl']; subst. destruct ch as [p|i]; simpl in *.
    + eapply rtc_l; [by apply tracked_step, acts_arrive|by apply IH].
    + destruct (ts !! i) as [x|] eqn:Hi; [|done].
      destruct (tstep x s) as [[[x' s'] n]|] eqn:Hx; [|done].
      eapply rtc_l; [by eapply tracked_step, acts_thread|by apply IH].
Qed.

(** A component that runs inside a larger state keeps its ownership there. *)
Lemma wp_zoom {S W K V E A : Type} `{Countable K} (get : S → W) (put : W → S → S)
    `{!Lens get put} (view : W → gmap K V) (Inv : W → Prop) o (p : prog W E A) Q :
  wp view Inv o p Q → wp (λ s, view (get s)) (λ s, Inv (get s)) o (zoom get put p) Q.
Proof.
  revert o Q. induction p as [E A a|E A e|E A m|E A C f q IH|E A t IHt q IH];
    intros o Q; simpl; try done.
  - intros Hp s b s' HI Ho Hf. destruct (f (get s)) as [[b' w]|] eqn:Hfs; [|done].
    injection Hf as <- <-. destruct (Hp (get s) b' w) as (o' & Hst & Hq); [done..|].
    exists o'. split; [|by apply IH]. unfold owned_step.
    by rewrite (lens_get_put (get:=get) (put:=put)).
  - intros [? ?]. split; [by apply IHt|by apply IH].
Qed.
