(* ===== verification/LocalThreads.v ===== *)
(** The task service under concurrency (sandbox/shim/local.rs and
    instance_data.rs): requests run on threads of their own, and each started
    task has a thread that waits for its exit.

    [service_step] interleaves all of them.  The first group of theorems relates
    the states before and after any interleaving, the second is about the lock of
    each instance, the thread that holds it and the state that it protects, and the
    third compares what requests answer with what the service has on record. *)
From S2P Require Import Prelude Errors TaskState Sync Instance InstanceData Paths Oci Local Threads.

Section service.
Context {W : Type} {I : Instance W} {H : Host W}.
Implicit Types (s : Local I) (d : InstanceData (T I)) (h : Heap I).

(** The handlers of the requests that containerd can send. *)
Definition served (p : prog (Local I) Error (Response (H := H))) : Prop := ∃ r, p = handle r.

Definition service_step := cstep served.

(** ** What every step of every thread does *)

Record data_evolves d d' : Prop := {
  ev_instance : instance d' = instance d;
  ev_cfg : cfg d' = cfg d;
  ev_pid : ∀ p, pid d = Some p → pid d' = Some p;
  ev_phase : (phase (state d) ≤ phase (state d'))%nat;
}.

#[export] Instance data_evolves_preorder : PreOrder data_evolves.
Proof.
  split; [by intros d|]. intros d1 d2 d3 [] []. split; [congruence|congruence|auto|lia].
Qed.

Definition arena_evolves h h' : Prop :=
  ∀ l d, arena h !! l = Some d → ∃ d', arena h' !! l = Some d' ∧ data_evolves d d'.

#[export] Instance arena_evolves_preorder : PreOrder arena_evolves.
Proof.
  split; [by intros h l d Hl; exists d|].
  intros h1 h2 h3 H12 H23 l d Hl. destruct (H12 l d Hl) as (d2 & Hl2 & ?).
  destruct (H23 l d2 Hl2) as (d3 & Hl3 & ?). exists d3. split; [done|by etrans].
Qed.

Record evolves s s' : Prop := {
  ev_arena : arena_evolves (heap s) (heap s');
  ev_events : events s `prefix_of` events s';
  ev_exit : exit_signaled s = true → exit_signaled s' = true;
  ev_namespace : local_namespace s' = local_namespace s;
  ev_address : local_address s' = local_address s;
}.

#[export] Instance evolves_preorder : PreOrder evolves.
Proof.
  split; [by intros s|].
  intros s1 s2 s3 [] []. split; [by etrans|by etrans|auto|congruence|congruence].
Qed.

(** *** The steps of an instance *)

Lemma guar_with_data {E A : Type} l (f : _ → option (A * InstanceData (T I))) :
  (∀ d a d', f d = Some (a, d') → data_evolves d d') →
  guar arena_evolves (with_data (E := E) l f).
Proof.
  intros Hf. split; [|done]. intros h b h' Heq.
  destruct (arena h !! l) as [d|] eqn:Hl; [|done].
  destruct (f d) as [[a d']|] eqn:Hfd; [|done]. injection Heq as <- <-.
  intros l' d0 Hl'. simpl. destruct (decide (l = l')) as [<-|Hne].
  - rewrite lookup_insert_eq. simplify_eq. eauto.
  - rewrite lookup_insert_ne by done. by exists d0.
Qed.

Lemma guar_read {E A : Type} l (f : _ → A) : guar arena_evolves (read (I := I) (E := E) l f).
Proof. apply guar_with_data. by intros d a d' [= _ <-]. Qed.

Lemma guar_transition {E : Type} l o : guar arena_evolves (transition (I := I) (E := E) l (apply_op o)).
Proof.
  apply guar_with_data. intros d a d'. pose proof (apply_op_correct o (state d)) as Ho.
  destruct (apply_op o (state d)) as [r st]. intros [= _ <-]. split; simpl; try done.
  destruct r; [by eapply transition_phase|]. by destruct Ho as [-> _].
Qed.

Lemma guar_set_exited {E : Type} l : guar arena_evolves (set_state (I := I) (E := E) l Exited).
Proof.
  apply guar_with_data. intros d a d' [= _ <-]. split; simpl; try done.
  destruct (state d); simpl; lia.
Qed.

Lemma guar_set_pid {E : Type} l p : guar arena_evolves (set_pid (I := I) (E := E) l p).
Proof.
  apply guar_with_data. intros d a d' [= _ <-]. split; simpl; try done.
  intros q Hq. by rewrite Hq.
Qed.

Lemma guar_lock {E : Type} l : guar arena_evolves (lock_state (I := I) (E := E) l).
Proof.
  apply guar_bind; [|by intros []]. apply guar_with_data. intros d a d' Heq.
  destruct (lock d) eqn:Hk; simplify_eq; done.
Qed.

Lemma guar_unlock {E : Type} l : guar arena_evolves (unlock_state (I := I) (E := E) l).
Proof. apply guar_with_data. by intros d a d' [= _ <-]. Qed.

Lemma guar_poison {E : Type} l : guar arena_evolves (poison_state (I := I) (E := E) l).
Proof. apply guar_with_data. by intros d a d' [= _ <-]. Qed.

Lemma guar_call {E A : Type} (p : prog W E A) : guar arena_evolves (call (I := I) p).
Proof. apply guar_zoom, guar_any. intros w w' h _ l d Hl. by exists d. Qed.

Lemma guar_alloc {E : Type} d : guar arena_evolves (alloc (I := I) (E := E) d).
Proof.
  split; [|done]. intros h b h' [= _ <-] l d' Hl. simpl. exists d'. split; [|done].
  rewrite lookup_insert_ne; [done|]. intros <-.
  apply (is_fresh (dom (arena h))), elem_of_dom. eauto.
Qed.
End service.

#[export] Hint Resolve guar_read guar_set_exited guar_set_pid guar_lock guar_unlock
  guar_poison guar_call guar_alloc : shim.

(** Follows a handler and closes the steps the library knows. *)
Ltac guar_steps :=
  repeat first
    [ progress intros
    | done
    | solve [auto 2 with shim nocore]
    | apply guar_bind
    | apply guar_finally
    | apply guar_attempt
    | apply guar_map_err
    | apply guar_lift
    | apply (guar_transition _ OpStart) | apply (guar_transition _ OpStarted)
    | apply (guar_transition _ OpStop) | apply (guar_transition _ OpKill)
    | apply (guar_transition _ OpDelete)
    | match goal with |- guar _ (match ?x with _ => _ end) => destruct x end ].

Section instance_data.
Context {W : Type} {I : Instance W}.

Lemma guar_start l : guar arena_evolves (start (I := I) l).
Proof. unfold start. guar_steps. Qed.
Lemma guar_kill l sig : guar arena_evolves (kill (I := I) l sig).
Proof. unfold kill. guar_steps. Qed.
Lemma guar_delete l : guar arena_evolves (delete (I := I) l).
Proof. unfold delete. guar_steps. Qed.
Lemma guar_wait {E : Type} l : guar arena_evolves (wait (I := I) (E := E) l).
Proof. unfold wait. guar_steps. Qed.
Lemma guar_wait_timeout {E : Type} l t : guar arena_evolves (wait_timeout (I := I) (E := E) l t).
Proof. unfold wait_timeout. guar_steps. Qed.
Lemma guar_get_pid {E : Type} l : guar arena_evolves (get_pid (I := I) (E := E) l).
Proof. apply guar_read. Qed.
Lemma guar_config {E : Type} l : guar arena_evolves (InstanceData.config (I := I) (E := E) l).
Proof. apply guar_read. Qed.
Lemma guar_new id c : guar arena_evolves (InstanceData_new (I := I) id c).
Proof. unfold InstanceData_new. guar_steps. Qed.
End instance_data.
#[export] Hint Resolve guar_start guar_kill guar_delete guar_wait guar_wait_timeout
  guar_get_pid guar_config guar_new : shim.

Section handlers.
Context {W : Type} {I : Instance W} {H : Host W}.
Implicit Types (s : Local I) (d : InstanceData (T I)).

Lemma guar_on_heap {E A : Type} (p : prog (Heap I) E A) :
  guar arena_evolves p → guar evolves (on_heap p).
Proof.
  intros Hp. apply guar_zoom. eapply guar_mono; [|exact Hp].
  intros h h' Hh s <-. by split.
Qed.

Lemma guar_on_host {E A : Type} (p : prog W E A) : guar evolves (on_host (I := I) p).
Proof. apply guar_on_heap, guar_call. Qed.

Lemma guar_send {E : Type} e : guar evolves (send (I := I) (E := E) e).
Proof. apply guar_modify. intros s. split; simpl; try done. by apply prefix_app_r. Qed.

Lemma guar_get_instance id : guar evolves (get_instance (I := I) id).
Proof. apply guar_bind; [by apply guar_gets, _|]. intros. apply guar_lift. Qed.

Lemma guar_set_instances {E : Type} f :
  guar evolves (modify (E := E) (λ s, set_instances (f s) s)).
Proof. apply guar_modify. by intros s. Qed.

Lemma guar_signal_exit {E : Type} : guar evolves (modify (E := E) (signal_exit (I := I))).
Proof. apply guar_modify. by intros s. Qed.
End handlers.
#[export] Hint Resolve guar_on_host guar_send guar_get_instance guar_set_instances
  guar_signal_exit : shim.
#[export] Hint Extern 1 (guar _ (on_heap _)) => apply guar_on_heap; guar_steps : shim.

Section handlers2.
Context {W : Type} {I : Instance W} {H : Host W}.
Implicit Types (s : Local I) (d : InstanceData (T I)).

Lemma guar_wait_thread id l p : guar evolves (wait_thread (I := I) id l p).
Proof. unfold wait_thread. guar_steps. Qed.

Lemma guar_task_create r : guar evolves (task_create (I := I) r).
Proof.
  unfold task_create, has_instance, instance_config, mount_one.
  guar_steps; by apply guar_gets, _.
Qed.

Lemma guar_task_start r : guar evolves (task_start (I := I) r).
Proof.
  unfold task_start. guar_steps. split; [|done]. apply guar_wait_thread.
Qed.

Lemma guar_handle (r : Request) : guar evolves (handle (I := I) r).
Proof.
  destruct r; unfold handle; (apply guar_bind; [|by intros]).
  - apply guar_task_create.
  - apply guar_task_start.
  - unfold task_kill. guar_steps.
  - unfold task_delete. guar_steps.
  - unfold task_wait. guar_steps.
  - unfold connect. guar_steps.
  - unfold task_state. guar_steps.
  - unfold shutdown, is_empty. guar_steps; by apply guar_gets, _.
  - unfold task_stats. guar_steps.
Qed.
End handlers2.

Section forward.
Context {W : Type} {I : Instance W} {H : Host W}.

(** C3: whatever requests arrive and however the threads interleave, the shim
    only moves forward: an instance keeps its runtime object and its
    configuration, its process id is written once, its life cycle never returns
    to an earlier phase, no event is taken back, and the exit signal stays. *)
Theorem service_only_moves_forward w ns addr c1 c2 :
  rtc (service_step (I := I)) (Local_new w ns addr, []) c1 → rtc service_step c1 c2 →
  evolves c1.1 c2.1.
Proof.
  intros H1 H2.
  assert (∀ p, served (I := I) p → guar evolves p) as Hs by (intros p [r ->]; apply guar_handle).
  assert (Forall (task_guar evolves) c1.2) as Hts.
  { eapply (cstep_guar served evolves); [apply _|done| |exact H1]. by constructor. }
  eapply (cstep_guar served evolves c1 c2); [apply _|done..].
Qed.
End forward.

(** ** The lock of an instance *)

Section locks.
Context {W : Type} {I : Instance W} {H : Host W}.
Implicit Types (s : Local I) (d : InstanceData (T I)) (h : Heap I).

(** What the lock protects, when a thread holds it. *)
Definition held d : option (TaskState * option u32) :=
  match lock d with Held => Some (state d, pid d) | _ => None end.

Definition held_locks h : gmap loc (TaskState * option u32) := omap held (arena h).

(** What the threads leave behind when they release it. *)
Definition settled (st : TaskState) (p : option u32) : Prop :=
  st ≠ Starting ∧ (st = Created → p = None) ∧ (st = Started → is_Some p).

Definition all_settled h : Prop :=
  ∀ l d, arena h !! l = Some d → lock d = Free → settled (state d) (pid d).

Abbreviation hwp := (wp held_locks all_settled).

Lemma all_settled_set h l d :
  all_settled h → (lock d = Free → settled (state d) (pid d)) → all_settled (set_data l d h).
Proof.
  intros Ha Hd l' d' Hl'. simpl in Hl'.
  destruct (decide (l = l')) as [<-|]; [rewrite lookup_insert_eq in Hl'; by simplify_eq|].
  rewrite lookup_insert_ne in Hl' by done. by eapply Ha.
Qed.

(** A step on [l] by a thread that does not own it. *)
Lemma hwp_acquire {E A : Type} o l (f : _ → option (A * InstanceData (T I))) Q :
  (∀ d a d', f d = Some (a, d') → (lock d = Free → settled (state d) (pid d)) →
     (d' = d ∧ Q o (Done (E := E) a)) ∨
     (lock d = Free ∧ o = ∅ ∧
      ∃ x, held d' = Some x ∧ Q {[l := x]} (Done a))) →
  hwp o (with_data l f) Q.
Proof.
  intros Hf h b h' HI Ho Heq. simpl in Heq.
  destruct (arena h !! l) as [d|] eqn:Hl; [|done].
  destruct (f d) as [[a d']|] eqn:Hfd; [|done]. injection Heq as <- <-.
  destruct (Hf d a d' Hfd) as [[-> HQ]|(Hk & -> & x & Hx & HQ)]; [by apply (HI l)|..].
  - exists o. split; [|done]. unfold owned_step, set_data.
    rewrite insert_id by done. by destruct h.
  - exists {[l := x]}. split; [|done]. split.
    { apply all_settled_set; [done|]. intros Hfree. unfold held in Hx. by rewrite Hfree in Hx. }
    intros r Hr _. rewrite (left_id_L ∅ (∪)) in Hr. subst r.
    assert (held_locks h !! l = None) as Hn.
    { unfold held_locks. rewrite lookup_omap, Hl. simpl. unfold held. by rewrite Hk. }
    unfold held_locks, set_data; simpl. rewrite omap_insert, Hx.
    rewrite insert_union_singleton_l. split; [done|]. by apply map_disjoint_singleton_l_2.
Qed.

(** A step on [l] by the thread that owns it: the value it leaves is the one
    that the thread owns next, or the lock is released. *)
Lemma hwp_owner {E A : Type} l st p (f : _ → option (A * InstanceData (T I))) Q :
  (∀ d a d', f d = Some (a, d') → lock d = Held → state d = st → pid d = p →
     (∃ x, held d' = Some x ∧ Q {[l := x]} (Done (E := E) a)) ∨
     (held d' = None ∧ (lock d' = Free → settled (state d') (pid d')) ∧ Q ∅ (Done a))) →
  hwp {[l := (st, p)]} (with_data l f) Q.
Proof.
  intros Hf h b h' HI Ho Heq. simpl in Heq.
  destruct (arena h !! l) as [d|] eqn:Hl; [|done].
  destruct (f d) as [[a d']|] eqn:Hfd; [|done]. injection Heq as <- <-.
  assert (held d = Some (st, p)) as Hd.
  { apply map_singleton_subseteq_l in Ho. unfold held_locks in Ho.
    by rewrite lookup_omap, Hl in Ho. }
  unfold held in Hd. destruct (lock d) eqn:Hk; try done. injection Hd as Hst Hp.
  assert (∀ r, held_locks h = {[l := (st, p)]} ∪ r → {[l := (st, p)]} ##ₘ r →
    held_locks (set_data l d' h) =
      match held d' with Some x => <[l := x]> r | None => r end ∧ r !! l = None) as Hv.
  { intros r Hr Hdisj. apply map_disjoint_singleton_l in Hdisj. split; [|done].
    unfold held_locks, set_data; simpl. rewrite omap_insert. fold (held_locks h).
    rewrite Hr, <-insert_union_singleton_l. destruct (held d').
    - by rewrite insert_insert_eq.
    - rewrite delete_insert_id; done. }
  destruct (Hf d a d') as [(x & Hx & HQ)|(Hx & Hset & HQ)]; [done..| |].
  - exists {[l := x]}. split; [|done]. split.
    { apply all_settled_set; [done|]. intros Hfree. unfold held in Hx. by rewrite Hfree in Hx. }
    intros r Hr Hdisj. destruct (Hv r Hr Hdisj) as [-> Hn]. rewrite Hx.
    rewrite insert_union_singleton_l. split; [done|]. by apply map_disjoint_singleton_l_2.
  - exists ∅. split; [|done]. split; [by apply all_settled_set|].
    intros r Hr Hdisj. destruct (Hv r Hr Hdisj) as [-> Hn]. rewrite Hx.
    rewrite (left_id_L ∅ (∪)). split; [done|apply map_disjoint_empty_l].
Qed.
End locks.

Abbreviation hwp := (wp held_locks all_settled).

Section lock_steps.
Context {W : Type} {I : Instance W}.
Implicit Types (d : InstanceData (T I)) (h : Heap I).

Lemma hwp_lock {E : Type} l Q :
  (∀ st p, settled st p → Q {[l := (st, p)]} (Done tt)) →
  Q ∅ (Panicked "PoisonError") → hwp ∅ (lock_state (I := I) (E := E) l) Q.
Proof.
  intros HQ HP. apply wp_bind, hwp_acquire. intros d a d' Hf Hset.
  destruct (lock d) eqn:Hk; try done; injection Hf as <- <-; [right|by left].
  split; [done|]. split; [done|]. exists (state d, pid d). split; [done|].
  apply HQ, Hset. done.
Qed.

Lemma hwp_read {E A : Type} o l (f : _ → A) Q :
  (∀ a, Q o (Done a)) → hwp o (read (I := I) (E := E) l f) Q.
Proof. intros HQ. apply hwp_acquire. intros d a d' [= <- <-] _. by left. Qed.

Lemma hwp_call {E A : Type} o (p : prog W E A) Q :
  (∀ x, Q o x) → hwp o (call (I := I) p) Q.
Proof.
  intros HQ. apply wp_neutral; [|done]. apply guar_zoom, guar_any. by intros w w' h _ Hh.
Qed.

Lemma hwp_alloc {E : Type} d Q :
  lock d = Free → settled (state d) (pid d) → (∀ l, Q ∅ (Done l)) →
  hwp ∅ (alloc (I := I) (E := E) d) Q.
Proof.
  intros Hk Hset HQ h b h' HI Ho Heq. injection Heq as <- <-. exists ∅. split; [|apply HQ].
  split; [by apply all_settled_set|]. intros r Hr Hd. split; [|done]. rewrite <-Hr.
  unfold held_locks, set_data; simpl. rewrite omap_insert. unfold held at 1. rewrite Hk.
  apply delete_id. rewrite lookup_omap.
  rewrite (not_elem_of_dom_1 (arena h)); [done|]. apply is_fresh.
Qed.

(** Steps of the thread that holds the lock of [l]. *)
Lemma hwp_transition {E : Type} l st p f Q :
  Q {[l := ((f st).2, p)]} (Done (f st).1) →
  hwp {[l := (st, p)]} (transition (I := I) (E := E) l f) Q.
Proof.
  intros HQ. apply hwp_owner. intros d a d' Hf Hk <- <-. left.
  destruct (f (state d)) as [r st']. injection Hf as <- <-. unfold held; simpl. rewrite Hk. eauto.
Qed.

Lemma hwp_set_exited {E : Type} l st p Q :
  Q {[l := (Exited, p)]} (Done tt) →
  hwp {[l := (st, p)]} (set_state (I := I) (E := E) l Exited) Q.
Proof.
  intros HQ. apply hwp_owner. intros d a d' [= <- <-] Hk <- <-. left.
  unfold held; simpl. rewrite Hk. eauto.
Qed.

Lemma hwp_set_pid {E : Type} l st p q Q :
  Q {[l := (st, Some (unwrap_or p q))]} (Done tt) →
  hwp {[l := (st, p)]} (set_pid (I := I) (E := E) l q) Q.
Proof.
  intros HQ. apply hwp_owner. intros d a d' [= <- <-] Hk <- <-. left.
  unfold held; simpl. rewrite Hk. eexists. split; [done|]. by destruct (pid d).
Qed.

Lemma hwp_unlock {E : Type} l st p Q :
  settled st p → Q ∅ (Done tt) → hwp {[l := (st, p)]} (unlock_state (I := I) (E := E) l) Q.
Proof.
  intros Hset HQ. apply hwp_owner. intros d a d' [= <- <-] Hk <- <-. by right.
Qed.

Lemma hwp_poison {E : Type} l st p Q :
  Q ∅ (Done tt) → hwp {[l := (st, p)]} (poison_state (I := I) (E := E) l) Q.
Proof. intros HQ. apply hwp_owner. intros d a d' [= <- <-] Hk <- <-. by right. Qed.

(** The end of the scope of the lock guard. *)
Lemma hwp_guard {E A : Type} l (o : gmap loc _) (p : prog (Heap I) E A) :
  hwp o p (λ o x, ∃ st q, o = {[l := (st, q)]} ∧
    match x with Done _ | Failed _ => settled st q | _ => True end) →
  hwp o (finally p (unlock_state l) (poison_state l)) (λ o _, o = ∅).
Proof.
  intros Hp. apply wp_finally. eapply wp_mono; [exact Hp|].
  intros o' x (st & q & -> & Hx). destruct x; try done; apply wp_bind.
  - by apply hwp_unlock.
  - by apply hwp_unlock.
  - by apply hwp_poison.
Qed.

Lemma settled_exited p : settled Exited p.
Proof. by split. Qed.
Lemma settled_deleting p : settled Deleting p.
Proof. by split. Qed.

(** Computes the part of a handler that follows a step. *)
Ltac compute_locks := cbn [wp_cont fst snd lift_result bind attempt_outcome wp is_err
  TaskState.start TaskState.kill TaskState.delete TaskState.started TaskState.stop
  assign state_transition_error].

Lemma hwp_start l : hwp ∅ (start (I := I) l) (λ o _, o = ∅).
Proof.
  unfold start. apply wp_bind, hwp_lock; [|done]. intros st p Hset. apply hwp_guard.
  apply wp_bind, hwp_transition. destruct st; compute_locks; try by eauto.
  apply wp_bind, hwp_read. intros inst. compute_locks. apply wp_bind, wp_attempt, hwp_call.
  intros [q|e|m|]; compute_locks; [..|by eauto|done].
  - apply wp_bind, wp_bind, hwp_set_pid. compute_locks.
    apply wp_bind, hwp_transition. compute_locks. eexists _, _. by split.
  - apply wp_bind, wp_bind, hwp_transition. compute_locks. eexists _, _. by split.
Qed.

Lemma hwp_kill l sig : hwp ∅ (kill (I := I) l sig) (λ o _, o = ∅).
Proof.
  unfold kill. apply wp_bind, hwp_lock; [|done]. intros st p Hset. apply hwp_guard.
  apply wp_bind, hwp_transition. destruct st; compute_locks; try by eauto.
  apply wp_bind, hwp_read. intros inst. compute_locks. apply hwp_call.
  intros []; eauto.
Qed.

Lemma hwp_delete l : hwp ∅ (delete (I := I) l) (λ o _, o = ∅).
Proof.
  unfold delete. apply wp_bind, hwp_lock; [|done]. intros st p Hset. apply hwp_guard.
  apply wp_bind, hwp_transition. destruct st; compute_locks; try by eauto.
  all: apply wp_bind, hwp_read; intros inst; compute_locks; apply wp_bind, wp_attempt, hwp_call.
  all: intros [q|e|m|]; compute_locks; try (by eauto); try done.
  all: try (eexists _, _; by split).
  all: apply wp_bind, wp_bind, hwp_transition; compute_locks; eexists _, _; by split.
Qed.

Lemma hwp_mark_exited {E A : Type} l (a : A) :
  hwp ∅ (bind (lock_state (I := I) (E := E) l) (λ _, bind (set_state l Exited) (λ _,
         bind (unlock_state l) (λ _, Ret a)))) (λ o _, o = ∅).
Proof.
  apply wp_bind, hwp_lock; [|done]. intros st p Hset. compute_locks.
  apply wp_bind, hwp_set_exited. compute_locks. apply wp_bind, hwp_unlock; by compute_locks.
Qed.

Lemma hwp_wait {E : Type} l : hwp ∅ (wait (I := I) (E := E) l) (λ o _, o = ∅).
Proof.
  unfold wait. apply wp_bind, hwp_read. intros inst. compute_locks.
  apply wp_bind, hwp_call. intros [x|e|m|]; compute_locks; try done. apply hwp_mark_exited.
Qed.

Lemma hwp_wait_timeout {E : Type} l t :
  hwp ∅ (wait_timeout (I := I) (E := E) l t) (λ o _, o = ∅).
Proof.
  unfold wait_timeout. apply wp_bind, hwp_read. intros inst. compute_locks.
  apply wp_bind, hwp_call. intros [[x|]|e|m|]; compute_locks; try done. apply hwp_mark_exited.
Qed.
End lock_steps.

Section discipline.
Context {W : Type} {I : Instance W} {H : Host W}.
Implicit Types (s : Local I) (d : InstanceData (T I)).

(** A handler that starts and ends without holding a lock of an instance. *)
Definition safe {E A : Type} (p : prog (Local I) E A) : Prop :=
  wp (λ s, held_locks (heap s)) (λ s, all_settled (heap s)) ∅ p (λ o _, o = ∅).

Lemma safe_bind {E A B : Type} (p : prog (Local I) E A) (k : A → prog (Local I) E B) :
  safe p → (∀ a, safe (k a)) → safe (bind p k).
Proof.
  intros Hp Hk. apply wp_bind. eapply wp_mono; [exact Hp|].
  intros o [a|e|m|] ->; [apply Hk|done..].
Qed.

Lemma safe_for_each {E X A : Type} (body : X → prog (Local I) E A) l :
  (∀ x, safe (body x)) → safe (for_each body l).
Proof.
  intros Hb. induction l as [|x l IH]; [done|]. simpl.
  apply safe_bind; [done|]. intros a. by apply safe_bind.
Qed.

Lemma safe_on_heap {E A : Type} (p : prog (Heap I) E A) :
  hwp ∅ p (λ o _, o = ∅) → safe (on_heap p).
Proof. intros Hp. by apply (wp_zoom heap set_heap held_locks all_settled). Qed.

Lemma safe_on_host {E A : Type} (p : prog W E A) : safe (on_host (I := I) p).
Proof. by apply safe_on_heap, hwp_call. Qed.

(** A step that leaves the heap alone. *)
Lemma safe_atomically {E A : Type} (f : Local I → A * Local I) :
  (∀ s, heap (f s).2 = heap s) → safe (atomically (E := E) f).
Proof.
  intros Hf. apply wp_neutral; [|done]. split; [|done].
  intros s b s' Heq HI. injection Heq as Heq. pose proof (Hf s) as Hh.
  rewrite Heq in Hh. simpl in Hh. by rewrite Hh.
Qed.

Lemma safe_lift {E A : Type} (r : result E A) : safe (lift_result r).
Proof. by destruct r. Qed.

Lemma safe_get_instance id : safe (get_instance (I := I) id).
Proof. apply safe_bind; [by apply safe_atomically|]. intros. apply safe_lift. Qed.

(** [InstanceData::new] and the [Arc] that the service puts it in. *)
Lemma safe_create {A : Type} id c (k : loc → prog (Local I) Error A) :
  (∀ l, safe (k l)) →
  safe (bind (on_heap (InstanceData_new id c)) (λ d, bind (on_heap (alloc d)) k)).
Proof.
  intros Hk. apply wp_bind, (wp_zoom heap set_heap held_locks all_settled).
  unfold InstanceData_new. apply wp_bind, hwp_call. intros [inst|e|m|]; try done.
  apply wp_bind, (wp_zoom heap set_heap held_locks all_settled), hwp_alloc; [done..|apply Hk].
Qed.

Lemma hwp_get_pid {E : Type} l : hwp ∅ (get_pid (I := I) (E := E) l) (λ o _, o = ∅).
Proof. by apply hwp_read. Qed.
Lemma hwp_config {E : Type} l : hwp ∅ (InstanceData.config (I := I) (E := E) l) (λ o _, o = ∅).
Proof. by apply hwp_read. Qed.
End discipline.
#[export] Hint Resolve safe_on_host safe_get_instance safe_lift : shim.
#[export] Hint Resolve hwp_start hwp_kill hwp_delete hwp_wait hwp_wait_timeout hwp_get_pid
  hwp_config : shim.

(** Follows a handler of the service, as [guar_steps] does for [guar]. *)
Ltac safe_steps :=
  repeat first
    [ progress intros
    | done
    | solve [auto 2 with shim nocore]
    | apply safe_on_heap; solve [auto 2 with shim nocore]
    | by apply safe_atomically
    | apply safe_create
    | apply safe_bind
    | apply safe_for_each
    | match goal with |- safe (match ?x with _ => _ end) => destruct x end ].

Section discipline2.
Context {W : Type} {I : Instance W} {H : Host W}.
Implicit Types (s : Local I) (d : InstanceData (T I)).

Lemma safe_wait_thread id l p : safe (wait_thread (I := I) id l p).
Proof. unfold wait_thread, send. safe_steps. Qed.

Lemma safe_task_create r : safe (task_create (I := I) r).
Proof.
  unfold task_create, has_instance, instance_config, mount_one, send. safe_steps.
Qed.

Lemma safe_task_start r : safe (task_start (I := I) r).
Proof. unfold task_start, send. safe_steps. split; [apply safe_wait_thread|done]. Qed.

Lemma safe_handle (r : Request) : safe (handle (I := I) r).
Proof.
  destruct r; unfold handle; (apply safe_bind; [|by intros]).
  - apply safe_task_create.
  - apply safe_task_start.
  - unfold task_kill. safe_steps.
  - unfold task_delete, send. safe_steps.
  - unfold task_wait. safe_steps.
  - unfold connect. safe_steps.
  - unfold task_state. safe_steps.
  - unfold shutdown, is_empty. safe_steps.
  - unfold task_stats. safe_steps.
Qed.
End discipline2.

Section quiescence.
Context {W : Type} {I : Instance W} {H : Host W}.

(** The state and the process id that a held lock protects, by instance. *)
Definition service_locks s : gmap loc (TaskState * option u32) := held_locks (heap s).

Lemma service_locks_lookup s l st p :
  service_locks s !! l = Some (st, p) →
  ∃ d, arena (heap s) !! l = Some d ∧ lock d = Held ∧ state d = st ∧ pid d = p.
Proof.
  unfold service_locks, held_locks. rewrite lookup_omap.
  destruct (arena (heap s) !! l) as [d|]; simpl; [|done]. unfold held.
  destruct (lock d) eqn:Hk; [done| |done]. intros [= <- <-]. by exists d.
Qed.

(** C1: under every interleaving of requests, an instance whose lock is free is
    in a settled state: it is not between [Created] and [Started], it has no
    process id before it is started, and it has one while it is [Started].  A
    lock that is held is held by the thread that took it, which is still running,
    so no request that has returned, failed or panicked leaves a lock behind; and
    until that thread makes a step the lock stays with it, and the state and the
    process id of the instance stay as they are, whatever the other threads do. *)
Theorem locks_are_released w ns addr s ts h l d :
  rtc (tracked service_locks (served (I := I))) ((Local_new w ns addr, []), ∅) ((s, ts), h) →
  arena (heap s) !! l = Some d →
  match lock d with
  | Free => state d ≠ Starting ∧ (state d = Created → pid d = None) ∧
            (state d = Started → is_Some (pid d))
  | Held => ∃ i x, h !! l = Some i ∧ ts !! i = Some x ∧ ¬ finished x ∧
      ∀ who s' ts', acts served who (s, ts) (s', ts') → who ≠ Some i →
        ∃ d', arena (heap s') !! l = Some d' ∧ lock d' = Held ∧
          state d' = state d ∧ pid d' = pid d
  | Poisoned => True
  end.
Proof.
  intros Hst Hl.
  assert (∀ p, served (I := I) p → safe p) as Hreqs by (intros p [r ->]; apply safe_handle).
  apply (tracked_owned service_locks (λ s, all_settled (heap s))) in Hst as Hc;
    [|done|apply pool_owned_init; [by intros ???|apply omap_empty]].
  destruct (lock d) eqn:Hk; [by apply (po_inv _ _ _ _ Hc l d)| |done].
  assert (service_locks s !! l = Some (state d, pid d)) as Hv.
  { unfold service_locks, held_locks. rewrite lookup_omap, Hl. simpl. unfold held. by rewrite Hk. }
  destruct (holder_runs _ _ _ _ l _ Hc Hv) as (i & x & Hi & Hx & Hfin).
  exists i, x. do 3 (split; [done|]). intros who s' ts' Hact Hne.
  apply (service_locks_lookup s').
  by apply (holder_excludes _ _ _ _ _ _ _ _ _ _ Hreqs Hc Hv Hi Hact Hne).
Qed.
End quiescence.

(** ** Responses *)

Section responses.
Context {W : Type} {I : Instance W} {H : Host W}.
Implicit Types (s : Local I) (d : InstanceData (T I)) (h : Heap I) (M : Local I → Prop).

(** [id] named the instance at [l] at some state of [M]. *)
Definition was_registered M (id : string) (l : loc) : Prop :=
  ∃ s, M s ∧ instances s !! id = Some l.

(** The process id of the instance is [p], or it had none at some state of [M] and
    [p] is the default. *)
Definition pid_reported M (l : loc) (p : u32) s : Prop :=
  (∃ d, arena (heap s) !! l = Some d ∧ pid d = Some p) ∨
  p = 0%Z ∧ ∃ s1 d1, M s1 ∧ arena (heap s1) !! l = Some d1 ∧ pid d1 = None.

(** The instance has exited. *)
Definition ended (l : loc) h : Prop :=
  ∃ d, arena h !! l = Some d ∧ phase (state d) = 3%nat.

(** An exit status comes with the time of the exit, and then the instance has
    exited. *)
Definition exit_reported (l : loc) (status : u32) (at_ : option Timestamp) s : Prop :=
  match at_ with None => status = 0%Z | Some _ => ended l (heap s) end.

(** What the response [p] to [r] says of the service, which answers in the state
    [s] and went through the states [M] since the request arrived. *)
Definition answers M (r : Request) (p : Response (H := H)) s : Prop :=
  match r, p with
  | RCreate q, PCreate x =>
      create_pid x = process_id ∧
      TaskCreate (create_id q) (create_bundle q) (create_rootfs q)
        (create_stdin q) (create_stdout q) (create_stderr q) ∈ events s
  | RStart q, PStart x =>
      TaskStart (req_id q) (start_pid x) ∈ events s ∧
      ∃ l d, was_registered M (req_id q) l ∧ arena (heap s) !! l = Some d ∧ is_Some (pid d)
  | RKill _, PEmpty | RShutdown, PEmpty | RStats _, PStats _ => True
  | RDelete q, PDelete x =>
      TaskDelete (req_id q) (delete_pid x) (delete_exit_status x) (delete_exited_at x) ∈ events s ∧
      ∃ l, was_registered M (req_id q) l ∧ pid_reported M l (delete_pid x) s ∧
        exit_reported l (delete_exit_status x) (delete_exited_at x) s
  | RWait q, PWait x =>
      is_Some (wait_exited_at x) ∧
      ∃ l, was_registered M (req_id q) l ∧ exit_reported l (wait_exit_status x) (wait_exited_at x) s
  | RConnect q, PConnect x =>
      shim_pid x = process_id ∧
      ∃ l, was_registered M (idreq_id q) l ∧ pid_reported M l (task_pid x) s
  | RState q, PState x =>
      ∃ l d, was_registered M (req_id q) l ∧ arena (heap s) !! l = Some d ∧
        state_bundle x = bundle (cfg d) ∧ state_stdin x = stdin (cfg d) ∧
        state_stdout x = stdout (cfg d) ∧ state_stderr x = stderr (cfg d) ∧
        exit_reported l (state_exit_status x) (state_exited_at x) s ∧
        match state_status x with
        | CREATED => state_pid x = 0%Z ∧
            ∃ s1 d1, M s1 ∧ arena (heap s1) !! l = Some d1 ∧ pid d1 = None
        | RUNNING => pid d = Some (state_pid x) ∧ state_exited_at x = None
        | STOPPED => pid d = Some (state_pid x) ∧ is_Some (state_exited_at x)
        end
  | _, _ => False
  end.

(** *** What stays as it was seen *)

Lemma ended_later l h h' : ended l h → arena_evolves h h' → ended l h'.
Proof.
  intros (d & Hl & Hp) Hh. destruct (Hh l d Hl) as (d' & Hl' & Hd). exists d'. split; [done|].
  apply ev_phase in Hd. assert (phase (state d') ≤ 3)%nat by (destruct (state d'); simpl; lia). lia.
Qed.

Lemma pid_later s s' l d q :
  arena (heap s) !! l = Some d → pid d = Some q → evolves s s' →
  ∃ d', arena (heap s') !! l = Some d' ∧ cfg d' = cfg d ∧ pid d' = Some q.
Proof.
  intros Hl Hq Hs. destruct (ev_arena _ _ Hs l d Hl) as (d' & Hl' & Hd).
  exists d'. split; [done|]. split; [by apply ev_cfg in Hd|by apply (ev_pid _ _ Hd)].
Qed.

Lemma event_later e s s' : e ∈ events s → evolves s s' → e ∈ events s'.
Proof. intros He Hs. by eapply elem_of_prefix, Hs. Qed.

(** *** The steps of an instance *)

Abbreviation hsees := (sees arena_evolves (λ _, True)).

Lemma hsees_exited {E A : Type} l (k : unit → prog (Heap I) E A) Q h0 :
  (∀ h, ended l h → hsees (k tt) Q h) → hsees (bind (set_state l Exited) k) Q h0.
Proof.
  intros Hk h b h' _ _ Heq. destruct (arena h !! l) as [d|] eqn:Hl; [|done].
  injection Heq as <- <-. apply Hk. exists (mkData (instance d) (cfg d) (pid d) Exited (lock d)).
  split; [apply lookup_insert_eq|done].
Qed.

Lemma hsees_wait_timeout {E : Type} l t h0 :
  hsees (wait_timeout (I := I) (E := E) l t) (λ x h, is_Some x → ended l h) h0.
Proof.
  unfold wait_timeout. apply sees_skip; [apply _|guar_steps|]. intros inst h1 _.
  apply sees_skip; [apply _|guar_steps|]. intros [x|] h2 _.
  - apply sees_skip; [apply _|guar_steps|]. intros _ h3 _.
    apply hsees_exited. intros h4 He. apply sees_skip; [apply _|guar_steps|].
    intros _ h5 H45 h _ Hh _. eapply ended_later; [exact He|]. by etrans.
  - by intros h _ _ [??].
Qed.

Lemma hsees_wait {E : Type} l h0 : hsees (wait (I := I) (E := E) l) (λ _ h, ended l h) h0.
Proof.
  unfold wait. apply sees_skip; [apply _|guar_steps|]. intros inst h1 _.
  apply sees_skip; [apply _|guar_steps|]. intros x h2 _.
  apply sees_skip; [apply _|guar_steps|]. intros _ h3 _.
  apply hsees_exited. intros h4 He. apply sees_skip; [apply _|guar_steps|].
  intros _ h5 H45 h _ Hh. eapply ended_later; [exact He|]. by etrans.
Qed.

(** The instance at [l] has a process id. *)
Definition has_pid (l : loc) h : Prop := ∃ d, arena h !! l = Some d ∧ is_Some (pid d).

Lemma has_pid_later l h h' : has_pid l h → arena_evolves h h' → has_pid l h'.
Proof.
  intros (d & Hl & q & Hq) Hh. destruct (Hh l d Hl) as (d' & Hl' & Hd).
  exists d'. split; [done|]. exists q. by apply (ev_pid _ _ Hd).
Qed.

Lemma hsees_set_pid {E A : Type} l p (k : unit → prog (Heap I) E A) Q h0 :
  (∀ h, has_pid l h → hsees (k tt) Q h) → hsees (bind (set_pid l p) k) Q h0.
Proof.
  intros Hk h b h' _ _ Heq. destruct (arena h !! l) as [d|] eqn:Hl; [|done].
  injection Heq as <- <-. apply Hk. eexists. split; [apply lookup_insert_eq|]. simpl.
  destruct (pid d); by eexists.
Qed.

Lemma hsees_start l h0 : hsees (start (I := I) l) (λ _ h, has_pid l h) h0.
Proof.
  unfold start. apply sees_skip; [apply _|guar_steps|]. intros _ h1 _.
  apply sees_finally; [apply _|guar_steps..|].
  apply sees_skip; [apply _|guar_steps|]. intros r h2 _.
  apply sees_skip; [apply _|guar_steps|]. intros _ h3 _.
  apply sees_skip; [apply _|guar_steps|]. intros inst h4 _.
  apply sees_skip; [apply _|guar_steps|]. intros [p|e] h5 _.
  - apply (sees_bind _ _ _ _ (λ _ h, has_pid l h)); [guar_steps| |].
    + apply hsees_set_pid. intros h6 Hp. apply sees_skip; [apply _|guar_steps|].
      intros _ h7 H67 h _ Hh. eapply has_pid_later; [exact Hp|]. by etrans.
    + intros _ h6 _ Hp h _ Hh. by apply Hp.
  - apply sees_skip; [apply _|guar_steps|]. done.
Qed.

(** *** The steps of a handler *)

Context (M : Local I → Prop).
Abbreviation lsees := (sees evolves M).

Lemma lsees_get_instance {A : Type} id (k : loc → prog (Local I) Error A) Q s0 :
  (∀ l s, evolves s0 s → was_registered M id l → lsees (k l) Q s) →
  lsees (bind (get_instance id) k) Q s0.
Proof.
  intros Hk s b s' HM Hs [= <- <-]. destruct (instances s !! id) as [l|] eqn:Hl; simpl; [|done].
  apply Hk; [done|by exists s].
Qed.

Lemma lsees_read {E A B : Type} l (f : InstanceData (T I) → A) (k : A → prog (Local I) E B) Q s0 :
  (∀ s d, M s → evolves s0 s → arena (heap s) !! l = Some d → lsees (k (f d)) Q s) →
  lsees (bind (on_heap (read l f)) k) Q s0.
Proof.
  intros Hk s b s' HM Hs. simpl. destruct (arena (heap s) !! l) as [d|] eqn:Hl; [|done].
  intros [= <- <-]. unfold set_data. rewrite insert_id by done.
  assert (set_heap (mkHeap (arena (heap s)) (world (heap s))) s = s) as -> by (by destruct s as [[]]).
  by apply Hk.
Qed.

Lemma lsees_on_heap {E A B : Type} (p : prog (Heap I) E A) (k : A → prog (Local I) E B) R Q s0 :
  guar arena_evolves p → (∀ h, hsees p R h) →
  (∀ a s1, evolves s0 s1 → (∀ s, M s → evolves s1 s → R a (heap s)) → lsees (k a) Q s1) →
  lsees (bind (on_heap p) k) Q s0.
Proof.
  intros Hg Hp Hk. apply (sees_bind _ _ _ _ (λ a s, R a (heap s))); [by apply guar_on_heap| |done].
  apply (sees_zoom evolves M arena_evolves heap set_heap); [by intros ?? []|done].
Qed.

Lemma lsees_send {E A : Type} e (k : unit → prog (Local I) E A) Q s0 :
  (∀ s, evolves s0 s → e ∈ events s → lsees (k tt) Q s) → lsees (bind (send e) k) Q s0.
Proof.
  intros Hk. apply sees_modify. intros s HM Hs. apply Hk.
  - etrans; [exact Hs|]. split; simpl; try done. by apply prefix_app_r.
  - apply elem_of_app. right. by left.
Qed.

Lemma exit_reported_wait l (x : option exit) (s : Local I) :
  (is_Some x → ended l (heap s)) →
  exit_reported l (unwrap_or (fst <$> x) 0%Z) (to_timestamp <$> (snd <$> x)) s.
Proof. intros Hx. destruct x as [[code time]|]; simpl; [|done]. by apply Hx. Qed.

(** The process id that was read at [s1], when the answer is given at [s]. *)
Lemma pid_reported_read l s1 s d :
  M s1 → arena (heap s1) !! l = Some d → evolves s1 s →
  pid_reported M l (unwrap_or (pid d) 0%Z) s.
Proof.
  intros HM Hl Hs. destruct (pid d) as [q|] eqn:Hq; [left|right; split; [done|by eauto]].
  destruct (pid_later _ _ _ _ _ Hl Hq Hs) as (d' & ? & _ & ?). by exists d'.
Qed.

Lemma lsees_state q s0 : lsees (task_state q) (λ x, answers M (RState q) (PState x)) s0.
Proof.
  unfold task_state. case_bool_decide; [|done]. simpl negb. cbn iota.
  apply lsees_get_instance. intros l s1 H01 Hreg.
  apply lsees_read. intros s2 d HM2 H12 Hd.
  apply (lsees_on_heap _ _ (λ x h, is_Some x → ended l h)); [guar_steps|apply hsees_wait_timeout|].
  intros x s3 H23 Hx. apply lsees_read. intros s4 d4 HM4 H34 Hd4 s HM H4 .
  destruct (ev_arena _ _ H4 l d4 Hd4) as (d5 & Hd5 & Hev). simpl.
  exists l, d5. split; [done|]. split; [done|]. rewrite (ev_cfg _ _ Hev).
  do 4 (split; [done|]). split.
  { apply exit_reported_wait. intros Hs. apply Hx; [done| |done]. etrans; [exact H34|exact H4]. }
  assert (evolves s2 s) as H2 by (etrans; [exact H23|etrans; [exact H34|exact H4]]).
  destruct (pid d) as [p|] eqn:Hp; simpl; [|by split; [|exists s2, d]].
  destruct (pid_later _ _ _ _ _ Hd Hp H2) as (d6 & Hd6 & _ & Hp6). simplify_eq.
  by destruct x as [[??]|]; simpl.
Qed.

Lemma lsees_delete q s0 : lsees (task_delete q) (λ x, answers M (RDelete q) (PDelete x)) s0.
Proof.
  unfold task_delete. case_bool_decide; [|done]. simpl negb. cbn iota.
  apply lsees_get_instance. intros l s1 H01 Hreg.
  apply sees_skip; [apply _|guar_steps|]. intros _ s2 H12.
  apply lsees_read. intros s3 d HM3 H23 Hd.
  apply (lsees_on_heap _ _ (λ x h, is_Some x → ended l h)); [guar_steps|apply hsees_wait_timeout|].
  intros x s4 H34 Hx. apply sees_modify. intros s5 HM5 H45.
  apply lsees_send. intros s6 H56 He s HM H6. simpl.
  assert (evolves s5 s6) as H56' by (etrans; [|exact H56]; by destruct s5).
  split; [by eapply event_later|]. exists l. split; [done|].
  assert (evolves s4 s) as H4 by (etrans; [exact H45|etrans; [exact H56'|exact H6]]).
  split; [eapply pid_reported_read; [exact HM3|exact Hd|etrans; [exact H34|exact H4]]|].
  apply exit_reported_wait. intros Hs. by apply Hx.
Qed.

Lemma lsees_wait q s0 : lsees (task_wait q) (λ x, answers M (RWait q) (PWait x)) s0.
Proof.
  unfold task_wait. case_bool_decide; [|done]. simpl negb. cbn iota.
  apply lsees_get_instance. intros l s1 H01 Hreg.
  apply (lsees_on_heap _ _ (λ x h, ended l h)); [guar_steps|apply hsees_wait|].
  intros [code time] s2 H12 Hx s HM H2. simpl. split; [by eexists|].
  exists l. split; [done|]. by apply Hx.
Qed.

Lemma lsees_connect q s0 : lsees (connect q) (λ x, answers M (RConnect q) (PConnect x)) s0.
Proof.
  unfold connect. apply lsees_get_instance. intros l s1 H01 Hreg.
  apply lsees_read. intros s2 d HM2 H12 Hd s HM Hs. simpl. split; [done|].
  exists l. split; [done|]. by apply (pid_reported_read l s2).
Qed.

Lemma lsees_start q s0 : lsees (task_start q) (λ x, answers M (RStart q) (PStart x)) s0.
Proof.
  unfold task_start. case_bool_decide; [|done]. simpl negb. cbn iota.
  apply lsees_get_instance. intros l s1 H01 Hreg.
  apply (lsees_on_heap _ _ (λ _ h, has_pid l h)); [guar_steps|apply hsees_start|].
  intros p s2 H12 Hp. apply lsees_send. intros s3 H23 He.
  apply sees_skip; [apply _|guar_steps|]. intros _ s4 H34 s HM H4. simpl.
  assert (evolves s3 s) as H3 by (etrans; [exact H34|exact H4]).
  split; [by eapply event_later|].
  destruct (Hp s HM) as (d & Hd & Hpid); [etrans; [exact H23|exact H3]|]. by exists l, d.
Qed.

Lemma lsees_create q s0 : lsees (task_create q) (λ x, answers M (RCreate q) (PCreate x)) s0.
Proof.
  unfold task_create, has_instance, instance_config, mount_one.
  case_match; [done|]. case_match; [done|].
  apply sees_skip; [apply _|by apply guar_gets, _|]. intros [] s1 _; [done|].
  do 5 (apply sees_skip; [apply _|guar_steps|]; intros ? ? _; cbv zeta).
  apply sees_skip; [apply _|by apply guar_gets, _|]. intros cf c2 _. cbv zeta.
  do 3 (apply sees_skip; [apply _|guar_steps|]; intros ? ? _).
  apply lsees_send. intros c3 _ He.
  apply sees_skip; [apply _|guar_steps|]. intros _ c4 H56 c5 HM H6. split; [done|].
  eapply event_later; [exact He|]. etrans; [exact H56|exact H6].
Qed.

Lemma lsees_handle (r : Request) s0 : lsees (handle r) (answers M r) s0.
Proof.
  assert (∀ (A : Type) (p : prog (Local I) Error A) (f : A → Response),
    guar evolves p → lsees p (λ x, answers M r (f x)) s0 →
    lsees (bind p (λ x, Ret (f x))) (answers M r) s0) as Hret.
  { intros A p f Hg Hp. eapply sees_bind; [apply _|done|exact Hp|]. intros a s1 _ Ha s HM Hs. by apply Ha. }
  destruct r as [q|q|q|q|q|q|q| |q]; unfold handle.
  - apply (Hret _ (task_create q) PCreate); [apply guar_task_create|apply lsees_create].
  - apply (Hret _ (task_start q) PStart); [apply guar_task_start|apply lsees_start].
  - apply sees_skip; [apply _|unfold task_kill; guar_steps|done].
  - apply (Hret _ (task_delete q) PDelete); [unfold task_delete; guar_steps|apply lsees_delete].
  - apply (Hret _ (task_wait q) PWait); [unfold task_wait; guar_steps|apply lsees_wait].
  - apply (Hret _ (connect q) PConnect); [unfold connect; guar_steps|apply lsees_connect].
  - apply (Hret _ (task_state q) PState); [unfold task_state; guar_steps|apply lsees_state].
  - apply sees_skip; [apply _| |done]. unfold shutdown, is_empty. guar_steps; by apply guar_gets, _.
  - apply sees_skip; [apply _|unfold task_stats; guar_steps|done].
Qed.
End responses.

Section answers.
Context {W : Type} {I : Instance W} {H : Host W}.

(** The states that an execution from [c] to [c'] can go through. *)
Definition passed (c c' : Local I * list (task (Local I) Error (Response (H := H))))
    (s : Local I) : Prop :=
  ∃ c1, rtc service_step c c1 ∧ rtc service_step c1 c' ∧ s = c1.1.

(** C15: what the service answers agrees with its record, whatever other requests
    arrive while a request is served and however the threads interleave.  The response
    is of the kind of the request.  A state request, when it is answered, reports the
    bundle and the streams in the configuration of an instance that had the id since the
    request arrived; it reports the process id of that instance when it says that the task
    runs or has stopped, and then an exit time exactly if it has stopped; it says that the
    task was only created when the instance had no process id at some moment since then.
    A delete or connect request reports the process id that the instance has, or had
    none.  An exit status is only reported with its time, and only of an instance that
    has exited; a wait request always reports one.  The pids and exits that create, start
    and delete requests report are those of the events that were sent. *)
Theorem answers_agree_with_the_record w ns addr r c c' i p :
  rtc (service_step (I := I)) (Local_new w ns addr, []) c →
  c.2 !! i = Some (Serving (handle r)) → rtc service_step c c' →
  c'.2 !! i = Some (Serving (Ret p)) → answers (passed c c') r p c'.1.
Proof.
  intros H0 Hi Hst Hp.
  assert (∀ p, served (I := I) p → guar evolves p) as Hs by (intros q [q' ->]; apply guar_handle).
  assert (Forall (task_guar evolves) c.2) as Hts.
  { eapply (cstep_guar served evolves); [apply _|done| |exact H0]. by constructor. }
  destruct (cstep_sees evolves (passed c c') served (answers (passed c c') r) c c' i (handle r))
    as (p' & Hp' & Hsees); [done|done|done|intros c1 ??; by exists c1|done|apply lsees_handle|].
  rewrite Hp in Hp'. injection Hp' as <-. apply Hsees; [by exists c'|done].
Qed.
End answers.
