(* ===== verification/Telemetry.v ===== *)
(** OpenTelemetry (sandbox/shim/otel.rs) and what the [opentelemetry] feature adds
    to the [wait] request (sandbox/shim/local.rs): a thread that records a span
    every minute until the request tells it to stop.

    The environment of the process is a map; an [OsString] is its bytes, and
    [std::env::var] fails on one that is not UTF-8. *)
From S2P Require Import Prelude Errors TaskState Sync Instance InstanceData Paths Oci Local.
Local Open Scope string_scope.

Definition OTEL_EXPORTER_OTLP_ENDPOINT : string := "OTEL_EXPORTER_OTLP_ENDPOINT".
Definition OTEL_EXPORTER_OTLP_TRACES_ENDPOINT : string := "OTEL_EXPORTER_OTLP_TRACES_ENDPOINT".
Definition OTEL_EXPORTER_OTLP_PROTOCOL : string := "OTEL_EXPORTER_OTLP_PROTOCOL".
Definition OTEL_EXPORTER_OTLP_TRACES_PROTOCOL : string := "OTEL_EXPORTER_OTLP_TRACES_PROTOCOL".
Definition OTEL_SDK_DISABLED : string := "OTEL_SDK_DISABLED".

Inductive Protocol := HttpBinary | Grpc | HttpJson.

Record OtlpConfig := mkOtlp { traces_endpoint : string; traces_protocol : Protocol }.

Abbreviation Env := (gmap string string).

Section otel.
(** UTF-8 validity, and the default protocol of the [opentelemetry_otlp] crate,
    which its features choose. *)
Context (utf8 : string → bool) (protocol_default : string).

(** [env::var(name).ok()] *)
Definition env_var (e : Env) (name : string) : option string :=
  match e !! name with
  | Some v => if utf8 v then Some v else None
  | None => None
  end.

Definition traces_enabled (e : Env) : bool :=
  let check_env_var var := match e !! var with
                           | Some v => negb (bool_decide (v = ""))
                           | None => false
                           end in
  let traces := check_env_var OTEL_EXPORTER_OTLP_TRACES_ENDPOINT in
  let otlp := check_env_var OTEL_EXPORTER_OTLP_ENDPOINT in
  let sdk_disabled := bool_decide (e !! OTEL_SDK_DISABLED = Some "true") in
  (traces || otlp) && negb sdk_disabled.

Definition traces_endpoint_from_env (e : Env) : result string string :=
  match env_var e OTEL_EXPORTER_OTLP_TRACES_ENDPOINT with
  | Some v => Ok v
  | None => ok_or (env_var e OTEL_EXPORTER_OTLP_ENDPOINT) "environment variable not found"
  end.

Definition traces_protocol_from_env (e : Env) : result string Protocol :=
  let p := unwrap_or (env_var e OTEL_EXPORTER_OTLP_TRACES_PROTOCOL)
             (unwrap_or (env_var e OTEL_EXPORTER_OTLP_PROTOCOL) protocol_default) in
  if bool_decide (p = "http/protobuf") then Ok HttpBinary
  else if bool_decide (p = "grpc") then Ok Grpc
  else if bool_decide (p = "http/json") then Ok HttpJson
  else Err "Invalid OTEL_EXPORTER_OTLP_PROTOCOL value".

Definition build_from_env (e : Env) : result string OtlpConfig :=
  match traces_endpoint_from_env e with
  | Err m => Err m
  | Ok endpoint =>
      match traces_protocol_from_env e with
      | Err m => Err m
      | Ok protocol => Ok (mkOtlp endpoint protocol)
      end
  end.

(** When traces are enabled and the variables are text, the exporter is
    configured with a non-empty endpoint, the one for traces first, provided
    that the traces variable is not set to the empty string; the protocol is the
    only thing that can then make the configuration fail. *)
Theorem enabled_config_has_endpoint e :
  traces_enabled e = true → (∀ k v, e !! k = Some v → utf8 v = true) →
  e !! OTEL_EXPORTER_OTLP_TRACES_ENDPOINT ≠ Some "" →
  match build_from_env e with
  | Ok c => traces_endpoint c ≠ "" ∧
      Some (traces_endpoint c) = match e !! OTEL_EXPORTER_OTLP_TRACES_ENDPOINT with
                                 | Some v => Some v
                                 | None => e !! OTEL_EXPORTER_OTLP_ENDPOINT
                                 end
  | Err m => m = "Invalid OTEL_EXPORTER_OTLP_PROTOCOL value"
  end.
Proof.
  intros Hen Hu Hne.
  assert (∀ k, env_var e k = e !! k) as Hvar.
  { intros k. unfold env_var. destruct (e !! k) eqn:Hk; [|done]. by rewrite (Hu _ _ Hk). }
  unfold build_from_env, traces_endpoint_from_env. rewrite !Hvar.
  assert (∃ p, match e !! OTEL_EXPORTER_OTLP_TRACES_ENDPOINT with
          | Some v => Some v
          | None => e !! OTEL_EXPORTER_OTLP_ENDPOINT end = Some p ∧ p ≠ "") as (p & Hp & Hp').
  { unfold traces_enabled in Hen. apply andb_true_iff in Hen as [Hen _].
    destruct (e !! OTEL_EXPORTER_OTLP_TRACES_ENDPOINT) as [v|]; [exists v; naive_solver|].
    destruct (e !! OTEL_EXPORTER_OTLP_ENDPOINT) as [v|]; [|done].
    exists v. split; [done|]. intros ->. done. }
  assert (match traces_protocol_from_env e with
    | Ok _ => True | Err m => m = "Invalid OTEL_EXPORTER_OTLP_PROTOCOL value" end) as Hproto.
  { unfold traces_protocol_from_env. by repeat case_bool_decide. }
  destruct (e !! OTEL_EXPORTER_OTLP_TRACES_ENDPOINT) as [v|]; simpl.
  - destruct (traces_protocol_from_env e); [|done]. simpl. naive_solver.
  - rewrite Hp. simpl. destruct (traces_protocol_from_env e); [|done]. by split.
Qed.
End otel.

(** The environment in which the variable for traces is set but empty. *)
Definition env_empty_traces : Env :=
  {[OTEL_EXPORTER_OTLP_TRACES_ENDPOINT := "";
    OTEL_EXPORTER_OTLP_ENDPOINT := "http://collector:4318"]}.

Definition env_traces : Env := {[OTEL_EXPORTER_OTLP_ENDPOINT := "http://collector:4318"]}.

Lemma enabled_config_has_endpoint_witness :
  match build_from_env (λ _, true) "grpc" env_traces with
  | Ok c => traces_endpoint c ≠ "" ∧
      Some (traces_endpoint c) = match env_traces !! OTEL_EXPORTER_OTLP_TRACES_ENDPOINT with
                                 | Some v => Some v
                                 | None => env_traces !! OTEL_EXPORTER_OTLP_ENDPOINT
                                 end
  | Err m => m = "Invalid OTEL_EXPORTER_OTLP_PROTOCOL value"
  end.
Proof.
  exact (enabled_config_has_endpoint (λ _, true) "grpc" env_traces eq_refl
    (λ _ _ _, eq_refl) ltac:(vm_compute; discriminate)).
Defined.

(** An empty traces endpoint counts as unset when it is decided whether to
    trace, but as set when the endpoint is chosen: the exporter is then
    configured with an empty endpoint although the general one is given. *)
Theorem empty_traces_endpoint_is_used :
  traces_enabled env_empty_traces = true ∧
  build_from_env (λ _, true) "http/protobuf" env_empty_traces = Ok (mkOtlp "" HttpBinary).
Proof. done. Qed.

(** ** The interval thread of [wait] *)

(** The channel between the request and the thread: messages in it, and whether
    the sender still exists. *)
Record Channel := mkChannel { messages : nat; sender : bool }.

Inductive Received := Message | TimedOut | Disconnected.

(** [rx.recv_timeout(60 s)]; [expired] tells whether the minute is over.  [None]
    means that the thread is still waiting. *)
Definition recv_timeout (expired : bool) (c : Channel) : option (Received * Channel) :=
  match messages c with
  | Datatypes.S n => Some (Message, mkChannel n (sender c))
  | O => if negb (sender c) then Some (Disconnected, c)
         else if expired then Some (TimedOut, c) else None
  end.

(** The thread: how many iterations of its loop it makes before it waits or
    stops, of at most [fuel], and whether it has stopped. *)
Fixpoint interval_thread (fuel : nat) (expired : bool) (c : Channel) : nat * bool :=
  match fuel with
  | O => (O, false)
  | Datatypes.S fuel =>
      match recv_timeout expired c with
      | None => (O, false)
      | Some (Message, _) => (1%nat, true)
      | Some (_, c') => let '(n, stopped) := interval_thread fuel false c' in
                        (Datatypes.S n, stopped)
      end
  end.

Section wait.
Context {W : Type} {I : Instance W} {H : Host W}.
Implicit Types (s : Local I).

(** [Task::wait]: the answer, and the channel it leaves to the thread, since [tx]
    is dropped on every path. *)
Definition wait_request (req : TaskRequest) s :
    outcome Error WaitResponse * option Channel :=
  let o := (run (task_wait req) s).1.1 in
  (o, match o with
      | Done _ => Some (mkChannel 1 false)
      | Failed _ => Some (mkChannel 0 false)
      | _ => Some (mkChannel 0 true)
      end).

Lemma spin fuel : interval_thread fuel false (mkChannel 0 false) = (fuel, false).
Proof. induction fuel as [|fuel IH]; simpl; [done|]. by rewrite IH. Qed.

(** The thread stops with the request only when the request succeeds.  While
    the request waits, the thread makes at most one iteration a minute; after a
    wait that fails, for a task that does not exist, say, it never stops, and
    no longer waits between its iterations. *)
Theorem failed_wait_leaves_thread_spinning (req : TaskRequest) s id :
  req = mkReq id "" → instances s !! id = None →
  ∃ c, wait_request req s = (Failed (NotFound id), Some c) ∧
    (∀ fuel, interval_thread fuel false c = (fuel, false)) ∧
    (∀ fuel, interval_thread (Datatypes.S fuel) false (mkChannel 1 false) = (1%nat, true)) ∧
    (∀ fuel, interval_thread fuel false (mkChannel 0 true) = (0%nat, false)).
Proof.
  intros -> Hi. exists (mkChannel 0 false). split.
  - unfold wait_request, task_wait. simpl req_exec_id. rewrite bool_decide_eq_true_2 by done.
    go. rewrite run_bind, run_get_instance. simpl req_id. by rewrite Hi.
  - split; [apply spin|]. split; [done|]. by intros [|fuel].
Qed.
End wait.

(** ** The tracer and the context of a trace *)

(** The exporter that [init_tracer_http] and [init_tracer_grpc] build. *)
Inductive Exporter := HttpExporter (endpoint : string) | TonicExporter (endpoint : string).

(** The crates of OpenTelemetry: a state in which a tracer is installed, the
    subscriber is set, and the current span has a context. *)
Class OtelSdk (W : Type) := {
  Tracer : Type;
  TraceContext : Type;
  install_batch : Exporter → prog W string Tracer;
  set_propagator : prog W Empty_set unit;
  env_filter : string → result string unit;              (* EnvFilter::try_new *)
  set_global_default : Tracer → prog W string unit;
  shutdown_tracer_provider : prog W Empty_set unit;
  current_context : W → TraceContext;                    (* Span::current().context() *)
  set_parent : TraceContext → W → W;
  inject : TraceContext → gmap string string;            (* the global propagator *)
  extract : (string → option string) → list string → TraceContext;
  map_to_json : gmap string string → result string string;
  map_from_json : string → result string (gmap string string);
}.

Section tracer.
Context {W : Type} {O : OtelSdk W}.
Local Open Scope prog_scope.

Definition init_tracer (c : OtlpConfig) : prog W string Tracer :=
  install_batch match traces_protocol c with
                | HttpBinary | HttpJson => HttpExporter (traces_endpoint c)
                | Grpc => TonicExporter (traces_endpoint c)
                end.

(** [Config::init]; what it returns is a guard. *)
Definition otel_init (c : OtlpConfig) : prog W string unit :=
  let! tracer := init_tracer c in
  infallible set_propagator ;;
  let! _ := lift_result (env_filter "info,h2=off") in
  set_global_default tracer.

(** [impl Drop for ShutdownGuard] *)
Definition drop_otel {E : Type} : prog W E unit := infallible shutdown_tracer_provider.

(** The [Extractor] of a plain map. *)
Definition extract_map (m : gmap string string) : TraceContext :=
  extract (λ k, m !! k) (map_to_list m).*1.

Definition get_trace_context : prog W string string :=
  let! c := gets current_context in
  lift_result (map_to_json (inject c)).

Definition set_trace_context (text : string) : prog W string unit :=
  let! m := lift_result (map_from_json text) in
  modify (set_parent (extract_map m)).

(** [MetadataExtractor]: the first value of a header. *)
Definition metadata_get (m : gmap string (list string)) (k : string) : option string :=
  (m !! k) ≫= head.
Definition metadata_keys (m : gmap string (list string)) : list string := (map_to_list m).*1.
Definition extract_context (m : gmap string (list string)) : TraceContext :=
  extract (metadata_get m) (metadata_keys m).
End tracer.

(** [SpanNamingLayer::on_new_span]: a span that is exported, whose data has a name, is
    renamed. *)
Definition span_name (target name : string) : string := target +:+ "::" +:+ name.
Definition on_new_span (target name : string) (data_name : option string) : option string :=
  match data_name with
  | Some _ => Some (span_name target name)
  | None => None
  end.

(** Metadata with one value for each header is extracted as a plain map is. *)
Lemma single_valued_metadata {W : Type} {O : OtelSdk W} (m : gmap string string) :
  (∀ f g l, (∀ k, f k = g k) → extract f l = extract g l) →
  extract_context ((λ v, [v]) <$> m) = extract_map m.
Proof.
  intros Hext. unfold extract_context, extract_map, metadata_keys.
  rewrite map_to_list_fmap, <-list_fmap_compose. apply Hext. intros k.
  unfold metadata_get. rewrite lookup_fmap. by destruct (m !! k).
Qed.
