(* ===== verification/Stub.v ===== *)
(** [InstanceStub] (sandbox/shim/local/tests.rs) and a host for it: the service
    instantiated with a runtime that the repository itself uses to exercise it.

    The stub discharges [InstanceLaws]; the theorems of Oci, Local and
    LocalThreads are applied here to whole requests that run. *)
From S2P Require Import Prelude Errors TaskState Sync Instance Cells InstanceData Paths Oci Local Threads LocalThreads Telemetry.
Local Open Scope string_scope.

(** ** A host *)

(** A machine with a clock, bundles with their specs, programs that can be run,
    and the standard inputs written so far. *)
Record Machine := mkMachine {
  clock : Z;
  bundles : gmap path Spec;
  programs : gset path;
  inputs : list (nat * string);
}.

Definition now {E : Type} : prog Machine E DateTime :=
  atomically (λ m, (mkTime (clock m) 0, mkMachine (clock m + 1) (bundles m) (programs m) (inputs m))).

#[export] Instance machine_os : Os (ShimState Machine) := {|
  Child := nat;
  ExitStatus := Z;
  spawn c := on_shim (bind (gets (λ m, bool_decide (program c ∈ programs m))) (λ ok : bool,
    if ok then Ret 7%nat else Throw (Build_IoError KindNotFound "No such file or directory")));
  has_stdin _ := true;
  write_all c s := on_shim (modify (λ m,
    mkMachine (clock m) (bundles m) (programs m) (inputs m ++ [(c, s)])));
  child_kill _ := Ret tt;
  child_wait _ := Ret 0%Z;
  process_id := 42%Z;
|}.

#[export] Instance machine_host : Host (ShimState Machine) := {|
  Metrics := Z;
  AnyMessage := Z;
  Spec_load p := on_shim (bind (gets (λ m, bundles m !! p)) (λ s,
    lift_result (ok_or s "No such file or directory")));
  canonicalize_rootfs b s := Ret {|
    process := process s; hooks := hooks s; annotations := annotations s;
    root := (λ r, mkRoot (path_join b (root_path r))) <$> root s |};
  create_dir_all _ := Ret tt;
  mount_rootfs _ _ _ _ := Ret tt;
  thread_spawn := Ret tt;
  collect_metrics p := Ret p;
  convert_to_any m := Ok m;
|}.

(** ** [InstanceStub] *)

#[export] Instance InstanceStub : Instance (ShimState Machine) := {|
  Instance.T := nat;
  Instance.new _ _ := new_cell;
  Instance.start _ := Ret process_id;
  Instance.kill c _ := bind (on_shim now) (λ t, bind (cell_set c (1%Z, t)) (λ _, Ret tt));
  Instance.delete _ := Ret tt;
  Instance.wait_timeout c t := cell_wait c t;
|}.

#[export] Instance stub_laws : InstanceLaws InstanceStub :=
  cell_instance_laws InstanceStub (λ c, c) (λ _ _, eq_refl).

(** ** Whole requests *)

Definition spec0 : Spec :=
  {| process := Some (mkProcess (Some ["/app.wasm"]) None); root := Some (mkRoot "rootfs");
     hooks := None; annotations := None |}.

(** A spec whose only prestart hook cannot be spawned. *)
Definition spec_bad_hook : Spec :=
  {| process := process spec0; root := root spec0; annotations := None;
     hooks := Some (mkHooks (Some [mkHook "/no/such/hook" None None])) |}.

Definition machine0 : Machine :=
  mkMachine 1000 {["/b/config.json" := spec0; "/h/config.json" := spec_bad_hook]} {["/bin/hook"]} [].

Definition shim0 : Local InstanceStub := Local_new (mkShim machine0 []) "ns" "/addr".

Definition create_req (id b : string) : CreateTaskRequest :=
  {| create_id := id; create_bundle := b; create_rootfs := []; create_terminal := false;
     create_stdin := ""; create_stdout := "out"; create_stderr := "";
     create_checkpoint := ""; create_parent_checkpoint := "" |}.

(** The state after one request, run alone. *)
Definition then_ {E A} (p : prog (Local InstanceStub) E A) (s : Local InstanceStub) :
  Local InstanceStub := (run p s).1.2.

(** The task "t" just created, then started, then killed. *)
Definition created : Local InstanceStub := then_ (task_create (create_req "t" "/b")) shim0.
Definition started : Local InstanceStub := then_ (task_start (mkReq "t" "")) created.
Definition killed : Local InstanceStub := then_ (task_kill (mkKill "t" "" 9)) started.

Definition data_at (s : Local InstanceStub) : InstanceData nat :=
  default (mkData 0%nat (config_new "" "") None Created Free) (arena (heap s) !! 0%nat).

(** The life cycle of a task, request by request: its answers and its events. *)
Example life_cycle :
  (run (task_create (create_req "t" "/b")) shim0).1.1 = Done (mkCreateResp 42) ∧
  (run (task_start (mkReq "t" "")) created).1.1 = Done (mkStartResp 42) ∧
  (run (task_kill (mkKill "t" "" 9)) started).1.1 = Done tt ∧
  (run (task_delete (mkReq "t" "")) killed).1.1 =
    Failed (FailedPrecondition "invalid state transition: Started => Deleting") ∧
  (run (task_wait (mkReq "t" "")) killed).1.1 =
    Done (mkWaitResp 1 (Some (mkTimestamp 1000 0))) ∧
  let waited := then_ (wait_thread "t" 0 42) killed in
  let deleted := then_ (task_delete (mkReq "t" "")) waited in
  (run (task_delete (mkReq "t" "")) waited).1.1 =
    Done (mkDeleteResp 42 1 (Some (mkTimestamp 1000 0))) ∧
  instances deleted = ∅ ∧
  events deleted =
    [TaskCreate "t" "/b" [] "" "out" ""; TaskStart "t" 42;
     TaskExit "t" 1 (Some (mkTimestamp 1000 0)) 42 "t";
     TaskDelete "t" 42 1 (Some (mkTimestamp 1000 0))].
Proof. vm_compute. repeat split. Qed.

Lemma created_ready : ready created "t" 0%nat (data_at created).
Proof. split; vm_compute; reflexivity. Qed.
Lemma started_ready : ready started "t" 0%nat (data_at started).
Proof. split; vm_compute; reflexivity. Qed.

(** *** The theorems of Local on these requests *)

Lemma task_start_correct_witness :
  run (task_start (mkReq "t" "")) created =
  (Done (mkStartResp 42),
   add_event (TaskStart "t" 42)
     (moved created 0%nat (upd (data_at created) (Some 42%Z) Started Free) (world (heap created))),
   [wait_thread "t" 0%nat 42%Z]) ∧
  run (task_start (mkReq "t" "")) started =
  (Failed (FailedPrecondition "invalid state transition: Started => Starting"), started, []).
Proof.
  split.
  - exact (task_start_correct created "t" 0%nat (data_at created) created_ready).
  - exact (task_start_correct started "t" 0%nat (data_at started) started_ready).
Defined.

Lemma task_state_correct_witness :
  (run (task_state (mkReq "t" "")) started).1.1 =
  Done {| state_bundle := "/b"; state_stdin := ""; state_stdout := "out"; state_stderr := "";
          state_pid := 42; state_exit_status := 0; state_exited_at := None;
          state_status := RUNNING |}.
Proof.
  rewrite (task_state_correct started "t" 0%nat (data_at started) started_ready).
  vm_compute. reflexivity.
Defined.

Lemma task_delete_correct_witness :
  run (task_delete (mkReq "t" "")) created =
  (Done (mkDeleteResp 0 0 None),
   add_event (TaskDelete "t" 0 0 None)
     (set_instances (base.delete "t" (instances created))
       (moved created 0%nat (upd (data_at created) None Deleting Free) (world (heap created)))), []).
Proof.
  etrans; [apply (task_delete_correct created "t" 0%nat (data_at created) (world (heap created)) []);
    [apply created_ready|left; vm_compute; reflexivity|reflexivity]|].
  vm_compute. reflexivity.
Defined.

Lemma task_create_correct_witness :
  registered (create_req "t" "/b") shim0 created ∨
  (same_tasks shim0 created ∧ ∀ r, Done (E := Error) (mkCreateResp 42) ≠ Done r).
Proof.
  apply (task_create_correct (create_req "t" "/b") shim0 (Done (mkCreateResp 42)) created []).
  vm_compute. reflexivity.
Defined.

Lemma hook_failure_causes_witness :
  let h := mkHook "/no/such/hook" None None in
  let w := world (heap shim0) in
  (∃ io w1 ts1, run (spawn (hook_command h)) w = (Failed io, w1, ts1) ∧
     AnyErr "Failed to execute hook" = AnyErr "Failed to execute hook") ∨
  (∃ child io w1 w2 w3 ts1 ts2, run (spawn (hook_command h)) w = (Done child, w1, ts1) ∧
     run (child_wait child) w2 = (Failed io, w3, ts2) ∧ AnyErr "Failed to execute hook" = Stdio io).
Proof.
  apply (hook_failure_causes (mkHook "/no/such/hook" None None) (world (heap shim0))
    (AnyErr "Failed to execute hook") (world (heap shim0)) []).
  vm_compute. reflexivity.
Defined.

Lemma failed_wait_leaves_thread_spinning_witness :
  ∃ c, wait_request (mkReq "nope" "") created = (Failed (NotFound "nope"), Some c) ∧
    (∀ fuel, interval_thread fuel false c = (fuel, false)) ∧
    (∀ fuel, interval_thread (Datatypes.S fuel) false (mkChannel 1 false) = (1%nat, true)) ∧
    (∀ fuel, interval_thread fuel false (mkChannel 0 true) = (0%nat, false)).
Proof.
  apply (failed_wait_leaves_thread_spinning (mkReq "nope" "") created "nope");
    [reflexivity|vm_compute; reflexivity].
Defined.

(** *** The service under interleavings *)

(** A schedule of the service: a request arrives, or a thread makes a step. *)
Definition choices (l : list (Request + nat)) : list (choice (Local InstanceStub) Error Response) :=
  (λ c, match c with inl r => Arrive (handle r) | inr i => Step i end) <$> l.

Definition pool : Type := Local InstanceStub * list (task (Local InstanceStub) Error Response).

Definition after_schedule (l : list (Request + nat)) (c : pool) : pool :=
  default c (interleave (choices l) c).

Lemma after_schedule_reachable l c :
  bool_decide (is_Some (interleave (choices l) c)) = true →
  rtc service_step c (after_schedule l c).
Proof.
  intros [c' Hc]%bool_decide_eq_true. unfold after_schedule. rewrite Hc.
  eapply interleave_sound; [|exact Hc]. apply Forall_fmap, Forall_true. intros [r|i]; simpl; [|done].
  by exists r.
Qed.

Definition steps (i n : nat) : list (Request + nat) := replicate n (inr i).

(** A task is created and its start is on the way; then the start finishes. *)
Definition starting : pool := after_schedule
  ([inl (RCreate (create_req "t" "/b"))] ++ steps 0 7 ++ [inl (RStart (mkReq "t" ""))] ++ steps 1 4)
  (shim0, []).
Definition running : pool := after_schedule (steps 1 5) starting.

Lemma starting_reachable : rtc service_step (shim0, []) starting.
Proof. apply after_schedule_reachable. vm_compute. reflexivity. Qed.

Lemma service_only_moves_forward_witness :
  state (data_at starting.1) = Starting ∧ state (data_at running.1) = Started ∧
  evolves starting.1 running.1.
Proof.
  split; [vm_compute; reflexivity|]. split; [vm_compute; reflexivity|].
  apply (service_only_moves_forward (mkShim machine0 []) "ns" "/addr" starting running);
    [apply starting_reachable|apply after_schedule_reachable; vm_compute; reflexivity].
Defined.

(** The same schedule with the holders of the locks: the thread of the start request,
    at place 1, holds the lock of the instance. *)
Definition tracked_start : pool * gmap nat nat := default ((shim0, []), ∅)
  (track service_locks (choices ([inl (RCreate (create_req "t" "/b"))] ++ steps 0 7
     ++ [inl (RStart (mkReq "t" ""))] ++ steps 1 4)) (shim0, []) ∅).

Lemma tracked_start_reachable :
  rtc (tracked service_locks served) ((shim0, []), ∅) tracked_start.
Proof.
  unfold tracked_start. destruct (track _ _ _ _) as [ch|] eqn:Hc; simpl; [|constructor].
  eapply track_sound; [|exact Hc]. apply Forall_fmap, Forall_true.
  intros [r|i]; simpl; [by exists r|done].
Qed.

Lemma locks_are_released_witness :
  lock (data_at tracked_start.1.1) = Held ∧ tracked_start.2 !! 0%nat = Some 1%nat ∧
  ∃ i x, tracked_start.2 !! 0%nat = Some i ∧ tracked_start.1.2 !! i = Some x ∧ ¬ finished x ∧
    ∀ who s' ts', acts served who (tracked_start.1.1, tracked_start.1.2) (s', ts') → who ≠ Some i →
      ∃ d', arena (heap s') !! 0%nat = Some d' ∧ lock d' = Held ∧
        state d' = state (data_at tracked_start.1.1) ∧ pid d' = pid (data_at tracked_start.1.1).
Proof.
  split; [vm_compute; reflexivity|]. split; [vm_compute; reflexivity|].
  apply (locks_are_released (mkShim machine0 []) "ns" "/addr" tracked_start.1.1 tracked_start.1.2
    tracked_start.2 0%nat (data_at tracked_start.1.1)); [|vm_compute; reflexivity].
  rewrite <-!surjective_pairing. apply tracked_start_reachable.
Defined.

(** Two create requests for the same id: both pass the check for an existing
    task before either of them registers its own. *)
Definition racing : pool := after_schedule
  ([inl (RCreate (create_req "t" "/b")); inl (RCreate (create_req "t" "/b")); inr 0%nat; inr 1%nat]
   ++ steps 0 6 ++ steps 1 6) (shim0, []).

(** Two concurrent create requests for one id can both be answered with
    success, although the service refuses a second task with the same id when
    the requests come one after the other: one of the two instances is then
    unreachable, since only one is registered. *)
Theorem create_is_not_atomic :
  (∃ s ts, rtc service_step (shim0, []) (s, ts) ∧
     ts = [Serving (Ret (PCreate (mkCreateResp 42))); Serving (Ret (PCreate (mkCreateResp 42)))] ∧
     base.size (arena (heap s)) = 2%nat ∧ base.size (instances s) = 1%nat) ∧
  (run (handle (RCreate (create_req "t" "/b"))) created).1.1 = Failed (AlreadyExists "t").
Proof.
  split; [|vm_compute; reflexivity]. exists racing.1, racing.2. split.
  - rewrite <-surjective_pairing. apply after_schedule_reachable. vm_compute. reflexivity.
  - split; [vm_cast_no_check (eq_refl racing.2)|].
    split; [vm_cast_no_check (eq_refl 2%nat)|vm_cast_no_check (eq_refl 1%nat)].
Qed.

(** A shutdown request has found the service empty when a task is created. *)
Definition closing : pool := after_schedule
  ([inl RShutdown; inr 0%nat; inl (RCreate (create_req "t" "/b"))] ++ steps 1 7 ++ [inr 0%nat]) (shim0, []).

(** The check for tasks and the signal are two steps: a task that is created in
    between is answered with success, and the shim is told to exit all the same. *)
Theorem shutdown_is_not_atomic :
  rtc service_step (shim0, []) closing ∧ exit_signaled closing.1 = true ∧
  is_Some (instances closing.1 !! "t") ∧
  closing.2 = [Serving (Ret PEmpty); Serving (Ret (PCreate (mkCreateResp 42)))].
Proof.
  split; [apply after_schedule_reachable; vm_compute; reflexivity|].
  split; [vm_compute; reflexivity|]. split; [|vm_cast_no_check (eq_refl closing.2)].
  apply (bool_decide_eq_true (is_Some _)). vm_compute. reflexivity.
Qed.

(** A create request whose prestart hook cannot run fails, but its task stays
    registered and was announced: the caller that tries again is told that the
    task already exists. *)
Theorem failed_hook_leaves_task :
  let r := task_create (create_req "t" "/h") in
  (run r shim0).1.1 = Failed (AnyErr "Failed to execute hook") ∧
  (run r (then_ r shim0)).1.1 = Failed (AlreadyExists "t") ∧
  events (then_ r shim0) = [TaskCreate "t" "/h" [] "" "out" ""].
Proof. vm_compute. repeat split. Qed.

(** A state request that overlaps the start: it reads the process id before the
    start writes it, and the rest afterwards. *)
Definition asking : pool := (starting.1, starting.2 ++ [Serving (handle (RState (mkReq "t" "")))])%list.
Definition asked : pool := after_schedule (steps 2 2 ++ steps 1 5 ++ steps 2 3) asking.

Definition early_state : StateResponse :=
  {| state_bundle := "/b"; state_stdin := ""; state_stdout := "out"; state_stderr := "";
     state_pid := 0; state_exit_status := 0; state_exited_at := None; state_status := CREATED |}.

Lemma arrive_reachable (c : pool) r : rtc service_step c (c.1, c.2 ++ [Serving (handle r)])%list.
Proof. destruct c as [s ts]. apply rtc_once, cstep_arrive. by exists r. Qed.

Lemma asking_reachable : rtc service_step (shim0, []) asking.
Proof. etrans; [apply starting_reachable|apply arrive_reachable]. Qed.

Lemma answers_agree_with_the_record_witness :
  state (data_at asked.1) = Started ∧
  answers (passed asking asked) (RState (mkReq "t" "")) (PState early_state) asked.1.
Proof.
  split; [vm_compute; reflexivity|].
  apply (answers_agree_with_the_record (mkShim machine0 []) "ns" "/addr" (RState (mkReq "t" ""))
    asking asked 2%nat).
  - apply asking_reachable.
  - apply list_lookup_middle. vm_compute. reflexivity.
  - apply after_schedule_reachable. vm_compute. reflexivity.
  - vm_compute. reflexivity.
Defined.
