(* ===== verification/Context.v ===== *)
(** What an engine is given to run (container/path.rs, container/context.rs,
    container/wasm.rs): the arguments and environment of the container, its
    entry point, and the resolution of files against [PATH].

    The environment of the shim process and the file system are read only here:
    [Fs] is a snapshot of them, with the calls of [std::env] and [std::fs] that
    the code makes. *)
From S2P Require Import Prelude Errors Sync Instance Paths Oci.
Local Open Scope string_scope.

Class Fs := {
  current_dir : result IoError path;
  var_PATH : option string;                       (* var_os("PATH") *)
  canonicalize : path → result IoError path;
  is_dir : path → bool;
  is_file : path → bool;
  mode : path → result IoError Z;                 (* metadata()?.permissions().mode() *)
  read_file : path → result IoError (list byte);  (* std::fs::read *)
}.

(** [Result::ok] *)
Definition ok {E A : Type} (r : result E A) : option A :=
  match r with Ok a => Some a | Err _ => None end.

(** [bool::then_some] *)
Definition then_some {A : Type} (b : bool) (a : A) : option A := if b then Some a else None.

(** ** PathResolve *)

Section resolve.
Context {F : Fs}.

(** [std::env::split_paths] on Unix splits at every colon. *)
Definition paths : list path :=
  match var_PATH with
  | Some p => split ":" p
  | None => []
  end.

(** A directory of the search list, relative to the working directory. *)
Definition search_dir (cwd : option path) (p : path) : option path :=
  c ← cwd; q ← ok (canonicalize (path_join c p)); then_some (is_dir q) q.

(** The candidate in one directory. *)
Definition candidate (file : path) (dir : path) : option path :=
  q ← ok (canonicalize (path_join dir file)); then_some (is_file q) q.

Definition has_separator (file : path) : bool := bool_decide (1 < length (components file))%nat.

Definition resolve_in_dirs (file : path) (dirs : list path) : list path :=
  let cwd := ok current_dir in
  let '(first, second) :=
    if has_separator file then (cwd, None)
    else (None, Some (omap (search_dir cwd) dirs)) in
  omap (candidate file) (option_list first ++ default [] second)%list.

Definition resolve_in_path (file : path) : list path := resolve_in_dirs file paths.

Definition resolve_in_path_or_cwd (file : path) : list path :=
  resolve_in_dirs file (paths ++ option_list (ok current_dir))%list.
End resolve.

(** ** Source, Entrypoint and WasiContext *)

(** [oci_spec::image::Platform], as far as it is used. *)
Record Platform := mkPlatform { platform_os : string; platform_architecture : string }.

Inductive Source :=
| File (p : path)
| OciLayers (layers : list WasmLayer).

Record Entrypoint := mkEntrypoint {
  func : string;
  entry_name : option string;
  entry_arg0 : option path;
  source : Source;
}.

Record WasiContext := mkContext {
  ctx_spec : Spec;
  wasm_layers : list WasmLayer;
  platform : Platform;
}.

Definition ctx_args (c : WasiContext) : list string :=
  default [] (process (ctx_spec c) ≫= process_args).

Definition envs (c : WasiContext) : list string :=
  default [] (process (ctx_spec c) ≫= process_env).

Definition entrypoint (c : WasiContext) : Entrypoint :=
  let arg0 := head (ctx_args c) in
  let entry_point := unwrap_or arg0 "" in
  let '(p, f) := unwrap_or (split_once "#" entry_point) (entry_point, "_start") in
  let src := match wasm_layers c with
             | [] => File p
             | l => OciLayers l
             end in
  {| func := f; entry_arg0 := arg0; source := src; entry_name := file_stem p |}.

(** [Source::as_bytes]; an [anyhow] error is the text of its outermost context. *)
Definition as_bytes `{Fs} (s : Source) : result string (list byte) :=
  match s with
  | File p =>
      match head (resolve_in_path_or_cwd p) with
      | None => Err "module not found"
      | Some q => match read_file q with Ok b => Ok b | Err e => Err (io_message e) end
      end
  | OciLayers [module] => Ok (layer module)
  | OciLayers _ => Err "only a single module is supported when using images with OCI layers"
  end.

(** ** WasmBinaryType *)

Inductive WasmBinaryType := WasmModule | WasmComponent.

(** The [wasmparser] crate: what the first bytes of a binary say. *)
Class WasmParser := {
  is_component : list byte → bool;
  is_core_wasm : list byte → bool;
}.

Definition from_bytes `{WasmParser} (b : list byte) : option WasmBinaryType :=
  if is_component b then Some WasmComponent
  else if is_core_wasm b then Some WasmModule
  else None.

(** ** Properties *)

Lemma resolve_bare `{Fs} file dirs :
  has_separator file = false →
  resolve_in_dirs file dirs = omap (candidate file) (omap (search_dir (ok current_dir)) dirs).
Proof. intros Hs. unfold resolve_in_dirs. by rewrite Hs. Qed.

Lemma resolve_separator `{Fs} file dirs :
  has_separator file = true →
  resolve_in_dirs file dirs = omap (candidate file) (option_list (ok current_dir)).
Proof. intros Hs. unfold resolve_in_dirs. rewrite Hs. by rewrite app_nil_r. Qed.

Lemma resolve_in_dirs_app `{Fs} file dirs1 dirs2 :
  has_separator file = false →
  resolve_in_dirs file (dirs1 ++ dirs2)%list =
  (resolve_in_dirs file dirs1 ++ resolve_in_dirs file dirs2)%list.
Proof. intros Hs. by rewrite !resolve_bare, !omap_app by done. Qed.

Lemma candidate_is_file `{Fs} file d q : candidate file d = Some q → is_file q = true.
Proof.
  unfold candidate, then_some. destruct (ok _) as [p|]; simpl; [|done].
  destruct (is_file p) eqn:Hp; [|done]. by intros [= <-].
Qed.

(** C23: file names are resolved as [which] does: every candidate is a file that
    exists; a name with a separator ignores [PATH], so both lookups agree on it;
    a bare name is looked up in the directories of [PATH] in order, and only the
    variant with [cwd] looks, last of all, in the working directory. *)
Theorem resolve_like_which `{Fs} file :
  (∀ q, q ∈ resolve_in_path_or_cwd file → is_file q = true) ∧
  (if has_separator file
   then ∀ dirs, resolve_in_dirs file dirs = resolve_in_path_or_cwd file
   else resolve_in_path file = omap (candidate file) (omap (search_dir (ok current_dir)) paths) ∧
        resolve_in_path_or_cwd file =
          (resolve_in_path file ++ resolve_in_dirs file (option_list (ok current_dir)))%list).
Proof.
  split.
  - intros q. unfold resolve_in_path_or_cwd, resolve_in_dirs.
    destruct (has_separator file); intros (d & _ & Hq)%list_elem_of_omap;
      by eapply candidate_is_file.
  - unfold resolve_in_path_or_cwd, resolve_in_path. destruct (has_separator file) eqn:Hs.
    + intros dirs. by rewrite !resolve_separator by done.
    + split; [by apply resolve_bare|by apply resolve_in_dirs_app].
Qed.

(** The context of a container whose first argument is [arg0]. *)
Definition runs_arg0 (c : WasiContext) (arg0 : string) : Prop := head (ctx_args c) = Some arg0.

(** C24: the first argument of the container is read as [path#func]: the function
    is what follows the first hash, [_start] when there is none; the module is
    named after the file; layers of the image, when there are any, replace the
    file; the raw argument is kept. *)
Theorem entrypoint_parses_arg0 c p f :
  has_char "#" p = false → runs_arg0 c (p +:+ "#" +:+ f) ∨ (runs_arg0 c p ∧ f = "_start") →
  func (entrypoint c) = f ∧
  entry_name (entrypoint c) = file_stem p ∧
  entry_arg0 (entrypoint c) = head (ctx_args c) ∧
  source (entrypoint c) = match wasm_layers c with [] => File p | l => OciLayers l end.
Proof.
  unfold runs_arg0, entrypoint. intros Hp [Ha|[Ha ->]]; rewrite Ha; simpl.
  - rewrite (proj2 (split_once_Some "#" (p +:+ "#" +:+ f) p f)) by done. done.
  - rewrite (proj2 (split_once_None "#" p)) by done. done.
Qed.

(** *** Examples *)

Definition context0 (arg0 : string) : WasiContext := {|
  ctx_spec := {| process := Some (mkProcess (Some [arg0; "x"]) (Some ["A=b"])); root := None;
                 hooks := None; annotations := None |};
  wasm_layers := []; platform := mkPlatform "wasi" "wasm" |}.

Lemma entrypoint_parses_arg0_witness :
  func (entrypoint (context0 "/app/app.wasm#entry")) = "entry" ∧
  entry_name (entrypoint (context0 "/app/app.wasm#entry")) = Some "app" ∧
  entry_arg0 (entrypoint (context0 "/app/app.wasm#entry")) = Some "/app/app.wasm#entry" ∧
  source (entrypoint (context0 "/app/app.wasm#entry")) = File "/app/app.wasm".
Proof.
  apply (entrypoint_parses_arg0 (context0 "/app/app.wasm#entry") "/app/app.wasm" "entry");
    [reflexivity|left; reflexivity].
Defined.

Example entrypoint_examples :
  entrypoint (context0 "my_module.wat") =
    mkEntrypoint "_start" (Some "my_module") (Some "my_module.wat") (File "my_module.wat") ∧
  entrypoint (context0 "#init") = mkEntrypoint "init" None (Some "#init") (File "").
Proof. done. Qed.
