(* ===== verification/Engine.v ===== *)
(** Engines and the executor (container/engine.rs and
    sys/unix/container/executor.rs): the trait a runtime implements, with its
    default methods, and the choice between running a container as a Linux
    process, as WebAssembly, or not at all.

    The code runs in the container process; what it reads of the file system is
    the snapshot [Fs] at the time of the call. *)
From S2P Require Import Prelude Errors Sync Instance Paths Oci Context.
Local Open Scope string_scope.

(** ** The Engine trait *)

Class Engine := {
  engine_name : string;
  run_wasi : Fs → WasiContext → result string i32;
  can_handle : Fs → WasiContext → result string unit;
  supported_layers_types : list string;
  precompile : list WasmLayer → result string (list (option (list byte)));
  can_precompile : option string;
}.

Section defaults.
Context {F : Fs}.

(** [let mut buffer = [0; 4]; File::open(p)?.read_exact(&mut buffer)?] *)
Definition read_magic (p : path) : result string (list byte) :=
  match read_file p with
  | Err e => Err (io_message e)
  | Ok b => if bool_decide (length b < 4)%nat then Err "failed to fill whole buffer"
            else Ok (take 4 b)
  end.

Definition wasm_magic : list byte := [0; 97; 115; 109]%Z.

(** [wat_parse_file] is the parser of the [wat] crate. *)
Definition default_can_handle (wat_parse_file : path → result string unit)
    (c : WasiContext) : result string unit :=
  match source (entrypoint c) with
  | OciLayers _ => Ok tt
  | File p =>
      match head (resolve_in_path_or_cwd p) with
      | None => Err "module not found"
      | Some _ =>
          match read_magic p with
          | Err e => Err e
          | Ok buffer =>
              if negb (bool_decide (buffer = wasm_magic)) then wat_parse_file p else Ok tt
          end
      end
  end.

Definition default_supported_layers_types : list string :=
  ["application/vnd.bytecodealliance.wasm.component.layer.v0+wasm"; "application/wasm"].

Definition default_precompile (_ : list WasmLayer) : result string (list (option (list byte))) :=
  Err "precompile not supported".

Definition default_can_precompile : option string := None.

(** ** is_linux_container *)

(** The closure of [find_map]: the file can be executed by others. *)
Definition executable (p : path) : option path :=
  m ← ok (mode p); then_some (negb (bool_decide (Z.land m 1 = 0)%Z)) p.

Definition is_linux_container (c : WasiContext) : result string unit :=
  match source (entrypoint c) with
  | OciLayers _ => Err "the entry point contains wasm layers"
  | File _ =>
      match entry_arg0 (entrypoint c) with
      | None => Err "no entrypoint provided"
      | Some a =>
          match head (omap executable (resolve_in_path a)) with
          | None => Err "entrypoint not found"
          | Some p =>
              match read_magic p with
              | Err e => Err e
              | Ok [127; 69; 76; 70]%Z => Ok tt
              | Ok (35 :: 33 :: _)%Z => Ok tt
              | Ok _ => Err "not a valid script or elf file"
              end
          end
      end
  end.
End defaults.

(** ** The executor *)

Inductive InnerExecutor := Wasm | Linux | CantHandle.

Record Executor := mkExecutor {
  inner_cell : option InnerExecutor;     (* OnceCell<InnerExecutor> *)
  exec_layers : list WasmLayer;
  exec_platform : Platform;
}.

Definition Executor_new (layers : list WasmLayer) (platform : Platform) : Executor :=
  mkExecutor None layers platform.

(** What [exec] ends in: an error of libcontainer's executor, a call of
    libcontainer's executor for Linux programs, or the exit of the process. *)
Inductive ExecOutcome :=
| ExecCantHandle (name : string)
| ExecDefault (spec : Spec)
| ProcessExit (code : i32).

Section executor.
Context {En : Engine}.

Definition ctx (x : Executor) (spec : Spec) : WasiContext :=
  mkContext spec (exec_layers x) (exec_platform x).

(** The closure of [get_or_init]. *)
Definition choose (F : Fs) (x : Executor) (spec : Spec) : InnerExecutor :=
  match is_linux_container (F := F) (ctx x spec) with
  | Ok _ => Linux
  | Err _ => match can_handle F (ctx x spec) with
             | Ok _ => Wasm
             | Err _ => CantHandle
             end
  end.

Definition inner (F : Fs) (x : Executor) (spec : Spec) : InnerExecutor * Executor :=
  match inner_cell x with
  | Some i => (i, x)
  | None => let i := choose F x spec in
            (i, mkExecutor (Some i) (exec_layers x) (exec_platform x))
  end.

Definition validate (F : Fs) (x : Executor) (spec : Spec) : result string unit * Executor :=
  let '(i, x') := inner F x spec in
  (match i with CantHandle => Err engine_name | _ => Ok tt end, x').

Definition exec (F : Fs) (x : Executor) (spec : Spec) : ExecOutcome * Executor :=
  let '(i, x') := inner F x spec in
  (match i with
   | CantHandle => ExecCantHandle engine_name
   | Linux => ExecDefault spec
   | Wasm => match run_wasi F (ctx x' spec) with
             | Ok code => ProcessExit code
             | Err _ => ProcessExit 137
             end
   end, x').

Definition setup_envs (_ : gmap string string) : result string unit := Ok tt.

(** ** Properties *)

(** The entry point is a Linux program: the first file with its name, in the
    order of [PATH], that others may execute starts with the ELF magic number or
    with a shebang. *)
Definition linux_program `{Fs} (arg0 : path) : Prop :=
  ∃ p b, head (omap executable (resolve_in_path arg0)) = Some p ∧ read_file p = Ok b ∧
    (4 ≤ length b)%nat ∧ ([127; 69; 76; 70]%Z `prefix_of` b ∨ [35; 33]%Z `prefix_of` b).

Lemma is_linux_container_Ok `{Fs} c :
  is_linux_container c = Ok tt ↔
  wasm_layers c = [] ∧ ∃ a, head (ctx_args c) = Some a ∧ linux_program a.
Proof.
  unfold is_linux_container, linux_program.
  replace (source (entrypoint c)) with
    (match wasm_layers c with
     | [] => File (unwrap_or (split_once "#" (unwrap_or (head (ctx_args c)) ""))
                     (unwrap_or (head (ctx_args c)) "", "_start")).1
     | l => OciLayers l
     end); [|by unfold entrypoint; destruct (unwrap_or (split_once _ _) _)].
  replace (entry_arg0 (entrypoint c)) with (head (ctx_args c));
    [|by unfold entrypoint; destruct (unwrap_or (split_once _ _) _)].
  destruct (wasm_layers c) as [|l ls]; [|split; [done|by intros [? _]]].
  destruct (head (ctx_args c)) as [a|]; [|split; [done|by intros (_ & ? & ? & _)]].
  destruct (head (omap executable _)) as [p|] eqn:Hp;
    [|split; [done|by intros (_ & a' & [= <-] & p & b & Hp' & _); congruence]].
  unfold read_magic. destruct (read_file p) as [b|e] eqn:Hb;
    [|split; [done|intros (_ & a' & [= <-] & p' & b & Hp' & Hb' & _); congruence]].
  destruct b as [|b1 [|b2 [|b3 [|b4 bs]]]]; simpl;
    try (split; [done|intros (_ & a' & [= <-] & p' & b & Hp' & Hb' & Hlen & _);
                      assert (p' = p) as -> by congruence; rewrite Hb in Hb';
                      injection Hb' as <-; simpl in Hlen; lia]).
  split.
  - intros Hm. split; [done|]. exists a. split; [done|]. exists p, (b1 :: b2 :: b3 :: b4 :: bs).
    split; [done|]. split; [done|]. split; [simpl; lia|]. revert Hm.
    repeat case_match; intros; try done; first [left; by eexists|right; by eexists].
  - intros (_ & a' & [= <-] & p' & b & Hp' & Hb' & Hlen & Hpre).
    assert (p' = p) as -> by congruence. rewrite Hb in Hb'. injection Hb' as <-.
    destruct Hpre as [[k Hk]|[k Hk]]; inversion Hk; subst; done.
Qed.
End executor.

Section dispatch.
Context {En : Engine}.

(** C18: a container runs as a Linux process exactly when its image has no wasm
    layers and its entry point is a Linux program; otherwise the engine is asked,
    and the container runs as WebAssembly when the engine can handle it. *)
Theorem executor_dispatch (F : Fs) layers plat spec :
  let x := Executor_new layers plat in
  let linux := layers = [] ∧ ∃ a, head (ctx_args (ctx x spec)) = Some a ∧ linux_program a in
  match choose F x spec with
  | Linux => linux
  | Wasm => ¬ linux ∧ can_handle F (ctx x spec) = Ok tt
  | CantHandle => ¬ linux ∧ ∃ e, can_handle F (ctx x spec) = Err e
  end.
Proof.
  intros x linux. pose proof (is_linux_container_Ok (ctx x spec)) as Hl.
  change (wasm_layers (ctx x spec)) with layers in Hl. fold linux in Hl.
  unfold choose. destruct (is_linux_container (ctx x spec)) as [[]|e]; [by apply Hl|].
  assert (¬ linux) by (intros Hc; by apply Hl in Hc).
  destruct (can_handle F (ctx x spec)) as [[]|]; eauto.
Qed.

(** C19: the decision is taken once: whatever happens to the file system between
    the validation of a container and its execution, [exec] runs the container
    the way that was decided at validation, and refuses exactly the containers
    that validation refused; a run that fails exits with 137. *)
Theorem executor_decides_once (F1 F2 : Fs) x spec :
  let '(r, x1) := validate F1 x spec in
  let kind := (inner F1 x spec).1 in
  (r = Ok tt ↔ kind ≠ CantHandle) ∧
  (exec F2 x1 spec).1 =
    match kind with
    | CantHandle => ExecCantHandle engine_name
    | Linux => ExecDefault spec
    | Wasm => ProcessExit match run_wasi F2 (ctx x spec) with Ok code => code | Err _ => 137%Z end
    end.
Proof.
  unfold validate, exec, inner. destruct (inner_cell x) as [i|] eqn:Hi.
  - rewrite Hi. split; [by destruct i|]. destruct i; try done. by destruct (run_wasi F2 _).
  - simpl. destruct (choose F1 x spec); (split; [done|]); try done. by destruct (run_wasi F2 _).
Qed.
End dispatch.

(** *** The default [can_handle] *)

(** Documented behaviour of the calls in [Fs]: a relative path is looked up in
    the working directory, and a canonical path names the same file. *)
Class FsLaws (F : Fs) : Prop := {
  read_relative p c : current_dir = Ok c → read_file (path_join c p) = read_file p;
  read_canonical p q : canonicalize p = Ok q → read_file q = read_file p;
}.

(** For a module given with a path (one with a separator), the default
    [can_handle] accepts exactly the files that [Source::as_bytes] can read and
    that start with the wasm magic number or parse as [wat]. *)
Theorem can_handle_accepts_modules {F : Fs} {L : FsLaws F} wat_parse_file c p :
  source (entrypoint c) = File p → has_separator p = true →
  default_can_handle wat_parse_file c = Ok tt ↔
  ∃ b, as_bytes (File p) = Ok b ∧ (4 ≤ length b)%nat ∧
       (wasm_magic `prefix_of` b ∨ wat_parse_file p = Ok tt).
Proof.
  intros Hsrc Hsep. unfold default_can_handle, as_bytes. rewrite Hsrc.
  unfold resolve_in_path_or_cwd. rewrite resolve_separator by done.
  destruct current_dir as [d|e] eqn:Hd; simpl; [|by split; [|intros (? & ? & _)]].
  destruct (candidate p d) as [q|] eqn:Hc; simpl; [|by split; [|intros (? & ? & _)]].
  assert (read_file q = read_file p) as Hq.
  { unfold candidate, then_some in Hc. destruct (canonicalize (path_join d p)) as [q'|] eqn:Hcan; [|done].
    simpl in Hc. destruct (is_file q'); [|done]. injection Hc as ->.
    rewrite (read_canonical _ _ Hcan). by apply read_relative. }
  unfold read_magic. rewrite Hq. destruct (read_file p) as [b|e]; [|by split; [|intros (? & ? & _)]].
  case_bool_decide as Hlen.
  { split; [done|]. intros (b' & [= <-] & ? & _). lia. }
  case_bool_decide as Hm; simpl.
  - split; [intros _|done]. exists b. split; [done|]. split; [lia|left].
    exists (drop 4 b). by rewrite <-Hm, take_drop.
  - split.
    + intros Hw. exists b. split; [done|]. split; [lia|by right].
    + intros (b' & [= <-] & _ & [[k ->]|Hw]); [by destruct Hm|done].
Qed.

(** A file system with one directory in [PATH] and one module in it. *)
Definition fs0 : Fs := {|
  current_dir := Ok "/work";
  var_PATH := Some "/bin";
  canonicalize p := Ok p;
  is_dir p := bool_decide (p = "/bin");
  is_file p := bool_decide (p = "/bin/app.wasm");
  mode _ := Ok 420%Z;
  read_file p := if bool_decide (path_join "/work" p = "/bin/app.wasm")
                 then Ok [0; 97; 115; 109; 1; 0; 0; 0]%Z
                 else Err (Build_IoError KindNotFound "No such file or directory (os error 2)");
|}.

#[export] Instance fs0_laws : FsLaws fs0.
Proof.
  split; simpl.
  - intros p c [= <-].
    assert (path_join "/work" (path_join "/work" p) = path_join "/work" p) as Hp; [|by rewrite Hp].
    destruct (is_absolute p) eqn:Hp; unfold path_join; by rewrite ?Hp.
  - by intros p q [= <-].
Qed.

Lemma can_handle_accepts_modules_witness :
  default_can_handle (F := fs0) (λ _, Err "not wat") (context0 "/bin/app.wasm#run") = Ok tt ↔
  ∃ b, as_bytes (H := fs0) (File "/bin/app.wasm") = Ok b ∧ (4 ≤ length b)%nat ∧
       (wasm_magic `prefix_of` b ∨ Err (A := unit) "not wat" = Ok tt).
Proof.
  apply (can_handle_accepts_modules (F := fs0) (λ _, Err "not wat") (context0 "/bin/app.wasm#run")
    "/bin/app.wasm"); reflexivity.
Defined.

(** A module that is named without a separator is found on [PATH] and can be
    loaded, but the default [can_handle] rejects it: it resolves the name and
    then opens the name itself, relative to the working directory. *)
Theorem can_handle_rejects_path_modules :
  let c := context0 "app.wasm" in
  source (entrypoint c) = File "app.wasm" ∧
  as_bytes (H := fs0) (source (entrypoint c)) = Ok [0; 97; 115; 109; 1; 0; 0; 0]%Z ∧
  default_can_handle (F := fs0) (λ _, Ok tt) c = Err "No such file or directory (os error 2)".
Proof. done. Qed.
