(* ===== verification/Container.v ===== *)
(** The instance of the Unix shims (sys/unix/container/container.rs and
    instance.rs, sandbox/instance_utils.rs): a container of libcontainer that
    lives in a zygote process, and the thread that waits for its process.

    libcontainer, the zygote and the kernel are the parameter [Youki]; the state
    of the shim is theirs plus the container slots of the zygotes and the exit
    cells. *)
From S2P Require Import Prelude Errors TaskState Sync Instance Cells InstanceData Paths Oci Context Engine.
Local Open Scope string_scope.

(** ** What the code calls *)

(** [nix::sys::wait::WaitStatus], as the code splits it. *)
Inductive WaitStatus :=
| WaitExited (status : i32)
| WaitSignaled (signal : i32)
| WaitOther.

Inductive Errno_ := ECHILD | OtherErrno (e : string).

(** The arguments that [ContainerBuilder] collects before [build]. *)
Record ContainerBuilder (File : Type) := mkBuilder {
  builder_id : string;
  builder_executor : Executor;
  builder_root : path;
  builder_stdin : option File;
  builder_stdout : option File;
  builder_stderr : option File;
  builder_bundle : path;
  builder_sibling : bool;
  builder_systemd : bool;
}.
Arguments mkBuilder {File}.

Class Youki (P : Type) := {
  YoukiContainer : Type;
  Signal : Type;
  FileHandle : Type;
  (* libcontainer; a method that takes [&mut self] returns the container it leaves *)
  youki_pid : YoukiContainer → option i32;
  youki_start : YoukiContainer → prog P Empty_set (result string unit * YoukiContainer);
  youki_kill : YoukiContainer → Signal → bool → prog P Empty_set (result string unit * YoukiContainer);
  youki_delete : YoukiContainer → bool → prog P Empty_set (result string unit * YoukiContainer);
  signal_try_from : i32 → result string Signal;
  check_root_path : path → prog P string unit;             (* with_root_path *)
  youki_build : ContainerBuilder FileHandle → prog P string YoukiContainer;
  (* the zygote: a process that runs functions sent to it *)
  zygote_transport : prog P string unit;
  zygote_panicked : string → prog P string Empty_set; (* [run], when the function panics there *)
  (* the kernel *)
  open_file : path → prog P IoError FileHandle;            (* read and write *)
  read_options : path → prog P IoError (result string (option path)); (* options.json: its [root] *)
  waitid : i32 → prog P Errno_ WaitStatus;
  thread_create : prog P IoError unit;
  utc_now : P → DateTime;
  (* the client of containerd, for the layers of an image *)
  client_load : InstanceConfig → string → prog P Error (result string (list WasmLayer * Platform));
  platform_default : Platform;
}.

Record ZHost (P : Type) (Y : Youki P) := mkZ { os : P; containers : list (option YoukiContainer) }.
Arguments mkZ {P Y}. Arguments os {P Y}. Arguments containers {P Y}.

Section container.
Context {P : Type} {Y : Youki P}.

Definition set_os (p : P) (z : ZHost P Y) : ZHost P Y := mkZ p (containers z).
Definition on_os {E A : Type} (p : prog P E A) : prog (ZHost P Y) E A := zoom os set_os p.

#[export] Instance os_lens : Lens (os (P := P) (Y := Y)) set_os.
Proof. split; intros; unfold set_os; simpl; by try destruct s. Qed.

Local Open Scope prog_scope.

(** [struct Container(Zygote)]: the number of its zygote. *)
Abbreviation Container := nat.

(** [Zygote::global().spawn()]: a process with an empty slot. *)
Definition zygote_spawn {E : Type} : prog (ZHost P Y) E Container :=
  atomically (λ z, (length (containers z), mkZ (os z) (containers z ++ [None]))).

(** The slot [CONTAINER] of a zygote. *)
Definition get_slot {E : Type} (c : Container) : prog (ZHost P Y) E (option YoukiContainer) :=
  gets (λ z, default None (containers z !! c)).
Definition put_slot {E : Type} (c : Container) (y : option YoukiContainer) :
    prog (ZHost P Y) E unit :=
  modify (λ z, mkZ (os z) (<[c := y]> (containers z))).

(** [run_impl]: [f] runs in the zygote, on its slot.  A function that panics does so
    in the zygote; what its caller then gets is a matter of the zygote. *)
Definition run_impl {A : Type} (c : Container)
    (f : option YoukiContainer → prog (ZHost P Y) Empty_set (result string A * option YoukiContainer)) :
    prog (ZHost P Y) string A :=
  on_os zygote_transport ;;
  let! y := get_slot c in
  let! o := infallible (catch_panic (f y)) in
  match o with
  | Ok (r, y') => put_slot c y' ;; lift_result r
  | Err m => let! e := on_os (zygote_panicked m) in match e with end
  end.

Definition run_init (c : Container) (f : prog (ZHost P Y) string YoukiContainer) :
    prog (ZHost P Y) string unit :=
  run_impl c (λ old, let! r := attempt f in
                     Ret (match r with
                          | Ok y => (Ok tt, Some y)
                          | Err e => (Err e, old)
                          end)).

Definition run_container {A : Type} (c : Container)
    (f : YoukiContainer → prog (ZHost P Y) Empty_set (result string A * YoukiContainer)) :
    prog (ZHost P Y) string A :=
  run_impl c (λ o, match o with
                   | None => Panic "Container not initialized"
                   | Some y => let! (r, y') := f y in Ret (r, Some y')
                   end).

Definition container_build (f : prog (ZHost P Y) string YoukiContainer) :
    prog (ZHost P Y) string Container :=
  let! z := zygote_spawn in
  run_init z f ;;
  Ret z.

Definition container_pid (c : Container) : prog (ZHost P Y) string i32 :=
  let! p := run_container c (λ y, Ret (Ok (youki_pid y), y)) in
  lift_result (ok_or p "Failed to obtain PID").

Definition container_start (c : Container) : prog (ZHost P Y) string unit :=
  run_container c (λ y, on_os (youki_start y)).

Definition container_kill (c : Container) (signal : u32) : prog (ZHost P Y) string unit :=
  run_container c (λ y,
    match signal_try_from (as_i32 signal) with
    | Err _ => Ret (Err "invalid signal number", y)
    | Ok s => on_os (youki_kill y s true)
    end).

Definition container_delete (c : Container) : prog (ZHost P Y) string unit :=
  run_container c (λ y, on_os (youki_delete y true)).

(** ** instance_utils.rs *)

Definition determine_rootdir (bundle : path) (namespace : string) (rootdir : path) :
    prog P Error path :=
  let! r := attempt (read_options (path_join bundle "options.json")) in
  match r with
  | Err e => if bool_decide (kind e = KindNotFound) then Ret (path_join rootdir namespace)
             else Throw (Stdio e)
  | Ok opts =>
      let! root := map_err Json (lift_result opts) in
      Ret (path_join (unwrap_or root rootdir) namespace)
  end.

(** ** The instance *)

Record UnixInstance := mkInstance {
  exit_code : nat;           (* its WaitableCell *)
  container : Container;
  id : string;
}.

Definition DEFAULT_CONTAINER_ROOT_DIR : path := "/run/containerd".

Definition display_error (e : Error) : string := to_string (λ _, "") e.

Section instance.
Context {En : Engine}.

(** [if let Ok(f) = open(path) { builder = builder.with_..(f) }] *)
Definition open_stdio {E : Type} (p : path) : prog P E (option FileHandle) :=
  let! r := attempt (open_file p) in
  Ret (match r with Ok f => Some f | Err _ => None end).

(** The function that [Container::build] runs in the zygote. *)
Definition build_container (id : string) (cfg : InstanceConfig) (modules : list WasmLayer)
    (platform : Platform) : prog P string YoukiContainer :=
  let namespace := namespace cfg in
  let bundle := bundle cfg in
  let rootdir := path_join DEFAULT_CONTAINER_ROOT_DIR engine_name in
  let! rootdir := map_err display_error (determine_rootdir bundle namespace rootdir) in
  check_root_path rootdir ;;
  let! i := open_stdio (stdin cfg) in
  let! o := open_stdio (stdout cfg) in
  let! e := open_stdio (stderr cfg) in
  youki_build (mkBuilder id (Executor_new modules platform) rootdir i o e bundle true false).

Definition instance_new (id : string) (cfg : InstanceConfig) :
    prog (ShimState (ZHost P Y)) Error UnixInstance :=
  let! r := on_shim (on_os (client_load cfg id)) in
  let '(modules, platform) :=
    match r with Ok mp => mp | Err _ => ([], platform_default) end in
  let! c := on_shim (map_err AnyErr (container_build (on_os (build_container id cfg modules platform)))) in
  let! x := new_cell in
  Ret (mkInstance x c id).

(** The drop of the guard of [set_guard_with(|| (137, Utc::now()))]. *)
Definition drop_guard {E : Type} (x : nat) : prog (ShimState (ZHost P Y)) E unit :=
  let! t := gets (λ w, utc_now (os (host w))) in
  let! _ := cell_set x (137%Z, t) in
  Ret tt.

(** The code of an exit. *)
Definition wait_code (r : result Errno_ WaitStatus) : u32 :=
  as_u32 match r with
         | Ok (WaitExited status) => status
         | Ok (WaitSignaled sig) => sig
         | Ok WaitOther => 0
         | Err ECHILD => 0
         | Err (OtherErrno _) => 137
         end%Z.

(** The thread that [start] spawns; it owns the guard. *)
Definition monitor (x : nat) (pid : i32) : thread (ShimState (ZHost P Y)) :=
  finally
    (let! r := attempt (on_shim (on_os (waitid pid))) in
     let status := wait_code r in
     let! t := gets (λ w, utc_now (os (host w))) in
     let! _ := cell_set x (status, t) in
     Ret tt)
    (drop_guard x) (drop_guard x).

(** [thread::spawn]: panics when the thread cannot be created. *)
Definition spawn_or_panic {E : Type} : prog P E unit :=
  let! r := attempt thread_create in
  match r with Ok _ => Ret tt | Err _ => Panic "failed to spawn thread" end.

Definition instance_start (i : UnixInstance) : prog (ShimState (ZHost P Y)) Error u32 :=
  let! pid :=
    unless_ok
      (let! pid := on_shim (map_err AnyErr (container_pid (container i))) in
       on_shim (map_err AnyErr (container_start (container i))) ;;
       on_shim (on_os spawn_or_panic) ;;
       Ret pid)
      (drop_guard (exit_code i)) in
  Fork (monitor (exit_code i) pid) (Ret (as_u32 pid)).

Definition instance_kill (i : UnixInstance) (signal : u32) :
    prog (ShimState (ZHost P Y)) Error unit :=
  on_shim (map_err AnyErr (container_kill (container i) signal)).

Definition instance_delete (i : UnixInstance) : prog (ShimState (ZHost P Y)) Error unit :=
  on_shim (map_err AnyErr (container_delete (container i))).

Definition instance_wait_timeout {E : Type} (i : UnixInstance) (t : option Duration) :
    prog (ShimState (ZHost P Y)) E (option exit) :=
  cell_wait (exit_code i) t.

#[export] Instance Unix : Instance (ShimState (ZHost P Y)) := {|
  Instance.T := UnixInstance;
  Instance.new := instance_new;
  Instance.start := instance_start;
  Instance.kill := instance_kill;
  Instance.delete := instance_delete;
  Instance.wait_timeout := instance_wait_timeout;
|}.

#[export] Instance unix_laws : InstanceLaws Unix :=
  cell_instance_laws Unix exit_code (λ _ _, eq_refl).
End instance.
End container.

Section properties.
Context {P : Type} {Y : Youki P} {En : Engine}.
Implicit Types (w : ShimState (ZHost P Y)).

Lemma run_on_os {E A : Type} (p : prog P E A) (z : ZHost P Y) :
  run (on_os p) z = let '(o, h, ts) := run p (os z) in (o, set_os h z, on_os <$> ts).
Proof. unfold on_os. by rewrite run_zoom by apply _. Qed.

(** The value of a cell after a late writer tried to set it to [v]. *)
Definition set_late (x : nat) (v : exit) w : ShimState (ZHost P Y) :=
  match cell_of x w with None => put_cell x (Some v) w | Some _ => w end.

Lemma run_drop_guard {E : Type} x w :
  run (E := E) (drop_guard x) w = (Done tt, set_late x (137%Z, utc_now (os (host w))) w, []).
Proof.
  unfold drop_guard. rewrite run_bind. go. rewrite run_bind, run_cell_set.
  unfold set_late. by destruct (cell_of x w).
Qed.

Lemma cell_of_set_late x v w :
  (x < length (cells w))%nat →
  cell_of x (set_late x v w) = Some (unwrap_or (cell_of x w) v).
Proof.
  intros Hx. unfold set_late. destruct (cell_of x w) eqn:Hc; [done|]. by rewrite cell_of_put.
Qed.

Lemma length_set_late x v w : length (cells (set_late x v w)) = length (cells w).
Proof. unfold set_late. destruct (cell_of x w); [done|]. simpl. apply length_insert. Qed.

(** What the end of [waitid] is to be reported as. *)
Definition reported (o : outcome Errno_ WaitStatus) : u32 :=
  match o with
  | Done (WaitExited status) => status `mod` 2 ^ 32   (* [status as u32] *)
  | Done (WaitSignaled sig) => sig `mod` 2 ^ 32
  | Done WaitOther | Failed ECHILD => 0
  | Failed (OtherErrno _) | Panicked _ | Blocked => 137
  end%Z.

(** C10: the thread that [start] leaves behind reports the end of the process: the
    exit status, the number of the signal that ended it, 0 when the process is
    already gone, 137 when waiting fails or panics; it never overwrites an exit
    that is already recorded, and it waits as long as the process runs. *)
Theorem monitor_reports x pid w :
  (x < length (cells w))%nat →
  let '(o, p', _) := run (waitid pid) (os (host w)) in
  let '(o', w', _) := run (monitor x pid) w in
  match o with
  | Blocked => o' = Blocked ∧ cell_of x w' = cell_of x w
  | _ => cell_of x w' = Some (unwrap_or (cell_of x w) (reported o, utc_now p'))
  end.
Proof.
  intros Hx. unfold monitor.
  rewrite run_finally, run_bind, run_attempt, run_on_shim, run_on_os.
  destruct (run (waitid pid) (os (host w))) as [[[st|e|m|] p'] ts]; go; [..|done].
  3: { rewrite run_drop_guard. go. by rewrite cell_of_set_late. }
  all: rewrite run_bind; go; rewrite run_bind, run_cell_set, cell_of_host.
  all: destruct (cell_of x w) as [v|] eqn:Hv; go; rewrite run_drop_guard; go.
  all: rewrite cell_of_set_late by (simpl; rewrite ?length_insert; done).
  all: rewrite ?cell_of_put by done; unfold cell_of in *; simpl in *; rewrite ?Hv; try done.
  - by destruct st.
  - by destruct e.
Qed.

(** The calls of the container only change the host. *)
Lemma run_host {E A : Type} (p : prog (ZHost P Y) E A) w :
  ∃ o h ts, run (on_shim p) w = (o, set_host h w, ts).
Proof. rewrite run_on_shim. destruct (run p (host w)) as [[o h] ts]. eauto. Qed.

Ltac host_call := match goal with
  | |- context [run (on_shim ?p) ?w] =>
      let E := fresh "E" in
      destruct (run_host p w) as ([?|?|?|] & ? & ? & E); rewrite E; clear E end.

(** C9: every start ends in an exit code.  A start that fails or panics has
    recorded one, 137 unless there was one already; a start that succeeds has
    spawned the thread that will, and returns the process id of the container. *)
Theorem start_provides_exit_code i w :
  (exit_code i < length (cells w))%nat →
  let '(o, w', ts) := run (instance_start i) w in
  match o with
  | Done p => ∃ pid, p = as_u32 pid ∧ list.last ts = Some (monitor (exit_code i) pid)
  | Failed _ | Panicked _ =>
      ∃ t, cell_of (exit_code i) w' = Some (unwrap_or (cell_of (exit_code i) w) (137%Z, t))
  | Blocked => cell_of (exit_code i) w' = cell_of (exit_code i) w
  end.
Proof.
  intros Hx. unfold instance_start. rewrite run_bind, run_unless_ok, run_bind.
  host_call; go; [|rewrite run_drop_guard; go; eexists; by rewrite cell_of_set_late..|done].
  rewrite run_bind. host_call; go; [|rewrite run_drop_guard; go; eexists; by rewrite cell_of_set_late..|done].
  rewrite run_bind. host_call; go; [|rewrite run_drop_guard; go; eexists; by rewrite cell_of_set_late..|done].
  eexists. split; [done|]. rewrite app_nil_r. by rewrite list.last_snoc.
Qed.
End properties.

Section initialized.
Context {P : Type} {Y : Youki P}.
Implicit Types (z : ZHost P Y).

(** The slot of the container [c]. *)
Definition slot (c : nat) z : option YoukiContainer := default None (containers z !! c).

(** A part of a run in the zygote that leaves the slots alone. *)
Definition keeps_slots {E A : Type} (p : prog (ZHost P Y) E A) : Prop :=
  ∀ z, containers (run p z).1.2 = containers z.

Lemma keeps_slots_on_os {E A : Type} (p : prog P E A) : keeps_slots (on_os p).
Proof. intros z. rewrite run_on_os. by destruct (run p (os z)) as [[??]?]. Qed.

Lemma run_container_initialized {A : Type} c f z :
  (∀ y, keeps_slots (f y)) → is_Some (slot c z) →
  let '(o, z', _) := run (run_container (A := A) c f) z in
  is_Some (slot c z').
Proof.
  intros Hf [y Hy]. unfold run_container, run_impl.
  rewrite run_bind, run_on_os.
  destruct (run zygote_transport (os z)) as [[[[]|e|m|] h] ts] eqn:Ht; go.
  2-4: by exists y.
  rewrite run_bind. unfold get_slot; go. unfold slot in Hy. simpl containers. rewrite Hy.
  unfold infallible. rewrite run_bind, run_map_err, run_catch_panic, run_bind.
  pose proof (Hf y (set_os h z)) as Hk. simpl in Hk.
  destruct (run (f y) (set_os h z)) as [[[[r y']|[]|m|] z1] ts1] eqn:Hr; go; simpl in Hk.
  - rewrite run_bind. unfold put_slot; go.
    assert (is_Some (slot c (mkZ (os z1) (<[c:=Some y']> (containers z1))))) as Hs.
    { unfold slot; simpl. rewrite Hk, list_lookup_insert_eq; [by eauto|].
      destruct (containers z !! c) eqn:Hc; [|done]. by eapply lookup_lt_Some. }
    by destruct r; go.
  - rewrite run_bind, run_on_os.
    destruct (run (zygote_panicked m) (os z1)) as [[[[]|e|m'|] h1] ts2]; go;
      unfold slot; simpl; rewrite Hk, Hy; eauto.
  - unfold slot. rewrite Hk, Hy. eauto.
Qed.

Lemma build_initialized f z c z' ts :
  keeps_slots f → run (container_build f) z = (Done c, z', ts) → is_Some (slot c z').
Proof.
  intros Hf. unfold container_build, run_init, run_impl. rewrite run_bind. unfold zygote_spawn; go.
  rewrite run_bind, run_bind, run_on_os; simpl os.
  destruct (run zygote_transport (os z)) as [[[[]|e|m|] h] ts1] eqn:Ht; go; try done.
  rewrite run_bind. unfold get_slot; go. unfold infallible. rewrite run_bind, run_map_err, run_catch_panic, run_bind, run_attempt.
  set (z1 := set_os h _). pose proof (Hf z1) as Hk.
  destruct (run f z1) as [[[y|e|m|] z2] ts2]; go; simpl in Hk; try done.
  2: { rewrite run_bind, run_on_os. by destruct (run (zygote_panicked m) _) as [[[[]|?|?|] ?] ?]; go. }
  rewrite run_bind. unfold put_slot; go. intros [= <- <- <-]. unfold slot; simpl.
  rewrite Hk, list_lookup_insert_eq; [by eauto|]. simpl. rewrite length_app. simpl. lia.
Qed.
(** The operations of a container, their values dropped. *)
Inductive container_op := CPid | CStart | CKill (signal : u32) | CDelete.

Definition apply_container_op (c : nat) (o : container_op) : prog (ZHost P Y) string unit :=
  match o with
  | CPid => bind (container_pid c) (λ _, Ret tt)
  | CStart => container_start c
  | CKill s => container_kill c s
  | CDelete => container_delete c
  end.

Lemma op_initialized c o z :
  is_Some (slot c z) → is_Some (slot c (run (apply_container_op c o) z).1.2).
Proof.
  intros Hs.
  assert (∀ A (f : YoukiContainer → prog (ZHost P Y) Empty_set (result string A * YoukiContainer)),
    (∀ y, keeps_slots (f y)) → is_Some (slot c (run (run_container c f) z).1.2)) as Hrun.
  { intros A f Hf. pose proof (run_container_initialized c f z Hf Hs) as Hr.
    by destruct (run (run_container c f) z) as [[??]?]. }
  destruct o as [| |sig|]; simpl.
  - unfold container_pid. rewrite !run_bind.
    specialize (Hrun _ (λ y, Ret (Ok (youki_pid y), y)) (λ y z, eq_refl)).
    destruct (run (run_container c _) z) as [[[[p|]|?|?|] z'] ts]; done.
  - apply Hrun. intros y. apply keeps_slots_on_os.
  - apply Hrun. intros y. destruct (signal_try_from _); [apply keeps_slots_on_os|done].
  - apply Hrun. intros y. apply keeps_slots_on_os.
Qed.

(** C32: the container that [build] returns is initialised, and stays so through
    every sequence of operations, so the [expect] that every operation makes of
    its zygote holds. *)
Theorem container_initialized f z c z' ts ops :
  run (container_build (on_os f)) z = (Done c, z', ts) →
  is_Some (slot c (foldl (λ z o, (run (apply_container_op c o) z).1.2) z' ops)).
Proof.
  intros Hb. apply build_initialized in Hb; [|apply keeps_slots_on_os].
  revert z' Hb. induction ops as [|o ops IH]; intros z' Hb; simpl; [done|].
  by apply IH, op_initialized.
Qed.
End initialized.
