(* ===== verification/EndToEnd.v ===== *)
(** From the bundle to the exit code: the instance of the Unix shims, the executor
    that runs in the process of the container and the engine, together.

    libcontainer and the kernel connect them: libcontainer builds a container only if
    the executor it was given accepts the specification of the bundle, the process of
    a started container runs that executor, and the kernel reports the last eight
    bits of its exit code.  [RuntimeLaws] states this; the theorems follow a container
    from [new] to the exit that [wait] returns. *)
From S2P Require Import Prelude Errors TaskState Sync Instance Cells InstanceData Paths Oci Context Engine Container.
Local Open Scope string_scope.

(** What becomes of the process of a container: the exit code of the engine; a Linux
    program, or libcontainer for an executor that refuses, may exit with anything. *)
Definition exits_with (o : ExecOutcome) (status : i32) : Prop :=
  match o with
  | ProcessExit code => status = (code mod 256)%Z
  | ExecDefault _ | ExecCantHandle _ => True
  end.

Class RuntimeLaws {P : Type} (Y : Youki P) (En : Engine) := {
  (* config.json, which containerd writes before it asks for the container *)
  bundle_spec : path → option Spec;
  (* the files of the container of a bundle, when it is built *)
  bundle_fs : path → Fs;
  (* what the process of a container will run *)
  prepared : YoukiContainer → Executor * Spec;
  (* what the running processes run, and the files that they see *)
  process : P → i32 → option (Executor * Spec);
  process_fs : P → i32 → Fs;
  law_build b p y p' ts : run (youki_build b) p = (Done y, p', ts) →
    ∃ spec x, bundle_spec (builder_bundle _ b) = Some spec ∧
      validate (bundle_fs (builder_bundle _ b)) (builder_executor _ b) spec = (Ok tt, x) ∧
      prepared y = (x, spec);
  law_start y p y' p' ts pid : run (youki_start y) p = (Done (Ok tt, y'), p', ts) →
    youki_pid y = Some pid → process p' pid = Some (prepared y);
  law_thread p o p' ts : run thread_create p = (o, p', ts) → process p' = process p;
  law_wait pid p x spec status p' ts : process p pid = Some (x, spec) →
    run (waitid pid) p = (Done (WaitExited status), p', ts) →
    exits_with (exec (process_fs p pid) x spec).1 status;
}.

Section end_to_end.
Context {P : Type} {Y : Youki P} {En : Engine} {L : RuntimeLaws Y En}.
Implicit Types (w : ShimState (ZHost P Y)) (z : ZHost P Y).

(** ** Calls in the zygote that return *)

Lemma run_on_os_inv {E A : Type} (p : prog P E A) z a z' ts :
  run (on_os p) z = (Done a, z', ts) →
  ∃ h ts', run p (os z) = (Done a, h, ts') ∧ z' = set_os h z.
Proof. rewrite run_on_os. destruct (run p (os z)) as [[o h] ts']. intros [= -> <- _]. eauto. Qed.

Lemma run_on_shim_inv {E A : Type} (p : prog (ZHost P Y) E A) w a w' ts :
  run (on_shim p) w = (Done a, w', ts) →
  ∃ z ts', run p (host w) = (Done a, z, ts') ∧ w' = set_host z w.
Proof. rewrite run_on_shim. destruct (run p (host w)) as [[o h] ts']. intros [= -> <- _]. eauto. Qed.

(** What a call does that reaches the slot of its zygote and returns. *)
Lemma run_impl_inv {A : Type} c f z (a : A) z' ts :
  run (run_impl c f) z = (Done a, z', ts) →
  ∃ h z1 y' ts', run (f (slot c z)) (set_os h z) = (Done (Ok a, y'), z1, ts') ∧
    z' = mkZ (os z1) (<[c := y']> (containers z1)).
Proof.
  unfold run_impl. intros (u & z0 & ts0 & ? & H0 & H & _)%run_bind_inv.
  apply run_on_os_inv in H0 as (h & ts0' & _ & ->).
  apply run_bind_inv in H as (y & z1 & ? & ? & Hy & H & _).
  unfold get_slot in Hy. simpl in Hy. injection Hy as <- <- _.
  apply run_bind_inv in H as (o & z2 & ts2 & ? & Hf & H & _).
  unfold infallible in Hf. apply run_map_err_inv in Hf. rewrite run_catch_panic in Hf.
  destruct (run (f _) _) as [[[[r y']|[]|m|] z2'] ts2'] eqn:Hrun; simpl in Hf; try done;
    injection Hf as <- -> ->; [|by apply run_bind_inv in H as ([] & _)].
  apply run_bind_inv in H as (? & z3 & ? & ? & Hp & H & _).
  unfold put_slot in Hp. simpl in Hp. injection Hp as _ <- _.
  destruct r as [a'|e]; simpl in H; [|done]. injection H as -> <- _.
  exists h, z2, y', ts2. split; [exact Hrun|done].
Qed.

Lemma run_container_inv {A : Type} c f z (a : A) z' ts y :
  slot c z = Some y → run (run_container c f) z = (Done a, z', ts) →
  ∃ h z1 y' ts', run (f y) (set_os h z) = (Done (Ok a, y'), z1, ts') ∧
    z' = mkZ (os z1) (<[c := Some y']> (containers z1)).
Proof.
  intros Hy (h & z1 & o & ts' & Hf & ->)%run_impl_inv. rewrite Hy in Hf.
  apply run_bind_inv in Hf as ([r y'] & z2 & ? & ? & Hf & Hr & _).
  simpl in Hr. injection Hr as -> <- <- _. eauto 10.
Qed.

(** ** The life of a container *)

(** [build] leaves the container in its slot. *)
Lemma container_build_inv f z c z' ts :
  run (container_build (on_os f)) z = (Done c, z', ts) →
  ∃ p y p' ts', run f p = (Done y, p', ts') ∧ slot c z' = Some y.
Proof.
  unfold container_build. intros (z0 & z1 & ? & ? & H0 & H & _)%run_bind_inv.
  apply run_bind_inv in H as (u & z2 & ? & ? & Hi & Hr & _). simpl in Hr. injection Hr as -> <- _.
  unfold run_init in Hi. unfold zygote_spawn in H0. simpl in H0. injection H0 as Hc Hz1 _.
  apply run_impl_inv in Hi as (h & z3 & y' & ? & Hf & ->).
  apply run_bind_inv in Hf as (r & z4 & ? & ? & Hf & Hr & _). rewrite run_attempt, run_on_os in Hf.
  destruct (run f (os _)) as [[[y|e|m|] p'] ts'] eqn:Hrun; simpl in Hf; try done;
    injection Hf as <- <- _; simpl in Hr; simplify_eq. exists h, y, p', ts'.
  split; [exact Hrun|]. unfold slot. simpl. rewrite list_lookup_insert_eq; [done|].
  rewrite length_app. simpl. lia.
Qed.

(** The function that is run in the zygote ends with the build of libcontainer. *)
Lemma build_container_inv id cfg modules platform p y p' ts :
  run (build_container id cfg modules platform) p = (Done y, p', ts) →
  ∃ b q ts', run (youki_build b) q = (Done y, p', ts') ∧
    builder_executor _ b = Executor_new modules platform ∧ builder_bundle _ b = bundle cfg.
Proof.
  unfold build_container. intros (root & p1 & ? & ? & _ & H & _)%run_bind_inv.
  apply run_bind_inv in H as (u & p2 & ? & ? & _ & H & _).
  apply run_bind_inv in H as (i & p3 & ? & ? & _ & H & _).
  apply run_bind_inv in H as (o & p4 & ? & ? & _ & H & _).
  apply run_bind_inv in H as (e & p5 & ? & ts5 & _ & H & _).
  by eexists _, p5, ts5.
Qed.

(** The layers that [new] gives to the executor: those that were loaded, or none. *)
Definition loaded (r : result string (list WasmLayer * Platform)) : list WasmLayer * Platform :=
  match r with Ok mp => mp | Err _ => ([], platform_default) end.

(** The container of a new instance is in its slot; its executor has accepted the
    specification of the bundle. *)
Lemma instance_new_inv id cfg w i w1 ts :
  run (instance_new id cfg) w = (Done i, w1, ts) →
  ∃ r h y spec x ts', run (client_load cfg id) (os (host w)) = (Done r, h, ts') ∧
    slot (container i) (host w1) = Some y ∧ cell_of (exit_code i) w1 = None ∧
    (exit_code i < length (cells w1))%nat ∧ prepared y = (x, spec) ∧
    bundle_spec (bundle cfg) = Some spec ∧
    validate (bundle_fs (bundle cfg)) (Executor_new (loaded r).1 (loaded r).2) spec = (Ok tt, x).
Proof.
  unfold instance_new. intros (r & wl & ? & ? & Hl & H & _)%run_bind_inv.
  apply run_on_shim_inv in Hl as (zl & ? & Hl & ->). apply run_on_os_inv in Hl as (h & tl & Hl & ->).
  fold (loaded r) in H. destruct (loaded r) as [modules platform] eqn:Hr.
  apply run_bind_inv in H as (c & wc & ? & ? & Hc & H & _).
  apply run_on_shim_inv in Hc as (zc & ? & Hc & ->). apply run_map_err_inv in Hc.
  apply container_build_inv in Hc as (p & y & p' & ? & Hb & Hy).
  apply build_container_inv in Hb as (b & q & ? & Hb & Hx & Hbun).
  destruct (law_build _ _ _ _ _ Hb) as (spec & xe & Hspec & Hval & Hprep).
  simpl in H. injection H as <- <- _. simpl. rewrite Hx, Hbun in Hval. rewrite Hbun in Hspec.
  exists r, h, y, spec, xe, tl. rewrite Hr, length_app. simpl.
  split; [done|]. split; [done|]. split; [|split; [lia|done]].
  unfold cell_of. simpl. by rewrite list_lookup_middle.
Qed.

(** A start that returns has the process of the container running, and the thread
    that waits for it. *)
Lemma instance_start_inv i w p w' ts y :
  slot (container i) (host w) = Some y → run (instance_start i) w = (Done p, w', ts) →
  ∃ pid, p = as_u32 pid ∧ list.last ts = Some (monitor (exit_code i) pid) ∧
    process (os (host w')) pid = Some (prepared y) ∧ cells w' = cells w.
Proof.
  intros Hy. unfold instance_start. intros (pid & w3 & ts3 & ts4 & H & Hk & ->)%run_bind_inv.
  simpl in Hk. injection Hk as <- <- <-. apply run_unless_ok_inv in H as Hrun. clear H.
  apply run_bind_inv in Hrun as (pid1 & w1 & ? & ? & Hp & Hrun & _).
  apply run_bind_inv in Hrun as ([] & w2 & ? & ? & Hs & Hrun & _).
  apply run_bind_inv in Hrun as ([] & w3'' & ? & ? & Ht & Hr & _). simpl in Hr. injection Hr as -> -> _.
  apply run_on_shim_inv in Hp as (z1 & ? & Hp & ->). apply run_map_err_inv in Hp.
  apply run_bind_inv in Hp as (o & z1' & ? & ? & Hp & Ho & _).
  destruct o as [pid2|]; simpl in Ho; [|done]. injection Ho as -> -> _.
  apply (run_container_inv _ _ _ _ _ _ y Hy) in Hp as (h1 & z2 & y1 & ? & Hf & ->).
  simpl in Hf. injection Hf as Hpid <- <- _.
  apply run_on_shim_inv in Hs as (z3 & ? & Hs & ->). apply run_map_err_inv in Hs.
  eapply run_container_inv in Hs as (h2 & z4 & y2 & ? & Hf & ->).
  2: { unfold slot. simpl. rewrite list_lookup_insert_eq; [done|].
       unfold slot in Hy. destruct (containers (host w) !! container i) eqn:Hc; [|done].
       by eapply lookup_lt_Some. }
  apply run_on_os_inv in Hf as (h3 & ? & Hf & ->).
  apply run_on_shim_inv in Ht as (z5 & ? & Ht & ->). apply run_on_os_inv in Ht as (h4 & ? & Ht & ->).
  exists pid. split; [done|]. split; [by rewrite list.last_snoc|]. split; [|done]. simpl.
  unfold spawn_or_panic in Ht. rewrite run_bind, run_attempt in Ht.
  destruct (run thread_create _) as [[o ph] tt'] eqn:Hth. simpl in Ht.
  assert (h4 = ph) as -> by (destruct o as [|e|m|]; simpl in Ht; congruence).
  rewrite (law_thread _ _ _ _ Hth). by eapply law_start.
Qed.

(** The monitor records the status of a process that has exited. *)
Lemma monitor_exited x pid w st h ts :
  (x < length (cells w))%nat → cell_of x w = None →
  run (waitid pid) (os (host w)) = (Done (WaitExited st), h, ts) →
  cell_of x (run (monitor x pid) w).1.2 = Some (as_u32 st, utc_now h).
Proof.
  intros Hx Hc Hw. unfold monitor. rewrite run_finally, run_bind, run_attempt, run_on_shim, run_on_os, Hw.
  go. rewrite run_bind. go. rewrite run_bind, run_cell_set, cell_of_host, Hc. go.
  rewrite run_drop_guard. go.
  rewrite cell_of_set_late by (simpl; rewrite ?length_insert; done). by rewrite cell_of_put.
Qed.

(** An executor that has accepted a specification runs it as it decided then. *)
Lemma validated_exec F F' layers platform spec x :
  validate F (Executor_new layers platform) spec = (Ok tt, x) →
  let x0 := Executor_new layers platform in
  choose F x0 spec ≠ CantHandle ∧
  (exec F' x spec).1 = match choose F x0 spec with
    | Wasm => ProcessExit (match run_wasi F' (ctx x0 spec) with Ok code => code | Err _ => 137%Z end)
    | _ => ExecDefault spec
    end.
Proof.
  unfold validate, inner. simpl. destruct (choose F _ spec) eqn:Hc; intros [= <-]; (split; [done|]);
    unfold exec, inner; simpl; [|done]. by destruct (run_wasi F' _).
Qed.

(** C16: from the bundle to the exit code.  When a container has been created and
    started and its process has exited, [wait] returns the exit code that the engine
    gave to the entry point of the bundle's specification, on the layers that were
    loaded for the container: its last eight bits, 137 for a run that failed.  A
    container that the engine cannot handle does not get there. *)
Theorem guest_exit_code_is_reported id cfg w i w1 ts1 p w2 ts2 :
  run (instance_new id cfg) w = (Done i, w1, ts1) →
  run (instance_start i) w1 = (Done p, w2, ts2) →
  ∃ pid, p = as_u32 pid ∧ list.last ts2 = Some (monitor (exit_code i) pid) ∧
  ∀ st h ts, run (waitid pid) (os (host w2)) = (Done (WaitExited st), h, ts) →
  let w3 := (run (monitor (exit_code i) pid) w2).1.2 in
  run (E := Error) (instance_wait_timeout i None) w3 = (Done (Some (as_u32 st, utc_now h)), w3, []) ∧
  ∃ r hl tsl spec, run (client_load cfg id) (os (host w)) = (Done r, hl, tsl) ∧
    bundle_spec (bundle cfg) = Some spec ∧
    let x := Executor_new (loaded r).1 (loaded r).2 in
    match choose (bundle_fs (bundle cfg)) x spec with
    | Wasm =>
        st = ((match run_wasi (process_fs (os (host w2)) pid) (ctx x spec) with
               | Ok code => code
               | Err _ => 137
               end) mod 256)%Z
    | Linux => True
    | CantHandle => False
    end.
Proof.
  intros Hnew Hstart.
  destruct (instance_new_inv _ _ _ _ _ _ Hnew) as (r & hl & y & spec & x & tsl & Hl & Hy & Hc & Hx & Hp & Hs & Hv).
  destruct (instance_start_inv _ _ _ _ _ _ Hy Hstart) as (pid & Hpid & Hm & Hproc & Hcells).
  exists pid. split; [done|]. split; [done|]. intros st h ts Hw. cbv zeta. split.
  { unfold instance_wait_timeout. rewrite run_cell_wait.
    rewrite (monitor_exited _ _ w2 st h ts); [done|by rewrite Hcells| |done].
    unfold cell_of in *. by rewrite Hcells. }
  exists r, hl, tsl, spec. split; [done|]. split; [done|].
  rewrite Hp in Hproc. pose proof (law_wait _ _ _ _ _ _ _ Hproc Hw) as HF.
  destruct (validated_exec _ (process_fs (os (host w2)) pid) _ _ _ _ Hv) as [Hne Hexec].
  rewrite Hexec in HF. by destruct (choose _ _ spec).
Qed.

(** A container that the engine cannot handle, and that is not a Linux program, is
    not built: it is refused when it is created, not when it is started. *)
Theorem unhandled_container_is_refused id cfg w i w1 ts1 :
  (∀ spec layers platform, bundle_spec (bundle cfg) = Some spec →
     choose (bundle_fs (bundle cfg)) (Executor_new layers platform) spec = CantHandle) →
  run (instance_new id cfg) w ≠ (Done i, w1, ts1).
Proof.
  intros Hno (r & hl & y & spec & x & tsl & _ & _ & _ & _ & _ & Hs & Hv)%instance_new_inv.
  destruct (validated_exec _ (bundle_fs (bundle cfg)) _ _ _ _ Hv) as [Hne _]. by apply Hne, Hno.
Qed.
End end_to_end.
