(* ===== verification/UnixStub.v ===== *)
(** The service on the Unix instance, with a small libcontainer: the theorems of
    Container and of the service are applied to containers that run here.

    A container whose id is "bad" cannot be started; the others have the process
    id 7 and exit with status 3. *)
From S2P Require Import Prelude Errors TaskState Sync Instance Cells InstanceData Paths Oci Local Context Engine Container EndToEnd Stub.
Local Open Scope string_scope.

#[export] Instance toy_youki : Youki Machine := {|
  YoukiContainer := string;
  Signal := Z;
  FileHandle := path;
  youki_pid _ := Some 7%Z;
  youki_start y := Ret (if bool_decide (y = "bad") then Err "cannot start" else Ok tt, y);
  youki_kill y _ _ := Ret (Ok tt, y);
  youki_delete y _ := Ret (Ok tt, y);
  signal_try_from s := if bool_decide (1 ≤ s ≤ 64)%Z then Ok s else Err "EINVAL";
  check_root_path _ := Ret tt;
  youki_build b := Ret (builder_id _ b);
  zygote_transport := Ret tt; zygote_panicked := Panic;
  open_file p := if bool_decide (p = "") then Throw (Build_IoError KindNotFound "") else Ret p;
  read_options _ := Throw (Build_IoError KindNotFound "");
  waitid _ := Ret (WaitExited 3);
  thread_create := Ret tt;
  utc_now m := mkTime (clock m) 0;
  client_load _ _ := Ret (Err "no image");
  platform_default := mkPlatform "linux" "amd64";
|}.

#[export] Instance toy_engine : Engine := {|
  engine_name := "toy";
  run_wasi _ _ := Ok 0%Z;
  can_handle F c := default_can_handle (F := F) (λ _, Err "not wat") c;
  supported_layers_types := default_supported_layers_types;
  precompile := default_precompile;
  can_precompile := default_can_precompile;
|}.

Abbreviation UnixState := (ShimState (ZHost Machine toy_youki)).

#[export] Instance unix_os : Os UnixState := {|
  Child := unit; ExitStatus := unit;
  spawn _ := Throw (Build_IoError KindNotFound "");
  has_stdin _ := false;
  write_all _ _ := Ret tt; child_kill _ := Ret tt; child_wait _ := Ret tt;
  process_id := 42%Z;
|}.

#[export] Instance unix_host : Host UnixState := {|
  Metrics := Z; AnyMessage := Z;
  Spec_load p := on_shim (on_os (bind (gets (λ m, bundles m !! p)) (λ s,
    lift_result (ok_or s "No such file or directory"))));
  canonicalize_rootfs _ s := Ret s;
  create_dir_all _ := Ret tt; mount_rootfs _ _ _ _ := Ret tt;
  thread_spawn := Ret tt; collect_metrics p := Ret p; convert_to_any m := Ok m;
|}.

(** A shim with two containers, both created: "ok" at address 0, "bad" at 1. *)
Definition unix0 : Local Unix :=
  (run (task_create (create_req "bad" "/b"))
    (run (task_create (create_req "ok" "/b"))
      (Local_new (mkShim (mkZ machine0 []) []) "ns" "/addr")).1.2).1.2.

Definition unix_data (l : nat) : InstanceData UnixInstance :=
  default (mkData (mkInstance 0 0 "") (config_new "" "") None Created Free)
    (arena (heap unix0) !! l).

(** The two containers and their exit cells. *)
Definition w0 : UnixState := mkShim (mkZ machine0 [Some "ok"; Some "bad"]) [None; None].

Lemma monitor_reports_witness :
  cell_of 0 (run (monitor 0 7) w0).1.2 = Some (3%Z, mkTime 1000 0).
Proof. exact (monitor_reports 0 7 w0 ltac:(simpl; lia)). Defined.

Lemma start_provides_exit_code_witness :
  ∃ t, cell_of 1 (run (instance_start (mkInstance 1 1 "bad")) w0).1.2 =
       Some (unwrap_or None (137%Z, t)).
Proof. exact (start_provides_exit_code (mkInstance 1 1 "bad") w0 ltac:(simpl; lia)). Defined.

Definition c0 : @YoukiContainer Machine toy_youki := "c".

Lemma container_initialized_witness :
  is_Some (slot 0 (foldl (λ z o, (run (apply_container_op 0 o) z).1.2)
    (mkZ (Y := toy_youki) machine0 [Some c0]) [CPid; CStart; CKill 9; CDelete])).
Proof.
  apply (container_initialized (Y := toy_youki) (Ret c0) (mkZ machine0 []) 0%nat
    (mkZ (Y := toy_youki) machine0 [Some c0]) []). vm_compute. reflexivity.
Defined.

Definition failed_world : UnixState :=
  (run (instance_start (mkInstance 1 1 "bad")) (world (heap unix0))).1.2.

Lemma bad_ready : ready unix0 "bad" 1%nat (unix_data 1).
Proof. split; vm_compute; reflexivity. Qed.

(** A start that fails, as the theorem on [start] says. *)
Lemma failed_start :
  run (task_start (mkReq "bad" "")) unix0 =
  (Failed (AnyErr "cannot start"),
   moved unix0 1%nat (upd (I := Unix) (unix_data 1) None Exited Free)
     failed_world, []).
Proof. exact (task_start_spec unix0 "bad" 1%nat (unix_data 1) bad_ready). Qed.

(** A task whose start failed has exited, with the code 137, and can be
    deleted; the state request still reports it as [CREATED], because it never
    had a process id. *)
Theorem failed_start_reported_as_created :
  let s1 := (run (task_start (mkReq "bad" "")) unix0).1.2 in
  let s2 := (run (task_state (mkReq "bad" "")) s1).1.2 in
  (run (task_state (mkReq "bad" "")) s1).1.1 =
    Done {| state_bundle := "/b"; state_stdin := ""; state_stdout := "out"; state_stderr := "";
            state_pid := 0; state_exit_status := 137;
            state_exited_at := Some (mkTimestamp 1000 0); state_status := CREATED |} ∧
  (run (task_start (mkReq "bad" "")) s2).1.1 =
    Failed (FailedPrecondition "invalid state transition: Exited => Starting") ∧
  (run (task_delete (mkReq "bad" "")) s2).1.1 =
    Done (mkDeleteResp 0 137 (Some (mkTimestamp 1000 0))).
Proof. split; [vm_compute; reflexivity|]. split; vm_compute; reflexivity. Qed.

(** ** A runtime that runs executors

    The containers of this host have a specification in the bundle "/b" and see the
    files [fs0]; the layer of their image is a module with one byte for its exit code. *)
Module Guests.

Definition code_engine : Engine := {|
  engine_name := "code";
  run_wasi _ c := match layer <$> wasm_layers c with
                  | [[code]] => Ok code
                  | _ => Err "no code"
                  end;
  can_handle F c := default_can_handle (F := F) (λ _, Err "not wat") c;
  supported_layers_types := default_supported_layers_types;
  precompile := default_precompile;
  can_precompile := default_can_precompile;
|}.
#[local] Existing Instance code_engine.

(** The running processes, and how many containers there have been. *)
Record Guests := mkGuests { procs : gmap Z (Executor * Spec); built : Z }.

Definition guest_spec (b : path) : option Spec := if bool_decide (b = "/b") then Some spec0 else None.

Definition guest_status (x : Executor) (spec : Spec) : i32 :=
  match (exec fs0 x spec).1 with
  | ProcessExit code => code mod 256
  | ExecDefault _ => 0
  | ExecCantHandle _ => 1
  end%Z.

#[export] Instance guest_youki : Youki Guests := {|
  YoukiContainer := i32 * (Executor * Spec);
  Signal := Z;
  FileHandle := path;
  youki_pid y := Some y.1;
  youki_start y := modify (λ g, mkGuests (<[y.1 := y.2]> (procs g)) (built g)) ;; Ret (Ok tt, y);
  youki_kill y _ _ := Ret (Ok tt, y);
  youki_delete y _ := Ret (Ok tt, y);
  signal_try_from s := Ok s;
  check_root_path _ := Ret tt;
  youki_build b :=
    match guest_spec (builder_bundle _ b) with
    | None => Throw "no config.json"
    | Some spec =>
        match validate fs0 (builder_executor _ b) spec with
        | (Ok _, x) => atomically (λ g, ((100 + built g, (x, spec)), mkGuests (procs g) (built g + 1)))
        | (Err e, _) => Throw e
        end
    end%Z;
  zygote_transport := Ret tt; zygote_panicked := Panic;
  open_file p := Ret p;
  read_options _ := Throw (Build_IoError KindNotFound "");
  waitid pid := bind (gets (λ g, procs g !! pid)) (λ o,
    match o with
    | None => Throw ECHILD
    | Some (x, spec) => Ret (WaitExited (guest_status x spec))
    end);
  thread_create := Ret tt;
  utc_now _ := mkTime 1 0;
  client_load _ i := Ret (Ok ([mkLayer (mkDescriptor "application/wasm" i 1) [298]%Z], mkPlatform "wasi" "wasm"));
  platform_default := mkPlatform "linux" "amd64";
|}%prog.

#[export] Instance guest_laws : RuntimeLaws guest_youki code_engine.
Proof.
  refine {| bundle_spec := guest_spec; bundle_fs _ := fs0;
            prepared (y : @YoukiContainer Guests guest_youki) := y.2;
            process g pid := procs g !! pid; process_fs _ _ := fs0 |}; simpl.
  - intros b g y g' ts. destruct (guest_spec (builder_bundle _ b)) as [spec|]; [|done].
    destruct (validate fs0 (builder_executor _ b) spec) as [[[]|e] x] eqn:Hv; [|done].
    intros [= <- <- <-]. by exists spec, x.
  - intros y g y' g' ts pid [= _ <- _] [= <-]. simpl. apply lookup_insert_eq.
  - by intros g o g' ts [= _ <- _].
  - intros pid g x spec st g' ts Hp. rewrite Hp. intros [= <- _ _]. unfold guest_status.
    by destruct (exec fs0 x spec).1.
Defined.

Definition cfg0 : InstanceConfig := set_bundle "/b" (config_new "ns" "/addr").
Definition g0 : ShimState (ZHost Guests guest_youki) := mkShim (mkZ (mkGuests ∅ 0) []) [].
Definition g1 := (run (instance_new "c" cfg0) g0).1.2.
Definition g2 := (run (instance_start (mkInstance 0 0 "c")) g1).1.2.

(** The engine exits with 298; what is reported is 42. *)
Lemma guest_exit_code_is_reported_witness :
  ∃ pid, 100%Z = as_u32 pid ∧ ∀ st h ts,
    run (waitid pid) (os (host g2)) = (Done (WaitExited st), h, ts) →
    run (E := Error) (instance_wait_timeout (mkInstance 0 0 "c") None) (run (monitor 0 pid) g2).1.2 =
      (Done (Some (as_u32 st, mkTime 1 0)), (run (monitor 0 pid) g2).1.2, []) ∧ st = 42%Z.
Proof.
  destruct (guest_exit_code_is_reported "c" cfg0 g0 (mkInstance 0 0 "c") g1 [] 100%Z g2
    [monitor 0 100%Z] eq_refl eq_refl) as (pid & Hpid & _ & Hwait).
  exists pid. split; [exact Hpid|]. intros st h ts Hw.
  destruct (Hwait st h ts Hw) as (H1 & r & hl & tsl & spec & Hr & Hspec & Hst).
  split; [exact H1|]. simpl in Hr. injection Hr as <- _ _. injection Hspec as <-. exact Hst.
Defined.
End Guests.

(** ** The tests of instance_utils.rs *)

Module RootdirTests.

(** A host with the options files [opts]. *)
Definition with_options (opts : gmap path (option path)) : Youki Machine := {|
  YoukiContainer := @YoukiContainer Machine toy_youki;
  Signal := @Signal Machine toy_youki;
  FileHandle := @FileHandle Machine toy_youki;
  youki_pid := youki_pid; youki_start := youki_start; youki_kill := youki_kill;
  youki_delete := youki_delete; signal_try_from := signal_try_from;
  check_root_path := check_root_path; youki_build := youki_build; zygote_transport := zygote_transport; zygote_panicked := zygote_panicked;
  open_file := open_file;
  read_options p := match opts !! p with
                    | Some r => Ret (Ok r)
                    | None => Throw (Build_IoError KindNotFound "")
                    end;
  waitid := waitid; thread_create := thread_create; utc_now := utc_now; client_load := client_load;
  platform_default := platform_default |}.

Definition root_is (o : outcome Error path) (p : path) : bool :=
  match o with Done q => bool_decide (q = p) | _ => false end.

Definition test_determine_rootdir_with_options_file : bool :=
  let dir := "/tmp/d" in
  let rootdir := path_join dir "runwasi" in
  let Y := with_options {[path_join dir "options.json" := Some rootdir]} in
  root_is (run (determine_rootdir (Y := Y) dir "test_namespace" "/run/containerd/runtime") machine0).1.1
    (path_join rootdir "test_namespace").

Definition test_determine_rootdir_without_options_file : bool :=
  let root := path_join "/run/containerd/runtime" "test_namespace" in
  root_is (run (determine_rootdir (Y := with_options ∅) "/tmp/d" "test_namespace"
                  "/run/containerd/runtime") machine0).1.1 root && is_absolute root.

Lemma rootdir_tests_pass :
  test_determine_rootdir_with_options_file && test_determine_rootdir_without_options_file = true.
Proof. vm_compute. reflexivity. Qed.
End RootdirTests.
