(* ===== verification/Client.v ===== *)
(** The client of containerd (sandbox/containerd/client.rs and lease.rs): reading
    images from the content store, writing precompiled layers back to it, and
    [load_modules], which decides what an engine is given to run.

    The services of containerd are the parameter [Containerd]: one operation per
    gRPC call, as handlers over a state [W].  A dropped [LeaseGuard] releases
    its lease on a task of its own. *)
From S2P Require Import Prelude Errors Sync Instance Paths Oci Context Engine.
Local Open Scope string_scope.

(** ** The messages of containerd's API, with the fields the code uses *)

Record Info := mkInfo { info_digest : string; info_labels : gmap string string }.

Record Image := mkImage { image_name : string; image_target : option string }.

Record ContainerInfo := mkContainerInfo { container_image : string }.

Record ImageManifest := mkManifest { manifest_config : Descriptor; manifest_layers : list Descriptor }.

Inductive WriteAction := Stat | Write_ | Commit.

Record WriteContentRequest := mkWrite {
  wr_ref : string;
  wr_action : WriteAction;
  wr_total : i64;
  wr_expected : string;
  wr_offset : i64;
  wr_data : list byte;
  wr_labels : gmap string string;
}.

Record WriteContentResponse := mkWriteResp { wresp_offset : i64; wresp_digest : string }.

(** [tonic::Status]: the code the client distinguishes, and its text. *)
Record RpcStatus_ := mkRpcStatus { already_exists : bool; status_text : string }.

Class Containerd (W : Type) := {
  Stream : Type;
  containerd_connect : path → prog W string unit;
  content_read : string → string → prog W string (list (list byte));
  content_delete : string → string → prog W string unit;
  content_info : string → string → prog W string (option Info);
  content_update : string → Info → list string → prog W string (option Info);
  content_write : string → string → WriteContentRequest → prog W RpcStatus_ Stream;
  stream_send : Stream → WriteContentRequest → prog W string unit;
  stream_message : Stream → prog W string (option WriteContentResponse);
  leases_create : string → string → gmap string string → prog W string (option string);
  leases_delete : string → string → bool → prog W string unit;
  images_get : string → string → prog W string (option Image);
  containers_get : string → string → prog W string (option ContainerInfo);
  (* the crates oci_spec, serde_json, sha256 and chrono *)
  manifest_from_reader : list byte → result string ImageManifest;
  platform_from_slice : list byte → result string Platform;
  parse_digest : string → result string string;
  sha256 : list byte → string;
  expiry_24h : W → string;                     (* now + 24 hours, in RFC 3339 *)
}.

Definition PRECOMPILE_PREFIX : string := "runwasi.io/precompiled".
Definition MAX_WRITE_CHUNK_SIZE_BYTES : i64 := (1024 * 1024 * 15)%Z.

Definition precompile_label (name version : string) : string :=
  PRECOMPILE_PREFIX +:+ "/" +:+ name +:+ "/" +:+ version.

Definition is_wasm_layer (media_type : string) (supported : list string) : bool :=
  bool_decide (media_type ∈ supported).

(** [&data[a..b]] *)
Definition slice {A : Type} (l : list A) (a b : usize) : option (list A) :=
  if bool_decide (a ≤ b ∧ b ≤ Z.of_nat (length l))%Z
  then Some (take (Z.to_nat (b - a)) (drop (Z.to_nat a) l)) else None.

(** [struct Client], connected to the services. *)
Record Client := mkClient { client_namespace : string }.

(** [LeaseGuard]: the id and the namespace of its request. *)
Record LeaseGuard := mkLease { lease_id : string; lease_namespace : string }.

Record WriteContent := mkWriteContent { wc_lease : LeaseGuard; wc_digest : string }.

Section client.
Context {W : Type} {C : Containerd W}.
Local Open Scope prog_scope.

(** [.map_err(|err| ShimError::Containerd(err.to_string()))?] *)
Definition rpc {A : Type} (p : prog W string A) : prog W Error A := map_err Errors.Containerd p.

(** [.ok_or_else(|| ShimError::Containerd(..))?] *)
Definition expect_some {A : Type} (o : option A) (msg : string) : prog W Error A :=
  lift_result (ok_or o (Errors.Containerd msg)).

(** *** lease.rs *)

Definition lease_release {E : Type} (g : LeaseGuard) : prog W E (result string unit) :=
  attempt (leases_delete (lease_namespace g) (lease_id g) false).

(** [impl Drop for LeaseGuard]: a background task; a failure is only logged. *)
Definition drop_lease {E : Type} (g : LeaseGuard) : prog W E unit :=
  Fork (lease_release g ;; Ret tt) (Ret tt).

(** *** client.rs *)

Definition client_connect (address : path) (namespace : string) : prog W Error Client :=
  rpc (containerd_connect address) ;;
  Ret (mkClient namespace).

Definition read_content (c : Client) (digest : string) : prog W Error (list byte) :=
  let! msgs := rpc (content_read (client_namespace c) digest) in
  Ret (concat msgs).

Definition delete_content (c : Client) (digest : string) : prog W Error unit :=
  rpc (content_delete (client_namespace c) digest).

Definition lease (c : Client) (reference : string) : prog W Error LeaseGuard :=
  let! expire := gets expiry_24h in
  let! l := rpc (leases_create (client_namespace c) reference
                   {["containerd.io/gc.expire" := expire]}) in
  let! i := expect_some l ("unable to create lease for  " +:+ reference) in
  Ret (mkLease i (client_namespace c)).

Definition send_message (s : Stream) (r : WriteContentRequest) (digest : string) :
    prog W Error WriteContentResponse :=
  map_err (λ e, Errors.Containerd ("commit request error: " +:+ e)) (stream_send s r) ;;
  let! m := map_err (λ e, Errors.Containerd ("response stream error: " +:+ e)) (stream_message s) in
  expect_some m ("no response received after write content request for " +:+ digest).

Definition empty_write : WriteContentRequest := mkWrite "" Stat 0 "" 0 [] ∅.

(** The request for the part of [data] at [offset]. *)
Definition chunk_request (offset : i64) (chunk : list byte) : WriteContentRequest :=
  mkWrite "" Write_ 0 "" offset chunk ∅.

(** [while offset < len { .. }]; [fuel] bounds the number of chunks. *)
Fixpoint write_chunks (fuel : nat) (s : Stream) (expected : string) (data : list byte)
    (offset : i64) : prog W Error unit :=
  let len := Z.of_nat (length data) in
  if bool_decide (offset < len)%Z then
    match fuel with
    | O => Panic "out of fuel"
    | Datatypes.S fuel =>
        let end_ := Z.min (offset + MAX_WRITE_CHUNK_SIZE_BYTES) len in
        match slice data (as_usize offset) (as_usize end_) with
        | None => Panic "slice index out of range"
        | Some chunk =>
            send_message s (chunk_request offset chunk) expected ;;
            write_chunks fuel s expected data end_
        end
    end
  else Ret tt.

(** The block labelled ['digest]. *)
Definition write_content (c : Client) (data : list byte) (reference expected : string)
    (g : LeaseGuard) (labels : gmap string string) : prog W Error string :=
  let len := Z.of_nat (length data) in
  let! opened := attempt (content_write (client_namespace c) (lease_id g)
                   (mkWrite reference Stat 0 expected 0 [] ∅)) in
  match opened with
  | Err e => if already_exists e then Ret expected else Throw (Errors.Containerd (status_text e))
  | Ok s =>
      let! m := rpc (stream_message s) in
      let! response := expect_some m ("no response received after write request for " +:+ expected) in
      write_chunks (Datatypes.S (length data)) s expected data (wresp_offset response) ;;
      let! response := send_message s (mkWrite "" Commit len expected len [] labels) expected in
      if negb (bool_decide (wresp_offset response = len)) then
        Throw (Errors.Containerd ("failed to write all bytes, expected " +:+ pretty len +:+
                                  " got " +:+ pretty (wresp_offset response)))
      else if negb (bool_decide (wresp_digest response = expected)) then
        Throw (Errors.Containerd ("unexpected digest, expected " +:+ expected +:+
                                  " got " +:+ wresp_digest response))
      else Ret (wresp_digest response)
  end.

Definition save_content (c : Client) (data : list byte) (unique_id : string)
    (labels : gmap string string) : prog W Error WriteContent :=
  let expected := "sha256:" +:+ sha256 data in
  let reference := "precompile-" +:+ unique_id in
  let! g := lease c reference in
  let! d := unless_ok (write_content c data reference expected g labels) (drop_lease g) in
  Ret (mkWriteContent g d).

Definition get_info (c : Client) (digest : string) : prog W Error Info :=
  let! i := rpc (content_info (client_namespace c) digest) in
  expect_some i ("failed to get info for content " +:+ digest).

Definition update_info (c : Client) (info : Info) : prog W Error Info :=
  let! i := rpc (content_update (client_namespace c) info ["labels"]) in
  expect_some i ("failed to update info for content " +:+ info_digest info).

Definition get_image (c : Client) (name : string) : prog W Error Image :=
  let! i := rpc (images_get (client_namespace c) name) in
  expect_some i ("failed to get image for image " +:+ name).

Definition extract_image_content_sha (image : Image) : result Error string :=
  ok_or (image_target image)
    (Errors.Containerd ("failed to get image content sha for image " +:+ image_name image)).

Definition get_container (c : Client) (name : string) : prog W Error ContainerInfo :=
  let! i := rpc (containers_get (client_namespace c) name) in
  expect_some i ("failed to get image for container " +:+ name).

Definition get_image_manifest_and_digest (c : Client) (name : string) :
    prog W Error (ImageManifest * string) :=
  let! image := get_image c name in
  let! sha := lift_result (extract_image_content_sha image) in
  let! d := map_err Errors.Oci (lift_result (parse_digest sha)) in
  let! b := read_content c d in
  let! m := map_err Errors.Oci (lift_result (manifest_from_reader b)) in
  Ret (m, d).

(** Reads one layer; the second value is [needs_precompile] as it leaves it. *)
Definition read_wasm_layer (c : Client) (original : Descriptor) (can_precompile : bool)
    (precompile_id : string) (needs_precompile : bool) : prog W Error (WasmLayer * bool) :=
  let! digest_to_load :=
    (if can_precompile then
       let! info := get_info c (digest original) in
       match info_labels info !! precompile_id with
       | Some label => map_err Errors.Oci (lift_result (parse_digest label))
       | None => Ret (digest original)
       end
     else Ret (digest original)) in
  let! res := attempt (read_content c digest_to_load) in
  match res with
  | Ok module => Ret (mkLayer original module, needs_precompile)
  | Err err =>
      if bool_decide (digest_to_load = digest original) then Throw err
      else
        let! module := read_content c (digest original) in
        Ret (mkLayer original module, can_precompile)
  end.

(** The loop that collects the layers, threading [needs_precompile]. *)
Fixpoint read_layers (c : Client) (configs : list Descriptor) (can_precompile : bool)
    (precompile_id : string) (needs_precompile : bool) : prog W Error (list WasmLayer * bool) :=
  match configs with
  | [] => Ret ([], needs_precompile)
  | d :: configs =>
      let! (l, n) := read_wasm_layer c d can_precompile precompile_id needs_precompile in
      let! (ls, n) := read_layers c configs can_precompile precompile_id n in
      Ret (l :: ls, n)
  end.

Definition gc_label (i : nat) : string :=
  "containerd.io/gc.ref.content.precompile." +:+ pretty i.

(** What is done for the [i]-th layer when it has been compiled. *)
Definition store_compiled (c : Client) (precompile_id image_digest : string) (i : nat)
    (original : Descriptor) (compiled : list byte) : prog W Error WasmLayer :=
  let labels := {[precompile_id +:+ "/original" := digest original]} in
  let! content := save_content c compiled precompile_id labels in
  unless_ok
    (let! info := get_info c (digest original) in
     let info := mkInfo (info_digest info)
       (<[gc_label i := wc_digest content]> (<[precompile_id := wc_digest content]> (info_labels info))) in
     update_info c info ;;
     let! image := get_info c image_digest in
     let image := mkInfo (info_digest image)
       (<[precompile_id := "true"]> (<[gc_label i := wc_digest content]> (info_labels image))) in
     update_info c image ;;
     Ret tt)
    (drop_lease (wc_lease content)) ;;
  let! _ := lease_release (wc_lease content) in
  Ret (mkLayer original compiled).

(** [for (i, compiled_layer) in compiled_layers.iter().enumerate()] *)
Fixpoint store_layers (c : Client) (precompile_id image_digest : string) (layers : list WasmLayer)
    (i : nat) (compiled : list (option (list byte))) : prog W Error (list WasmLayer) :=
  match compiled with
  | [] => Ret []
  | o :: compiled =>
      let! l :=
        match layers !! i with
        | None => Panic "index out of bounds"
        | Some l =>
            match o with
            | None => Ret l
            | Some b => store_compiled c precompile_id image_digest i (config l) b
            end
        end in
      let! ls := store_layers c precompile_id image_digest layers (i + 1) compiled in
      Ret (l :: ls)
  end.

Section load.
Context {En : Engine}.

Definition supported_configs (m : ImageManifest) : list Descriptor :=
  filter (λ d, is_wasm_layer (media_type d) supported_layers_types = true) (manifest_layers m).

(** [load_modules] from the image configuration on. *)
Definition load_from_manifest (c : Client) (manifest : ImageManifest) (image_digest : string) :
    prog W Error (list WasmLayer * Platform) :=
  let! image_config := read_content c (digest (manifest_config manifest)) in
  let! platform := map_err Json (lift_result (platform_from_slice image_config)) in
  if negb (bool_decide (platform_architecture platform = "wasm")) then Ret ([], platform) else
  let '(can_precompile_, precompile_id) :=
    match can_precompile with
    | Some v => (true, precompile_label engine_name v)
    | None => (false, "")
    end in
  let! image_info := get_info c image_digest in
  let needs_precompile :=
    can_precompile_ && bool_decide (info_labels image_info !! precompile_id = None) in
  let! (layers, needs_precompile) :=
    read_layers c (supported_configs manifest) can_precompile_ precompile_id needs_precompile in
  match layers with
  | [] => Ret ([], platform)
  | _ =>
      if needs_precompile : bool then
        match precompile layers with
        | Err _ => Ret (layers, platform)
        | Ok compiled =>
            if negb (bool_decide (length compiled = length layers)) then
              Throw (FailedPrecondition "precompile returned wrong number of layers")
            else
              let! ls := store_layers c precompile_id image_digest layers 0 compiled in
              Ret (ls, platform)
        end
      else Ret (layers, platform)
  end.

Definition load_modules (c : Client) (containerd_id : string) :
    prog W Error (list WasmLayer * Platform) :=
  let! container := get_container c containerd_id in
  let! (manifest, image_digest) := get_image_manifest_and_digest c (container_image container) in
  load_from_manifest c manifest image_digest.
End load.
End client.

(** ** What is returned *)

Section returned.
Context {W : Type} {C : Containerd W}.

Lemma write_content_digest c data reference expected g labels :
  yields (λ d, d = expected) (write_content c data reference expected g labels).
Proof.
  unfold write_content. apply yields_bind, yields_any. intros [s|e]; [|by destruct (already_exists e)].
  do 3 (apply yields_bind, yields_any; intros ?).
  apply yields_bind, yields_any. intros r.
  case_bool_decide; [|done]. simpl. by case_bool_decide.
Qed.

Lemma read_wasm_layer_config c d can id needs :
  yields (λ r, config r.1 = d ∧ (r.2 = needs ∨ r.2 = can)) (read_wasm_layer c d can id needs).
Proof.
  unfold read_wasm_layer. apply yields_bind, yields_any. intros d'.
  apply yields_bind, yields_any. intros [m|e]; [by split; [|left]|].
  case_bool_decide; [done|]. apply yields_bind, yields_any. intros m. by split; [|right].
Qed.

Lemma read_layers_config c ds can id needs :
  yields (λ r, config <$> r.1 = ds) (read_layers c ds can id needs).
Proof.
  revert needs. induction ds as [|d ds IH]; intros needs; simpl; [done|].
  apply yields_bind. eapply yields_mono; [apply read_wasm_layer_config|].
  intros [l n] [Hl _]. apply yields_bind. eapply yields_mono; [apply IH|].
  intros [ls n'] Hls. simpl in *. by f_equal.
Qed.

Lemma store_layers_config c id img layers i compiled :
  yields (λ ls, config <$> ls = take (length compiled) (drop i (config <$> layers)) ∧
                length ls = length compiled)
    (store_layers c id img layers i compiled).
Proof.
  revert i. induction compiled as [|o compiled IH]; intros i; simpl; [done|].
  destruct (layers !! i) as [l|] eqn:Hl; [|done].
  assert (drop i (config <$> layers) = config l :: drop (i + 1) (config <$> layers)) as Hd.
  { rewrite Nat.add_1_r. apply drop_S. by rewrite list_lookup_fmap, Hl. }
  apply yields_bind.
  assert (yields (λ l', config l' = config l)
    (match o with
     | Some b => store_compiled c id img i (config l) b
     | None => Ret l end : prog W Error WasmLayer)) as Ho.
  { destruct o as [b|]; [|done]. unfold store_compiled.
    do 3 (apply yields_bind, yields_any; intros ?). done. }
  eapply yields_mono; [exact Ho|]. intros l' Hl'. apply yields_bind.
  eapply yields_mono; [apply IH|]. intros ls [Hls Hlen]. simpl.
  rewrite Hd, Hlen. split; [|done]. simpl. by f_equal.
Qed.

(** What [load_modules] returns once it has the manifest. *)
Lemma load_platform_layers {En : Engine} c manifest image_digest :
  yields (λ r : list WasmLayer * Platform,
    if decide (platform_architecture r.2 = "wasm")
    then config <$> r.1 = supported_configs manifest
    else r.1 = []) (load_from_manifest c manifest image_digest).
Proof.
  unfold load_from_manifest.
  apply yields_bind, yields_any. intros cfg. apply yields_bind, yields_any. intros plat.
  case_bool_decide as Hp; simpl; [|by rewrite decide_False].
  destruct (match can_precompile with Some v => _ | None => _ end) as [can pid].
  apply yields_bind, yields_any. intros info.
  apply yields_bind. eapply yields_mono; [apply read_layers_config|]. intros [ls n] Hls; simpl in Hls.
  destruct ls as [|l ls]; [by simpl; rewrite decide_True|].
  destruct n; [|by simpl; rewrite decide_True].
  destruct (precompile (l :: ls)) as [comp|e]; [|by simpl; rewrite decide_True].
  case_bool_decide as Hlen; [|done]. simpl negb. cbn iota.
  apply yields_bind. eapply yields_mono; [apply store_layers_config|]. intros r [Hr _].
  simpl. rewrite decide_True by done. rewrite Hr, drop_0, Hlen.
  rewrite <-Hls, take_ge; [done|]. by rewrite length_fmap.
Qed.

(** C11: the layers an engine gets for a container are the supported layers of
    the manifest of its image, each with its own descriptor, in the order of the
    manifest, whether they were read, precompiled just now, or taken from the
    cache; an image of another architecture, or without such a layer, gives
    none. *)
Theorem load_modules_layers {En : Engine} c id w layers platform w' ts :
  run (load_modules c id) w = (Done (layers, platform), w', ts) →
  ∃ container w1 ts1 manifest image_digest w2 ts2,
    run (get_container c id) w = (Done container, w1, ts1) ∧
    run (get_image_manifest_and_digest c (container_image container)) w1 =
      (Done (manifest, image_digest), w2, ts2) ∧
    if decide (platform_architecture platform = "wasm")
    then config <$> layers = supported_configs manifest
    else layers = [].
Proof.
  unfold load_modules. rewrite run_bind.
  destruct (run (get_container c id) w) as [[[cont|?|?|] w1] ts1]; simpl; try done.
  rewrite run_bind.
  destruct (run (get_image_manifest_and_digest c (container_image cont)) w1)
    as [[[[m d]|?|?|] w2] ts2] eqn:Hm; simpl; try done.
  destruct (run (load_from_manifest c m d) w2) as [[o w3] ts3] eqn:Hl. intros [= -> -> _].
  exists cont, w1, ts1, m, d, w2, ts2. split; [done|]. split; [done|].
  exact (yields_run _ _ _ _ _ _ (load_platform_layers c m d) Hl).
Qed.

(** ** The cache *)

(** A call that returns [a] and leaves the state as it is. *)
Definition reads {A : Type} (p : prog W Error A) (w : W) (a : A) : Prop := run p w = (Done a, w, []).

Lemma reads_bind {A B : Type} (p : prog W Error A) (k : A → prog W Error B) w a b :
  reads p w a → reads (k a) w b → reads (bind p k) w b.
Proof. unfold reads. intros Hp Hk. by rewrite run_bind, Hp; simpl; rewrite Hk. Qed.

(** The compiled form [module] of the layer [d] can be found through its label. *)
Definition cached c (precompile_id : string) w (d : Descriptor) (module : list byte) : Prop :=
  ∃ info label d', reads (get_info c (digest d)) w info ∧
    info_labels info !! precompile_id = Some label ∧ parse_digest label = Ok d' ∧
    reads (read_content c d') w module.

Lemma read_wasm_layer_cached c d id w module needs :
  cached c id w d module → reads (read_wasm_layer c d true id needs) w (mkLayer d module, needs).
Proof.
  intros (info & label & d' & Hi & Hl & Hd & Hr). unfold read_wasm_layer.
  apply (reads_bind _ _ w d').
  { eapply reads_bind; [exact Hi|]. unfold reads. by rewrite Hl, Hd. }
  apply (reads_bind _ _ w (Ok module)); [|done].
  unfold reads in *. by rewrite run_attempt, Hr.
Qed.

Lemma read_layers_cached c ds id w modules needs :
  Forall2 (cached c id w) ds modules →
  reads (read_layers c ds true id needs) w (zip_with mkLayer ds modules, needs).
Proof.
  induction 1 as [|d m ds ms Hd _ IH]; [done|]. simpl.
  eapply reads_bind; [by apply read_wasm_layer_cached|]. simpl.
  eapply reads_bind; [exact IH|]. done.
Qed.

(** The cache is used: when the image is marked as compiled for this version
    of the engine and each supported layer has a label that leads to a compiled
    blob, an engine that compiles gets exactly those blobs, without compiling
    anything, and the store is neither written to nor leased. *)
Theorem cached_layers_are_loaded {En : Engine} c id w version container manifest image_digest
    config_bytes platform info modules :
  can_precompile = Some version →
  reads (get_container c id) w container →
  reads (get_image_manifest_and_digest c (container_image container)) w (manifest, image_digest) →
  reads (read_content c (digest (manifest_config manifest))) w config_bytes →
  platform_from_slice config_bytes = Ok platform → platform_architecture platform = "wasm" →
  reads (get_info c image_digest) w info →
  is_Some (info_labels info !! precompile_label engine_name version) →
  Forall2 (cached c (precompile_label engine_name version) w) (supported_configs manifest) modules →
  run (load_modules c id) w =
  (Done (zip_with mkLayer (supported_configs manifest) modules, platform), w, []).
Proof.
  intros Hcan Hcont Hm Hcfg Hp Harch Hinfo [v Hlab] Hcached.
  change (reads (load_modules c id) w (zip_with mkLayer (supported_configs manifest) modules, platform)).
  unfold load_modules. eapply reads_bind; [exact Hcont|]. eapply reads_bind; [exact Hm|].
  unfold load_from_manifest. eapply reads_bind; [exact Hcfg|].
  apply (reads_bind _ _ w platform); [unfold reads; by rewrite Hp|].
  rewrite bool_decide_eq_true_2 by done. simpl negb. cbn iota. rewrite Hcan.
  eapply reads_bind; [exact Hinfo|].
  rewrite bool_decide_eq_false_2 by (by rewrite Hlab). simpl andb.
  eapply reads_bind; [by apply read_layers_cached|]. simpl.
  by destruct (zip_with mkLayer _ _).
Qed.
End returned.

(** ** Writing content *)

Lemma and_then_ext {S E A B : Type} (r : outcome E A * S * list (thread S))
    (k k' : A → S → outcome E B * S * list (thread S)) :
  (∀ a s, k a s = k' a s) → and_then r k = and_then r k'.
Proof. intros Hk. destruct r as [[[a|?|?|] s] ts]; simpl; try done. by rewrite Hk. Qed.

Section chunks.
Context {W : Type} {C : Containerd W}.

(** The chunks [cs] cover [data] from [offset] on, in order, without gap or
    overlap, and none is empty or larger than the maximum. *)
Fixpoint covers (data : list byte) (offset : Z) (cs : list (Z * list byte)) : Prop :=
  match cs with
  | [] => drop (Z.to_nat offset) data = []
  | (o, chunk) :: cs =>
      o = offset ∧ (0 < Z.of_nat (length chunk) ≤ MAX_WRITE_CHUNK_SIZE_BYTES)%Z ∧
      chunk = take (length chunk) (drop (Z.to_nat offset) data) ∧
      covers data (offset + Z.of_nat (length chunk)) cs
  end.

Lemma covers_concat data offset cs :
  (0 ≤ offset)%Z → covers data offset cs →
  concat (snd <$> cs) = drop (Z.to_nat offset) data.
Proof.
  revert offset. induction cs as [|[o ch] cs IH]; intros offset Ho; [done|].
  intros (-> & Hlen & Hch & Hcs). rewrite fmap_cons. cbn [concat snd].
  rewrite (IH (offset + Z.of_nat (length ch))%Z) by (done || lia).
  rewrite Z2Nat.inj_add, Nat2Z.id, <-drop_drop by lia.
  rewrite Hch at 1. by rewrite take_drop.
Qed.

Lemma as_usize_small z : (0 ≤ z < 2 ^ 63)%Z → as_usize z = z.
Proof. intros Hz. unfold as_usize, as_unsigned. rewrite Z.mod_small; lia. Qed.

Lemma write_chunks_covers fuel s expected data offset :
  (0 ≤ offset)%Z → (Z.of_nat (length data) < 2 ^ 63)%Z →
  (Z.of_nat (length data) - offset < Z.of_nat fuel)%Z →
  ∃ cs, covers data offset cs ∧
    ∀ w, run (write_chunks fuel s expected data offset) w =
         run (bind (for_each (λ c, send_message s (chunk_request c.1 c.2) expected) cs)
                (λ _, Ret tt)) w.
Proof.
  assert (0 < MAX_WRITE_CHUNK_SIZE_BYTES)%Z as Hmax by done.
  revert offset. induction fuel as [|fuel IH]; intros offset Ho Hlen Hfuel; simpl.
  all: case_bool_decide as Hoff; [|exists []; split; [apply drop_ge; lia|done]].
  - lia.
  - set (e := Z.min _ _).
    assert (offset < e ≤ Z.of_nat (length data))%Z as He by lia.
    assert (e - offset ≤ MAX_WRITE_CHUNK_SIZE_BYTES)%Z as Hc by lia.
    rewrite !as_usize_small by lia. unfold slice. rewrite bool_decide_eq_true_2 by lia.
    destruct (IH e) as (cs & Hcs & Hrun); [lia..|].
    set (chunk := take _ _).
    assert (length chunk = Z.to_nat (e - offset)) as Hchunk.
    { unfold chunk. rewrite length_take, length_drop. lia. }
    exists ((offset, chunk) :: cs). split.
    + simpl. rewrite Hchunk. split; [done|]. split; [lia|]. split; [done|].
      by replace (offset + Z.of_nat (Z.to_nat (e - offset)))%Z with e by lia.
    + intros w. simpl. rewrite !run_bind.
      destruct (run (send_message _ _ _) w) as [[[r|?|?|] w1] ts1]; simpl; try done.
      rewrite Hrun, !run_bind.
      destruct (run (for_each _ cs) w1) as [[[l|?|?|] w2] ts2]; simpl; by rewrite ?app_nil_r.
Qed.

(** C12: the content is written completely: from the offset at which the store
    resumes, the requests carry the rest of the data in order, in non-empty
    chunks of at most 15 MB, and the loop ends. *)
Theorem write_chunks_complete s expected data offset :
  (0 ≤ offset)%Z → (Z.of_nat (length data) < 2 ^ 63)%Z →
  ∃ cs, covers data offset cs ∧
    concat (snd <$> cs) = drop (Z.to_nat offset) data ∧
    ∀ w, run (write_chunks (Datatypes.S (length data)) s expected data offset) w =
         run (bind (for_each (λ c, send_message s (chunk_request c.1 c.2) expected) cs)
                (λ _, Ret tt)) w.
Proof.
  intros Ho Hlen.
  destruct (write_chunks_covers (Datatypes.S (length data)) s expected data offset)
    as (cs & Hcs & Hrun); [lia..|].
  exists cs. split; [done|]. split; [by apply covers_concat|done].
Qed.

(** The store has confirmed that it has [data] under [expected]: it answered that it
    had it already; or it opened a stream and told where to resume, took all the chunks
    of the data from there on, and answered the commit of the whole length with that
    length and that digest. *)
Definition confirmed c (data : list byte) (reference expected : string) (g : LeaseGuard)
    (labels : gmap string string) (w w' : W) : Prop :=
  let len := Z.of_nat (length data) in
  let opening := content_write (client_namespace c) (lease_id g)
                   (mkWrite reference Stat 0 expected 0 [] ∅) in
  (∃ e ts, run opening w = (Failed e, w', ts) ∧ already_exists e = true) ∨
  ∃ s w1 r w2 w3 w4 ts1 ts2 ts4 ts5,
    run opening w = (Done s, w1, ts1) ∧
    run (stream_message s) w1 = (Done (Some r), w2, ts2) ∧
    (in_i64 (wresp_offset r) →
      (0 ≤ wresp_offset r)%Z ∧
      ∃ cs l ts3, covers data (wresp_offset r) cs ∧
        run (for_each (λ c, send_message s (chunk_request c.1 c.2) expected) cs) w2 = (Done l, w3, ts3)) ∧
    run (stream_send s (mkWrite "" Commit len expected len [] labels)) w3 = (Done tt, w4, ts4) ∧
    run (stream_message s) w4 = (Done (Some (mkWriteResp len expected)), w', ts5).

Lemma rpc_inv {A : Type} (p : prog W string A) f w a w' ts :
  run (map_err f p : prog W Error A) w = (Done a, w', ts) → run p w = (Done a, w', ts).
Proof. apply run_map_err_inv. Qed.

Lemma expect_some_inv {A : Type} (o : option A) msg (w : W) a w' ts :
  run (expect_some o msg) w = (Done a, w', ts) → o = Some a ∧ w' = w.
Proof. unfold expect_some. destruct o; simpl; [|done]. by intros [= -> -> _]. Qed.

(** A resumption below zero ends in a panic. *)
Lemma write_chunks_negative fuel s expected data offset w :
  in_i64 offset → (offset < 0)%Z → (Z.of_nat (length data) < 2 ^ 63)%Z →
  ∃ m, run (write_chunks (Datatypes.S fuel) s expected data offset) w = (Panicked m, w, []).
Proof.
  intros [Hlo Hhi] Hneg Hlen. simpl. rewrite bool_decide_eq_true_2 by lia.
  assert (as_usize offset = offset + 2 ^ 64)%Z as Ha.
  { unfold as_usize, as_unsigned. rewrite <-(Z_mod_plus_full offset 1), Z.mod_small; lia. }
  unfold slice. rewrite bool_decide_eq_false_2 by (rewrite Ha; lia). by eexists.
Qed.

Lemma write_content_confirmed c data reference expected g labels w d w' ts :
  (Z.of_nat (length data) < 2 ^ 63)%Z →
  run (write_content c data reference expected g labels) w = (Done d, w', ts) →
  d = expected ∧ confirmed c data reference expected g labels w w'.
Proof.
  intros Hlen Hr. split; [exact (yields_run _ _ _ _ _ _ (write_content_digest _ _ _ _ _ _) Hr)|].
  unfold write_content in Hr. apply run_bind_inv in Hr as (o & w1 & ts1 & ? & Ho & Hr & _).
  rewrite run_attempt in Ho. destruct (run (content_write _ _ _) w) as [[[s|e|m|] w1'] ts1'] eqn:Hopen;
    simpl in Ho; simplify_eq.
  2: { destruct (already_exists e) eqn:He; simpl in Hr; [|done]. injection Hr as _ <- _.
       left. by exists e, ts1. }
  apply run_bind_inv in Hr as (m & w2 & ts2 & ? & Hm%rpc_inv & Hr & _).
  apply run_bind_inv in Hr as (r & w2' & ? & ? & [-> ->]%expect_some_inv & Hr & _).
  apply run_bind_inv in Hr as ([] & w3 & ts3 & ? & Hchunks & Hr & _).
  apply run_bind_inv in Hr as (r' & w5 & ts5 & ? & Hc & Hr & _).
  apply run_bind_inv in Hc as ([] & w4 & ts4 & ? & Hsend%rpc_inv & Hc & _).
  apply run_bind_inv in Hc as (m' & w5' & ts5' & ? & Hm'%rpc_inv & [-> ->]%expect_some_inv & _).
  repeat case_bool_decide; simpl in Hr; try done. injection Hr as _ <- _.
  right. exists s, w1, r, w2, w3, w4, ts1, ts2, ts4, ts5'.
  split; [done|]. split; [done|]. split; [|split; [done|by destruct r'; simpl in *; subst]].
  intros Hoff. assert (0 ≤ wresp_offset r)%Z as Hpos.
  { destruct (decide (0 ≤ wresp_offset r)%Z) as [|Hneg]; [done|exfalso].
    destruct (write_chunks_negative (length data) s expected data (wresp_offset r) w2) as [? Hp];
      [done|lia|done|]. by rewrite Hp in Hchunks. }
  split; [done|].
  destruct (write_chunks_covers (Datatypes.S (length data)) s expected data (wresp_offset r))
    as (cs & Hcs & Hrun); [lia..|].
  rewrite Hrun in Hchunks. apply run_bind_inv in Hchunks as (l & w3' & ts3' & ? & Hl & Hret & _).
  simpl in Hret. injection Hret as <- _. by exists cs, l, ts3'.
Qed.

(** C17: content that is saved is protected by the lease that was taken for it, and is
    returned under its own digest only when the store has confirmed it: the store
    answered that it has that digest already, or all the data from the offset at which
    the store resumes was sent in chunks, and the store answered the commit with the
    whole length and the digest.  When saving fails or panics after the lease was
    taken, the lease is released in the background. *)
Theorem save_content_lease c data unique_id labels w g w1 ts1 :
  (Z.of_nat (length data) < 2 ^ 63)%Z →
  run (lease c ("precompile-" +:+ unique_id)) w = (Done g, w1, ts1) →
  let '(o, w2, ts) := run (save_content c data unique_id labels) w in
  match o with
  | Done wc =>
      wc = mkWriteContent g ("sha256:" +:+ sha256 data) ∧
      confirmed c data ("precompile-" +:+ unique_id) ("sha256:" +:+ sha256 data) g labels w1 w2
  | Failed _ | Panicked _ => list.last ts = Some (bind (lease_release g) (λ _, Ret tt))
  | Blocked => True
  end.
Proof.
  intros Hlen Hl. unfold save_content. rewrite run_bind, Hl. go.
  rewrite run_bind, run_unless_ok.
  destruct (run (write_content _ _ _ _ _ _) w1) as [[[d|e|m|] w2] ts2] eqn:Hr; go; [|..|done].
  - by destruct (write_content_confirmed _ _ _ _ _ _ _ _ _ _ Hlen Hr) as [-> ?].
  - unfold drop_lease; go. by rewrite app_nil_r, app_assoc, list.last_snoc.
  - unfold drop_lease; go. by rewrite app_nil_r, app_assoc, list.last_snoc.
Qed.

(** A precompiled layer that can no longer be read does not stop the
    container: the original layer is used, and the image is compiled again. *)
Theorem read_wasm_layer_fallback c d id needs info label d' module e w1 w2 w3 w :
  run (get_info c (digest d)) w = (Done info, w1, []) →
  info_labels info !! id = Some label → parse_digest label = Ok d' → d' ≠ digest d →
  run (read_content c d') w1 = (Failed e, w2, []) →
  run (read_content c (digest d)) w2 = (Done module, w3, []) →
  run (read_wasm_layer c d true id needs) w = (Done (mkLayer d module, true), w3, []).
Proof.
  intros Hi Hlab Hp Hne Hr1 Hr2. unfold read_wasm_layer.
  rewrite run_bind, run_bind, Hi. go. rewrite Hlab, run_map_err, Hp. go.
  rewrite run_bind, run_attempt, Hr1. go.
  rewrite bool_decide_eq_false_2 by done. by rewrite run_bind, Hr2.
Qed.
End chunks.
