(* ===== verification/Wasmtime.v ===== *)
(** The wasmtime engine (crates/containerd-shim-wasmtime/src/instance.rs): how a
    binary is classified, precompiled and executed, the environment a guest
    gets, and the exit codes, including those of signals.

    The [wasmtime] crates are the parameter [WasmtimeApi]; an [anyhow] error
    keeps what the code downcasts it to, an [I32Exit]. *)
From S2P Require Import Prelude Errors Sync Instance Paths Oci Context Engine.
Local Open Scope string_scope.

Inductive WasmError :=
| I32Exit (code : i32)
| OtherError (msg : string).

Inductive PrecompiledKind := PrecompiledModule | PrecompiledComponent.

Class WasmtimeApi := {
  wasm_parser :: WasmParser;
  WModule : Type;
  WComponent : Type;
  WasiCtx : Type;
  detect_precompiled : list byte → option PrecompiledKind;
  precompile_module : list byte → result string (list byte);
  precompile_component : list byte → result string (list byte);
  compatibility_hash : string;                  (* hashed and printed *)
  module_from_binary : list byte → result WasmError WModule;
  module_deserialize : list byte → result WasmError WModule;
  component_from_binary : list byte → result WasmError WComponent;
  component_deserialize : list byte → result WasmError WComponent;
  (* args, envs, inherited stdio and network, "/" preopened *)
  build_wasi : list string → list (string * string) → result WasmError WasiCtx;
  (* instantiate a module with WASI preview 1 in the linker *)
  MInstance : Type;
  instantiate_module : WasiCtx → WModule → result WasmError MInstance;
  get_func : MInstance → string → option (unit → result WasmError unit);
  (* components *)
  component_exports : WComponent → list string;
  serve_proxy : WasiContext → WComponent → result WasmError unit;
  run_command : WasiCtx → WComponent → result WasmError (result unit unit);
  CInstance : Type;
  instantiate_component : WasiCtx → WComponent → result WasmError CInstance;
  get_component_func : CInstance → string → option (unit → result WasmError unit);
}.

(** ** ComponentTarget *)

Inductive ComponentTarget :=
| HttpProxy
| CommandTarget
| Core (func : string).

Definition classify_export (name : string) : option ComponentTarget :=
  if starts_with "wasi:http/incoming-handler" name then Some HttpProxy
  else if starts_with "wasi:cli/run" name then Some CommandTarget
  else None.

Definition ComponentTarget_new (exports : list string) (func : string) : ComponentTarget :=
  unwrap_or (head (omap classify_export exports)) (Core func).

(** ** Exit codes *)

(** [IntoErrorCode] for [Result<i32>] and for [Result<()>]. *)
Definition into_error_code (r : result WasmError i32) : result WasmError i32 :=
  match r with
  | Ok c => Ok c
  | Err (I32Exit c) => Ok c
  | Err e => Err e
  end.

Definition unit_into_error_code (r : result WasmError unit) : result WasmError i32 :=
  into_error_code (match r with Ok _ => Ok 0%Z | Err e => Err e end).

(** ** Signals *)

Definition SIGINT : i32 := 2%Z.
Definition SIGTERM : i32 := 15%Z.

Inductive UnixSignal := Quit | Terminate | CtrlC.

(** What a call of [wait_for_signal] meets: a handler cannot be installed, or a signal
    arrives. *)
Abbreviation SignalWait := (result string UnixSignal).

Definition wait_for_signal (r : SignalWait) : result WasmError i32 :=
  match r with
  | Err e => Err (OtherError e)
  | Ok Quit => Ok SIGINT
  | Ok Terminate => Ok SIGTERM
  | Ok CtrlC => Ok SIGINT
  end.

(** [handle_signals] after the events [sigs] of its calls of [wait_for_signal]: its
    result, if it has one, and whether it asked for a graceful shutdown. *)
Definition handle_signals (sigs : list SignalWait) : option (result WasmError i32) * bool :=
  match sigs with
  | [] => (None, false)
  | s :: rest =>
      match wait_for_signal s with
      | Err e => (Some (Err e), false)
      | Ok sig =>
          if bool_decide (sig = SIGINT) then
            (match rest with
             | [] => None
             | s2 :: _ => Some (wait_for_signal s2)
             end, true)
          else (Some (Ok (128 + sig)%Z), false)
      end
  end.

(** ** The environment *)

Definition envs_from_ctx (c : WasiContext) : list (string * string) :=
  (λ v, unwrap_or (split_once "=" v) (v, "")) <$> envs c.

Section engine.
Context {A : WasmtimeApi}.

Definition wasi_builder (c : WasiContext) : result WasmError WasiCtx :=
  build_wasi (ctx_args c) (envs_from_ctx c).

(** ** Precompilation *)

Fixpoint wasmtime_precompile (layers : list WasmLayer) : result string (list (option (list byte))) :=
  match layers with
  | [] => Ok []
  | l :: layers =>
      match detect_precompiled (layer l) with
      | Some _ =>
        match wasmtime_precompile layers with Ok r => Ok (None :: r) | Err e => Err e end
      | None =>
        match from_bytes (layer l) with
        | None => wasmtime_precompile layers
        | Some t =>
            match (match t with
                   | WasmModule => precompile_module (layer l)
                   | WasmComponent => precompile_component (layer l)
                   end) with
            | Err e => Err e
            | Ok b => match wasmtime_precompile layers with
                      | Ok r => Ok (Some b :: r)
                      | Err e => Err e
                      end
            end
        end
      end
  end.

Definition wasmtime_can_precompile : option string := Some compatibility_hash.

(** ** Execution *)

Definition execute_module (c : WasiContext) (m : WModule) (func : string) : result WasmError i32 :=
  match wasi_builder c with
  | Err e => Err e
  | Ok w =>
      match instantiate_module w m with
      | Err e => Err e
      | Ok i =>
          match get_func i func with
          | None => Err (OtherError "module does not have a WASI start function")
          | Some f => unit_into_error_code (f tt)
          end
      end
  end.

Definition execute_component_async (c : WasiContext) (m : WComponent) (func : string) :
    result WasmError i32 :=
  match ComponentTarget_new (component_exports m) func with
  | HttpProxy => unit_into_error_code (serve_proxy c m)
  | CommandTarget =>
      match wasi_builder c with
      | Err e => Err e
      | Ok w =>
          match run_command w m with
          | Err e => Err e
          | Ok (Ok _) => unit_into_error_code (Ok tt)
          | Ok (Err _) => unit_into_error_code
              (Err (OtherError "failed to run component targeting `wasi:cli/command` world"))
          end
      end
  | Core func =>
      match wasi_builder c with
      | Err e => Err e
      | Ok w =>
          match instantiate_component w m with
          | Err e => Err e
          | Ok i =>
              match get_component_func i func with
              | None => Err (OtherError ("component does not have exported function " +:+
                                         quote +:+ func +:+ quote))
              | Some f => unit_into_error_code (f tt)
              end
          end
      end
  end.

(** [tokio::select!]: the component, or the signals that arrive before it ends
    ([None]: it ends first). *)
Definition execute_component (interrupted : option (list SignalWait)) (c : WasiContext)
    (m : WComponent) (func : string) : result WasmError i32 :=
  match interrupted with
  | Some sigs =>
      match (handle_signals sigs).1 with
      | Some status => status
      | None => execute_component_async c m func
      end
  | None => execute_component_async c m func
  end.

Definition execute (sigs : option (list SignalWait)) (c : WasiContext) (b : list byte)
    (func : string) : result WasmError i32 :=
  match from_bytes b with
  | Some WasmModule =>
      match module_from_binary b with Ok m => execute_module c m func | Err e => Err e end
  | Some WasmComponent =>
      match component_from_binary b with
      | Ok m => execute_component sigs c m func | Err e => Err e end
  | None =>
      match detect_precompiled b with
      | Some PrecompiledModule =>
          match module_deserialize b with Ok m => execute_module c m func | Err e => Err e end
      | Some PrecompiledComponent =>
          match component_deserialize b with
          | Ok m => execute_component sigs c m func | Err e => Err e end
      | None => Err (OtherError "invalid precompiled module")
      end
  end.

Definition wasmtime_run_wasi `{Fs} (sigs : option (list SignalWait)) (c : WasiContext) :
    result WasmError i32 :=
  let e := entrypoint c in
  match as_bytes (source e) with
  | Err m => Err (OtherError m)
  | Ok b => into_error_code (execute sigs c b (func e))
  end.

(** ** Properties *)

(** What the [wasmtime] crate documents of its precompiled artifacts: they are
    recognised as such and are not wasm binaries, and loading one gives what
    compiling the original gives. *)
Class WasmtimeLaws : Prop := {
  precompiled_module_loads b b' :
    precompile_module b = Ok b' →
    from_bytes b' = None ∧ detect_precompiled b' = Some PrecompiledModule ∧
    module_deserialize b' = module_from_binary b;
  precompiled_component_loads b b' :
    precompile_component b = Ok b' →
    from_bytes b' = None ∧ detect_precompiled b' = Some PrecompiledComponent ∧
    component_deserialize b' = component_from_binary b;
}.

(** Precompilation is transparent: a layer that [precompile] compiled runs as
    the original does, to the same exit code or error. *)
Theorem precompiled_runs_the_same `{L : !WasmtimeLaws} l b sigs c func :
  wasmtime_precompile [l] = Ok [Some b] →
  execute sigs c b func = execute sigs c (layer l) func.
Proof.
  simpl. destruct (detect_precompiled (layer l)); [done|].
  destruct (from_bytes (layer l)) as [[]|] eqn:Ht; [..|done].
  - destruct (precompile_module (layer l)) as [b'|] eqn:Hp; [|done]. intros [= ->].
    destruct (precompiled_module_loads _ _ Hp) as (H1 & H2 & H3).
    unfold execute. by rewrite H1, H2, H3, Ht.
  - destruct (precompile_component (layer l)) as [b'|] eqn:Hp; [|done]. intros [= ->].
    destruct (precompiled_component_loads _ _ Hp) as (H1 & H2 & H3).
    unfold execute. by rewrite H1, H2, H3, Ht.
Qed.

(** The layers for which [precompile] has an answer. *)
Definition recognised (l : WasmLayer) : bool :=
  match detect_precompiled (layer l), from_bytes (layer l) with
  | None, None => false
  | _, _ => true
  end.

Lemma precompile_length layers r :
  wasmtime_precompile layers = Ok r → length r = length (filter (λ l, recognised l = true) layers).
Proof.
  revert r. induction layers as [|l layers IH]; intros r; simpl.
  { by intros [= <-]. }
  rewrite filter_cons. intros Hr.
  assert (recognised l = true ∧ (∃ r' x, wasmtime_precompile layers = Ok r' ∧ r = x :: r') ∨
          recognised l = false ∧ wasmtime_precompile layers = Ok r)
    as [[-> (r' & x & Hr' & ->)]|[-> Hr']]; [|rewrite decide_True by done; simpl; f_equal; by apply IH|by rewrite decide_False; [apply IH|]].
  unfold recognised. destruct (detect_precompiled (layer l)) as [k|]; simpl in *.
  - left. split; [done|]. destruct (wasmtime_precompile layers); naive_solver.
  - destruct (from_bytes (layer l)) as [t|]; simpl in *; [left; split; [done|]|by right].
    destruct (match t with WasmModule => _ | WasmComponent => _ end) as [b|]; [|done].
    destruct (wasmtime_precompile layers); naive_solver.
Qed.

(** Where it answers for every layer, the answers are in the order of the layers. *)
Lemma precompile_lookup layers r i l b :
  wasmtime_precompile layers = Ok r → length r = length layers →
  layers !! i = Some l → r !! i = Some (Some b) → wasmtime_precompile [l] = Ok [Some b].
Proof.
  revert r i. induction layers as [|l0 layers IH]; intros r i Hr Hlen Hl Hb; [done|].
  simpl in Hr. destruct (wasmtime_precompile layers) as [r'|] eqn:Hr'.
  2: by repeat case_match.
  assert (length r' ≤ length layers)%nat as Hle
    by (rewrite (precompile_length _ _ Hr'); apply length_filter).
  destruct i as [|i]; simpl in Hl.
  - injection Hl as ->. simpl. repeat case_match; simplify_eq/=; done || lia.
  - apply (IH r' i eq_refl); [..|done|]; repeat case_match; simplify_eq/=; done || lia.
Qed.

(** [precompile] answers for every layer, as the trait asks, exactly when
    every layer is a wasm binary or already compiled; a layer of any other kind
    (an image may carry configuration layers) is dropped from the answer, which
    then has the wrong length and belongs to the wrong layers. *)
Theorem precompile_answers_recognised layers r :
  wasmtime_precompile layers = Ok r →
  (length r = length layers ↔ Forall (λ l, recognised l = true) layers).
Proof.
  intros Hr. rewrite (precompile_length _ _ Hr). clear Hr. split.
  - induction layers as [|l layers IH]; [done|]. rewrite filter_cons.
    pose proof (length_filter (λ l, recognised l = true) layers).
    case_decide as Hl; simpl; intros Hlen; [|lia]. constructor; [done|]. apply IH. lia.
  - induction 1 as [|l layers Hl _ IH]; [done|]. rewrite filter_cons, decide_True by done.
    simpl. by rewrite IH.
Qed.
End engine.
Arguments WasmtimeLaws : clear implicits.

(** The engine, as the trait sees it. *)
Definition wasmtime_engine {A : WasmtimeApi} (wat_parse_file : path → result string unit)
    (sigs : option (list SignalWait)) : Engine := {|
  engine_name := "wasmtime";
  run_wasi F c := match wasmtime_run_wasi sigs c with
                  | Ok code => Ok code
                  | Err (OtherError m) => Err m
                  | Err (I32Exit _) => Err "Exited with i32 exit status"
                  end;
  can_handle F c := default_can_handle wat_parse_file c;
  supported_layers_types := default_supported_layers_types;
  precompile := wasmtime_precompile;
  can_precompile := wasmtime_can_precompile;
|}.

(** The two readers of environment variables agree: what a guest sees of
    [NAME=VALUE] entries, later ones last, is what a hook would see. *)
Theorem guest_environment_is_parse_env c :
  list_to_map (reverse (envs_from_ctx c)) = parse_env (envs c).
Proof.
  unfold envs_from_ctx. generalize (envs c) as l. intros l.
  induction l as [|e l IH] using rev_ind; [done|].
  rewrite fmap_app, reverse_app, parse_env_snoc. simpl. rewrite IH. unfold env_binding.
  by destruct (split_once "=" e) as [[k v]|].
Qed.

(** Signals: a first [SIGTERM] ends a component with 143, as a shell reports
    it; a first [SIGINT] or [SIGQUIT] asks for a graceful shutdown, and then any
    second signal ends it with the bare number of the signal, [SIGQUIT] being
    counted as [SIGINT].  When a handler cannot be installed the component ends with
    that error. *)
Theorem signal_exit_codes sigs :
  handle_signals sigs =
  match sigs with
  | [] => (None, false)
  | Err e :: _ => (Some (Err (OtherError e)), false)
  | Ok Terminate :: _ => (Some (Ok 143%Z), false)
  | [_] => (None, true)
  | _ :: Err e :: _ => (Some (Err (OtherError e)), true)
  | _ :: Ok Terminate :: _ => (Some (Ok 15%Z), true)
  | _ :: Ok _ :: _ => (Some (Ok 2%Z), true)
  end.
Proof. by destruct sigs as [|[[]|] [|[[]|] ?]]. Qed.

(** ** The configuration of the engines *)

(** The settings of [wasmtime::Config] that the code changes. *)
Record WConfig := mkWConfig {
  parallel_compilation : bool;
  wasm_component_model : bool;
  async_support : bool;
  pooling : bool;                       (* the allocation strategy *)
  wasm_memory64 : bool;
  static_memory_maximum_size : option Z;
}.

Section config.
(** [Config::new] of the [wasmtime] crate, and [cfg!(test)]. *)
Context (config_new : WConfig) (test : bool).

(** The configuration of [PRECOMPILER]. *)
Definition precompiler_config : WConfig :=
  mkWConfig (negb test) true true (pooling config_new) (wasm_memory64 config_new)
    (static_memory_maximum_size config_new).

(** [use_pooling_allocator_by_default]: whether an engine with a 42-bit memory can be
    made, and such a memory in it; sizes of memories are in pages of 64 KiB. *)
Definition BITS_TO_TEST : Z := 42.

Definition use_pooling_allocator_by_default {E : Type} (engine_new : WConfig → option E)
    (memory_new : E → Z → option Z → bool) : bool :=
  let config := mkWConfig (parallel_compilation config_new) (wasm_component_model config_new)
    (async_support config_new) (pooling config_new) true (Some (Z.shiftl 1 BITS_TO_TEST)) in
  match engine_new config with
  | None => false
  | Some e => memory_new e 0%Z (Some (Z.shiftl 1 (BITS_TO_TEST - 16)))
  end.

(** [WasmtimeEngineImpl::default], up to the creation of the engine. *)
Definition engine_config (use_pooling : bool) : WConfig :=
  mkWConfig (negb test) true true (use_pooling || pooling config_new) (wasm_memory64 config_new)
    (static_memory_maximum_size config_new).

(** What compiled code depends on: everything but the allocation strategy. *)
Definition compilation_settings (c : WConfig) : WConfig :=
  mkWConfig (parallel_compilation c) (wasm_component_model c) (async_support c) false
    (wasm_memory64 c) (static_memory_maximum_size c).

(** The engine that runs a module agrees with the one that compiled it, wherever the
    pooling allocator can be used. *)
Lemma engines_agree use_pooling :
  compilation_settings (engine_config use_pooling) = compilation_settings precompiler_config.
Proof. done. Qed.

(** The memory that is probed is exactly as large as the configuration allows. *)
Lemma probed_memory_fits {E : Type} engine_new (memory_new : E → Z → option Z → bool) :
  use_pooling_allocator_by_default engine_new memory_new = true →
  ∃ c e, engine_new c = Some e ∧ static_memory_maximum_size c = Some (2 ^ 42)%Z ∧
    memory_new e 0%Z (Some (2 ^ 42 / 65536)%Z) = true.
Proof.
  unfold use_pooling_allocator_by_default.
  destruct (engine_new _) as [e|] eqn:He; [|done]. intros Hm. eexists _, e. by split; [exact He|].
Qed.
End config.
