(* ===== verification/ContentStore.v ===== *)
(** What the client relies on containerd for, as the laws of a content store, and
    the life of the cache of precompiled layers over any store that keeps them: a
    first load of an image compiles its layers and stores them, and the next one
    finds them.

    [NsView] is what a namespace of the store holds; [ContentLaws] says how each
    call of [Containerd] reads or changes it.  [evolves] lifts the laws through the
    operations of the file Client, each to a function on the view ([save],
    [remember], [remember_all]). *)
From S2P Require Import Prelude Errors Sync Instance Paths Oci Context Engine Client.
Local Open Scope string_scope.

(** ** The abstract store *)

Record Content := mkContent { c_data : list byte; c_labels : gmap string string }.

Record NsView := mkView {
  v_content : gmap string Content;           (* by digest *)
  v_ingests : gmap string (list byte);       (* the data written so far, by reference *)
  v_leases : gset string;
  v_images : gmap string Image;
  v_containers : gmap string ContainerInfo;
}.

Definition with_content (c : gmap string Content) (v : NsView) : NsView :=
  mkView c (v_ingests v) (v_leases v) (v_images v) (v_containers v).
Definition with_ingests (i : gmap string (list byte)) (v : NsView) : NsView :=
  mkView (v_content v) i (v_leases v) (v_images v) (v_containers v).
Definition with_leases (l : gset string) (v : NsView) : NsView :=
  mkView (v_content v) (v_ingests v) l (v_images v) (v_containers v).

(** An open write: where it writes to, and the answer that waits on its stream. *)
Record StreamState := mkStreamState {
  ss_ns : string; ss_ref : string; ss_expected : string;
  ss_reply : option WriteContentResponse;
}.

Definition replied (r : option WriteContentResponse) (st : StreamState) : StreamState :=
  mkStreamState (ss_ns st) (ss_ref st) (ss_expected st) r.

Definition digest_string (sum : string) : string := "sha256:" +:+ sum.

Definition relabel (l : gmap string string) (x : Content) : Content := mkContent (c_data x) l.

(** The documented behaviour of containerd's content, lease, image and container
    services, for calls that are not disturbed. *)
Class ContentLaws {W : Type} (C : Containerd W) := {
  view : W → string → NsView;
  stream_state : W → Stream → option StreamState;
  law_read w ns d x : v_content (view w ns) !! d = Some x →
    ∃ msgs, run (content_read ns d) w = (Done msgs, w, []) ∧ concat msgs = c_data x;
  law_info w ns d x : v_content (view w ns) !! d = Some x →
    run (content_info ns d) w = (Done (Some (mkInfo d (c_labels x))), w, []);
  law_update w ns i x : v_content (view w ns) !! info_digest i = Some x →
    ∃ w', run (content_update ns i ["labels"]) w = (Done (Some i), w', []) ∧
      view w' ns = with_content (<[info_digest i := relabel (info_labels i) x]>
                                   (v_content (view w ns))) (view w ns);
  law_open_known w ns l r x : v_content (view w ns) !! wr_expected r = Some x →
    ∃ e, run (content_write ns l r) w = (Failed e, w, []) ∧ already_exists e = true;
  law_open w ns l r : wr_action r = Stat →
    v_content (view w ns) !! wr_expected r = None → v_ingests (view w ns) !! wr_ref r = None →
    ∃ s w' d, run (content_write ns l r) w = (Done s, w', []) ∧
      stream_state w' s =
        Some (mkStreamState ns (wr_ref r) (wr_expected r) (Some (mkWriteResp 0 d))) ∧
      view w' ns = with_ingests (<[wr_ref r := []]> (v_ingests (view w ns))) (view w ns);
  law_message w s st r : stream_state w s = Some st → ss_reply st = Some r →
    ∃ w', run (stream_message s) w = (Done (Some r), w', []) ∧
      stream_state w' s = Some (replied None st) ∧ view w' (ss_ns st) = view w (ss_ns st);
  law_write w s st r b : stream_state w s = Some st → wr_action r = Write_ →
    v_ingests (view w (ss_ns st)) !! ss_ref st = Some b → wr_offset r = Z.of_nat (length b) →
    ∃ w' resp, run (stream_send s r) w = (Done tt, w', []) ∧
      stream_state w' s = Some (replied (Some resp) st) ∧
      view w' (ss_ns st) =
        with_ingests (<[ss_ref st := (b ++ wr_data r)%list]> (v_ingests (view w (ss_ns st))))
          (view w (ss_ns st));
  law_commit w s st r b : stream_state w s = Some st → wr_action r = Commit →
    v_content (view w (ss_ns st)) !! ss_expected st = None →
    v_ingests (view w (ss_ns st)) !! ss_ref st = Some b → wr_total r = Z.of_nat (length b) →
    wr_offset r = Z.of_nat (length b) → wr_expected r = ss_expected st →
    digest_string (sha256 b) = ss_expected st →
    ∃ w', run (stream_send s r) w = (Done tt, w', []) ∧
      stream_state w' s =
        Some (replied (Some (mkWriteResp (Z.of_nat (length b)) (ss_expected st))) st) ∧
      view w' (ss_ns st) =
        with_content (<[ss_expected st := mkContent b (wr_labels r)]>
                        (v_content (view w (ss_ns st))))
          (with_ingests (base.delete (ss_ref st) (v_ingests (view w (ss_ns st))))
             (view w (ss_ns st)));
  law_lease w ns i l : i ∉ v_leases (view w ns) →
    ∃ w', run (leases_create ns i l) w = (Done (Some i), w', []) ∧
      view w' ns = with_leases ({[i]} ∪ v_leases (view w ns)) (view w ns);
  law_unlease w ns i b : i ∈ v_leases (view w ns) →
    ∃ w', run (leases_delete ns i b) w = (Done tt, w', []) ∧
      view w' ns = with_leases (v_leases (view w ns) ∖ {[i]}) (view w ns);
  law_image w ns n i : v_images (view w ns) !! n = Some i →
    run (images_get ns n) w = (Done (Some i), w, []);
  law_container w ns n i : v_containers (view w ns) !! n = Some i →
    run (containers_get ns n) w = (Done (Some i), w, []);
  law_digest b : parse_digest (digest_string (sha256 b)) = Ok (digest_string (sha256 b));
}.

(** ** The operations of the client on the view *)

(** [save_content]: content that is there already is kept with its labels. *)
Definition save (dg : string) (data : list byte) (labels : gmap string string)
    (c : gmap string Content) : gmap string Content :=
  match c !! dg with Some _ => c | None => <[dg := mkContent data labels]> c end.

Definition add_labels (f : gmap string string → gmap string string) (x : Content) : Content :=
  relabel (f (c_labels x)) x.

(** [store_compiled]: the compiled layer is saved, the original and the image are
    labelled. *)
Definition remember (pid img dg : string) (i : nat) (original : string) (data : list byte)
    (c : gmap string Content) : gmap string Content :=
  alter (add_labels (λ l, <[pid := "true"]> (<[gc_label i := dg]> l))) img
    (alter (add_labels (λ l, <[gc_label i := dg]> (<[pid := dg]> l))) original
       (save dg data {[pid +:+ "/original" := original]} c)).

Section laws.
Context {W : Type} {C : Containerd W} {L : ContentLaws C}.
Local Open Scope prog_scope.

(** On a store that shows [v], [p] returns [a] and leaves it showing [v']. *)
Definition evolves {E A : Type} (ns : string) (p : prog W E A) (v : NsView) (a : A) (v' : NsView) : Prop :=
  ∀ w, view w ns = v → ∃ w', run p w = (Done a, w', []) ∧ view w' ns = v'.

(** [p] returns [a] and changes nothing at all. *)
Definition answers {E A : Type} (ns : string) (p : prog W E A) (v : NsView) (a : A) : Prop :=
  ∀ w, view w ns = v → run p w = (Done a, w, []).

Lemma answers_evolves {E A : Type} ns (p : prog W E A) v a : answers ns p v a → evolves ns p v a v.
Proof. intros Hp w Hw. exists w. split; [by apply Hp|done]. Qed.

Lemma evolves_bind {E A B : Type} ns (p : prog W E A) (k : A → prog W E B) v a v1 b v2 :
  evolves ns p v a v1 → evolves ns (k a) v1 b v2 → evolves ns (bind p k) v b v2.
Proof.
  intros Hp Hk w Hw. destruct (Hp w Hw) as (w1 & Hr1 & Hv1). destruct (Hk w1 Hv1) as (w2 & Hr2 & Hv2).
  exists w2. by rewrite (run_bind_done _ _ _ _ _ Hr1).
Qed.

Lemma answers_bind {E A B : Type} ns (p : prog W E A) (k : A → prog W E B) v a b :
  answers ns p v a → answers ns (k a) v b → answers ns (bind p k) v b.
Proof. intros Hp Hk w Hw. rewrite (run_bind_done _ _ _ _ _ (Hp w Hw)). by apply Hk. Qed.

Lemma answers_ret {E A : Type} ns v (a : A) : answers (E := E) ns (Ret a) v a.
Proof. by intros w Hw. Qed.

Lemma answers_lift {E A : Type} ns v (r : result E A) a : r = Ok a → answers ns (lift_result r) v a.
Proof. by intros -> w Hw. Qed.

Lemma evolves_map_err {E E' A : Type} ns (g : E → E') (p : prog W E A) v a v' :
  evolves ns p v a v' → evolves ns (map_err g p) v a v'.
Proof. intros Hp w Hw. destruct (Hp w Hw) as (w' & Hr & Hv). exists w'. by rewrite run_map_err, Hr. Qed.

Lemma answers_map_err {E E' A : Type} ns (g : E → E') (p : prog W E A) v a :
  answers ns p v a → answers ns (map_err g p) v a.
Proof. intros Hp w Hw. by rewrite run_map_err, (Hp w Hw). Qed.

Lemma evolves_unless_ok {E A : Type} ns (p : prog W E A) d v a v' :
  evolves ns p v a v' → evolves ns (unless_ok p d) v a v'.
Proof. intros Hp w Hw. destruct (Hp w Hw) as (w' & Hr & Hv). exists w'. by rewrite run_unless_ok, Hr. Qed.

Lemma evolves_attempt {E E' A : Type} ns (p : prog W E A) v a v' :
  evolves ns p v a v' → evolves ns (attempt (E' := E') p) v (Ok a) v'.
Proof. intros Hp w Hw. destruct (Hp w Hw) as (w' & Hr & Hv). exists w'. by rewrite run_attempt, Hr. Qed.

Lemma answers_attempt {E E' A : Type} ns (p : prog W E A) v a :
  answers ns p v a → answers ns (attempt (E' := E') p) v (Ok a).
Proof. intros Hp w Hw. by rewrite run_attempt, (Hp w Hw). Qed.

(** *** Reading *)

Lemma answers_read c v d x :
  v_content v !! d = Some x → answers (client_namespace c) (read_content c d) v (c_data x).
Proof.
  intros Hx w <-. destruct (law_read w _ _ _ Hx) as (msgs & Hr & <-).
  unfold read_content, rpc. rewrite run_bind, run_map_err, Hr. done.
Qed.

Lemma answers_info c v d x :
  v_content v !! d = Some x → answers (client_namespace c) (get_info c d) v (mkInfo d (c_labels x)).
Proof.
  intros Hx w <-. unfold get_info, rpc. by rewrite run_bind, run_map_err, (law_info _ _ _ _ Hx).
Qed.

Lemma answers_container c v n i :
  v_containers v !! n = Some i → answers (client_namespace c) (get_container c n) v i.
Proof.
  intros Hi w <-. unfold get_container, rpc. by rewrite run_bind, run_map_err, (law_container _ _ _ _ Hi).
Qed.

Lemma answers_image c v n i :
  v_images v !! n = Some i → answers (client_namespace c) (get_image c n) v i.
Proof.
  intros Hi w <-. unfold get_image, rpc. by rewrite run_bind, run_map_err, (law_image _ _ _ _ Hi).
Qed.

Lemma evolves_update c v i x :
  v_content v !! info_digest i = Some x →
  evolves (client_namespace c) (update_info c i) v i
    (with_content (<[info_digest i := relabel (info_labels i) x]> (v_content v)) v).
Proof.
  intros Hx w <-. destruct (law_update w _ i x Hx) as (w' & Hr & Hv). exists w'.
  unfold update_info, rpc. by rewrite run_bind, run_map_err, Hr.
Qed.

(** *** Writing *)

(** A request that was sent is answered with what waits on the stream. *)
Lemma send_message_replied w s r d w1 st resp :
  run (stream_send s r) w = (Done tt, w1, []) → stream_state w1 s = Some (replied (Some resp) st) →
  ∃ w2, run (send_message s r d) w = (Done resp, w2, []) ∧
    stream_state w2 s = Some (replied None st) ∧ view w2 (ss_ns st) = view w1 (ss_ns st).
Proof.
  intros Hs Hst. destruct (law_message w1 s _ resp Hst eq_refl) as (w2 & Hm & Hst2 & Hv).
  exists w2. split; [|done]. unfold send_message.
  rewrite run_bind, run_map_err, Hs. go. by rewrite run_bind, run_map_err, Hm.
Qed.

(** The loop appends what is missing of the data to the open write. *)
Lemma write_chunks_stored fuel s expected data offset w st b :
  stream_state w s = Some st → ss_reply st = None →
  v_ingests (view w (ss_ns st)) !! ss_ref st = Some b → b = take (Z.to_nat offset) data →
  (0 ≤ offset ≤ Z.of_nat (length data))%Z → (Z.of_nat (length data) < 2 ^ 63)%Z →
  (Z.of_nat (length data) - offset < Z.of_nat fuel)%Z →
  ∃ w', run (write_chunks fuel s expected data offset) w = (Done tt, w', []) ∧
    stream_state w' s = Some st ∧
    view w' (ss_ns st) =
      with_ingests (<[ss_ref st := data]> (v_ingests (view w (ss_ns st)))) (view w (ss_ns st)).
Proof.
  assert (0 < MAX_WRITE_CHUNK_SIZE_BYTES)%Z as Hmax by done.
  revert w offset b. induction fuel as [|fuel IH]; intros w offset b Hst Hno Hb -> Ho Hlen Hfuel; simpl.
  all: case_bool_decide as Hoff; [|exists w; split; [done|]; split; [done|]].
  - lia.
  - rewrite take_ge in Hb by lia. rewrite insert_id by done. by destruct (view w (ss_ns st)).
  - set (e := Z.min _ _). assert (offset < e ≤ Z.of_nat (length data))%Z as He by lia.
    rewrite !as_usize_small by lia. unfold slice. rewrite bool_decide_eq_true_2 by lia.
    set (chunk := take _ _).
    assert (length (take (Z.to_nat offset) data) = Z.to_nat offset) as Hl by (rewrite length_take; lia).
    destruct (law_write w s st (chunk_request offset chunk) _ Hst eq_refl Hb) as (w1 & resp & Hr & Hst1 & Hv1).
    { simpl. rewrite Hl. lia. }
    destruct (send_message_replied _ _ _ expected _ _ _ Hr Hst1) as (w2 & Hr2 & Hst2 & Hv2).
    assert (replied None st = st) as Hrst by (by destruct st; simpl in *; subst).
    rewrite Hrst in Hst2. rewrite (run_bind_done _ _ _ _ _ Hr2).
    destruct (IH w2 e (take (Z.to_nat e) data)) as (w3 & Hr3 & Hst3 & Hv3); [done|done| |done|lia..|].
    { rewrite Hv2, Hv1. simpl. rewrite lookup_insert_eq. f_equal. unfold chunk.
      replace (Z.to_nat e) with (Z.to_nat offset + Z.to_nat (e - offset))%nat by lia.
      apply take_take_drop. }
    exists w3. split; [done|]. split; [done|]. rewrite Hv3, Hv2, Hv1. unfold with_ingests. simpl.
    by rewrite insert_insert_eq.
  - rewrite take_ge in Hb by lia. rewrite insert_id by done. by destruct (view w (ss_ns st)).
Qed.

(** The content is stored under its digest: it was there already, or it is
    written, confirmed and committed; no write is left open. *)
Lemma evolves_write_content c data reference g labels v :
  v_ingests v !! reference = None → (Z.of_nat (length data) < 2 ^ 63)%Z →
  evolves (client_namespace c)
    (write_content c data reference (digest_string (sha256 data)) g labels) v
    (digest_string (sha256 data))
    (with_content (save (digest_string (sha256 data)) data labels (v_content v)) v).
Proof.
  intros Hin Hlen w Hw. unfold write_content, save. rewrite run_bind, run_attempt.
  set (r := mkWrite reference Stat 0 (digest_string (sha256 data)) 0 [] ∅).
  destruct (v_content v !! digest_string (sha256 data)) as [x|] eqn:Hx.
  - destruct (law_open_known w (client_namespace c) (lease_id g) r x) as (e & Hr & He).
    { by rewrite Hw. }
    exists w. rewrite Hr. go. rewrite He. go. split; [done|]. by destruct v.
  - destruct (law_open w (client_namespace c) (lease_id g) r) as (s & w1 & d0 & Hr & Hst & Hv1);
      [done|by rewrite Hw..|].
    rewrite Hr. go. simpl in Hst. rewrite Hw in Hv1. simpl in Hv1.
    destruct (law_message w1 s _ _ Hst eq_refl) as (w2 & Hm & Hst2 & Hv2).
    simpl in Hv2. unfold rpc. erewrite run_bind_done by (by rewrite run_map_err, Hm).
    erewrite run_bind_done by reflexivity.
    destruct (write_chunks_stored (Datatypes.S (length data)) s (digest_string (sha256 data)) data 0
      w2 _ [] Hst2) as (w3 & Hw3 & Hst3 & Hv3); simpl; try done; try lia.
    { rewrite Hv2, Hv1. simpl. by rewrite lookup_insert_eq. }
    rewrite (run_bind_done _ _ _ _ _ Hw3). simpl in Hv3. rewrite Hv2, Hv1 in Hv3.
    unfold with_ingests in Hv3; simpl in Hv3. rewrite insert_insert_eq in Hv3.
    set (rc := mkWrite _ Commit _ _ _ _ _).
    destruct (law_commit w3 s _ rc data Hst3) as (w4 & Hw4 & Hst4 & Hv4); simpl; try done.
    { by rewrite Hv3. } { rewrite Hv3. simpl. by rewrite lookup_insert_eq. }
    destruct (send_message_replied _ _ _ (digest_string (sha256 data)) _ _ _ Hw4 Hst4)
      as (w5 & Hw5 & _ & Hv5). simpl in Hw5, Hv5, Hv4.
    rewrite (run_bind_done _ _ _ _ _ Hw5). cbn [wresp_offset wresp_digest].
    rewrite !bool_decide_eq_true_2 by done. exists w5. split; [done|]. rewrite Hv5, Hv4, Hv3.
    unfold with_content, with_ingests. simpl. by rewrite delete_insert_id.
Qed.

Lemma evolves_lease c reference v :
  reference ∉ v_leases v →
  evolves (client_namespace c) (lease c reference) v (mkLease reference (client_namespace c))
    (with_leases ({[reference]} ∪ v_leases v) v).
Proof.
  intros Hl w Hw. subst v.
  destruct (law_lease w (client_namespace c) reference
    {["containerd.io/gc.expire" := expiry_24h w]} Hl) as (w' & Hr & Hv).
  exists w'. split; [|done]. unfold lease, rpc. erewrite run_bind_done by reflexivity.
  by erewrite run_bind_done by (by rewrite run_map_err, Hr).
Qed.

Lemma evolves_lease_release {E : Type} c reference v :
  reference ∈ v_leases v →
  evolves (client_namespace c) (lease_release (E := E) (mkLease reference (client_namespace c))) v
    (Ok tt) (with_leases (v_leases v ∖ {[reference]}) v).
Proof.
  intros Hl w Hw. subst v. destruct (law_unlease w _ reference false Hl) as (w' & Hr & Hv).
  exists w'. unfold lease_release. simpl. by rewrite run_attempt, Hr.
Qed.

(** [save_content] stores the content and returns with its lease held. *)
Lemma evolves_save_content c data uid labels v :
  v_ingests v !! ("precompile-" +:+ uid) = None → ("precompile-" +:+ uid) ∉ v_leases v →
  (Z.of_nat (length data) < 2 ^ 63)%Z →
  evolves (client_namespace c) (save_content c data uid labels) v
    (mkWriteContent (mkLease ("precompile-" +:+ uid) (client_namespace c)) (digest_string (sha256 data)))
    (with_content (save (digest_string (sha256 data)) data labels (v_content v))
       (with_leases ({["precompile-" +:+ uid]} ∪ v_leases v) v)).
Proof.
  intros Hin Hl Hlen. unfold save_content.
  eapply evolves_bind; [by apply evolves_lease|]. eapply evolves_bind.
  { apply evolves_unless_ok, evolves_write_content; done. }
  apply answers_evolves, answers_ret.
Qed.

Lemma lookup_save dg data labels c k x :
  c !! k = Some x → save dg data labels c !! k = Some x.
Proof.
  intros Hk. unfold save. destruct (c !! dg) eqn:Hd; [done|].
  rewrite lookup_insert_ne; [done|]. intros ->. congruence.
Qed.

(** Both updates of [store_compiled]: the labels of what is there are changed. *)
Lemma evolves_relabel {B : Type} c d x f v (k : Info → prog W Error B) b v' :
  v_content v !! d = Some x →
  (∀ i, evolves (client_namespace c) (k i) (with_content (alter (add_labels f) d (v_content v)) v) b v') →
  evolves (client_namespace c)
    (let! info := get_info c d in
     let! i := update_info c (mkInfo (info_digest info) (f (info_labels info))) in k i) v b v'.
Proof.
  intros Hx Hk. eapply evolves_bind; [by apply answers_evolves, answers_info|].
  cbn [info_digest info_labels]. eapply evolves_bind; [by apply evolves_update|].
  cbn [info_digest info_labels].
  replace (<[d := _]> (v_content v)) with (alter (add_labels f) d (v_content v)); [apply Hk|].
  apply map_eq. intros k'. destruct (decide (k' = d)) as [->|Hne].
  - by rewrite lookup_alter_eq, lookup_insert_eq, Hx.
  - by rewrite lookup_alter_ne, lookup_insert_ne.
Qed.

Lemma lookup_add_labels f d (c : gmap string Content) k x :
  c !! k = Some x → ∃ y, alter (add_labels f) d c !! k = Some y ∧ c_data y = c_data x.
Proof.
  intros Hk. destruct (decide (k = d)) as [->|Hne].
  - rewrite lookup_alter_eq, Hk. simpl. eauto.
  - rewrite lookup_alter_ne by done. eauto.
Qed.

Lemma evolves_store_compiled c pid img i original data v x y :
  v_content v !! digest original = Some x → v_content v !! img = Some y →
  v_ingests v !! ("precompile-" +:+ pid) = None → ("precompile-" +:+ pid) ∉ v_leases v →
  (Z.of_nat (length data) < 2 ^ 63)%Z →
  evolves (client_namespace c) (store_compiled c pid img i original data) v (mkLayer original data)
    (with_content (remember pid img (digest_string (sha256 data)) i (digest original) data
                     (v_content v)) v).
Proof.
  intros Hx Hy Hin Hl Hlen. unfold store_compiled.
  eapply evolves_bind; [by apply evolves_save_content|]. cbn [wc_digest wc_lease].
  eapply evolves_bind.
  { apply evolves_unless_ok.
    apply (evolves_relabel c (digest original) x
      (λ l, <[gc_label i := digest_string (sha256 data)]> (<[pid := digest_string (sha256 data)]> l)));
      [by apply lookup_save|]. intros _.
    destruct (lookup_add_labels (λ l, <[gc_label i := digest_string (sha256 data)]>
      (<[pid := digest_string (sha256 data)]> l)) (digest original) _ _ _
      (lookup_save (digest_string (sha256 data)) data
        {[pid +:+ "/original" := digest original]} _ _ _ Hy)) as (y' & Hy' & _).
    apply (evolves_relabel c img y'
      (λ l, <[pid := "true"]> (<[gc_label i := digest_string (sha256 data)]> l))); [exact Hy'|].
    intros _. apply answers_evolves, answers_ret. }
  eapply evolves_bind; [apply evolves_lease_release; simpl; set_solver|].
  intros w Hw. exists w. split; [done|]. rewrite Hw. destruct v as [ct ig le im co]. simpl in *.
  unfold with_content, with_leases, remember. simpl. f_equal. set_solver.
Qed.

(** ** The loop that stores the compiled layers *)

Definition remember_one (pid img : string) (i : nat) (l : WasmLayer) (o : option (list byte))
    (c : gmap string Content) : gmap string Content :=
  match o with
  | None => c
  | Some m => remember pid img (digest_string (sha256 m)) i (digest (config l)) m c
  end.

Fixpoint remember_all (pid img : string) (i : nat) (los : list (WasmLayer * option (list byte)))
    (c : gmap string Content) : gmap string Content :=
  match los with
  | [] => c
  | (l, o) :: los => remember_all pid img (i + 1) los (remember_one pid img i l o c)
  end.

(** The layer that the engine gets: as it was compiled, or as it was read. *)
Definition compiled_layer (lo : WasmLayer * option (list byte)) : WasmLayer :=
  mkLayer (config lo.1) (default (layer lo.1) lo.2).

Lemma lookup_remember pid img dg i orig m c k x :
  c !! k = Some x → ∃ y, remember pid img dg i orig m c !! k = Some y ∧ c_data y = c_data x.
Proof.
  intros Hk. unfold remember.
  destruct (lookup_add_labels (λ l, <[gc_label i := dg]> (<[pid := dg]> l)) orig _ _ _
    (lookup_save dg m {[pid +:+ "/original" := orig]} _ _ _ Hk)) as (y & Hy & <-).
  by apply lookup_add_labels.
Qed.

Lemma lookup_remember_one pid img i l o c k x :
  c !! k = Some x → ∃ y, remember_one pid img i l o c !! k = Some y ∧ c_data y = c_data x.
Proof. destruct o; simpl; [apply lookup_remember|eauto]. Qed.

Lemma lookup_remember_all pid img i los c k x :
  c !! k = Some x → ∃ y, remember_all pid img i los c !! k = Some y ∧ c_data y = c_data x.
Proof.
  revert i c x. induction los as [|[l o] los IH]; intros i c x Hk; simpl; [eauto|].
  destruct (lookup_remember_one pid img i l o _ _ _ Hk) as (y & Hy & <-). by apply IH.
Qed.

Lemma evolves_store_layers c pid img layers i compiled v :
  length layers = (i + length compiled)%nat →
  Forall (λ l, is_Some (v_content v !! digest (config l))) layers → is_Some (v_content v !! img) →
  v_ingests v !! ("precompile-" +:+ pid) = None → ("precompile-" +:+ pid) ∉ v_leases v →
  Forall (from_option (λ m, Z.of_nat (length m) < 2 ^ 63)%Z True) compiled →
  evolves (client_namespace c) (store_layers c pid img layers i compiled) v
    (compiled_layer <$> zip (drop i layers) compiled)
    (with_content (remember_all pid img i (zip (drop i layers) compiled) (v_content v)) v).
Proof.
  revert i v. induction compiled as [|o compiled IH]; intros i v Hlen Hls Himg Hin Hlease Hm; simpl.
  { rewrite zip_with_nil_r. simpl. intros w Hw. exists w. split; [done|]. rewrite Hw. by destruct v. }
  destruct (lookup_lt_is_Some_2 layers i) as [l Hl]; [simpl in Hlen; lia|]. rewrite Hl.
  assert (drop i layers = l :: drop (i + 1) layers) as ->.
  { rewrite Nat.add_1_r. by apply drop_S. }
  simpl zip.
  apply list.Forall_cons in Hm as [Ho Hm].
  pose proof (Forall_lookup_1 _ _ _ _ Hls Hl) as [x Hx]. destruct Himg as [y Hy].
  set (v1 := with_content (remember_one pid img i l o (v_content v)) v).
  apply (evolves_bind _ _ _ v (compiled_layer (l, o)) v1).
  { destruct o as [m|]; simpl in Ho.
    - by apply (evolves_store_compiled c pid img i (config l) m v x y).
    - intros w Hw. exists w. split; [by destruct l|]. rewrite Hw. by destruct v. }
  eapply evolves_bind.
  { apply (IH (i + 1)%nat v1); try done.
    - simpl in Hlen. clear -Hlen. lia.
    - eapply list.Forall_impl; [exact Hls|]. intros l' [x' Hx'].
      destruct (lookup_remember_one pid img i l o _ _ _ Hx') as (z & Hz & _). by exists z.
    - destruct (lookup_remember_one pid img i l o _ _ _ Hy) as (z & Hz & _). by exists z. }
  intros w Hw. exists w. split; [done|]. rewrite Hw. done.
Qed.

(** ** What a labelled store gives *)

(** The module that [read_wasm_layer] finds for the layer with this digest: the
    content that the label names, or the layer itself when it has no label. *)
Definition resolves (pid : string) (c : gmap string Content) (d : string) (m : list byte) : Prop :=
  ∃ x, c !! d = Some x ∧
    match c_labels x !! pid with
    | None => m = c_data x
    | Some label => ∃ d' y, parse_digest label = Ok d' ∧ c !! d' = Some y ∧ m = c_data y
    end.

(** What is stored under the digest of [m] is [m]. *)
Definition holds_only (m : list byte) (c : gmap string Content) : Prop :=
  ∀ x, c !! digest_string (sha256 m) = Some x → c_data x = m.

Lemma digest_string_inj s t : digest_string s = digest_string t → s = t.
Proof. apply string_app_inj_l. Qed.

Lemma gc_label_precompile i name version : gc_label i ≠ precompile_label name version.
Proof. done. Qed.

Lemma save_lookup_inv dg m labels c k y :
  save dg m labels c !! k = Some y → c !! k = Some y ∨ k = dg ∧ c_data y = m.
Proof.
  unfold save. destruct (c !! dg); [by left|].
  destruct (decide (k = dg)) as [->|Hne]; [rewrite lookup_insert_eq|rewrite lookup_insert_ne by done; by left].
  intros [= <-]. by right.
Qed.

Lemma add_labels_lookup_inv f d (c : gmap string Content) k y :
  alter (add_labels f) d c !! k = Some y → ∃ x, c !! k = Some x ∧ c_data y = c_data x.
Proof. rewrite lookup_alter_Some. intros [(_ & x & Hx & ->)|[_ Hy]]; eauto. Qed.

Lemma remember_holds_only pid img i orig m m' c :
  holds_only m' c → (sha256 m = sha256 m' → m = m') →
  holds_only m' (remember pid img (digest_string (sha256 m)) i orig m c).
Proof.
  intros Hh Hcol y Hy. apply add_labels_lookup_inv in Hy as (x & Hx & ->).
  apply add_labels_lookup_inv in Hx as (x' & Hx & ->).
  apply save_lookup_inv in Hx as [Hx|[Hd ->]]; [by apply Hh|].
  symmetry in Hd. apply digest_string_inj in Hd. auto.
Qed.

(** Other layers are found as before. *)
Lemma remember_keeps pid img dg i orig m c d m' :
  d ≠ orig → d ≠ img → resolves pid c d m' → resolves pid (remember pid img dg i orig m c) d m'.
Proof.
  intros Ho Hi (x & Hx & Hm). exists x. split.
  { unfold remember. rewrite !lookup_alter_ne by done. by apply lookup_save. }
  destruct (c_labels x !! pid) as [label|]; [|done]. destruct Hm as (d' & y & Hp & Hy & ->).
  destruct (lookup_remember pid img dg i orig m _ _ _ Hy) as (z & Hz & Hd). eauto.
Qed.

(** The layer that was compiled is now found as the compiled module. *)
Lemma remember_resolves pid img i orig m c x :
  pid ≠ gc_label i → orig ≠ img → c !! orig = Some x → holds_only m c →
  resolves pid (remember pid img (digest_string (sha256 m)) i orig m c) orig m.
Proof.
  intros Hp Hi Hx Hh. set (dg := digest_string (sha256 m)).
  pose proof (lookup_save dg m {[pid +:+ "/original" := orig]} _ _ _ Hx) as Hs.
  exists (add_labels (λ l, <[gc_label i := dg]> (<[pid := dg]> l)) x). split.
  { unfold remember. rewrite lookup_alter_ne by done. by rewrite lookup_alter_eq, Hs. }
  simpl. rewrite lookup_insert_ne by done. rewrite lookup_insert_eq. exists dg.
  assert (∃ z, save dg m {[pid +:+ "/original" := orig]} c !! dg = Some z ∧ c_data z = m) as (z & Hz & Hzm).
  { unfold save. destruct (c !! dg) as [z|] eqn:Hz; [exists z; auto|].
    rewrite lookup_insert_eq. eauto. }
  destruct (lookup_add_labels (λ l, <[gc_label i := dg]> (<[pid := dg]> l)) orig _ _ _ Hz) as (z1 & Hz1 & Hd1).
  destruct (lookup_add_labels (λ l, <[pid := "true"]> (<[gc_label i := dg]> l)) img _ _ _ Hz1) as (z2 & Hz2 & Hd2).
  exists z2. split; [apply law_digest|]. split; [exact Hz2|]. congruence.
Qed.

(** The layers are told apart by their digests, and from the image; no two
    modules that are stored collide. *)
Record distinct (img : string) (los : list (WasmLayer * option (list byte))) : Prop := {
  distinct_image l o : (l, o) ∈ los → digest (config l) ≠ img;
  distinct_layers l o l' o' : (l, o) ∈ los → (l', o') ∈ los →
    digest (config l) = digest (config l') → o = o';
  distinct_modules l m l' m' : (l, Some m) ∈ los → (l', Some m') ∈ los →
    sha256 m = sha256 m' → m = m';
}.

Lemma distinct_tail img lo los : distinct img (lo :: los) → distinct img los.
Proof.
  intros [H1 H2 H3]. split; intros; [eapply H1|eapply H2|eapply H3]; try eassumption;
    by apply list_elem_of_further.
Qed.

Lemma remember_one_holds_only pid img i l o los c :
  distinct img ((l, o) :: los) →
  (∀ l' m, (l', Some m) ∈ (l, o) :: los → holds_only m c) →
  ∀ l' m, (l', Some m) ∈ los → holds_only m (remember_one pid img i l o c).
Proof.
  intros Hd Hh l' m' Hin. destruct o as [m|]; simpl.
  - apply remember_holds_only; [eapply Hh; by apply list_elem_of_further|].
    eapply (distinct_modules _ _ Hd); [apply list_elem_of_here|by apply list_elem_of_further].
  - eapply Hh. by apply list_elem_of_further.
Qed.

(** A layer that is found as [m] stays so, unless another module is stored for it. *)
Lemma remember_all_keeps pid img i los c d m :
  (∀ i, pid ≠ gc_label i) → distinct img los →
  (∀ l m, (l, Some m) ∈ los → holds_only m c) →
  d ≠ img → resolves pid c d m →
  (∀ l m', (l, Some m') ∈ los → digest (config l) = d → m' = m) →
  resolves pid (remember_all pid img i los c) d m.
Proof.
  intros Hpid. revert i c. induction los as [|[l o] los IH]; intros i c Hdist Hh Hi Hr Hm; [done|].
  simpl. apply IH; [by eapply distinct_tail|by apply remember_one_holds_only|done| |].
  - destruct o as [m'|]; simpl; [|done].
    destruct (decide (d = digest (config l))) as [->|Hne]; [|by apply remember_keeps].
    assert (m' = m) as -> by (eapply Hm; [apply list_elem_of_here|done]).
    destruct Hr as (x & Hx & _). eapply remember_resolves; [done|done|exact Hx|].
    eapply Hh, list_elem_of_here.
  - intros l' m' Hin. eapply Hm. by apply list_elem_of_further.
Qed.

(** Every layer that was compiled is found as its compiled module. *)
Lemma remember_all_resolves pid img i los c l m x :
  (∀ i, pid ≠ gc_label i) → distinct img los →
  (∀ l m, (l, Some m) ∈ los → holds_only m c) →
  (l, Some m) ∈ los → c !! digest (config l) = Some x →
  resolves pid (remember_all pid img i los c) (digest (config l)) m.
Proof.
  intros Hpid. revert i c x. induction los as [|[l0 o] los IH]; intros i c x Hdist Hh Hin Hx; simpl.
  { by apply elem_of_nil in Hin. }
  pose proof (distinct_image _ _ Hdist _ _ Hin) as Himg.
  apply elem_of_cons in Hin as [[= <- <-]|Hin].
  - apply remember_all_keeps; [done|by eapply distinct_tail|by apply remember_one_holds_only|done| |].
    + eapply remember_resolves; [done|done|exact Hx|]. eapply Hh, list_elem_of_here.
    + intros l' m' Hin Heq.
      by assert (Some m' = Some m) as [= ->] by (eapply (distinct_layers _ _ Hdist);
        [by apply list_elem_of_further|apply list_elem_of_here|done]).
  - destruct (lookup_remember_one pid img i l0 o _ _ _ Hx) as (y & Hy & _).
    eapply IH; [by eapply distinct_tail|by apply remember_one_holds_only|done|exact Hy].
Qed.

(** The image is marked as soon as one layer was stored. *)
Lemma remember_all_marks pid img i los c y :
  distinct img los → c !! img = Some y →
  is_Some (c_labels y !! pid) ∨ (∃ l m, (l, Some m) ∈ los) →
  ∃ y', remember_all pid img i los c !! img = Some y' ∧ is_Some (c_labels y' !! pid).
Proof.
  revert i c y. induction los as [|[l o] los IH]; intros i c y Hdist Hy Hs; simpl.
  { destruct Hs as [Hs|(l & m & Hin)]; [by eauto|by apply elem_of_nil in Hin]. }
  pose proof (distinct_image _ _ Hdist _ _ (list_elem_of_here _ _)) as Himg.
  destruct o as [m|]; simpl.
  - assert (∃ z, remember pid img (digest_string (sha256 m)) i (digest (config l)) m c !! img = Some z ∧
      is_Some (c_labels z !! pid)) as (z & Hz & Hzs).
    { unfold remember. rewrite lookup_alter_eq, lookup_alter_ne by done.
      rewrite (lookup_save _ _ _ _ _ _ Hy). eexists. split; [done|]. simpl.
      rewrite lookup_insert_eq. done. }
    eapply IH; [by eapply distinct_tail|exact Hz|by left].
  - eapply IH; [by eapply distinct_tail|exact Hy|].
    destruct Hs as [Hs|(l' & m & Hin)]; [by left|right].
    apply elem_of_cons in Hin as [?|Hin]; [done|eauto].
Qed.

(** ** Loading an image *)

(** The container's image is complete in the store: its manifest and its
    configuration, for the architecture wasm. *)
Record image_of (v : NsView) (id : string) (manifest : ImageManifest) (img : string)
    (platform : Platform) : Prop := {
  io_image : ∃ cont i sha, v_containers v !! id = Some cont ∧
    v_images v !! container_image cont = Some i ∧ image_target i = Some sha ∧
    parse_digest sha = Ok img;
  io_manifest : ∃ x, v_content v !! img = Some x ∧ manifest_from_reader (c_data x) = Ok manifest;
  io_config : ∃ x, v_content v !! digest (manifest_config manifest) = Some x ∧
    platform_from_slice (c_data x) = Ok platform;
  io_wasm : platform_architecture platform = "wasm";
}.

(** It still is when content was only added and labelled. *)
Lemma image_of_grows v c id manifest img platform :
  (∀ k x, v_content v !! k = Some x → ∃ y, c !! k = Some y ∧ c_data y = c_data x) →
  image_of v id manifest img platform → image_of (with_content c v) id manifest img platform.
Proof.
  intros Hg [Hi (x & Hx & Hm) (x' & Hx' & Hp) Hw]. split; try done; simpl.
  - destruct (Hg _ _ Hx) as (y & Hy & Hd). exists y. by rewrite Hd.
  - destruct (Hg _ _ Hx') as (y & Hy & Hd). exists y. by rewrite Hd.
Qed.

(** [load_modules] up to the layers, for an engine that compiles: the rest depends
    on the label of the image. *)
Definition load_layers {En : Engine} (c : Client) (manifest : ImageManifest) (img pid : string)
    (platform : Platform) (needs : bool) : prog W Error (list WasmLayer * Platform) :=
  let! (layers, needs) := read_layers c (supported_configs manifest) true pid needs in
  match layers with
  | [] => Ret ([], platform)
  | _ =>
      if needs : bool then
        match precompile layers with
        | Err _ => Ret (layers, platform)
        | Ok compiled =>
            if negb (bool_decide (length compiled = length layers)) then
              Throw (FailedPrecondition "precompile returned wrong number of layers")
            else
              let! ls := store_layers c pid img layers 0 compiled in
              Ret (ls, platform)
        end
      else Ret (layers, platform)
  end.

Lemma load_modules_reads {En : Engine} c id version manifest img platform v x w :
  can_precompile = Some version → image_of v id manifest img platform →
  v_content v !! img = Some x → view w (client_namespace c) = v →
  run (load_modules c id) w =
  run (load_layers c manifest img (precompile_label engine_name version) platform
    (bool_decide (c_labels x !! precompile_label engine_name version = None))) w.
Proof.
  intros Hcan [(cont & i & sha & Hcont & Hi & Hsha & Hd) (xm & Hxm & Hm) (xc & Hxc & Hp) Hwasm] Hx Hw.
  unfold load_modules. rewrite (run_bind_done _ _ _ _ _ (answers_container c v id cont Hcont w Hw)).
  assert (answers (client_namespace c) (get_image_manifest_and_digest c (container_image cont)) v
    (manifest, img)) as Hmd.
  { unfold get_image_manifest_and_digest.
    eapply answers_bind; [by apply answers_image|].
    eapply answers_bind; [apply answers_lift; unfold extract_image_content_sha; by rewrite Hsha|].
    eapply answers_bind; [by apply answers_map_err, answers_lift|].
    eapply answers_bind; [exact (answers_read _ _ _ _ Hxm)|].
    eapply answers_bind; [by apply answers_map_err, answers_lift|]. apply answers_ret. }
  rewrite (run_bind_done _ _ _ _ _ (Hmd w Hw)). unfold load_from_manifest.
  rewrite (run_bind_done _ _ _ _ _ (answers_read c v _ _ Hxc w Hw)), Hp.
  erewrite run_bind_done by reflexivity.
  rewrite bool_decide_eq_true_2 by done. cbn [negb]. rewrite Hcan.
  by rewrite (run_bind_done _ _ _ _ _ (answers_info c v _ _ Hx w Hw)).
Qed.

Lemma answers_read_layers c pid v ds ms needs :
  Forall2 (λ d m, resolves pid (v_content v) (digest d) m) ds ms →
  answers (client_namespace c) (read_layers c ds true pid needs) v (zip_with mkLayer ds ms, needs).
Proof.
  induction 1 as [|d m ds ms (x & Hx & Hm) _ IH]; [apply answers_ret|]. simpl.
  eapply answers_bind.
  - unfold read_wasm_layer. instantiate (1 := (mkLayer d m, needs)).
    destruct (c_labels x !! pid) as [label|] eqn:Hl.
    + destruct Hm as (d' & y & Hp & Hy & ->).
      apply (answers_bind _ _ _ _ d').
      { eapply answers_bind; [by apply answers_info|]. simpl. rewrite Hl.
        by apply answers_map_err, answers_lift. }
      eapply answers_bind; [by apply answers_attempt, answers_read|]. apply answers_ret.
    + subst m. apply (answers_bind _ _ _ _ (digest d)).
      { eapply answers_bind; [by apply answers_info|]. simpl. rewrite Hl. apply answers_ret. }
      eapply answers_bind; [by apply answers_attempt, answers_read|]. apply answers_ret.
  - simpl. eapply answers_bind; [exact IH|]. apply answers_ret.
Qed.

(** An image that is loaded for the first time by an engine that compiles: it is
    not marked, its layers can be read, and the compiled modules can be stored.  A
    layer may have been compiled before, as part of another image. *)
Record uncompiled {En : Engine} (v : NsView) (pid : string) (manifest : ImageManifest) (img : string)
    (layers : list WasmLayer) (compiled : list (option (list byte))) : Prop := {
  un_unmarked : ∃ x, v_content v !! img = Some x ∧ c_labels x !! pid = None;
  un_layers : config <$> layers = supported_configs manifest;
  un_read : Forall (λ l, resolves pid (v_content v) (digest (config l)) (layer l)) layers;
  un_precompile : precompile layers = Ok compiled;
  un_length : length compiled = length layers;
  un_some : ∃ m, Some m ∈ compiled;
  un_size : Forall (from_option (λ m, Z.of_nat (length m) < 2 ^ 63)%Z True) compiled;
  un_distinct : distinct img (zip layers compiled);
  un_holds m : Some m ∈ compiled → holds_only m (v_content v);
  un_lease : ("precompile-" +:+ pid) ∉ v_leases v;
  un_ingest : v_ingests v !! ("precompile-" +:+ pid) = None;
}.

Lemma elem_of_zip_compiled (layers : list WasmLayer) (compiled : list (option (list byte))) o :
  length compiled = length layers → o ∈ compiled → ∃ l, (l, o) ∈ zip layers compiled.
Proof.
  intros Hlen Hin. apply list_elem_of_lookup_1 in Hin as [i Hi].
  destruct (lookup_lt_is_Some_2 layers i) as [l Hl].
  { rewrite <-Hlen. by eapply lookup_lt_Some. }
  exists l. apply (list_elem_of_lookup_2 _ i). apply lookup_zip_with_Some. eauto.
Qed.

(** The first load stores the compiled layers. *)
Lemma first_load {En : Engine} c id version manifest img platform v layers compiled :
  can_precompile = Some version → image_of v id manifest img platform →
  uncompiled v (precompile_label engine_name version) manifest img layers compiled →
  evolves (client_namespace c) (load_modules c id) v
    (compiled_layer <$> zip layers compiled, platform)
    (with_content (remember_all (precompile_label engine_name version) img 0 (zip layers compiled)
                     (v_content v)) v).
Proof.
  intros Hcan Himg [(x & Hx & Hun) Hls Hread Hpre Hlen (m & Hm) Hsz Hdist Hhold Hlease Hing] w Hw.
  rewrite (load_modules_reads c id version manifest img platform v x w Hcan Himg Hx Hw).
  rewrite bool_decide_eq_true_2 by done. unfold load_layers.
  assert (answers (client_namespace c) (read_layers c (supported_configs manifest) true
    (precompile_label engine_name version) true) v (layers, true)) as Hrl.
  { rewrite <-Hls.
    replace layers with (zip_with mkLayer (config <$> layers) (layer <$> layers)) at 2
      by (clear; induction layers as [|[]]; simpl; by f_equal).
    apply answers_read_layers. clear -Hread. induction Hread; simpl; by constructor. }
  rewrite (run_bind_done _ _ _ _ _ (Hrl w Hw)).
  destruct layers as [|l0 ls]; [destruct compiled; [by apply elem_of_nil in Hm|done]|].
  cbn iota beta. rewrite Hpre, bool_decide_eq_true_2 by done. cbn [negb].
  destruct (evolves_store_layers c (precompile_label engine_name version) img (l0 :: ls) 0 compiled v)
    with w as (w' & Hr & Hv); try done.
  - eapply list.Forall_impl; [exact Hread|]. intros l (y & Hy & _). by exists y.
  - exists w'. rewrite (run_bind_done _ _ _ _ _ Hr). by rewrite Hv.
Qed.

(** A load of a marked image returns what its labels lead to. *)
Lemma later_load {En : Engine} c id version manifest img platform v x ms :
  can_precompile = Some version → image_of v id manifest img platform →
  v_content v !! img = Some x → is_Some (c_labels x !! precompile_label engine_name version) →
  Forall2 (λ d m, resolves (precompile_label engine_name version) (v_content v) (digest d) m)
    (supported_configs manifest) ms →
  answers (client_namespace c) (load_modules c id) v
    (zip_with mkLayer (supported_configs manifest) ms, platform).
Proof.
  intros Hcan Himg Hx [y Hy] Hms w Hw.
  rewrite (load_modules_reads c id version manifest img platform v x w Hcan Himg Hx Hw).
  rewrite bool_decide_eq_false_2 by (by rewrite Hy). unfold load_layers.
  rewrite (run_bind_done _ _ _ _ _ (answers_read_layers c _ v _ _ false Hms w Hw)).
  by destruct (zip_with mkLayer _ _).
Qed.

Lemma Forall2_compiled pid img c los :
  (∀ i, pid ≠ gc_label i) → distinct img los → (∀ l m, (l, Some m) ∈ los → holds_only m c) →
  Forall (λ lo, resolves pid c (digest (config lo.1)) (layer lo.1)) los →
  Forall2 (λ d m, resolves pid (remember_all pid img 0 los c) (digest d) m)
    (config ∘ fst <$> los) ((λ lo, layer (compiled_layer lo)) <$> los).
Proof.
  intros Hpid Hdist Hh Hr. apply Forall2_fmap, Forall_Forall2_diag, list.Forall_forall.
  intros [l o] Hin. simpl. pose proof (proj1 (list.Forall_forall _ _) Hr _ Hin) as Hl. simpl in Hl.
  destruct o as [m|]; simpl.
  - destruct Hl as (x & Hx & _). exact (remember_all_resolves pid img 0 los c l m x Hpid Hdist Hh Hin Hx).
  - apply remember_all_keeps; try done; [exact (distinct_image _ _ Hdist _ _ Hin)|].
    intros l' m' Hin' Heq. by pose proof (distinct_layers _ _ Hdist _ _ _ _ Hin' Hin Heq).
Qed.

(** C13: compiled layers are reused.  The first load of an image by an engine that
    compiles returns its layers as they were compiled, leaves no lease and no open
    write, and leaves the store such that every later load, by any engine of that
    name, version and layer types, whatever its compiler, returns the same layers
    and changes nothing. *)
Theorem compiled_layers_are_reused {En : Engine} c id version manifest img platform w layers compiled :
  can_precompile = Some version →
  image_of (view w (client_namespace c)) id manifest img platform →
  uncompiled (view w (client_namespace c)) (precompile_label engine_name version) manifest img
    layers compiled →
  ∃ w', run (load_modules c id) w =
      (Done (compiled_layer <$> zip layers compiled, platform), w', []) ∧
    v_leases (view w' (client_namespace c)) = v_leases (view w (client_namespace c)) ∧
    v_ingests (view w' (client_namespace c)) = v_ingests (view w (client_namespace c)) ∧
    ∀ En' : Engine, @engine_name En' = @engine_name En → @can_precompile En' = Some version →
      @supported_layers_types En' = @supported_layers_types En →
      run (@load_modules W C En' c id) w' =
      (Done (compiled_layer <$> zip layers compiled, platform), w', []).
Proof.
  intros Hcan Himg Hun.
  destruct (first_load c id version manifest img platform _ layers compiled Hcan Himg Hun w eq_refl)
    as (w' & Hr & Hv).
  exists w'. rewrite Hv. do 3 (split; [done|]). intros En' Hname Hcan' Hty.
  set (pid := precompile_label (@engine_name En) version) in *. set (v := view w (client_namespace c)) in *.
  assert (@supported_configs En' manifest = @supported_configs En manifest) as Hsup
    by (unfold supported_configs; by rewrite Hty).
  destruct Hun as [(x & Hx & _) Hls Hread _ Hlen (m & Hm) _ Hdist Hhold _ _].
  destruct (elem_of_zip_compiled layers compiled _ Hlen Hm) as (l & Hin).
  destruct (remember_all_marks pid img 0 (zip layers compiled) (v_content v) x Hdist Hx) as (y & Hy & Hlab);
    [by eauto|].
  assert (config ∘ fst <$> zip layers compiled = @supported_configs En manifest) as Hcfg.
  { rewrite (list_fmap_compose fst config), fst_zip by lia. exact Hls. }
  assert (compiled_layer <$> zip layers compiled = zip_with mkLayer (@supported_configs En manifest)
    ((λ lo, layer (compiled_layer lo)) <$> zip layers compiled)) as ->.
  { rewrite <-Hcfg. clear. induction (zip layers compiled) as [|lo los IH]; [done|].
    rewrite !fmap_cons. simpl. by f_equal. }
  rewrite <-Hsup in Hcfg |- *.
  apply (later_load (En := En') c id version manifest img platform 
    (with_content (remember_all pid img 0 (zip layers compiled) (v_content v)) v) y _ Hcan'); [|exact Hy| | |exact Hv].
  - apply image_of_grows; [|done]. intros k z Hz. by apply lookup_remember_all.
  - by rewrite Hname.
  - rewrite Hname, <-Hcfg. apply Forall2_compiled; [done|done| |].
    + intros l' m' Hin'. apply Hhold. by apply elem_of_zip_r in Hin'.
    + apply list.Forall_forall. intros [l' o'] Hin'. apply elem_of_zip_l in Hin'.
      exact (proj1 (list.Forall_forall _ _) Hread _ Hin').
Qed.
End laws.
