(* ===== verification/SharedStore.v ===== *)
(** The content store under interleaved loads.

    The shims of a node share one content store, and every shim loads modules on
    threads of its own.  A load reads labels, compiles, writes, and reads and writes
    labels again, with other loads, of the same and of other engines, and the other
    clients of the store in between.  This file shows what a load can rely on all the
    same: what it gives to an engine is the content that the manifest names, or was
    compiled from it by an engine of the same name and version.

    [ContentIntegrity] states what containerd promises at each single step, whoever
    else uses the store: content is found under the digest of its bytes, and labels
    change only as requests ask for.  The theorems ask two things of the node: names and
    versions of engines have no slashes, so that the label of an engine tells which engine
    it is ([plain]), and, where a layer is traced back to the manifest, the bytes that the
    store holds have different digests when they differ ([collision_free]). *)
From S2P Require Import Prelude Errors Sync Instance Paths Oci Threads Context Engine Client Wasmtime ContentStore.
Local Open Scope string_scope.

(** ** What containerd promises at each step *)

Abbreviation always := (λ _, True).

Section integrity.
Context {W : Type} {C : Containerd W}.

(** Labels and digests: [P d k v] says that content [d] may have the label [k = v]. *)
Implicit Types P : string → string → string → Prop.

Definition dig (b : list byte) : string := digest_string (sha256 b).

(** Every blob of [c] is under its own digest, with labels that [P] allows. *)
Definition integral_content P (c : gmap string Content) : Prop :=
  map_Forall (λ d x, dig (c_data x) = d ∧ map_Forall (P d) (c_labels x)) c.

(** Every blob of [c] satisfies [V]. *)
Definition blobs_in (V : list byte → Prop) (c : gmap string Content) : Prop :=
  map_Forall (λ _ x, V (c_data x)) c.

(** Of the bytes that are read the last law says that they are among the blobs that
    the store holds while they are read. *)
Class ContentIntegrity := {
  stored : W → string → gmap string Content;
  integral P (w : W) : Prop := ∀ ns, integral_content P (stored w ns);
  all_blobs V (w : W) : Prop := ∀ ns, blobs_in V (stored w ns);
  keeps_info P ns d : keeps always (integral P) (content_info ns d) (λ o, ∀ i, o = Some i →
    info_digest i = d ∧ map_Forall (P d) (info_labels i));
  keeps_update P ns i fields : map_Forall (P (info_digest i)) (info_labels i) →
    keeps always (integral P) (content_update ns i fields) (λ _, True);
  keeps_write P ns l r : keeps always (integral P) (content_write ns l r) (λ _, True);
  keeps_send P s r :
    (wr_action r = Commit → map_Forall (P (wr_expected r)) (wr_labels r)) →
    keeps always (integral P) (stream_send s r) (λ _, True);
  keeps_message P s : keeps always (integral P) (stream_message s) (λ _, True);
  keeps_lease P ns i l : keeps always (integral P) (leases_create ns i l) (λ _, True);
  keeps_unlease P ns i b : keeps always (integral P) (leases_delete ns i b) (λ _, True);
  keeps_image P ns n : keeps always (integral P) (images_get ns n) (λ _, True);
  keeps_container P ns n : keeps always (integral P) (containers_get ns n) (λ _, True);
  parse_digest_same s d : parse_digest s = Ok d → d = s;
  keeps_read P V ns d : keeps (all_blobs V) (integral P) (content_read ns d)
    (λ msgs, dig (concat msgs) = d ∧ V (concat msgs));
}.
End integrity.
Arguments ContentIntegrity {W} C.

(** ** Where the bytes of a layer come from *)

(** The label of the engine, if it precompiles. *)
Definition precompile_id (En : Engine) : option string :=
  precompile_label engine_name <$> can_precompile.

(** The label determines the name and the version, unless they have slashes. *)
Lemma precompile_label_inj n v n' v' :
  has_char "/" n = false → has_char "/" n' = false →
  precompile_label n v = precompile_label n' v' → n = n' ∧ v = v'.
Proof.
  unfold precompile_label. intros Hn Hn' H%(inj (String.append PRECOMPILE_PREFIX)).
  change (String "/" (n +:+ String "/" v) = String "/" (n' +:+ String "/" v')) in H.
  injection H as H.
  assert (split_once "/" (n +:+ String "/" v) = Some (n, v)) as H1 by by apply split_once_Some.
  assert (split_once "/" (n' +:+ String "/" v') = Some (n', v')) as H2 by by apply split_once_Some.
  rewrite H in H1. rewrite H1 in H2. by injection H2 as <- <-.
Qed.

Section origin.
Context {W : Type} {C : Containerd W}.

(** The engines whose shims share the store, and the bytes that it holds. *)
Context (Es : Engine → Prop) (V : list byte → Prop).

(** [derived name ver d m]: the bytes [m] are the content [d], or were compiled from it
    by engines of [Es] whose name is [name] and whose version is [ver].  Bytes are
    stored and found again by their digests; a layer is compiled, from what the store
    holds, together with the others of its image. *)
Inductive derived (name ver d : string) : list byte → Prop :=
| derived_original m : dig m = d → V m → derived name ver d m
| derived_stored b m : derived name ver d b → dig m = dig b → V m → derived name ver d m
| derived_compiled (En : Engine) layers cs i l m :
    Es En → engine_name = name → can_precompile = Some ver →
    (∀ l, l ∈ layers → V (layer l)) →
    (∀ l, l ∈ layers → derived name ver (digest (config l)) (layer l)) →
    precompile layers = Ok cs → length cs = length layers →
    layers !! i = Some l → digest (config l) = d → cs !! i = Some (Some m) →
    derived name ver d m.

(** A layer as an engine of this name and version may get it. *)
Definition genuine (name : string) (ver : option string) (l : WasmLayer) : Prop :=
  match ver with
  | Some v => derived name v (digest (config l)) (layer l)
  | None => dig (layer l) = digest (config l)
  end.

(** What the labels of the engines say: of a manifest, that it was compiled; of a
    layer, where its compiled form is.  Other labels are free. *)
Definition policy (d k v : string) : Prop :=
  ∀ En ver, Es En → can_precompile = Some ver → precompile_label engine_name ver = k →
    v = "true" ∨ ∃ m, derived engine_name ver d m ∧ v = dig m.

(** The names and the versions of the engines have no slashes. *)
Definition plain : Prop :=
  ∀ En ver, Es En → can_precompile = Some ver →
    has_char "/" engine_name = false ∧ has_char "/" ver = false.

Lemma policy_gc d i v : policy d (gc_label i) v.
Proof. by intros En ver _ _ Hid. Qed.

Lemma policy_original En ver d v :
  plain → Es En → can_precompile = Some ver →
  policy d (precompile_label engine_name ver +:+ "/original") v.
Proof.
  intros Hplain HE Hver En' ver' HE' Hver' Hid. exfalso.
  destruct (Hplain En ver HE Hver) as [Hn _], (Hplain En' ver' HE' Hver') as [Hn' Hv'].
  assert (precompile_label (@engine_name En) ver +:+ "/original" =
    precompile_label (@engine_name En) (ver +:+ "/original")) as Ho.
  { unfold precompile_label. by rewrite <-!string_app_assoc. }
  rewrite Ho in Hid. apply precompile_label_inj in Hid as [_ ->]; [|done..].
  by rewrite has_char_app, orb_true_r in Hv'.
Qed.

Lemma policy_compiled En ver d m :
  plain → Es En → can_precompile = Some ver → derived engine_name ver d m →
  policy d (precompile_label engine_name ver) (dig m).
Proof.
  intros Hplain HE Hver Hm En' ver' HE' Hver' Hid.
  destruct (Hplain En ver HE Hver) as [Hn _], (Hplain En' ver' HE' Hver') as [Hn' _].
  apply precompile_label_inj in Hid as [Hname ->]; [|done..]. right. exists m.
  by rewrite Hname.
Qed.

Lemma policy_marked pid d : policy d pid "true".
Proof. by left. Qed.

(** ** The operations of the client keep the store intact *)

Context {I : ContentIntegrity C}.
Abbreviation ok p Q := (keeps (all_blobs V) (integral policy) p Q).

Lemma ok_any {E A : Type} (p : prog W E A) Q : ok p Q → ok p (λ _, True).
Proof. intros Hp. by eapply keeps_mono. Qed.

Lemma ok_expect_some {A : Type} (o : option A) msg (Q : A → Prop) :
  (∀ a, o = Some a → Q a) → ok (expect_some o msg) Q.
Proof. intros HQ. apply keeps_lift. destruct o as [x|]; simpl; intros y [= <-]; auto. Qed.

Lemma ok_read c d : ok (read_content c d) (λ b, dig b = d ∧ V b).
Proof. unfold read_content, rpc. eapply keeps_seq; [apply keeps_map_err, keeps_read|]. by intros. Qed.

(** A law that assumes nothing of the blobs. *)
Lemma ok_always {E X : Type} (p : prog W E X) Q : keeps always (integral policy) p Q → ok p Q.
Proof. by apply keeps_assuming. Qed.

Lemma ok_info c d :
  ok (get_info c d) (λ i, info_digest i = d ∧ map_Forall (policy d) (info_labels i)).
Proof.
  unfold get_info, rpc. eapply keeps_seq; [apply keeps_map_err, ok_always, keeps_info|].
  intros o Ho. by apply ok_expect_some.
Qed.

Lemma ok_update c i :
  map_Forall (policy (info_digest i)) (info_labels i) → ok (update_info c i) (λ _, True).
Proof.
  intros Hi. unfold update_info, rpc. eapply keeps_seq; [by apply keeps_map_err, ok_always, keeps_update|].
  intros o _. by apply ok_expect_some.
Qed.

Lemma ok_send_message s r d :
  (wr_action r = Commit → map_Forall (policy (wr_expected r)) (wr_labels r)) →
  ok (send_message s r d) (λ _, True).
Proof.
  intros Hr. unfold send_message. eapply keeps_seq; [by apply keeps_map_err, ok_always, keeps_send|]. intros _ _.
  eapply keeps_seq; [apply keeps_map_err, ok_always, keeps_message|]. intros m _. by apply ok_expect_some.
Qed.

Lemma ok_write_chunks fuel s expected data offset :
  ok (write_chunks fuel s expected data offset) (λ _, True).
Proof.
  revert offset. induction fuel as [|fuel IH]; intros offset; simpl; case_bool_decide; try done.
  destruct (slice _ _ _); [|done]. eapply keeps_seq; [by apply ok_send_message|]. intros _ _. apply IH.
Qed.

Lemma ok_write_content c data reference expected g labels :
  map_Forall (policy expected) labels →
  ok (write_content c data reference expected g labels) (λ d, d = expected).
Proof.
  intros Hl. eapply keeps_mono; [apply (keeps_yields _ _ _ (λ _, True)); [|apply write_content_digest]|by intros a [_ ?]].
  unfold write_content. eapply keeps_seq; [apply keeps_attempt, ok_always, keeps_write|]. intros [s|e] _.
  2: by destruct (already_exists e).
  eapply keeps_seq; [apply keeps_map_err, ok_always, keeps_message|]. intros m _.
  eapply keeps_seq; [by apply (ok_expect_some _ _ (λ _, True))|]. intros r _.
  eapply keeps_seq; [apply ok_write_chunks|]. intros _ _.
  eapply keeps_seq; [by apply ok_send_message|]. intros r' _. simpl.
  by repeat case_bool_decide.
Qed.

Lemma ok_lease_release {E : Type} g : ok (lease_release (E := E) g) (λ _, True).
Proof. eapply ok_any, keeps_attempt, ok_always, keeps_unlease. Qed.

Lemma ok_drop_lease {E : Type} g : ok (drop_lease (E := E) g) (λ _, True).
Proof. split; [|done]. eapply keeps_seq; [apply ok_lease_release|done]. Qed.

Lemma ok_save_content c data uid labels :
  map_Forall (policy (dig data)) labels →
  ok (save_content c data uid labels) (λ wc, wc_digest wc = dig data).
Proof.
  intros Hl. unfold save_content, lease, rpc. eapply keeps_seq with (λ _, True).
  { eapply keeps_seq; [apply keeps_gets|]. intros e _.
    eapply keeps_seq; [apply keeps_map_err, ok_always, keeps_lease|]. intros l _.
    eapply keeps_seq; [by apply (ok_expect_some _ _ (λ _, True))|done]. }
  intros g _. eapply keeps_seq with (λ d, d = dig data); [|by intros d ->].
  apply keeps_unless_ok; [by apply ok_write_content|apply ok_drop_lease].
Qed.

(** *** Loading *)

Section load.
Context {En : Engine} (HE : Es En).

(** What [load_modules] derives from the version of the engine. *)
Definition loads_as (can : bool) (pid : string) (ver : option string) : Prop :=
  match ver with
  | Some v => can = true ∧ can_precompile = Some v ∧ pid = precompile_label engine_name v
  | None => can = false
  end.

(** A layer as it is read: genuine, and from the store. *)
Definition read_as (ver : option string) (l : WasmLayer) : Prop :=
  genuine engine_name ver l ∧ V (layer l).

Lemma read_as_original ver d b : dig b = digest d → V b → read_as ver (mkLayer d b).
Proof. intros Hb HV. split; [|done]. destruct ver as [v|]; simpl; [by constructor|done]. Qed.

Lemma ok_read_wasm_layer c d can pid needs ver :
  loads_as can pid ver → ok (read_wasm_layer c d can pid needs) (λ r, read_as ver r.1).
Proof.
  intros Hcan. unfold read_wasm_layer.
  eapply keeps_seq with (λ dg, dg = digest d ∨
    ∃ v, ver = Some v ∧ (dg = "true" ∨ ∃ m, derived engine_name v (digest d) m ∧ dg = dig m)).
  { destruct ver as [v|]; simpl in Hcan; [destruct Hcan as (-> & Hv & ->)|subst can; by left].
    eapply keeps_seq; [apply ok_info|]. intros i [_ Hi].
    destruct (info_labels i !! _) as [x|] eqn:Hx; [|by left].
    apply keeps_map_err, keeps_lift. intros dg ->%parse_digest_same. right. exists v. split; [done|].
    by apply (Hi _ x Hx En v). }
  intros dg Hdg. eapply keeps_seq; [apply keeps_attempt, ok_read|]. intros [b|e] Hb; simpl.
  - destruct (Hb b eq_refl) as [Hd HV]. destruct Hdg as [->|(v & -> & [->|(m & Hm & ->)])].
    + by apply read_as_original.
    + by unfold dig, digest_string in Hd.
    + split; [by eapply derived_stored|done].
  - case_bool_decide; [done|]. eapply keeps_seq; [apply ok_read|]. intros m [Hm HV].
    by apply read_as_original.
Qed.

Lemma ok_read_layers c ds can pid needs ver :
  loads_as can pid ver → (needs = true → can = true) →
  ok (read_layers c ds can pid needs) (λ r, Forall (read_as ver) r.1 ∧ (r.2 = true → can = true)).
Proof.
  intros Hcan. revert needs. induction ds as [|d ds IH]; intros needs Hneeds; simpl; [by split|].
  eapply keeps_seq; [apply keeps_yields; [by apply ok_read_wasm_layer|apply read_wasm_layer_config]|].
  intros [l n] [Hl [_ Hn]]. simpl in *. eapply keeps_seq; [apply IH; destruct Hn; naive_solver|].
  intros [ls n'] [Hls Hn']. by split; [constructor|].
Qed.

Context {ver : string} (Hver : can_precompile = Some ver) (Hplain : plain).
Abbreviation pid := (precompile_label engine_name ver).

Lemma ok_store_compiled c img i d b :
  derived engine_name ver (digest d) b →
  ok (store_compiled c pid img i d b) (λ l, genuine engine_name (Some ver) l).
Proof.
  intros Hb. unfold store_compiled.
  eapply keeps_seq.
  { apply ok_save_content. intros k v Hk. apply lookup_singleton_Some in Hk as [<- <-].
    by apply policy_original. }
  intros wc Hwc. eapply keeps_seq with (λ _, True).
  { apply keeps_unless_ok; [|apply ok_drop_lease].
    eapply keeps_seq; [apply ok_info|]. intros i1 [Hd1 Hl1].
    eapply keeps_seq.
    { apply ok_update. simpl. rewrite Hd1, Hwc. apply map_Forall_insert_2; [apply policy_gc|].
      apply map_Forall_insert_2; [by apply policy_compiled|done]. }
    intros _ _. eapply keeps_seq; [apply ok_info|]. intros i2 [Hd2 Hl2].
    eapply keeps_seq; [|by intros].
    apply ok_update. simpl. rewrite Hd2. apply map_Forall_insert_2; [apply policy_marked|].
    by apply map_Forall_insert_2; [apply policy_gc|]. }
  intros _ _. eapply keeps_seq; [apply ok_lease_release|]. by intros.
Qed.

Lemma ok_store_layers c img layers i cs cs0 :
  Forall (read_as (Some ver)) layers →
  precompile layers = Ok cs0 → length cs0 = length layers → cs = drop i cs0 →
  ok (store_layers c pid img layers i cs) (λ ls, Forall (genuine engine_name (Some ver)) ls).
Proof.
  intros Hls Hcs0 Hlen. revert i. induction cs as [|o cs IH]; intros i Hcs; simpl; [constructor|].
  assert (cs0 !! i = Some o) as Ho by
    by (rewrite <-(Nat.add_0_r i), <-lookup_drop, <-Hcs; done).
  assert (cs = drop (i + 1) cs0) as Hcs' by (by rewrite <-drop_drop, <-Hcs).
  destruct (layers !! i) as [l|] eqn:Hl; [|done]. rewrite list.Forall_forall in Hls.
  eapply keeps_seq with (genuine engine_name (Some ver)).
  - destruct o as [b|]; [|by apply Hls, (list_elem_of_lookup_2 _ i)].
    apply ok_store_compiled. eapply derived_compiled; [done..| | |done|done|done|done|done];
      intros l' Hl'; by destruct (Hls l' Hl').
  - intros l' Hl'. eapply keeps_seq; [by apply IH|]. intros ls Hls'. by constructor.
Qed.
End load.

Lemma ok_load_from_manifest {En : Engine} c m img :
  Es En → plain → ok (load_from_manifest c m img) (λ r, Forall (genuine engine_name can_precompile) r.1).
Proof.
  intros HE Hplain. unfold load_from_manifest. eapply keeps_seq; [apply ok_read|]. intros cfg _.
  eapply keeps_seq; [by apply keeps_map_err, (keeps_lift _ _ _ (λ _, True))|]. intros plat _.
  case_bool_decide; simpl; [|by constructor].
  assert (∃ can pid, match can_precompile with
    | Some v => (true, precompile_label engine_name v)
    | None => (false, "") end = (can, pid) ∧ loads_as can pid can_precompile) as (can & pid & -> & Hid).
  { destruct can_precompile as [v|] eqn:Hv; simpl; eauto 10. }
  eapply keeps_seq; [apply ok_info|]. intros info _.
  eapply keeps_seq.
  { apply (ok_read_layers HE); [done|]. by intros [? _]%andb_true_iff. }
  intros [ls needs] [Hls Hneeds]. simpl in Hls, Hneeds.
  assert (Forall (genuine engine_name can_precompile) ls) as Hg.
  { eapply list.Forall_impl; [exact Hls|]. by intros l [??]. }
  destruct ls as [|l ls]; [by constructor|]. destruct needs; [|done]. rewrite (Hneeds eq_refl) in *.
  destruct (precompile (l :: ls)) as [cs|e] eqn:Hp; [|done].
  case_bool_decide as Hlen; simpl; [|done].
  destruct can_precompile as [v|] eqn:Hv; [|done]. destruct Hid as (_ & _ & ->).
  eapply keeps_seq; [by eapply (ok_store_layers HE Hv Hplain _ _ _ 0 cs cs)|]. intros r Hr. exact Hr.
Qed.

Lemma ok_load_modules {En : Engine} c id :
  Es En → plain → ok (load_modules c id) (λ r, Forall (genuine engine_name can_precompile) r.1).
Proof.
  intros HE Hplain. unfold load_modules, get_container, get_image_manifest_and_digest, get_image, rpc.
  eapply keeps_seq with (λ _, True).
  { eapply keeps_seq; [apply keeps_map_err, ok_always, keeps_container|]. intros o _. by apply ok_expect_some. }
  intros cont _. eapply keeps_seq with (λ _, True); [|by intros [m img] _; apply ok_load_from_manifest].
  eapply keeps_seq with (λ _, True).
  { eapply keeps_seq; [apply keeps_map_err, ok_always, keeps_image|]. intros o _. by apply ok_expect_some. }
  intros im _. eapply keeps_seq; [by apply (keeps_lift _ _ _ (λ _, True))|]. intros sha _.
  eapply keeps_seq; [by apply keeps_map_err, (keeps_lift _ _ _ (λ _, True))|]. intros d _.
  eapply keeps_seq; [apply ok_read|]. intros b _.
  eapply keeps_seq; [by apply keeps_map_err, (keeps_lift _ _ _ (λ _, True))|]. by intros.
Qed.

(** ** Any number of loads, of any of the engines *)

(** What runs on the store: the loads of the engines [Es], and other clients, who
    keep content under its digest and the labels of the engines as they are. *)
Definition store_client (p : prog W Error (list WasmLayer * Platform)) : Prop :=
  (∃ En c id, Es En ∧ p = load_modules (En := En) c id) ∨ ok p (λ _, True).

(** A step of theirs while the store holds no other bytes than [V]. *)
Definition store_step := cstep_in (all_blobs V) store_client.

Lemma store_client_keeps p : plain → store_client p → ok p (λ _, True).
Proof. intros Hplain [(En & c & id & HE & ->)|Hp]; [|done]. by eapply keeps_mono; [apply ok_load_modules|]. Qed.

(** A load that starts among the clients of the store, and what it returns. *)
Lemma load_among_clients {En : Engine} c id w0 w1 ts w2 ts' :
  plain → Es En → integral policy w0 →
  rtc store_step (w0, []) (w1, ts) →
  rtc store_step (w1, ts ++ [Serving (load_modules c id)])%list (w2, ts') →
  ∀ layers platform, ts' !! length ts = Some (Serving (Ret (layers, platform))) →
    Forall (genuine engine_name can_precompile) layers.
Proof.
  intros Hplain HE Hw0 H01 H12.
  destruct (cstep_keeps (all_blobs V) (integral policy) store_client (λ _ _, True) (w0, []) (w1, ts))
    as [Hw1 Hts]; [by intros; apply store_client_keeps|done|by split|].
  set (post i (r : list WasmLayer * Platform) :=
    i = length ts → Forall (genuine engine_name can_precompile) r.1).
  enough (pool_keeps (all_blobs V) (integral policy) post (w2, ts')) as [_ Hts'].
  { intros layers plat Hl. by apply (Hts' _ _ Hl). }
  eapply cstep_keeps; [|exact H12|].
  - intros p i Hp Hi. simpl in Hi. rewrite length_app in Hi. simpl in Hi.
    eapply keeps_mono; [by apply store_client_keeps|]. intros r _ ->. lia.
  - split; [done|]. intros i x Hi. simpl in *. apply lookup_app_Some in Hi as [Hi|[Hge Hi]].
    + specialize (Hts i x Hi). apply lookup_lt_Some in Hi.
      destruct x as [p|t]; simpl in *; [|done]. eapply keeps_mono; [done|]. intros r _ ->. lia.
    + apply list_lookup_singleton_Some in Hi as [_ <-]. simpl.
      eapply keeps_mono; [by apply ok_load_modules|]. by intros r Hr _.
Qed.

(** C14: any number of loads, of any engines whose names and versions have no slashes,
    share the content store with each other and with other clients that keep content
    under its digest; whatever the interleaving, and wherever loads fail or stop half
    way, every layer that a load returns is the content the manifest names, or was
    compiled from it by an engine of the same name and the same version: the cache
    never gives an engine the code of another layer, of another engine or of another
    version.  An engine that does not precompile gets the content that is named. *)
Theorem concurrent_loads_are_genuine {En : Engine} c id w0 w1 ts w2 ts' layers platform :
  plain → Es En → integral policy w0 →
  rtc store_step (w0, []) (w1, ts) →
  rtc store_step (w1, ts ++ [Serving (load_modules c id)])%list (w2, ts') →
  ts' !! length ts = Some (Serving (Ret (layers, platform))) →
  Forall (genuine engine_name can_precompile) layers.
Proof. intros Hplain HE Hw0 H1 H2. by apply (load_among_clients c id w0 w1 ts w2 ts'). Qed.
End origin.

(** ** What wasmtime runs *)

Section wasmtime.
Context {W : Type} {C : Containerd W} {I : ContentIntegrity C}.
Context {A : WasmtimeApi} {L : WasmtimeLaws A}.
Context (wat_parse_file : path → result string unit) (sigs0 : option (list SignalWait)).

(** The engines of the node.  One that has the name and the compatibility hash of this
    wasmtime compiles as it does; the others compile as they like. *)
Context (Es : Engine → Prop) (V : list byte → Prop).
Definition knows_wasmtime : Prop :=
  ∀ En, Es En → engine_name = "wasmtime" → can_precompile = Some compatibility_hash →
    @precompile En = wasmtime_precompile.

(** What wasmtime makes of the bytes [V]. *)
Definition artefact (a : list byte) : Prop :=
  ∃ layers cs i, (∀ l, l ∈ layers → V (layer l)) ∧
    wasmtime_precompile layers = Ok cs ∧ cs !! i = Some (Some a).

(** No bytes of the store have the digest of what wasmtime makes of them, and are
    others. *)
Definition collision_free : Prop := ∀ b a, V b → artefact a → dig b = dig a → b = a.

(** [m] runs as [m0], in every context and under all signals. *)
Definition runs_as (m m0 : list byte) : Prop :=
  ∀ sigs c func, execute sigs c m func = execute sigs c m0 func.

Lemma derived_runs_as d m :
  knows_wasmtime → collision_free → derived Es V "wasmtime" compatibility_hash d m →
  dig m = d ∨ artefact m ∧ ∃ m0, dig m0 = d ∧ runs_as m m0.
Proof.
  intros Hw Hfree.
  induction 1 as [d m Hm _|d b m _ IH Hm HV|d En layers cs i l m HE Hn Hv HVs _ IH Hcs Hlen Hl Hd Hm];
    [by left|..].
  - destruct IH as [Hb|[Hb Hrun]]; [left; by rewrite Hm|right].
    by rewrite (Hfree m b HV Hb Hm).
  - right. rewrite (Hw En HE Hn Hv) in Hcs. split; [by exists layers, cs, i|].
    pose proof (precompile_lookup _ _ _ _ _ Hcs Hlen Hl Hm) as Hc.
    assert (∃ m0, dig m0 = d ∧ runs_as (layer l) m0) as (m0 & Hm0 & Hrun).
    { destruct (IH l (list_elem_of_lookup_2 _ _ _ Hl)) as [Hlay|(_ & m0 & Hm0 & Hrun)].
      - exists (layer l). split; [by rewrite Hlay|done].
      - exists m0. split; [by rewrite Hm0|done]. }
    exists m0. split; [done|]. intros sigs c func.
    by rewrite (precompiled_runs_the_same l m sigs c func Hc).
Qed.

(** C20: wasmtime runs what the manifest names: among any number of loads of any
    engines, and of other clients of the store, every layer that is given to wasmtime,
    original, compiled just now or taken from the cache, runs exactly as the content
    with the digest that the manifest gives for it, to the same exit code or error.
    It is assumed that an engine with the name and the compatibility hash of wasmtime
    compiles as wasmtime, and that none of the bytes [V] that the store holds during
    the execution have the digest of something else that wasmtime makes of them. *)
Theorem wasmtime_runs_the_manifest c id w0 w1 ts w2 ts' layers platform l :
  let En := wasmtime_engine wat_parse_file sigs0 in
  plain Es → Es En → knows_wasmtime → collision_free → integral (policy Es V) w0 →
  rtc (store_step Es V) (w0, []) (w1, ts) →
  rtc (store_step Es V) (w1, ts ++ [Serving (load_modules (En := En) c id)])%list (w2, ts') →
  ts' !! length ts = Some (Serving (Ret (layers, platform))) → l ∈ layers →
  ∃ m0, dig m0 = digest (config l) ∧ runs_as (layer l) m0.
Proof.
  intros En Hplain HE Hw Hfree Hw0 H1 H2 Hr Hl.
  pose proof (load_among_clients Es V c id w0 w1 ts w2 ts' Hplain HE Hw0 H1 H2 _ _ Hr) as Hg.
  pose proof (proj1 (list.Forall_forall _ _) Hg l Hl) as Hd.
  destruct (derived_runs_as _ _ Hw Hfree Hd) as [Hd'|[_ ?]]; [by exists (layer l)|done].
Qed.
End wasmtime.
