(* ===== verification/ClientStub.v ===== *)
(** A content store and a compiler in which [load_modules] runs: the witnesses of
    the files Client and Wasmtime, the cache of precompiled layers, and what the
    two components do together.

    The store keeps blobs and labels by digest, leases, the writes in progress with
    the reply that waits on each stream, images by name and containers by id.  A
    digest spells the bytes out, a manifest the list of its layers; the compiler
    puts a marker in front of a module. *)
From S2P Require Import Prelude Errors Sync Instance Paths Oci Context Engine Client Wasmtime.
Local Open Scope string_scope.

Record OpenWrite := mkOpenWrite {
  ow_expected : string;
  ow_data : list byte;
  ow_reply : option WriteContentResponse;
}.

Record Store := mkStore {
  blobs : gmap string (list byte);
  blob_labels : gmap string (gmap string string);
  leases : gset string;
  writes : list OpenWrite;
  images : gmap string string;       (* the digest of the manifest *)
  containers : gmap string string;   (* the image *)
}.

Definition set_writes (l : list OpenWrite) (s : Store) : Store :=
  mkStore (blobs s) (blob_labels s) (leases s) l (images s) (containers s).
Definition set_leases (l : gset string) (s : Store) : Store :=
  mkStore (blobs s) (blob_labels s) l (writes s) (images s) (containers s).
Definition set_content (b : gmap string (list byte)) (l : gmap string (gmap string string)) (s : Store) : Store :=
  mkStore b l (leases s) (writes s) (images s) (containers s).

(** A hash without collisions: the binary digits of each byte, and a mark. *)
Fixpoint digits (p : positive) (rest : string) : string :=
  match p with
  | xH => String "," rest
  | xO p => String "0" (digits p rest)
  | xI p => String "1" (digits p rest)
  end.

Lemma digits_inj p q s t : digits p s = digits q t → p = q ∧ s = t.
Proof. revert q. induction p; intros []; simpl; naive_solver. Qed.

Definition text (b : list byte) : string := fold_right (λ z s, digits (encode z) s) "" b.

#[export] Instance text_inj : Inj (=) (=) text.
Proof.
  intros b. induction b as [|z b IH]; intros [|z' b']; simpl; try (by destruct (encode _)); [done|].
  intros [Hz%(inj encode) Hb]%digits_inj. by rewrite Hz, (IH _ Hb).
Qed.

Definition digest_of (b : list byte) : string := "sha256:" +:+ text b.

(** The content of a written stream becomes a blob. *)
Definition commit (w : OpenWrite) (r : WriteContentRequest) (s : Store) : Store :=
  set_content (<[ow_expected w := ow_data w]> (blobs s))
    (<[ow_expected w := wr_labels r]> (blob_labels s)) s.

Definition layer_media : string := "application/wasm".

(** The bytes of a manifest: for each layer its type, its length and its bytes. *)
Definition layer_type (k : Z) : string :=
  match k with
  | 0 => layer_media
  | 1 => "textfile"
  | 2 => "application/toml"
  | _ => "application/vnd.bytecodealliance.wasm.component.layer.v0+wasm"
  end%Z.

Fixpoint decode_layers (fuel : nat) (b : list byte) : list Descriptor :=
  match fuel, b with
  | Datatypes.S fuel, k :: n :: b =>
      mkDescriptor (layer_type k) (digest_of (take (Z.to_nat n) b)) n ::
      decode_layers fuel (drop (Z.to_nat n) b)
  | _, _ => []
  end.
(** The configuration of all images. *)
Definition config_digest : string := digest_of [3]%Z.

Definition decode_manifest (b : list byte) : ImageManifest :=
  mkManifest (mkDescriptor "config" config_digest 1) (decode_layers (length b) b).

Definition manifest_bytes0 : list byte := [0; 2; 1; 2; 2; 1; 19]%Z.
Definition manifest_bytes1 : list byte := [0; 2; 1; 2; 0; 1; 9]%Z.
Definition manifest0 : ImageManifest := decode_manifest manifest_bytes0.

#[export] Instance store_containerd : Containerd Store := {|
  Stream := nat;
  containerd_connect _ := Ret tt;
  content_read _ d := bind (gets (λ s, blobs s !! d)) (λ o,
    match o with Some b => Ret [b] | None => Throw ("content " +:+ d +:+ ": not found") end);
  content_delete _ d := modify (λ s, set_content (base.delete d (blobs s)) (base.delete d (blob_labels s)) s);
  content_info _ d := gets (λ s, option_map (mkInfo d) (blob_labels s !! d));
  content_update _ i _ := atomically (λ s,
    (Some i, set_content (blobs s) (<[info_digest i := info_labels i]> (blob_labels s)) s));
  content_write _ _ r := bind (gets (λ s, blobs s !! wr_expected r)) (λ o,
    match o with
    | Some _ => Throw (mkRpcStatus true "already exists")
    | None => atomically (λ s, (length (writes s),
        set_writes (writes s ++ [mkOpenWrite (wr_expected r) [] (Some (mkWriteResp 0 ""))]) s))
    end);
  stream_send i r := modify (λ s,
    match writes s !! i with
    | None => s
    | Some w =>
        match wr_action r with
        | Commit =>
            commit w r (set_writes (<[i := mkOpenWrite (ow_expected w) (ow_data w)
              (Some (mkWriteResp (Z.of_nat (length (ow_data w))) (digest_of (ow_data w))))]> (writes s)) s)
        | _ =>
            set_writes (<[i := mkOpenWrite (ow_expected w) (ow_data w ++ wr_data r)
              (Some (mkWriteResp (Z.of_nat (length (ow_data w ++ wr_data r))) ""))]> (writes s)) s
        end
    end);
  stream_message i := gets (λ s, match writes s !! i with Some w => ow_reply w | None => None end);
  leases_create _ i _ := bind (gets (λ s, bool_decide (i ∈ leases s))) (λ taken : bool,
    if taken then Throw ("lease " +:+ i +:+ ": already exists")
    else atomically (λ s, (Some i, set_leases ({[i]} ∪ leases s) s)));
  leases_delete _ i _ := modify (λ s, set_leases (leases s ∖ {[i]}) s);
  images_get _ n := gets (λ s, option_map (λ d, mkImage n (Some d)) (images s !! n));
  containers_get _ i := gets (λ s, option_map mkContainerInfo (containers s !! i));
  manifest_from_reader b := Ok (decode_manifest b);
  platform_from_slice _ := Ok (mkPlatform "wasi" "wasm");
  parse_digest s := if starts_with "sha256:" s then Ok s else Err "invalid digest";
  sha256 := text;
  expiry_24h _ := "tomorrow";
|}.

(** Two images: "one" with a module and a configuration layer, "two" with a module
    and a layer of the same type that is not a wasm binary. *)
Definition store0 : Store :=
  mkStore {["sha256:M" := manifest_bytes0; "sha256:N" := manifest_bytes1; config_digest := [3];
            digest_of [1; 2] := [1; 2]; digest_of [9] := [9]]}%Z
    {["sha256:M" := ∅; "sha256:N" := ∅; digest_of [1; 2]%Z := ∅; digest_of [9]%Z := ∅]} ∅ []
    {["one" := "sha256:M"; "two" := "sha256:N"]} {["one" := "one"; "two" := "two"]}.

(** A compiler: a module is a list that starts with 1, a compiled one starts
    with 99; running one exits with the rest of it. *)
#[export] Instance toy_wasmtime : WasmtimeApi := {|
  wasm_parser := {| is_component _ := false; is_core_wasm b := bool_decide (head b = Some 1%Z) |};
  WModule := list byte; WComponent := unit; WasiCtx := unit;
  detect_precompiled b := if bool_decide (head b = Some 99%Z) then Some PrecompiledModule else None;
  precompile_module b := Ok (99 :: b)%Z;
  precompile_component _ := Err "no components";
  compatibility_hash := "v1";
  module_from_binary b := Ok b;
  module_deserialize b := Ok (tail b);
  component_from_binary _ := Ok tt; component_deserialize _ := Ok tt;
  build_wasi _ _ := Ok tt;
  MInstance := list byte;
  instantiate_module _ m := Ok m;
  get_func m f := if bool_decide (f = "_start") then
                    Some (λ _, match m with _ :: c :: _ => Err (I32Exit c) | _ => Ok tt end)
                  else None;
  component_exports _ := []; serve_proxy _ _ := Ok tt; run_command _ _ := Ok (Ok tt);
  CInstance := unit; instantiate_component _ _ := Ok tt; get_component_func _ _ := None;
|}.

#[export] Instance toy_wasmtime_laws : WasmtimeLaws toy_wasmtime.
Proof. split; simpl; [|done]. intros b b' [= <-]. done. Qed.

#[export] Instance toy_wasmtime_engine : Engine := wasmtime_engine (λ _, Err "not wat") None.

Definition client0 : Client := mkClient "ns".

(** The store after a first load of the image "one". *)
Definition store1 : Store := (run (load_modules client0 "one") store0).1.2.

(** Precompiled layers are cached: loading an image a second time gives the
    compiled layers of the first time without compiling or writing anything, and
    no lease is left; if the compiled blob has been collected meanwhile, it is
    compiled again from the original layer. *)
Theorem precompiled_layers_are_cached :
  let compiled := [mkLayer (mkDescriptor layer_media (digest_of [1; 2]%Z) 2) [99; 1; 2]%Z] in
  let plat := mkPlatform "wasi" "wasm" in
  (run (load_modules client0 "one") store0).1.1 = Done (compiled, plat) ∧
  (run (load_modules client0 "one") store1) = (Done (compiled, plat), store1, []) ∧
  leases store1 = ∅ ∧
  let collected := set_content (base.delete (digest_of [99; 1; 2]%Z) (blobs store1)) (blob_labels store1) store1 in
  (run (load_modules client0 "one") collected).1.1 = Done (compiled, plat) ∧
  blobs (run (load_modules client0 "one") collected).1.2 = blobs store1.
Proof.
  cbv zeta. split; [vm_compute; reflexivity|]. split; [vm_compute; reflexivity|].
  split; [vm_compute; reflexivity|]. split; vm_compute; reflexivity.
Qed.

(** An image with a layer that wasmtime does not recognise cannot be loaded
    at all: [precompile] drops the layer from its answer instead of giving
    [None] for it, and [load_modules] rejects the answer. *)
Theorem unrecognised_layer_fails_load :
  wasmtime_precompile [mkLayer (mkDescriptor layer_media "a" 2) [1; 2]%Z;
                       mkLayer (mkDescriptor layer_media "b" 1) [9]%Z] = Ok [Some [99; 1; 2]%Z] ∧
  (run (load_modules client0 "two") store0).1.1 =
    Failed (FailedPrecondition "precompile returned wrong number of layers").
Proof. split; vm_compute; reflexivity. Qed.

(** ** Witnesses *)

Lemma load_modules_layers_witness :
  ∃ container w1 ts1 manifest image_digest w2 ts2,
    run (get_container client0 "one") store0 = (Done container, w1, ts1) ∧
    run (get_image_manifest_and_digest client0 (container_image container)) w1 =
      (Done (manifest, image_digest), w2, ts2) ∧
    if decide ("wasm" = "wasm")
    then config <$> [mkLayer (mkDescriptor layer_media (digest_of [1; 2]%Z) 2) [99; 1; 2]%Z] =
         supported_configs manifest
    else [mkLayer (mkDescriptor layer_media (digest_of [1; 2]%Z) 2) [99; 1; 2]%Z] = [].
Proof.
  apply (load_modules_layers client0 "one" store0 _ (mkPlatform "wasi" "wasm") store1 []).
  vm_compute. reflexivity.
Defined.

(** The first load of "one" leaves the store in the state that the cache needs. *)
Lemma cached_layers_are_loaded_witness :
  run (load_modules client0 "one") store1 =
  (Done (zip_with mkLayer (supported_configs manifest0) [[99; 1; 2]%Z], mkPlatform "wasi" "wasm"),
   store1, []).
Proof.
  apply (cached_layers_are_loaded client0 "one" store1 "v1" (mkContainerInfo "one") manifest0
    "sha256:M" [3]%Z (mkPlatform "wasi" "wasm")
    (mkInfo "sha256:M" (default ∅ (blob_labels store1 !! "sha256:M"))) [[99; 1; 2]%Z]);
    [vm_compute; reflexivity..| |].
  - eexists. vm_compute. reflexivity.
  - constructor; [|constructor].
    exists (mkInfo (digest_of [1; 2]%Z) (default ∅ (blob_labels store1 !! digest_of [1; 2]%Z))),
      (digest_of [99; 1; 2]%Z), (digest_of [99; 1; 2]%Z).
    split; [vm_compute; reflexivity|]. split; [vm_compute; reflexivity|].
    split; vm_compute; reflexivity.
Defined.

Definition stream0 : @Stream Store store_containerd := 0%nat.

Lemma write_chunks_complete_witness :
  ∃ cs, covers [5; 6; 7]%Z 1 cs ∧ concat (snd <$> cs) = [6; 7]%Z ∧
    ∀ w, run (write_chunks 4 stream0 "d" [5; 6; 7]%Z 1) w =
         run (bind (for_each (λ c, send_message stream0 (chunk_request c.1 c.2) "d") cs) (λ _, Ret tt)) w.
Proof. apply (write_chunks_complete stream0 "d" [5; 6; 7]%Z 1); simpl; lia. Defined.

Definition store_leased : Store := (run (lease client0 "precompile-id") store0).1.2.

Lemma lease_taken :
  run (lease client0 ("precompile-" +:+ "id")) store0 =
  (Done (mkLease "precompile-id" "ns"), store_leased, []).
Proof. vm_compute. reflexivity. Qed.

Lemma save_content_lease_witness :
  let '(o, w2, ts) := run (save_content client0 [4; 5]%Z "id" ∅) store0 in
  match o with
  | Done wc =>
      wc = mkWriteContent (mkLease "precompile-id" "ns") ("sha256:" +:+ sha256 [4; 5]%Z) ∧
      confirmed client0 [4; 5]%Z "precompile-id" ("sha256:" +:+ sha256 [4; 5]%Z)
        (mkLease "precompile-id" "ns") ∅ store_leased w2
  | Failed _ | Panicked _ =>
      list.last ts = Some (bind (lease_release (mkLease "precompile-id" "ns")) (λ _, Ret tt))
  | Blocked => True
  end.
Proof.
  exact (save_content_lease client0 [4; 5]%Z "id" ∅ store0 (mkLease "precompile-id" "ns")
    store_leased [] eq_refl lease_taken).
Defined.

(** The store after the compiled blob of "one" has been collected. *)
Definition store_collected : Store :=
  set_content (base.delete (digest_of [99; 1; 2]%Z) (blobs store1)) (blob_labels store1) store1.

Lemma read_wasm_layer_fallback_witness :
  let d := mkDescriptor layer_media (digest_of [1; 2]%Z) 2 in
  run (read_wasm_layer client0 d true (precompile_label "wasmtime" "v1") false) store_collected =
  (Done (mkLayer d [1; 2]%Z, true), store_collected, []).
Proof.
  apply (read_wasm_layer_fallback client0 (mkDescriptor layer_media (digest_of [1; 2]%Z) 2)
    (precompile_label "wasmtime" "v1") false
    (mkInfo (digest_of [1; 2]%Z) (default ∅ (blob_labels store1 !! digest_of [1; 2]%Z)))
    (digest_of [99; 1; 2]%Z) (digest_of [99; 1; 2]%Z) [1; 2]%Z
    (Errors.Containerd ("content " +:+ digest_of [99; 1; 2]%Z +:+ ": not found"))
    store_collected store_collected store_collected store_collected);
    try (vm_compute; reflexivity). vm_compute. discriminate.
Defined.

Lemma precompile_answers_recognised_witness :
  let l := mkLayer (mkDescriptor layer_media "a" 2) [1; 2]%Z in
  length [Some [99; 1; 2]%Z] = length [l] ↔ Forall (λ l, recognised l = true) [l].
Proof.
  apply (precompile_answers_recognised [mkLayer (mkDescriptor layer_media "a" 2) [1; 2]%Z]).
  reflexivity.
Defined.

Lemma precompiled_runs_the_same_witness :
  execute None (context0 "x") [99; 1; 2]%Z "_start" = execute None (context0 "x") [1; 2]%Z "_start".
Proof.
  apply (precompiled_runs_the_same (mkLayer (mkDescriptor layer_media "a" 2) [1; 2]%Z)).
  reflexivity.
Defined.
