(* ===== verification/ContentStub.v ===== *)
(** A store that keeps the laws of the file ContentStore, and the witnesses of its
    theorems, for an image with two modules, one of them shared with an image that was
    compiled before, and a configuration layer. *)
From S2P Require Import Prelude Errors Sync Instance Paths Oci Threads Context Engine Client Wasmtime ContentStore ClientStub.
Local Open Scope string_scope.

Record Daemon := mkDaemon { d_views : gmap string NsView; d_streams : list StreamState }.

Definition no_view : NsView := mkView ∅ ∅ ∅ ∅ ∅.

Definition daemon_view (w : Daemon) (ns : string) : NsView := default no_view (d_views w !! ns).

Definition set_view (ns : string) (v : NsView) (w : Daemon) : Daemon :=
  mkDaemon (<[ns := v]> (d_views w)) (d_streams w).
Definition set_stream (s : nat) (st : StreamState) (w : Daemon) : Daemon :=
  mkDaemon (d_views w) (<[s := st]> (d_streams w)).

Lemma daemon_view_set ns v w : daemon_view (set_view ns v w) ns = v.
Proof. unfold daemon_view. simpl. by rewrite lookup_insert_eq. Qed.

(** What a request on an open write does: the new state with the answer, or why it
    is refused. *)
Definition on_stream (s : nat) (r : WriteContentRequest) (w : Daemon) : result string Daemon :=
  match d_streams w !! s with
  | None => Err "no such stream"
  | Some st =>
      let v := daemon_view w (ss_ns st) in
      match v_ingests v !! ss_ref st with
      | None => Err "no such ingest"
      | Some b =>
          if negb (bool_decide (wr_offset r = Z.of_nat (length b))) then Err "out of range" else
          match wr_action r with
          | Commit =>
              if bool_decide (digest_string (text b) = ss_expected st ∧ wr_expected r = ss_expected st) then
                Ok (set_stream s (replied (Some (mkWriteResp (Z.of_nat (length b)) (ss_expected st))) st)
                      (set_view (ss_ns st)
                         (with_content (<[ss_expected st := mkContent b (wr_labels r)]> (v_content v))
                            (with_ingests (base.delete (ss_ref st) (v_ingests v)) v)) w))
              else Err "unexpected digest"
          | _ =>
              Ok (set_stream s (replied (Some (mkWriteResp (Z.of_nat (length (b ++ wr_data r)%list)) "")) st)
                    (set_view (ss_ns st)
                       (with_ingests (<[ss_ref st := (b ++ wr_data r)%list]> (v_ingests v)) v) w))
          end
      end
  end.

(** Opening a write: content that is there is refused, an ingest is resumed. *)
Definition open_write (ns : string) (r : WriteContentRequest) (w : Daemon) :
    result RpcStatus_ (nat * Daemon) :=
  let v := daemon_view w ns in
  match v_content v !! wr_expected r with
  | Some _ => Err (mkRpcStatus true "already exists")
  | None =>
      let b := default [] (v_ingests v !! wr_ref r) in
      let w1 := set_view ns (with_ingests (<[wr_ref r := b]> (v_ingests v)) v) w in
      Ok (length (d_streams w),
          mkDaemon (d_views w1)
            (d_streams w ++ [mkStreamState ns (wr_ref r) (wr_expected r)
                               (Some (mkWriteResp (Z.of_nat (length b)) ""))])%list)
  end.

(** A step that may be refused. *)
Definition trying {W E A : Type} (f : W → result E (A * W)) : prog W E A :=
  bind (atomically (λ w, match f w with Ok (a, w') => (Ok a, w') | Err e => (Err e, w) end)) lift_result.

#[export] Instance daemon_containerd : Containerd Daemon := {|
  Stream := nat;
  containerd_connect _ := Ret tt;
  content_read ns d := bind (gets (λ w, v_content (daemon_view w ns) !! d)) (λ o,
    match o with Some x => Ret [c_data x] | None => Throw "not found" end);
  content_delete ns d := modify (λ w,
    let v := daemon_view w ns in set_view ns (with_content (base.delete d (v_content v)) v) w);
  content_info ns d := bind (gets (λ w, v_content (daemon_view w ns) !! d)) (λ o,
    match o with Some x => Ret (Some (mkInfo d (c_labels x))) | None => Throw "not found" end);
  content_update ns i _ := trying (λ w,
    let v := daemon_view w ns in
    match v_content v !! info_digest i with
    | None => Err "not found"
    | Some x => Ok (Some i, set_view ns
        (with_content (<[info_digest i := relabel (info_labels i) x]> (v_content v)) v) w)
    end);
  content_write ns _ r := trying (open_write ns r);
  stream_send s r := trying (λ w, match on_stream s r w with Ok w' => Ok (tt, w') | Err e => Err e end);
  stream_message s := atomically (λ w,
    match d_streams w !! s with
    | None => (None, w)
    | Some st => (ss_reply st, set_stream s (replied None st) w)
    end);
  leases_create ns i _ := trying (λ w,
    let v := daemon_view w ns in
    if bool_decide (i ∈ v_leases v) then Err "already exists"
    else Ok (Some i, set_view ns (with_leases ({[i]} ∪ v_leases v) v) w));
  leases_delete ns i _ := modify (λ w,
    let v := daemon_view w ns in set_view ns (with_leases (v_leases v ∖ {[i]}) v) w);
  images_get ns n := gets (λ w, v_images (daemon_view w ns) !! n);
  containers_get ns i := gets (λ w, v_containers (daemon_view w ns) !! i);
  manifest_from_reader b := Ok (decode_manifest b);
  platform_from_slice _ := Ok (mkPlatform "wasi" "wasm");
  parse_digest s := if starts_with "sha256:" s then Ok s else Err "invalid digest";
  sha256 := text;
  expiry_24h _ := "tomorrow";
|}.

#[export] Instance daemon_laws : ContentLaws daemon_containerd.
Proof.
  refine (Build_ContentLaws _ _ daemon_view (λ w s, d_streams w !! s) _ _ _ _ _ _ _ _ _ _ _ _ _);
    simpl.
  - intros w ns d x Hx. exists [c_data x]. rewrite Hx. simpl. by rewrite app_nil_r.
  - intros w ns d x Hx. by rewrite Hx.
  - intros w ns i x Hx. rewrite Hx. simpl. eexists. split; [done|]. apply daemon_view_set.
  - intros w ns l r x Hx. unfold open_write. rewrite Hx. simpl. eauto.
  - intros w ns l r _ Hx Hin. unfold open_write. rewrite Hx, Hin. simpl.
    eexists _, _, _. split; [done|]. simpl. split; [by rewrite list_lookup_middle|].
    unfold daemon_view. simpl. by rewrite lookup_insert_eq.
  - intros w s st r Hst Hr. rewrite Hst. simpl. eexists. split; [by rewrite Hr|]. simpl.
    split; [|done]. rewrite list_lookup_insert_eq; [done|]. by eapply lookup_lt_Some.
  - intros w s st r b Hst Ha Hb Ho. unfold on_stream. rewrite Hst, Hb, Ha, bool_decide_eq_true_2 by done.
    simpl. eexists _, _. split; [done|]. simpl.
    split; [rewrite list_lookup_insert_eq; [done|by eapply lookup_lt_Some]|apply daemon_view_set].
  - intros w s st r b Hst Ha _ Hb _ Ho He Hd. unfold on_stream.
    rewrite Hst, Hb, Ha, !bool_decide_eq_true_2 by done. simpl. eexists. split; [done|]. simpl.
    split; [rewrite list_lookup_insert_eq; [done|by eapply lookup_lt_Some]|apply daemon_view_set].
  - intros w ns i l Hi. rewrite bool_decide_eq_false_2 by done. simpl.
    eexists. split; [done|]. apply daemon_view_set.
  - intros w ns i b Hi. eexists. split; [done|]. apply daemon_view_set.
  - intros w ns n i Hi. by rewrite Hi.
  - intros w ns n i Hi. by rewrite Hi.
  - intros b. unfold digest_string. by destruct (text b).
Defined.

(** ** Witnesses *)

(** The modules [1; 2] and [1; 3] and a text, in the image "both"; the label of the
    second module leads to what an earlier load compiled. *)
Definition both_manifest : list byte := [0; 2; 1; 2; 0; 2; 1; 3; 1; 1; 5]%Z.
Definition both_digest : string := digest_of both_manifest.
Definition pid1 : string := precompile_label "wasmtime" "v1".

Definition view0 : NsView :=
  mkView {[both_digest := mkContent both_manifest ∅; config_digest := mkContent [3]%Z ∅;
           digest_of [1; 2]%Z := mkContent [1; 2]%Z ∅;
           digest_of [1; 3]%Z := mkContent [1; 3]%Z {[pid1 := digest_of [99; 1; 3]%Z]};
           digest_of [99; 1; 3]%Z := mkContent [99; 1; 3]%Z ∅]}
    ∅ {["other"]} {["both" := mkImage "both" (Some both_digest)]} {["c1" := mkContainerInfo "both"]}.

Definition daemon0 : Daemon := mkDaemon {["ns" := view0]} [].

Definition layers0 : list WasmLayer :=
  [mkLayer (mkDescriptor layer_media (digest_of [1; 2]%Z) 2) [1; 2]%Z;
   mkLayer (mkDescriptor layer_media (digest_of [1; 3]%Z) 2) [99; 1; 3]%Z].
Definition compiled0 : list (option (list byte)) := [Some [99; 1; 2]%Z; None].

Definition daemon1 : Daemon := (run (load_modules client0 "c1") daemon0).1.2.

Lemma image_of_both : image_of (view daemon0 "ns") "c1" (decode_manifest both_manifest) both_digest (mkPlatform "wasi" "wasm").
Proof.
  split; [| | |done].
  - exists (mkContainerInfo "both"), (mkImage "both" (Some both_digest)), both_digest.
    split; [vm_compute; reflexivity|]. split; [vm_compute; reflexivity|]. split; reflexivity.
  - exists (mkContent both_manifest ∅). split; [vm_compute; reflexivity|reflexivity].
  - exists (mkContent [3]%Z ∅). split; [vm_compute; reflexivity|reflexivity].
Qed.

Lemma distinct_both : distinct both_digest (zip layers0 compiled0).
Proof.
  assert (∀ l o, (l, o) ∈ zip layers0 compiled0 →
    digest (config l) = digest_of [1; 2]%Z ∧ o = Some [99; 1; 2]%Z ∨
    digest (config l) = digest_of [1; 3]%Z ∧ o = None) as Hall.
  { intros l o Hin. unfold layers0, compiled0 in Hin. cbn [zip zip_with] in Hin.
    apply elem_of_cons in Hin as [[= -> ->]|Hin]; [by left|].
    apply elem_of_cons in Hin as [[= -> ->]|Hin]; [by right|]. by apply elem_of_nil in Hin. }
  split.
  - intros l o Hin. by destruct (Hall _ _ Hin) as [[-> _]|[-> _]].
  - intros l o l' o' H1 H2. destruct (Hall _ _ H1) as [[-> ->]|[-> ->]];
      destruct (Hall _ _ H2) as [[-> ->]|[-> ->]]; done.
  - intros l m l' m' H1 H2 _. destruct (Hall _ _ H1) as [[_ [= ->]]|[_ ?]]; [|done].
    by destruct (Hall _ _ H2) as [[_ [= ->]]|[_ ?]].
Qed.

Lemma uncompiled_both :
  uncompiled (view daemon0 "ns") pid1 (decode_manifest both_manifest) both_digest layers0 compiled0.
Proof.
  split.
  - exists (mkContent both_manifest ∅). split; vm_compute; reflexivity.
  - vm_compute. reflexivity.
  - constructor; [|constructor; [|constructor]].
    + exists (mkContent [1; 2]%Z ∅). split; [vm_compute; reflexivity|]. vm_compute. reflexivity.
    + exists (mkContent [1; 3]%Z {[pid1 := digest_of [99; 1; 3]%Z]}). split; [vm_compute; reflexivity|].
      replace (c_labels _ !! pid1) with (Some (digest_of [99; 1; 3]%Z)) by (vm_compute; reflexivity).
      exists (digest_of [99; 1; 3]%Z), (mkContent [99; 1; 3]%Z ∅).
      split; [reflexivity|]. split; [vm_compute; reflexivity|reflexivity].
  - vm_compute. reflexivity.
  - reflexivity.
  - exists [99; 1; 2]%Z. by left.
  - unfold compiled0. constructor; [simpl; lia|constructor; [done|constructor]].
  - apply distinct_both.
  - intros m Hm. unfold compiled0 in Hm. apply elem_of_cons in Hm as [[= ->]|Hm].
    + intros x Hx.
      assert (v_content (view daemon0 "ns") !! digest_string (sha256 [99; 1; 2]%Z) = None) as Hn
        by (vm_compute; reflexivity). rewrite Hn in Hx. done.
    + apply elem_of_cons in Hm as [?|Hm]; [done|by apply elem_of_nil in Hm].
  - apply (bool_decide_eq_false (_ ∈ _)). vm_compute. reflexivity.
  - vm_compute. reflexivity.
Qed.

Lemma compiled_layers_are_reused_witness :
  ∃ w', run (load_modules client0 "c1") daemon0 =
      (Done (compiled_layer <$> zip layers0 compiled0, mkPlatform "wasi" "wasm"), w', []) ∧
    v_leases (view w' "ns") = v_leases (view daemon0 "ns") ∧
    v_ingests (view w' "ns") = v_ingests (view daemon0 "ns") ∧
    ∀ En' : Engine, @engine_name En' = @engine_name toy_wasmtime_engine → @can_precompile En' = Some "v1" →
      @supported_layers_types En' = @supported_layers_types toy_wasmtime_engine →
      run (@load_modules _ _ En' client0 "c1") w' =
      (Done (compiled_layer <$> zip layers0 compiled0, mkPlatform "wasi" "wasm"), w', []).
Proof.
  exact (compiled_layers_are_reused client0 "c1" "v1" (decode_manifest both_manifest) both_digest
    (mkPlatform "wasi" "wasm") daemon0 layers0 compiled0 eq_refl image_of_both uncompiled_both).
Defined.

(** ** A write that was interrupted *)

(** The store after a write under the reference of this engine was cut off. *)
Definition daemon_cut : Daemon :=
  mkDaemon {["ns" := with_ingests {["precompile-" +:+ pid1 := [7]%Z]} view0]} [].

Definition cut_load := run (load_modules client0 "c1") daemon_cut.

(** The store when the thread of the lease guard has run as well. *)
Definition daemon_released : Daemon := fold_left (λ w t, (run t w).1.2) cut_load.2 cut_load.1.2.

(** All layers, of all images, are written under one reference.  On a store that
    resumes the write of a reference, what was left of another module's write is
    taken for the beginning of the next one: the load fails, and so does the next
    one, although the lease was released in between. *)
Theorem interrupted_write_stops_loads :
  cut_load.1.1 = Failed (Errors.Containerd "commit request error: unexpected digest") ∧
  (run (load_modules client0 "c1") daemon_released).1.1 = cut_load.1.1 ∧
  v_ingests (daemon_view daemon_released "ns") !! ("precompile-" +:+ pid1) = Some [7; 1; 2]%Z.
Proof. split; [|split]; vm_compute; reflexivity. Qed.

(** ** Two loads at the same time *)

Definition load_c1 : prog Daemon Error (list WasmLayer * Platform) := load_modules client0 "c1".

(** The first load holds its lease when the second one asks for the same. *)
Definition racing_loads : option (Daemon * list (task Daemon Error (list WasmLayer * Platform))) :=
  interleave ([Arrive load_c1; Arrive load_c1] ++ replicate 12 (Step 0) ++ replicate 11 (Step 1))%list
    (daemon0, []).

Definition error_of {S R : Type} (x : task S Error R) : option Error :=
  match x with Serving (Throw e) => Some e | _ => None end.

(** The lease is named after the engine, not after what it protects: of two loads at
    the same time, also of different images, the second fails, although each of them
    succeeds alone. *)
Theorem concurrent_load_fails :
  (∃ c, racing_loads = Some c ∧ rtc (cstep (λ p, p = load_c1)) (daemon0, []) c ∧
     (c.2 !! 1%nat ≫= error_of) = Some (Errors.Containerd "already exists")) ∧
  (run load_c1 daemon0).1.1 = Done (compiled_layer <$> zip layers0 compiled0, mkPlatform "wasi" "wasm").
Proof.
  split; [|vm_compute; reflexivity].
  assert ((c ← racing_loads; c.2 !! 1%nat ≫= error_of) = Some (Errors.Containerd "already exists")) as He
    by (vm_compute; reflexivity).
  destruct racing_loads as [c|] eqn:Hc; [|done]. exists c. split; [done|]. split; [|exact He].
  apply (interleave_sound _ ([Arrive load_c1; Arrive load_c1] ++ replicate 12 (Step 0) ++
    replicate 11 (Step 1))%list); [|exact Hc].
  repeat (apply Forall_app; split); try (by apply Forall_replicate). by repeat constructor.
Qed.
