(* ===== verification/SharedStub.v ===== *)
(** The store of the file ContentStub under interleaved loads of two engines: it keeps
    what the file SharedStore asks for, and its theorems apply to it. *)
From S2P Require Import Prelude Errors Sync Instance Paths Oci Threads Context Engine Client Wasmtime ContentStore SharedStore ClientStub ContentStub.
Local Open Scope string_scope.

(** ** The store keeps content under its digest *)

Section daemon.
Context (P : string → string → string → Prop).
Abbreviation intact w := (∀ ns, integral_content P (v_content (daemon_view w ns))).

Lemma daemon_view_set_ne ns ns' v w : ns ≠ ns' → daemon_view (set_view ns v w) ns' = daemon_view w ns'.
Proof. intros Hne. unfold daemon_view. simpl. by rewrite lookup_insert_ne. Qed.

Lemma intact_set ns v w :
  intact w → integral_content P (v_content v) → intact (set_view ns v w).
Proof.
  intros Hw Hv ns'. destruct (decide (ns = ns')) as [<-|Hne]; [by rewrite daemon_view_set|].
  by rewrite daemon_view_set_ne.
Qed.

Lemma intact_stream s st w : intact w → intact (set_stream s st w).
Proof. done. Qed.

(** A step that may be refused keeps the store intact if it does when it is not. *)
Lemma keeps_trying {E A : Type} (f : Daemon → result E (A * Daemon)) :
  (∀ w a w', intact w → f w = Ok (a, w') → intact w') →
  keeps always (λ w, intact w) (trying f) (λ _, True).
Proof.
  intros Hf w b w' _ Hw. destruct (f w) as [[a w1]|e] eqn:Hfw; intros [= <- <-] _; simpl; [|done].
  split; [|done]. by eapply Hf.
Qed.

Lemma on_stream_intact s r w w' :
  (wr_action r = Commit → map_Forall (P (wr_expected r)) (wr_labels r)) →
  intact w → on_stream s r w = Ok w' → intact w'.
Proof.
  intros Hr Hw. unfold on_stream. destruct (d_streams w !! s) as [st|]; [|done].
  destruct (v_ingests _ !! ss_ref st) as [b|]; [|done].
  case_bool_decide; simpl; [|done].
  destruct (wr_action r) eqn:Ha; try case_bool_decide as Hd; intros [= <-];
    apply intact_stream, intact_set; simpl; try done.
  apply map_Forall_insert_2; [|apply Hw]. destruct Hd as [Hd He]. rewrite <-He.
  split; [by rewrite He|by apply Hr].
Qed.
End daemon.

#[export] Instance daemon_integrity : ContentIntegrity daemon_containerd.
Proof.
  refine (Build_ContentIntegrity (λ w ns, v_content (daemon_view w ns)) _ _ _ _ _ _ _ _ _ _ _); simpl.
  - intros P ns d w b w' _ Hw [= <- <-] _. split; [done|].
    destruct (v_content _ !! d) as [x|] eqn:Hx; simpl; [|done].
    intros i [= <-]. simpl. split; [done|]. by destruct (Hw ns d x Hx).
  - intros P ns i fields Hi. apply keeps_trying. intros w a w' Hw.
    destruct (v_content _ !! info_digest i) as [x|] eqn:Hx; [|done]. intros [= <- <-].
    apply intact_set; [done|]. apply map_Forall_insert_2; [|apply Hw]. by destruct (Hw ns _ x Hx).
  - intros P ns l r. apply keeps_trying. intros w a w' Hw. unfold open_write.
    destruct (v_content _ !! _); [done|]. intros [= <- <-]. exact (intact_set P ns (with_ingests _ _) w Hw (Hw ns)).
  - intros P s r Hr. apply keeps_trying. intros w [] w' Hw.
    destruct (on_stream s r w) as [w1|] eqn:Hs; [|done]. intros [= <-]. by eapply on_stream_intact.
  - intros P s w b w' _ Hw. destruct (d_streams w !! s); intros [= <- <-] _; by split.
  - intros P ns i l. apply keeps_trying. intros w a w' Hw. case_bool_decide; [done|].
    intros [= <- <-]. apply intact_set; [done|apply Hw].
  - intros P ns i b w u w' _ Hw [= _ <-] _. split; [|done]. apply intact_set; [done|apply Hw].
  - intros P ns n w b w' _ Hw [= <- <-] _. by split.
  - intros P ns n w b w' _ Hw [= <- <-] _. by split.
  - intros s d. case_match; [|done]. by intros [= ->].
  - intros P V ns d w b w' HV Hw [= <- <-] _. split; [done|].
    destruct (v_content _ !! d) as [x|] eqn:Hx; simpl; [|done].
    rewrite app_nil_r. split; [by destruct (Hw ns d x Hx)|by apply (HV ns d)].
Defined.

(** ** Two engines *)

(** Another engine, which puts the mark 98 in front of a module. *)
Definition other_engine : Engine := {|
  engine_name := "other";
  run_wasi _ _ := Ok 0%Z;
  can_handle _ _ := Ok tt;
  supported_layers_types := [layer_media];
  precompile layers := Ok ((λ l, Some (98 :: layer l)%Z) <$> layers);
  can_precompile := Some "v9";
|}.

Definition node_engines (En : Engine) : Prop := En = toy_wasmtime_engine ∨ En = other_engine.
Definition pid2 : string := precompile_label "other" "v9".
Definition load_other : prog Daemon Error (list WasmLayer * Platform) :=
  load_modules (En := other_engine) client0 "c1".

Lemma node_engines_plain : plain node_engines.
Proof. intros En ver [->| ->] [= <-]; by vm_compute. Qed.

(** *** The labels of the store are those of compiled layers *)

Abbreviation any_bytes := (λ _ : list byte, True).
Abbreviation node_policy := (policy node_engines any_bytes).

(** The blobs of the store, and the label that an earlier load has left. *)
Lemma daemon0_integral : integral node_policy daemon0.
Proof.
  assert (derived node_engines any_bytes "wasmtime" compatibility_hash (digest_of [1; 3]%Z) [99; 1; 3]%Z) as Hm.
  { set (l := mkLayer (mkDescriptor layer_media (digest_of [1; 3]%Z) 2) [1; 3]%Z).
    apply (derived_compiled node_engines any_bytes _ _ _ toy_wasmtime_engine [l] [Some [99; 1; 3]%Z] 0 l);
      try done; [by left|]. intros l' ->%list_elem_of_singleton. by apply derived_original. }
  intros ns. unfold stored. simpl. unfold daemon_view. simpl.
  destruct (decide (ns = "ns")) as [->|Hne].
  2: { rewrite lookup_singleton_ne by done. apply map_Forall_empty. }
  rewrite lookup_singleton_eq. simpl.
  assert (∀ b, dig (c_data (mkContent b ∅)) = digest_of b ∧
    map_Forall (node_policy (digest_of b)) (c_labels (mkContent b ∅))) as Hblob.
  { intros b. split; [done|apply map_Forall_empty]. }
  repeat (apply map_Forall_insert_2; [try apply Hblob|]); [|apply map_Forall_empty].
  split; [done|]. apply map_Forall_singleton.
  exact (policy_compiled _ _ toy_wasmtime_engine compatibility_hash _ _ node_engines_plain
    (or_introl eq_refl) eq_refl Hm).
Qed.

(** *** Both engines load the image at the same time *)

Abbreviation pool := (Daemon * list (task Daemon Error (list WasmLayer * Platform)))%type.
Abbreviation clients := (store_client node_engines any_bytes).
Abbreviation steps := (store_step node_engines any_bytes).

(** The pool after a schedule that can be executed. *)
Definition after (l : list (choice Daemon Error (list WasmLayer * Platform))) (c : pool) : pool :=
  default c (interleave l c).

Definition executable (l : list (choice Daemon Error (list WasmLayer * Platform))) (c : pool) : bool :=
  match interleave l c with Some _ => true | None => false end.

Lemma loads_are_clients : clients load_c1 ∧ clients load_other.
Proof.
  split; left; [exists toy_wasmtime_engine|exists other_engine];
    exists client0, "c1"; (split; [by constructor|done]).
Qed.

Lemma after_reachable l c :
  executable l c = true →
  Forall (λ ch, match ch with Arrive p => clients p | Step _ => True end) l →
  rtc steps c (after l c).
Proof.
  unfold executable, after. intros He Hl. destruct (interleave l c) as [c'|] eqn:Hc; [|done].
  eapply (rtc_subrel (cstep clients)); [by intros ???|by apply (interleave_sound _ l)].
Qed.

(** The other engine is about to take its lease when wasmtime comes in; wasmtime has
    read the labels of the first module, and not yet written them back, when the other
    engine writes its own. *)
Definition other_first : list (choice Daemon Error (list WasmLayer * Platform)) :=
  Arrive load_other :: replicate 10 (Step 0).
Definition race_schedule : list (choice Daemon Error (list WasmLayer * Platform)) :=
  (replicate 18 (Step 1) ++ replicate 9 (Step 0) ++ replicate 4 (Step 1) ++ replicate 16 (Step 0))%list.

Definition pool1 : pool := after other_first (daemon0, []).
Definition pool2 : pool := after race_schedule (pool1.1, pool1.2 ++ [Serving load_c1])%list.

Definition race_layers : list WasmLayer := compiled_layer <$> zip layers0 compiled0.

Lemma pool1_reachable : rtc steps (daemon0, []) pool1.
Proof.
  apply after_reachable; [vm_compute; reflexivity|].
  constructor; [apply loads_are_clients|by apply Forall_replicate].
Qed.

Lemma pool2_reachable : rtc steps (pool1.1, pool1.2 ++ [Serving load_c1])%list pool2.
Proof.
  apply after_reachable; [vm_compute; reflexivity|].
  by repeat (apply Forall_app; split); apply Forall_replicate.
Qed.

Lemma pool2_value : pool2.2 !! length pool1.2 = Some (Serving (Ret (race_layers, mkPlatform "wasi" "wasm"))).
Proof. vm_compute. reflexivity. Qed.

Lemma concurrent_loads_are_genuine_witness :
  Forall (genuine node_engines any_bytes "wasmtime" (Some compatibility_hash)) race_layers.
Proof.
  refine (concurrent_loads_are_genuine node_engines any_bytes (En := toy_wasmtime_engine) client0 "c1"
    daemon0 pool1.1 pool1.2 pool2.1 pool2.2 race_layers (mkPlatform "wasi" "wasm")
    node_engines_plain (or_introl eq_refl) daemon0_integral _ _ pool2_value).
  - rewrite <-surjective_pairing. apply pool1_reachable.
  - rewrite <-surjective_pairing. apply pool2_reachable.
Defined.

Lemma wasmtime_runs_the_manifest_witness :
  ∃ m0, dig m0 = digest_of [1; 2]%Z ∧ runs_as [99; 1; 2]%Z m0.
Proof.
  assert (knows_wasmtime node_engines) as Hw by (by intros En [->| ->]).
  assert (collision_free any_bytes) as Hfree.
  { intros b a _ _ Hd. apply text_inj. by apply (inj (String.append "sha256:")). }
  refine (wasmtime_runs_the_manifest (λ _, Err "not wat") None node_engines any_bytes client0 "c1"
    daemon0 pool1.1 pool1.2 pool2.1 pool2.2 race_layers (mkPlatform "wasi" "wasm")
    (mkLayer (mkDescriptor layer_media (digest_of [1; 2]%Z) 2) [99; 1; 2]%Z)
    node_engines_plain (or_introl eq_refl) Hw Hfree daemon0_integral _ _ pool2_value _).
  - rewrite <-surjective_pairing. apply pool1_reachable.
  - rewrite <-surjective_pairing. apply pool2_reachable.
  - by left.
Defined.

(** ** What is lost *)

(** Labels are read, changed and written back as a whole.  In the race the label of
    the other engine at the first module is overwritten, while its mark at the image
    stays: from then on every load of that engine gets the first module as it is, and
    compiles nothing. *)
Theorem concurrent_labels_are_lost :
  let w := pool2.1 in
  let loaded :=
    [mkLayer (mkDescriptor layer_media (digest_of [1; 2]%Z) 2) [1; 2]%Z;
     mkLayer (mkDescriptor layer_media (digest_of [1; 3]%Z) 2) [98; 1; 3]%Z] in
  rtc steps (pool1.1, pool1.2 ++ [Serving load_c1])%list pool2 ∧
  run load_other w = (Done (loaded, mkPlatform "wasi" "wasm"), w, []).
Proof. split; [apply pool2_reachable|]. vm_compute. reflexivity. Qed.

(** The labels by which the garbage collector finds [dg], and the content they are at. *)
Definition gc_references (w : Daemon) (dg : string) : list (string * string) :=
  filter (λ p, starts_with "containerd.io/gc.ref.content" p.2 = true)
    (flat_map (λ dx, (λ kv, (dx.1, kv.1)) <$> filter (λ kv, kv.2 = dg) (map_to_list (c_labels dx.2)))
      (map_to_list (v_content (daemon_view w "ns")))).

(** The labels for the garbage collector carry the number of the layer, not the
    engine: after a load by one engine a load by another one takes over both of them,
    and nothing keeps what the first engine has compiled. *)
Theorem second_engine_takes_references :
  let w1 := (run load_c1 daemon0).1.2 in
  let w2 := (run load_other w1).1.2 in
  length (gc_references w1 (digest_of [99; 1; 2]%Z)) = 2%nat ∧
  (run load_other w1).1.1 = (run load_other daemon0).1.1 ∧
  gc_references w2 (digest_of [99; 1; 2]%Z) = [].
Proof. split; [|split]; vm_compute; reflexivity. Qed.
