(* ===== verification/TarBuilder.v ===== *)
(** The OCI archive builder (crates/oci-tar-builder/src/lib.rs and bin.rs): layers
    and a config become blobs named by their digest, tied together by a
    manifest, an index and Docker's manifest.json.

    The files of the layers, the hash, and the JSON serialisers of the
    [oci_spec] and [serde_json] crates are parameters.  A layer file does not
    change while the archive is built, and the archive can be written: [build]
    returns the entries in the order in which they are written.  A hexadecimal SHA-256
    always makes a valid digest and a short path, so those checks cannot fail. *)
From S2P Require Import Prelude Errors Sync Instance Paths Files Oci Context.
Local Open Scope string_scope.

(** [oci_spec::image::Descriptor], with its annotations and platform. *)
Record ImageDescriptor := mkImageDescriptor {
  d_media_type : string;
  d_digest : string;
  d_size : Z;
  d_annotations : gmap string string;
  d_platform : option Platform;
}.

Record TarManifest := mkTarManifest {
  m_config : ImageDescriptor;
  m_layers : list ImageDescriptor;
  m_annotations : gmap string string;
}.

Record DockerManifest := mkDocker {
  docker_config : string; repo_tags : list string; docker_layers : list string }.

(** An entry of the archive: header and data. *)
Record TarEntry := mkEntry { e_path : path; e_mode : Z; e_data : list byte }.

(** [trait OciConfig] *)
Class OciConfig (C : Type) := {
  config_os : C → string;
  config_architecture : C → string;
  config_layers : C → list string;
  config_bytes : C → list byte;
}.

Class TarEnv := {
  layer_file : path → result string (list byte);
  sha256_hex : list byte → string;
  manifest_bytes : TarManifest → list byte;
  index_bytes : list ImageDescriptor → list byte;
  layout_bytes : list byte;
  docker_bytes : DockerManifest → list byte;
}.

(** The environment in which layers are files of a host. *)
Definition tar_env `{TarEnv} (fs : Files) : TarEnv := {|
  layer_file p := fs_read p fs;
  sha256_hex := sha256_hex; manifest_bytes := manifest_bytes; index_bytes := index_bytes;
  layout_bytes := layout_bytes; docker_bytes := docker_bytes |}.

Record Builder (C : Type) := mkBuilder_ {
  configs : list (C * string * string);   (* config, name, media type *)
  layers_ : list (path * string);
}.
Arguments mkBuilder_ {C}. Arguments configs {C}. Arguments layers_ {C}.

Definition builder_default {C : Type} : Builder C := mkBuilder_ [] [].

Definition MEDIA_IMAGE_LAYER : string := "application/vnd.oci.image.layer.v1.tar".
Definition MEDIA_IMAGE_MANIFEST : string := "application/vnd.oci.image.manifest.v1+json".
Definition WASM_LAYER_MEDIA_TYPE : string :=
  "application/vnd.bytecodealliance.wasm.component.layer.v0+wasm".

Section builder.
Context {C : Type}.

Definition add_config (c : C) (name media_type : string) (b : Builder C) : Builder C :=
  mkBuilder_ (configs b ++ [(c, name, media_type)]) (layers_ b).
Definition add_layer (l : path) (b : Builder C) : Builder C :=
  mkBuilder_ (configs b) (layers_ b ++ [(l, "")]).
Definition add_layer_with_media_type (l : path) (media_type : string) (b : Builder C) : Builder C :=
  mkBuilder_ (configs b) (layers_ b ++ [(l, media_type)]).
End builder.

(** [IndexMap::insert]: an existing key keeps its place and gets the new value. *)
Fixpoint index_insert {V : Type} (k : string) (v : V) (m : list (string * V)) : list (string * V) :=
  match m with
  | [] => [(k, v)]
  | (k', v') :: m => if bool_decide (k = k') then (k, v) :: m else (k', v') :: index_insert k v m
  end.

Section build.
Context `{TarEnv} {C : Type} `{!OciConfig C}.

Definition blob_path (hex : string) : path := "blobs/sha256/" +:+ hex.

Definition blob (b : list byte) : TarEntry := mkEntry (blob_path (sha256_hex b)) 292 b.

Definition describe (media_type : string) (b : list byte) : ImageDescriptor :=
  mkImageDescriptor media_type ("sha256:" +:+ sha256_hex b) (Z.of_nat (length b)) ∅ None.

(** The loop over the layers: the descriptors by digest, the entries written and
    the paths for manifest.json. *)
Fixpoint build_layers (ls : list (path * string)) (digests : list (string * ImageDescriptor)) :
    result string (list (string * ImageDescriptor) * list TarEntry * list path) :=
  match ls with
  | [] => Ok (digests, [], [])
  | (file, ty) :: ls =>
      match layer_file file with
      | Err e => Err "failed to digest layer"
      | Ok b =>
          let media_type := if bool_decide (ty = "") then MEDIA_IMAGE_LAYER else ty in
          let desc := describe media_type b in
          match build_layers ls (index_insert (d_digest desc) desc digests) with
          | Err e => Err e
          | Ok (ds, entries, ps) => Ok (ds, blob b :: entries, e_path (blob b) :: ps)
          end
      end
  end.

(** The annotations of an image called [name]. *)
Definition image_annotations (name : string) : gmap string string :=
  <["io.containerd.image.name" := name]>
    (if has_char ":" name then
       {["org.opencontainers.image.ref.name" := default "" (split ":" name !! 1%nat)]}
     else ∅).

(** The blobs of a config and of its manifest, and the manifest's descriptor. *)
Definition build_config (digests : list (string * ImageDescriptor)) (c : C) (name ty : string) :
    list TarEntry * ImageDescriptor :=
  let b := config_bytes c in
  let annotations := image_annotations name in
  let m := mkTarManifest (describe ty b) (snd <$> digests) annotations in
  let mb := manifest_bytes m in
  ([blob b; blob mb],
   mkImageDescriptor MEDIA_IMAGE_MANIFEST ("sha256:" +:+ sha256_hex mb) (Z.of_nat (length mb))
     annotations (Some (mkPlatform (config_os c) (config_architecture c)))).

Definition layout_entry : TarEntry := mkEntry "oci-layout" 420 layout_bytes.
Definition docker_entry (d : DockerManifest) : TarEntry := mkEntry "manifest.json" 420 (docker_bytes d).

Definition build (b : Builder C) : result string (list TarEntry) :=
  if bool_decide (1 < length (configs b))%nat then Err "only one config is supported" else
  match build_layers (layers_ b) [] with
  | Err e => Err e
  | Ok (digests, layer_entries, layer_paths) =>
      let built := (λ x, build_config digests x.1.1 x.1.2 x.2) <$> configs b in
      let docker := {|
        docker_config := match list.last (configs b) with
                         | Some x => blob_path (sha256_hex (config_bytes x.1.1))
                         | None => ""
                         end;
        repo_tags := (λ x, x.1.2) <$> configs b;
        docker_layers := layer_paths |} in
      Ok (layer_entries ++ concat (fst <$> built) ++
          [mkEntry "index.json" 420 (index_bytes (snd <$> built));
           layout_entry; docker_entry docker])%list
  end.

(** ** Properties *)

(** A descriptor that points at a blob of the archive, with its size. *)
Definition points_to (d : ImageDescriptor) (es : list TarEntry) : Prop :=
  ∃ b, blob b ∈ es ∧ d_digest d = "sha256:" +:+ sha256_hex b ∧ d_size d = Z.of_nat (length b).

Lemma index_insert_in {V : Type} k (v : V) m x :
  x ∈ index_insert k v m → x = (k, v) ∨ x ∈ m.
Proof.
  induction m as [|[k' v'] m IH]; simpl; [set_solver|]. case_bool_decide; set_solver.
Qed.

Lemma build_layers_points ls digests ds es ps :
  build_layers ls digests = Ok (ds, es, ps) →
  ∀ k d, (k, d) ∈ ds → (k, d) ∈ digests ∨ points_to d es.
Proof.
  revert digests ds es ps. induction ls as [|[f ty] ls IH]; intros digests ds es ps; simpl.
  { intros [= -> <- <-]. auto. }
  destruct (layer_file f) as [b|]; [|done].
  destruct (build_layers ls _) as [[[ds' es'] ps']|] eqn:Hb; [|done].
  intros [= -> <- <-] k d Hd. destruct (IH _ _ _ _ Hb k d Hd) as [Hin|(b' & ? & ?)].
  - apply index_insert_in in Hin as [[= -> ->]|Hin]; [right|by left].
    exists b. split; [by left|done].
  - right. exists b'. split; [by right|done].
Qed.

Lemma index_insert_keys {V : Type} k (v : V) m :
  fst <$> index_insert k v m =
  if decide (k ∈ (fst <$> m)) then fst <$> m else ((fst <$> m) ++ [k])%list.
Proof.
  induction m as [|[k' v'] m IH]; cbn [index_insert].
  { by rewrite decide_False by (rewrite fmap_nil; apply not_elem_of_nil). }
  rewrite fmap_cons. cbn [fst]. case_bool_decide as Hk; rewrite fmap_cons; cbn [fst].
  - subst. by rewrite decide_True by left.
  - rewrite IH. destruct (decide (k ∈ fst <$> m)) as [Hin|Hin].
    + by rewrite decide_True by (by right).
    + rewrite decide_False; [done|]. intros [?|?]%elem_of_cons; done.
Qed.

(** Appends [d] unless it is already there. *)
Definition add_new (l : list string) (d : string) : list string :=
  if decide (d ∈ l) then l else (l ++ [d])%list.

(** The descriptors are keyed by their digest, and the keys are the digests of the
    files in the order of their first occurrence. *)
Lemma build_layers_order ls digests ds es ps :
  build_layers ls digests = Ok (ds, es, ps) →
  ∃ files, Forall2 (λ l f, layer_file l.1 = Ok f) ls files ∧
    fst <$> ds = foldl add_new (fst <$> digests) ((λ f, "sha256:" +:+ sha256_hex f) <$> files) ∧
    ((∀ k d, (k, d) ∈ digests → d_digest d = k) → ∀ k d, (k, d) ∈ ds → d_digest d = k).
Proof.
  revert digests ds es ps. induction ls as [|[f ty] ls IH]; intros digests ds es ps; simpl.
  { intros [= -> <- <-]. exists []. split; [constructor|]. by split. }
  destruct (layer_file f) as [b|] eqn:Hf; [|done].
  destruct (build_layers ls _) as [[[ds' es'] ps']|] eqn:Hb; [|done].
  intros [= -> <- <-]. destruct (IH _ _ _ _ Hb) as (files & Hall & Hk & Hd).
  exists (b :: files). split; [by constructor|]. split.
  - rewrite Hk, fmap_cons, index_insert_keys. done.
  - intros Hin. apply Hd. intros k d [[= -> ->]|Hi]%index_insert_in; [done|by apply Hin].
Qed.

(** When the files can be read, their entries are their blobs, in order. *)
Lemma build_layers_entries ls fs digests :
  Forall2 (λ l f, layer_file l.1 = Ok f) ls fs →
  ∃ ds ps, build_layers ls digests = Ok (ds, blob <$> fs, ps).
Proof.
  intros Hf. revert digests. induction Hf as [|[p ty] f ls fs Hp _ IH]; intros digests; simpl; [eauto|].
  simpl in Hp. rewrite Hp. edestruct IH as (ds & ps & ->). simpl. eauto.
Qed.

(** C25: the archive is closed under references: every layer that the manifest
    lists, its config, and the manifest that the index lists are blobs of the
    archive, under the name of their digest and with their size.  The manifest
    lists every distinct layer once, in the order in which the layers were first
    added. *)
Theorem archive_is_closed b c name ty es :
  configs b = [(c, name, ty)] → build b = Ok es →
  ∃ m desc,
    blob (manifest_bytes m) ∈ es ∧ points_to desc es ∧
    mkEntry "index.json" 420 (index_bytes [desc]) ∈ es ∧
    d_digest desc = "sha256:" +:+ sha256_hex (manifest_bytes m) ∧
    points_to (m_config m) es ∧ (∀ d, d ∈ m_layers m → points_to d es) ∧
    ∃ files, Forall2 (λ l f, layer_file l.1 = Ok f) (layers_ b) files ∧
      d_digest <$> m_layers m =
      foldl add_new [] ((λ f, "sha256:" +:+ sha256_hex f) <$> files).
Proof.
  intros Hc. unfold build. rewrite Hc. simpl. unfold build_config.
  destruct (build_layers (layers_ b) []) as [[[ds les] lps]|] eqn:Hl; [|done].
  intros [= <-]. set (m := mkTarManifest _ _ _). 
  set (desc := mkImageDescriptor MEDIA_IMAGE_MANIFEST _ _ _ _). exists m, desc.
  assert (∀ d l r, points_to d l → points_to d (l ++ r)%list) as Happ.
  { intros d l r (x & Hx & ?). exists x. split; [|done]. apply elem_of_app. by left. }
  split; [set_solver|]. split; [exists (manifest_bytes m); split; [set_solver|done]|].
  split; [set_solver|]. split; [done|]. split; [|split].
  - exists (config_bytes c). split; [set_solver|done].
  - intros d (x & -> & Hx)%list_elem_of_fmap. destruct x as [k d].
    destruct (build_layers_points _ _ _ _ _ Hl k d Hx) as [Hin|Hp]; [set_solver|]. by apply Happ.
  - destruct (build_layers_order _ _ _ _ _ Hl) as (files & Hf & Hk & Hd). exists files.
    split; [done|]. subst m. simpl. rewrite fmap_nil in Hk.
    rewrite <-list_fmap_compose, <-Hk.
    apply list_fmap_ext. intros i [k d] Hi. simpl. apply Hd; [|by eapply list_elem_of_lookup_2].
    intros k' d'. by rewrite elem_of_nil.
Qed.
End build.

(** ** bin.rs: the images that the command line asks for *)

Record Args := mkArgs {
  arg_name : string; arg_tag : string; arg_repo : string;
  arg_module : list string; arg_layer : list string; arg_components : option (list path);
}.

(** A [--layer type=path] argument: its first and last piece. *)
Definition layer_option (s : string) : string * path :=
  let pieces := split "=" s in
  (default "" (head pieces), default "" (list.last pieces)).

(** The layers of [generate_wasi_image]: modules, then layers, then the files of
    the components directory whose extension is [wasm]. *)
Definition wasi_image_layers (a : Args) : list (path * string) :=
  (((λ p, (p, WASM_LAYER_MEDIA_TYPE)) <$> arg_module a) ++
   ((λ l, ((layer_option l).2, (layer_option l).1)) <$> arg_layer a) ++
   ((λ p, (p, WASM_LAYER_MEDIA_TYPE)) <$>
      filter (λ p, default "" (extension p) = "wasm") (default [] (arg_components a))))%list.

Definition image_reference (a : Args) : string :=
  arg_repo a +:+ "/" +:+ arg_name a +:+ ":" +:+ arg_tag a.

(** What [main] does with the arguments before it builds anything. *)
Inductive Usage := MutuallyExclusive | MissingInput | Proceed.

Definition check_args (a : Args) : Usage :=
  if bool_decide (arg_module a ≠ []) && bool_decide (is_Some (arg_components a)) then MutuallyExclusive
  else if bool_decide (arg_module a = []) && bool_decide (arg_components a = None) then MissingInput
  else Proceed.

Lemma split_last_no_sep c s t :
  has_char c s = false → has_char c t = false → split c (s +:+ String c t) = [s; t].
Proof.
  intros Hs Ht. rewrite split_unfold.
  rewrite (proj2 (split_once_Some c (s +:+ String c t) s t)) by done.
  rewrite split_unfold. by rewrite (proj2 (split_once_None c t)).
Qed.

(** The reference name of an image is its tag when neither the repository nor
    the tag contains a colon. *)
Theorem reference_name_is_the_tag a :
  has_char ":" (arg_repo a) = false → has_char ":" (arg_name a) = false →
  has_char ":" (arg_tag a) = false →
  image_annotations (image_reference a) !! "org.opencontainers.image.ref.name" = Some (arg_tag a) ∧
  image_annotations (image_reference a) !! "io.containerd.image.name" = Some (image_reference a).
Proof.
  intros Hr Hn Ht. unfold image_annotations, image_reference.
  replace (arg_repo a +:+ "/" +:+ arg_name a +:+ ":" +:+ arg_tag a)
    with ((arg_repo a +:+ "/" +:+ arg_name a) +:+ String ":" (arg_tag a))
    by (by rewrite !string_app_assoc).
  set (r := arg_repo a +:+ "/" +:+ arg_name a).
  assert (has_char ":" r = false) as Hr'.
  { unfold r. rewrite !has_char_app, Hr, Hn. done. }
  rewrite split_last_no_sep, has_char_app by done.
  replace (has_char ":" (String ":" (arg_tag a))) with true by done. rewrite orb_true_r. split.
  - rewrite lookup_insert_ne by done. by rewrite lookup_singleton_eq.
  - by rewrite lookup_insert_eq.
Qed.

Definition args0 (repo : string) : Args := mkArgs "app" "v1" repo ["app.wasm"] [] None.

Lemma reference_name_is_the_tag_witness :
  image_annotations "ghcr.io/app:v1" !! "org.opencontainers.image.ref.name" = Some "v1" ∧
  image_annotations "ghcr.io/app:v1" !! "io.containerd.image.name" = Some "ghcr.io/app:v1".
Proof. exact (reference_name_is_the_tag (args0 "ghcr.io") eq_refl eq_refl eq_refl). Defined.

(** For a registry with a port the reference name is not the tag but what lies
    between the port's colon and the tag's. *)
Theorem registry_port_breaks_reference_name :
  image_annotations (image_reference (args0 "localhost:5000"))
    !! "org.opencontainers.image.ref.name" = Some "5000/app".
Proof. done. Qed.

(** *** An archive *)

#[export] Instance toy_tar : TarEnv := {|
  layer_file p := if bool_decide (p = "missing") then Err "not found" else Ok [7; 8]%Z;
  sha256_hex b := fold_right (λ z s, String (ascii_of_nat (65 + Z.to_nat z)) s) "" b;
  manifest_bytes m := [Z.of_nat (length (m_layers m))];
  index_bytes l := [Z.of_nat (length l)];
  layout_bytes := [1]%Z;
  docker_bytes d := [Z.of_nat (length (docker_layers d))];
|}.

#[export] Instance toy_config : OciConfig unit := {|
  config_os _ := "wasip1"; config_architecture _ := "wasm"; config_layers _ := [];
  config_bytes _ := [5]%Z |}.

(** One file added twice, and the image "a/b:c". *)
Definition builder0 : Builder unit :=
  add_config tt "a/b:c" "config"
    (add_layer_with_media_type "x" WASM_LAYER_MEDIA_TYPE (add_layer "y" builder_default)).

Lemma archive_is_closed_witness :
  ∃ es m desc, build builder0 = Ok es ∧
    blob (manifest_bytes m) ∈ es ∧ points_to desc es ∧
    mkEntry "index.json" 420 (index_bytes [desc]) ∈ es ∧
    d_digest desc = "sha256:" +:+ sha256_hex (manifest_bytes m) ∧
    points_to (m_config m) es ∧ (∀ d, d ∈ m_layers m → points_to d es) ∧
    ∃ files, Forall2 (λ l f, layer_file l.1 = Ok f) (layers_ builder0) files ∧
      d_digest <$> m_layers m =
      foldl add_new [] ((λ f, "sha256:" +:+ sha256_hex f) <$> files).
Proof.
  destruct (build builder0) as [es|e] eqn:Hb; [|vm_compute in Hb; discriminate].
  destruct (archive_is_closed builder0 tt "a/b:c" "config" es eq_refl Hb) as (m & desc & Hm).
  exists es, m, desc. split; [reflexivity|exact Hm].
Defined.
