(* ===== verification/HttpProxy.v ===== *)
(** The HTTP server of the wasmtime shim
    (crates/containerd-shim-wasmtime/src/http_proxy.rs): its settings, the loop
    that accepts connections until it is cancelled, the numbering of requests,
    and how the answer of a guest becomes a response.

    Sockets, hyper and tokio are outside: what they do arrives as events, and
    [serve_step] is what the server does on each of them. *)
From S2P Require Import Prelude Errors Sync Instance Paths Text Oci Context Engine Wasmtime.
Local Open Scope string_scope.

(** ** Errors of [accept] *)

Definition is_connection_error (e : IoError) : bool :=
  match kind e with
  | KindConnectionRefused | KindConnectionAborted | KindConnectionReset => true
  | _ => false
  end.

(** [tcp_accept]: the stream, if there is one, and the seconds it sleeps. *)
Definition tcp_accept {Stream : Type} (r : result IoError Stream) : option Stream * nat :=
  match r with
  | Ok s => (Some s, 0%nat)
  | Err e => if is_connection_error e then (None, 0%nat) else (None, 1%nat)
  end.

(** ** Settings *)

Section settings.
(** [SocketAddr] and its parser, from the standard library. *)
Context {Addr : Type} (parse_addr : string → option Addr) (default_addr : Addr).

Definition DEFAULT_BACKLOG : u32 := 100%Z.

(** The environment as [collect] into a [HashMap] makes it. *)
Definition env_map (c : WasiContext) : gmap string string :=
  list_to_map (reverse (envs_from_ctx c)).

(** The address, the backlog, and what is left for the guest. *)
Definition proxy_settings (c : WasiContext) : Addr * u32 * gmap string string :=
  let env := env_map c in
  let addr := default default_addr (env !! "WASMTIME_HTTP_PROXY_SOCKET_ADDR" ≫= parse_addr) in
  let env := base.delete "WASMTIME_HTTP_PROXY_SOCKET_ADDR" env in
  let backlog := default DEFAULT_BACKLOG (env !! "WASMTIME_HTTP_BACKLOG" ≫= parse_unsigned 32) in
  (addr, backlog, base.delete "WASMTIME_HTTP_BACKLOG" env).

(** The settings of the server are not visible to the guest, every other
    variable is passed on unchanged, and the backlog is always a valid [u32]:
    the one that was given, or 100. *)
Theorem proxy_settings_consumed c addr backlog env :
  proxy_settings c = (addr, backlog, env) →
  in_u32 backlog ∧
  env !! "WASMTIME_HTTP_PROXY_SOCKET_ADDR" = None ∧ env !! "WASMTIME_HTTP_BACKLOG" = None ∧
  (∀ k, k ∉ ["WASMTIME_HTTP_PROXY_SOCKET_ADDR"; "WASMTIME_HTTP_BACKLOG"] →
        env !! k = env_map c !! k).
Proof.
  unfold proxy_settings. intros [= _ <- <-]. split.
  - rewrite lookup_delete_ne by done. unfold in_u32.
    destruct (env_map c !! _) as [s|]; simpl; [|by unfold DEFAULT_BACKLOG].
    destruct (parse_unsigned 32 s) as [v|] eqn:Hv; simpl; [|by unfold DEFAULT_BACKLOG].
    by apply parse_unsigned_range in Hv.
  - split; [rewrite lookup_delete_ne by done; by rewrite lookup_delete_eq|].
    split; [by rewrite lookup_delete_eq|].
    intros k Hk. rewrite !lookup_delete_ne by set_solver. done.
Qed.
End settings.

(** ** The listener *)

(** Sockets, of tokio and the standard library. *)
Class Net (W Addr : Type) := {
  Socket : Type;
  Listener : Type;
  is_ipv4 : Addr → bool;
  socket_new_v4 : prog W string Socket;
  socket_new_v6 : prog W string Socket;
  set_reuseaddr : Socket → bool → prog W string unit;
  bind_to : Socket → Addr → prog W string unit;
  listen : Socket → u32 → prog W string Listener;
  local_addr : Listener → prog W string Addr;
}.

Section listening.
Context {W Addr : Type} {N : Net W Addr}.
Context (windows : bool) (parse_addr : string → option Addr) (default_addr : Addr).
Local Open Scope prog_scope.

(** [serve_conn] up to its loop: the listener, and the variables of the handler. *)
Definition open_listener (c : WasiContext) : prog W string (Listener * list (string * string)) :=
  let '(addr, backlog, env) := proxy_settings parse_addr default_addr c in
  let! socket := (if is_ipv4 addr then socket_new_v4 else socket_new_v6) in
  set_reuseaddr socket (negb windows) ;;
  bind_to socket addr ;;
  let! l := listen socket backlog in
  let! _ := local_addr l in
  Ret (l, map_to_list env).

(** A guest never sees the variables that configure the server. *)
Theorem listener_env_filtered c :
  yields (λ r, ∀ k v, (k, v) ∈ r.2 →
    (k ∉ ["WASMTIME_HTTP_PROXY_SOCKET_ADDR"; "WASMTIME_HTTP_BACKLOG"]) ∧ env_map c !! k = Some v)
    (open_listener c).
Proof.
  unfold open_listener. destruct (proxy_settings parse_addr default_addr c) as [[addr backlog] env] eqn:Hs.
  do 5 (apply yields_bind, yields_any; intros ?). intros k v Hk%elem_of_map_to_list. simpl in Hk.
  unfold proxy_settings in Hs. injection Hs as _ _ <-.
  apply lookup_delete_Some in Hk as [H1 Hk]. apply lookup_delete_Some in Hk as [H2 Hk].
  split; [|done]. set_solver.
Qed.
End listening.

(** ** A request *)

(** How the channel for the response ends, and the task that calls the guest. *)
Inductive Receiver (R : Type) := Response_ (r : R) | ErrorCode (e : string) | SenderDropped.
Arguments Response_ {R}. Arguments ErrorCode {R}. Arguments SenderDropped {R}.

Inductive TaskResult := TaskOk | TaskErr (e : string) | JoinError (e : string).

(** The end of [handle_request]: [match receiver.await]. *)
Definition handle_response {R : Type} (rx : Receiver R) (task : TaskResult) : outcome string R :=
  match rx with
  | Response_ r => Done r
  | ErrorCode e => Failed e
  | SenderDropped =>
      match task with
      | TaskOk => Panicked "if the receiver has an error, the task must have failed"
      | TaskErr e | JoinError e =>
          Failed ("guest never invoked `response-outparam::set` method: " +:+ e)
      end
  end.

(** [wasi_store_for_request]: the environment of the guest of a request. *)
Definition wasi_store_for_request (env : list (string * string)) (req_id : u64) :
    list (string * string) :=
  (env ++ [("REQUEST_ID", pretty req_id)])%list.

(** ** The server *)

Inductive Phase := Accepting | Draining | Returned.

(** A connection, which is a task of the tracker and handles one request at a
    time: it waits for a request, sets up the guest of one, or waits for the
    response; [Closed] when its task has ended. *)
Inductive Conn :=
| Idle
| Preparing (req_id : u64)
| Answering (req_id : u64)
| Closed.

Record Server := mkServer {
  server_phase : Phase;
  server_env : list (string * string);
  conns : list Conn;                            (* all that were accepted *)
  guests : list (u64 * list (string * string)); (* the calls of guests that have not ended *)
  next_id : u64;                                (* AtomicU64 *)
  issued : list u64;                            (* the request ids handed out *)
}.

(** [ProxyHandler::new] and the listening socket. *)
Definition server_new (env : list (string * string)) : Server := mkServer Accepting env [] [] 0 [].

Definition set_phase (p : Phase) (s : Server) : Server :=
  mkServer p (server_env s) (conns s) (guests s) (next_id s) (issued s).
Definition set_conns (cs : list Conn) (s : Server) : Server :=
  mkServer (server_phase s) (server_env s) cs (guests s) (next_id s) (issued s).
Definition set_guests (gs : list (u64 * list (string * string))) (s : Server) : Server :=
  mkServer (server_phase s) (server_env s) (conns s) gs (next_id s) (issued s).

(** [next_req_id]: [fetch_add] wraps around. *)
Definition next_req_id (s : Server) : u64 * Server :=
  (next_id s, mkServer (server_phase s) (server_env s) (conns s) (guests s)
                (as_unsigned 64 (next_id s + 1)) (issued s ++ [next_id s])).

(** What happens to the server.  [Prepared] is the outcome of the calls before
    [tracker.spawn]; [Hangup] ends a connection, and drops its request, from
    outside, at any time. *)
Inductive ServerEvent :=
| Accepted (r : result IoError unit)
| Cancelled
| Requested (c : nat)
| Prepared (c : nat) (r : result string unit)
| Answered (c : nat) (rx : Receiver unit) (task : TaskResult)
| Hangup (c : nat)
| GuestEnded (g : nat)
| Drained.

(** [handle_request] up to its id. *)
Definition request (c : nat) (s : Server) : option Server :=
  match conns s !! c with
  | Some Idle => let '(req_id, s) := next_req_id s in
                 Some (set_conns (<[c:=Preparing req_id]> (conns s)) s)
  | _ => None
  end.

(** [handle_request] up to [tracker.spawn]: an error ends the connection, as any
    error of the service does. *)
Definition prepared (c : nat) (r : result string unit) (s : Server) : option Server :=
  match conns s !! c with
  | Some (Preparing req_id) =>
      match r with
      | Err _ => Some (set_conns (<[c:=Closed]> (conns s)) s)
      | Ok _ =>
          Some (set_guests ((req_id, wasi_store_for_request (server_env s) req_id) :: guests s)
                  (set_conns (<[c:=Answering req_id]> (conns s)) s))
      end
  | _ => None
  end.

(** The end of [handle_request]; the connection is kept alive after a response. *)
Definition answered (c : nat) (rx : Receiver unit) (task : TaskResult) (s : Server) : option Server :=
  match conns s !! c with
  | Some (Answering _) =>
      let next := match handle_response rx task with Done _ => Idle | _ => Closed end in
      Some (set_conns (<[c:=next]> (conns s)) s)
  | _ => None
  end.

(** The loop of [serve_conn], then [tracker.close] and [tracker.wait]. *)
Definition serve_step (e : ServerEvent) (s : Server) : option Server :=
  match server_phase s, e with
  | Returned, _ => None
  | Accepting, Accepted r =>
      match (tcp_accept r).1 with
      | Some _ => Some (set_conns (conns s ++ [Idle])%list s)
      | None => Some s
      end
  | Accepting, Cancelled => Some (set_phase Draining s)
  | _, Requested c => request c s
  | _, Prepared c r => prepared c r s
  | _, Answered c rx task => answered c rx task s
  | _, Hangup c =>
      match conns s !! c with
      | None | Some Closed => None
      | Some _ => Some (set_conns (<[c:=Closed]> (conns s)) s)
      end
  | _, GuestEnded g =>
      match guests s !! g with
      | None => None
      | Some _ => Some (set_guests (base.delete g (guests s)) s)
      end
  | Draining, Drained =>
      match guests s with
      | [] => if forallb (λ c, match c with Closed => true | _ => false end) (conns s)
              then Some (set_phase Returned s) else None
      | _ => None
      end
  | _, _ => None
  end.

Definition sstep (s s' : Server) : Prop := ∃ e, serve_step e s = Some s'.

Definition phase_rank (p : Phase) : nat :=
  match p with Accepting => 0 | Draining => 1 | Returned => 2 end.

(** What holds of two states of a server in this order. *)
Record later (s s' : Server) : Prop := {
  later_phase : (phase_rank (server_phase s) ≤ phase_rank (server_phase s'))%nat;
  later_closed : server_phase s ≠ Accepting → length (conns s') = length (conns s);
  later_env : server_env s' = server_env s;
}.

Ltac server_cases He :=
  unfold serve_step, request, prepared, answered, next_req_id in He;
  repeat case_match; simplify_eq/=.

Lemma sstep_later s s' : sstep s s' → later s s'.
Proof.
  intros [e He]. server_cases He; split; simpl; rewrite ?length_insert;
    repeat match goal with H : server_phase _ = _ |- _ => rewrite H end; simpl; try done; lia.
Qed.

Lemma later_steps s s' : rtc sstep s s' → later s s'.
Proof.
  induction 1 as [s|s1 s2 s3 H12 _ [H1 H2 H5]]; [by split|].
  destruct (sstep_later _ _ H12) as [H3 H4 H6]. split; [lia| |congruence].
  intros Hp. rewrite H2; [by apply H4|]. intros Hp2. rewrite Hp2 in H3.
  destruct (server_phase s1); simpl in *; [done|lia|lia].
Qed.

(** The server has returned only with nothing running. *)
Definition drained (s : Server) : Prop :=
  server_phase s = Returned → Forall (λ c, c = Closed) (conns s) ∧ guests s = [].

Lemma drained_step s s' : drained s → sstep s s' → drained s'.
Proof.
  intros _ [e He]. unfold drained. server_cases He; try congruence. intros _. split; [|done].
  match goal with H : forallb _ _ = true |- _ => rewrite forallb_forall in H; rename H into Hall end.
  apply Forall_forall. intros c Hc. apply Hall in Hc. by destruct c.
Qed.

(** C26: the shutdown is graceful: once it is requested no connection is accepted
    any more, and the server returns only when every connection has ended and
    every call of a guest has, even those whose connection was lost. *)
Theorem graceful_shutdown env s s' :
  rtc sstep (server_new env) s → rtc sstep s s' →
  (server_phase s ≠ Accepting →
     length (conns s') = length (conns s) ∧ server_phase s' ≠ Accepting) ∧
  (server_phase s' = Returned → Forall (λ c, c = Closed) (conns s') ∧ guests s' = []).
Proof.
  intros H1 H2. destruct (later_steps _ _ H2) as [H3 H4 _]. split.
  - intros Hp. split; [by apply H4|]. intros Hp'. rewrite Hp' in H3.
    destruct (server_phase s); simpl in *; [done|lia|lia].
  - assert (rtc sstep (server_new env) s') as H by (by etrans). clear H1 H2 H3 H4.
    change (drained s'). revert s' H. apply rtc_ind_r; [done|]. intros; by eapply drained_step.
Qed.

(** ** Request ids *)

Definition preparing_id (c : Conn) : option u64 :=
  match c with Preparing req_id => Some req_id | _ => None end.

(** The requests whose guest is being set up or is running. *)
Definition pending (s : Server) : list u64 :=
  (omap preparing_id (conns s) ++ (fst <$> guests s))%list.

Lemma preparing_insert l i x y :
  l !! i = Some x →
  (option_list (preparing_id x) ++ omap preparing_id (<[i:=y]> l))%list ≡ₚ
  (option_list (preparing_id y) ++ omap preparing_id l)%list.
Proof.
  intros Hi. rewrite insert_take_drop by (by eapply lookup_lt_Some).
  rewrite <-(take_drop_middle l i x Hi) at 3. rewrite !list.omap_app. simpl.
  destruct x, y; simpl; try done; solve_Permutation.
Qed.

Lemma stop_preparing l i x y (G : list u64) :
  l !! i = Some x → preparing_id y = None →
  (omap preparing_id (<[i:=y]> l) ++ G)%list ⊆+ (omap preparing_id l ++ G)%list.
Proof.
  intros Hi Hy. pose proof (preparing_insert l i x y Hi) as Hp. rewrite Hy in Hp. simpl in Hp.
  apply submseteq_skips_r. rewrite <-Hp. apply submseteq_inserts_l. done.
Qed.

(** A step hands out at most one id, to a request that was not pending, and
    removes any number of pending requests. *)
Lemma step_ids s s' :
  sstep s s' →
  (issued s' = issued s ∧ next_id s' = next_id s ∧ pending s' ⊆+ pending s) ∨
  (issued s' = (issued s ++ [next_id s])%list ∧ next_id s' = as_unsigned 64 (next_id s + 1) ∧
   pending s' ≡ₚ next_id s :: pending s).
Proof.
  intros [e He]. server_cases He; unfold pending; simpl;
    try (left; split; [done|split; [done|]]; by eapply stop_preparing);
    try (left; split; [done|split; [done|]]; done);
    try (left; split; [done|split; [done|]];
         apply submseteq_skips_l, fmap_submseteq, sublist_submseteq, sublist_delete);
    try match goal with H : conns s !! ?c = Some ?x |- context [<[_:=?y]> (conns s)] =>
      pose proof (preparing_insert (conns s) c x y H) as Hp; simpl in Hp end;
    try (right; split; [done|split; [done|]]; by rewrite Hp);
    try (left; split; [done|split; [done|]]; rewrite <-Hp; simpl;
         by rewrite <-Permutation_middle).
  left. split; [done|split; [done|]]. by rewrite list.omap_app, app_nil_r.
Qed.

(** The ids issued so far, and the guests that run under them. *)
Lemma issued_ids env s :
  rtc sstep (server_new env) s →
  pending s ⊆+ issued s ∧
  ∃ n, issued s = (λ i, as_unsigned 64 (Z.of_nat i)) <$> seq 0 n ∧
       next_id s = as_unsigned 64 (Z.of_nat n).
Proof.
  revert s. apply rtc_ind_r; [split; [done|by exists 0%nat]|].
  intros s1 s2 _ Hst (Hp & n & Hi & Hx). destruct (step_ids _ _ Hst) as [(E1 & E2 & E3)|(E1 & E2 & E3)].
  - rewrite E1, E2. split; [by etrans|by exists n].
  - rewrite E1, E2, E3. split.
    + rewrite <-Permutation_cons_append. by apply submseteq_skip.
    + exists (Datatypes.S n). rewrite seq_S, fmap_app, Hi, Hx. split; [done|].
      unfold as_unsigned. rewrite Zplus_mod_idemp_l. f_equal. lia.
Qed.

Lemma issued_unique n :
  (Z.of_nat n < 2 ^ 64)%Z → NoDup ((λ i, as_unsigned 64 (Z.of_nat i)) <$> seq 0 n).
Proof.
  intros Hn. apply NoDup_fmap_2_strong; [|apply NoDup_seq].
  intros x y Hx%elem_of_seq Hy%elem_of_seq. unfold as_unsigned.
  rewrite !Z.mod_small by lia. lia.
Qed.

(** The environment of a guest is that of the server and its own id. *)
Lemma guests_env env s :
  rtc sstep (server_new env) s →
  Forall (λ g, g.2 = wasi_store_for_request env g.1) (guests s).
Proof.
  intros Hs. assert (server_env s = env ∧
    Forall (λ g, g.2 = wasi_store_for_request env g.1) (guests s)) as [_ H]; [|done].
  revert s Hs. apply rtc_ind_r; [done|].
  intros s1 s2 _ [e He] [Henv Hg]. server_cases He; split; try done.
  all: try (by constructor).
  all: try (by apply Forall_delete).
  simpl. by match goal with H : guests s1 = [] |- _ => rewrite H end.
Qed.

(** C27: until the 64-bit counter wraps around, no two requests get the same
    number, so the guests that run at the same time are told apart by their
    [REQUEST_ID], which each finds after the environment of the server. *)
Theorem request_ids_unique env s :
  rtc sstep (server_new env) s → (Z.of_nat (length (issued s)) < 2 ^ 64)%Z →
  NoDup (issued s) ∧ NoDup (fst <$> guests s) ∧
  Forall (λ g, g.2 = (env ++ [("REQUEST_ID", pretty g.1)])%list) (guests s).
Proof.
  intros Hs Hlen. destruct (issued_ids env s Hs) as (Hp & n & Hi & _).
  assert (NoDup (issued s)) as Hn.
  { rewrite Hi in Hlen |- *. rewrite length_fmap, length_seq in Hlen. by apply issued_unique. }
  split; [done|]. split; [|exact (guests_env env s Hs)].
  apply submseteq_Permutation in Hp as [k Hk]. rewrite Hk in Hn. unfold pending in Hn.
  apply list.NoDup_app in Hn as [Hn _]. by apply list.NoDup_app in Hn as (_ & _ & Hn).
Qed.

(** ** Witnesses *)

Definition run_events (es : list ServerEvent) (s : Server) : option Server :=
  foldl (λ o e, o ≫= serve_step e) (Some s) es.

Lemma run_events_steps es s s' : run_events es s = Some s' → rtc sstep s s'.
Proof.
  revert s'. induction es as [|e es IH] using rev_ind; intros s'; unfold run_events.
  { intros [= <-]. constructor. }
  rewrite foldl_app. simpl. fold (run_events es s).
  destruct (run_events es s) as [s1|]; simpl; [|done]. intros He.
  eapply rtc_r; [by apply IH|]. by exists e.
Qed.

(** Two connections with a request each, one of which has lost its client. *)
Definition draining : Server :=
  mkServer Draining [] [Closed; Answering 1]
    [(1%Z, [("REQUEST_ID", "1")]); (0%Z, [("REQUEST_ID", "0")])] 2 [0%Z; 1%Z].
Definition returned : Server := mkServer Returned [] [Closed; Closed] [] 2 [0%Z; 1%Z].

Lemma draining_reachable : rtc sstep (server_new []) draining.
Proof.
  by apply (run_events_steps [Accepted (Ok tt); Accepted (Ok tt); Requested 0; Requested 1;
    Prepared 0 (Ok tt); Prepared 1 (Ok tt); Hangup 0; Cancelled]).
Qed.

Lemma graceful_shutdown_witness :
  (server_phase draining ≠ Accepting →
     length (conns returned) = length (conns draining) ∧ server_phase returned ≠ Accepting) ∧
  (server_phase returned = Returned →
     Forall (λ c, c = Closed) (conns returned) ∧ guests returned = []).
Proof.
  apply (graceful_shutdown [] draining returned draining_reachable).
  apply (run_events_steps [Answered 1 (Response_ tt) TaskOk; GuestEnded 1; GuestEnded 0;
    Hangup 1; Drained]). reflexivity.
Defined.

Lemma request_ids_unique_witness :
  NoDup (issued draining) ∧ NoDup (fst <$> guests draining) ∧
  Forall (λ g, g.2 = ([] ++ [("REQUEST_ID", pretty g.1)])%list) (guests draining).
Proof. apply (request_ids_unique [] draining draining_reachable). simpl. lia. Defined.

Definition context_http : WasiContext := {|
  ctx_spec := {| process := Some (mkProcess None
                   (Some ["WASMTIME_HTTP_BACKLOG=5"; "A=b"; "WASMTIME_HTTP_PROXY_SOCKET_ADDR=x"]));
                 root := None; hooks := None; annotations := None |};
  wasm_layers := []; platform := mkPlatform "wasi" "wasm" |}.

Lemma proxy_settings_consumed_witness :
  in_u32 5 ∧ ({["A" := "b"]} : gmap string string) !! "WASMTIME_HTTP_PROXY_SOCKET_ADDR" = None ∧
  ({["A" := "b"]} : gmap string string) !! "WASMTIME_HTTP_BACKLOG" = None ∧
  (∀ k, k ∉ ["WASMTIME_HTTP_PROXY_SOCKET_ADDR"; "WASMTIME_HTTP_BACKLOG"] →
        ({["A" := "b"]} : gmap string string) !! k = env_map context_http !! k).
Proof.
  apply (proxy_settings_consumed (λ _ : string, None) "0.0.0.0:8080" context_http "0.0.0.0:8080" 5
    {["A" := "b"]}). vm_compute. reflexivity.
Defined.
