(* ===== verification/Engines.v ===== *)
(** The wasmedge, wasmer and wamr engines (the [instance.rs] of their crates): how
    each maps the container's arguments, environment and entry point onto its
    SDK.  The SDKs are parameters; a run returns an exit code, fails, or panics. *)
From S2P Require Import Prelude Errors Sync Instance Paths Oci Context Engine Wasmtime.
Local Open Scope string_scope.

(** [source.as_bytes()?] and the like: stop at the first error. *)
Definition on_ok {A B : Type} (r : result string A) (k : A → outcome string B) : outcome string B :=
  match r with Ok a => k a | Err e => Failed e end.

(** [.context(msg)?] *)
Definition with_context {A : Type} (msg : string) (r : result string A) : result string A :=
  match r with Ok a => Ok a | Err _ => Err msg end.

(** [name.unwrap_or_else(|| "main".to_string())] *)
Definition module_name (e : Entrypoint) : string := unwrap_or (entry_name e) "main".

(** ** wasmedge *)

Class WasmEdgeSdk := {
  EdgeWasi : Type; EdgeModule : Type; EdgeVm : Type;
  wasi_create : list string → list string → list string → result string EdgeWasi;
  edge_from_bytes : list byte → result string EdgeModule;
  vm_new : EdgeWasi → result string EdgeVm;                  (* Store::new *)
  register_module : EdgeVm → string → EdgeModule → result string EdgeVm;
  run_func : EdgeVm → string → string → result string EdgeVm;
  wasi_exit_code : EdgeVm → u32;
}.

Definition wasmedge_run_wasi `{Fs, WasmEdgeSdk} (c : WasiContext) : outcome string i32 :=
  let e := entrypoint c in
  on_ok (wasi_create (ctx_args c) (envs c) ["/:/"]) (λ wasi,
  on_ok (as_bytes (source e)) (λ b,
  on_ok (edge_from_bytes b) (λ m,
  match vm_new wasi with
  | Err _ => Panicked "called `Result::unwrap()` on an `Err` value"
  | Ok vm =>
      on_ok (with_context "registering module" (register_module vm (module_name e) m)) (λ vm,
      on_ok (run_func vm (module_name e) (func e)) (λ vm,
      Done (as_i32 (wasi_exit_code vm))))
  end))).

(** ** wasmer *)

Class WasmerSdk := {
  WasmerModule : Type; WasmerInstance : Type;
  wasmer_from_binary : list byte → result string WasmerModule;
  wasmer_instantiate : string → list string → list (string * string) → WasmerModule →
                       result string WasmerInstance;
  wasmer_function : WasmerInstance → string → result string (unit → result WasmError unit);
}.

Definition wasmer_envs (c : WasiContext) : list (string * string) :=
  (λ v, match split_once "=" v with None => (v, "") | Some kv => kv end) <$> envs c.

(** [&args[1..]] *)
Definition args_from_1 (args : list string) : option (list string) :=
  match args with [] => None | _ :: rest => Some rest end.

Definition wasmer_run_wasi `{Fs, WasmerSdk} (c : WasiContext) : outcome string i32 :=
  let e := entrypoint c in
  on_ok (as_bytes (source e)) (λ b,
  on_ok (wasmer_from_binary b) (λ m,
  match args_from_1 (ctx_args c) with
  | None => Panicked "range start index 1 out of range for slice of length 0"
  | Some args =>
      on_ok (wasmer_instantiate (module_name e) args (wasmer_envs c) m) (λ i,
      on_ok (wasmer_function i (func e)) (λ f,
      match f tt with
      | Ok _ => Done 0%Z
      | Err (I32Exit code) => Done code
      | Err (OtherError msg) => Failed msg
      end))
  end)).

(** ** wamr *)

Class WamrSdk := {
  WamrModule : Type; WamrInstance : Type;
  wamr_from_buf : list byte → string → result string WamrModule;
  wamr_instance : WamrModule → list string → list string → list string → Z →
                  result string WamrInstance;               (* preopen, envs, args, stack *)
  find_export_func : WamrInstance → string → result string (unit → result string unit);
}.

Definition wamr_run_wasi `{Fs, WamrSdk} (c : WasiContext) : outcome string i32 :=
  let e := entrypoint c in
  on_ok (with_context "Failed to get bytes from source" (as_bytes (source e))) (λ b,
  on_ok (with_context "Failed to create module from bytes" (wamr_from_buf b (module_name e))) (λ m,
  on_ok (with_context "Failed to create instance"
           (wamr_instance m ["/"] (envs c) (ctx_args c) (1024 * 64))) (λ i,
  on_ok (with_context "Failed to find function" (find_export_func i (func e))) (λ f,
  on_ok (with_context "Failed to call function" (f tt)) (λ _, Done 0%Z))))).

(** ** Properties *)

(** A container whose process has no arguments is accepted by the default
    [can_handle] when its image has wasm layers, but the wasmer engine panics on
    it: it takes the arguments from the second on without checking that there is
    a first. *)
Theorem wasmer_panics_without_args `{F : Fs, WasmerSdk} wat c l m :
  wasm_layers c = [l] → ctx_args c = [] → wasmer_from_binary (layer l) = Ok m →
  default_can_handle wat c = Ok tt ∧
  wasmer_run_wasi c = Panicked "range start index 1 out of range for slice of length 0".
Proof.
  intros Hl Ha Hm.
  assert (source (entrypoint c) = OciLayers [l]) as Hs.
  { unfold entrypoint. rewrite Hl. by destruct (unwrap_or (split_once _ _) _). }
  split.
  - unfold default_can_handle. by rewrite Hs.
  - unfold wasmer_run_wasi. rewrite Hs. simpl. rewrite Hm. simpl. by rewrite Ha.
Qed.

(** The engines that split [NAME=VALUE] themselves split it alike. *)
Theorem engines_agree_on_environment c : wasmer_envs c = envs_from_ctx c.
Proof.
  unfold wasmer_envs, envs_from_ctx. apply list_fmap_ext. intros _ v _.
  by destruct (split_once "=" v).
Qed.

#[export] Instance toy_wasmer : WasmerSdk := {|
  WasmerModule := list byte; WasmerInstance := list byte;
  wasmer_from_binary b := Ok b;
  wasmer_instantiate _ _ _ m := Ok m;
  wasmer_function _ _ := Ok (λ _, Ok tt);
|}.

Definition no_args_context : WasiContext := {|
  ctx_spec := {| process := None; root := None; hooks := None; annotations := None |};
  wasm_layers := [mkLayer (mkDescriptor "application/wasm" "sha256:x" 1) [1]%Z];
  platform := mkPlatform "wasi" "wasm" |}.

Lemma wasmer_panics_without_args_witness :
  default_can_handle (F := fs0) (λ _, Ok tt) no_args_context = Ok tt ∧
  wasmer_run_wasi (H := fs0) no_args_context =
    Panicked "range start index 1 out of range for slice of length 0".
Proof.
  exact (wasmer_panics_without_args (F := fs0) (λ _, Ok tt) no_args_context _ [1]%Z
    eq_refl eq_refl eq_refl).
Defined.
