(* ===== verification/Cli.v ===== *)
(** The command line of a shim (sandbox/shim/cli.rs and sandbox/cli.rs): grouping of
    shims by pod, the answer of [delete], [shim_main] with the version flag, tracing
    and the memory figures that it logs; and the publisher of events
    (sandbox/shim/events.rs). *)
From S2P Require Import Prelude Errors TaskState Sync Instance Cells InstanceData Paths Text Oci Local Context Engine Wasmtime HttpProxy Telemetry.
Local Open Scope string_scope.

(** ** shim/cli.rs *)

Record Cli := mkCli { cli_namespace : string; cli_address : string; cli_id : string }.

(** [Cli::new], from the flags that containerd passes. *)
Definition cli_new (namespace address id : string) : Cli := mkCli namespace address id.

(** The group of a container: its sandbox, or the container itself. *)
Definition grouping (spec : Spec) (id : string) : string :=
  default id (annotations spec ≫= λ a, a !! "io.kubernetes.cri.sandbox-id").

Section start.
(** [containerd_shim]: the shim process is spawned for a group, and its address
    is written to a file. *)
Context {W : Type} (shim_current_dir : prog W string path) (load_spec : path → prog W string Spec)
  (shim_spawn : string → string → prog W ShimError string)
  (write_address : string → prog W ShimError unit).
Local Open Scope prog_scope.

Definition start_shim (id : string) : prog W ShimError string :=
  let! dir := map_err ShimOther shim_current_dir in
  let! spec := map_err (λ e, ShimInvalidArgument ("error loading runtime spec: " +:+ e))
                 (load_spec (path_join dir "config.json")) in
  let! address := shim_spawn id (grouping spec id) in
  write_address address ;;
  Ret address.

(** The shims of one pod share a group: the group of a container depends only
    on its sandbox when it has one, and is its own id otherwise; the address
    that is returned is the one that was written. *)
Theorem start_shim_groups id spec dir sid w w1 w2 w3 w4 addr :
  run shim_current_dir w = (Done dir, w1, []) →
  run (load_spec (path_join dir "config.json")) w1 = (Done spec, w2, []) →
  (annotations spec ≫= λ a, a !! "io.kubernetes.cri.sandbox-id") = sid →
  run (shim_spawn id (default id sid)) w2 = (Done addr, w3, []) →
  run (write_address addr) w3 = (Done tt, w4, []) →
  run (start_shim id) w = (Done addr, w4, []).
Proof.
  intros H1 H2 Hs H3 H4. unfold start_shim, grouping.
  rewrite run_bind, run_map_err, H1. go.
  rewrite run_bind, run_map_err, H2. go. rewrite Hs.
  rewrite run_bind, H3. go. by rewrite run_bind, H4.
Qed.
End start.

Definition create_task_service {W : Type} {I : Instance W} (c : Cli) (w : W) : Local I :=
  Local_new w (cli_namespace c) (cli_address c).

(** [wait]: until the service has signalled the exit of the shim. *)
Definition cli_wait {W : Type} {I : Instance W} {E : Type} : prog (Local I) E unit :=
  await (λ s, if exit_signaled s then Some (tt, s) else None).

(** Left alone, a shim that is asked to shut down exits exactly if it has no tasks; the
    request is answered either way. *)
Lemma shutdown_ends_wait {W : Type} {I : Instance W} {H : Host W} (s : Local I) :
  exit_signaled s = false →
  let s' := (run (E := Error) shutdown s).1.2 in
  (run (E := Error) shutdown s).1.1 = Done tt ∧
  ((run (E := Error) cli_wait s').1.1 = Done tt ↔ instances s = ∅) ∧ instances s' = instances s.
Proof.
  intros Hs. unfold shutdown, is_empty. rewrite run_bind. go. simpl.
  case_bool_decide as He; simpl; [done|]. rewrite Hs. simpl. split; [done|]. by split; [split|].
Qed.

(** [delete_shim]: the answer for a shim that is gone. *)
Definition delete_shim (now : DateTime) : DeleteResponse :=
  mkDeleteResp 0 137 (Some (to_timestamp now)).

(** ** sandbox/cli.rs *)

(** The id under which [shim_main_inner] runs the shim. *)
Definition shim_id (name : string) (shim_version : option string) : string :=
  "io.containerd." +:+ to_lowercase name +:+ "." +:+ unwrap_or shim_version "v1".

(** A line [VmPeak: n kB]; [old] is what the line replaces. *)
Definition memory_field (rest : string) (old : usize) : usize :=
  match strip_suffix "kB" rest with
  | Some r => default 0%Z (parse_unsigned 64 (trim r))
  | None => old
  end.

Definition memory_line (acc : usize * usize) (line : string) : usize * usize :=
  let '(rss, total) := acc in
  let line := trim line in
  match strip_prefix "VmPeak:" line with
  | Some rest => (rss, memory_field rest total)
  | None =>
      match strip_prefix "VmHWM:" line with
      | Some rest => (memory_field rest rss, total)
      | None => (rss, total)
      end
  end.

(** [get_mem], on the lines of [/proc/<pid>/status]. *)
Definition get_mem (lines : list string) : usize * usize := foldl memory_line (0, 0)%Z lines.

Example get_mem_example :
  get_mem ["Name:	shim"; "VmPeak:	  123456 kB"; "VmSize:	 1 kB"; "VmHWM:	    7890 kB"] =
  (7890, 123456)%Z.
Proof. vm_compute. reflexivity. Qed.

Example shim_id_example : shim_id "Wasmtime" None = "io.containerd.wasmtime.v1".
Proof. done. Qed.

(** The memory figures are always in the range of a [usize], whatever the
    kernel prints, and lines about anything else do not change them. *)
Theorem get_mem_bounded lines :
  let '(rss, total) := get_mem lines in
  (0 ≤ rss < 2 ^ 64)%Z ∧ (0 ≤ total < 2 ^ 64)%Z ∧
  ∀ line, strip_prefix "VmPeak:" (trim line) = None → strip_prefix "VmHWM:" (trim line) = None →
    get_mem (lines ++ [line]) = (rss, total).
Proof.
  assert (∀ rest old, (0 ≤ old < 2 ^ 64)%Z → (0 ≤ memory_field rest old < 2 ^ 64)%Z) as Hf.
  { intros rest old Hold. unfold memory_field. destruct (strip_suffix "kB" rest) as [r|]; [|done].
    destruct (parse_unsigned 64 (trim r)) as [v|] eqn:Hv; simpl; [|lia].
    by apply parse_unsigned_range in Hv. }
  destruct (get_mem lines) as [rss total] eqn:Hm.
  assert ((0 ≤ rss < 2 ^ 64) ∧ (0 ≤ total < 2 ^ 64))%Z as [Hr Ht].
  { revert rss total Hm. induction lines as [|line lines IH] using rev_ind; intros rss total.
    { intros [= <- <-]. lia. }
    unfold get_mem in *. rewrite foldl_app. cbn [foldl].
    destruct (foldl memory_line (0%Z, 0%Z) lines) as [r0 t0]. destruct (IH r0 t0 eq_refl) as [H1 H2].
    unfold memory_line. destruct (strip_prefix "VmPeak:" (trim line)); [intros [= <- <-]; auto|].
    destruct (strip_prefix "VmHWM:" (trim line)); intros [= <- <-]; auto. }
  split; [done|]. split; [done|]. intros line H1 H2. unfold get_mem in *.
  rewrite foldl_app, Hm. cbn [foldl]. unfold memory_line. by rewrite H1, H2.
Qed.

Lemma start_shim_groups_witness :
  run (start_shim (W := unit) (Ret "/run") (λ _, Ret (mkSpec None None None
         (Some {["io.kubernetes.cri.sandbox-id" := "pod"]}))) (λ _ g, Ret ("unix:" +:+ g))
         (λ _, Ret tt) "c1") tt = (Done "unix:pod", tt, []).
Proof.
  apply (start_shim_groups (W := unit) (Ret "/run") (λ _, Ret (mkSpec None None None
         (Some {["io.kubernetes.cri.sandbox-id" := "pod"]}))) (λ _ g, Ret ("unix:" +:+ g))
         (λ _, Ret tt) "c1" (mkSpec None None None
         (Some {["io.kubernetes.cri.sandbox-id" := "pod"]})) "/run" (Some "pod") tt tt tt tt tt);
    reflexivity.
Defined.

(** *** shim_main

    The process ends in [std::process::exit], which runs no destructor; it is the
    error of these programs. *)
Inductive Stop := ProcessExit (code : Z).

(** What the parser of [containerd_shim] gives back. *)
Record Flags := mkFlags_ { flag_version : bool; flag_namespace : string; flag_address : string;
                           flag_id : string }.

(** The process: its environment, arguments and output; [Zygote], the parser and
    the [run] of [containerd_shim]. *)
Class Process_ (W : Type) := {
  proc_env : W → Env;
  put_env : Env → W → W;
  env_lens :: Lens proc_env put_env;
  args_os : W → list string;
  println : string → W → W;
  log_info : string → W → W;
  parse_flags : list string → result string Flags;
  zygote_init : prog W Empty_set unit;
  runtime_new : prog W string unit;                      (* tokio's Runtime::new *)
  zygote_pid : prog W Empty_set u32;                     (* Zygote::global().run(id) *)
  own_id : W → u32;
  proc_status : u32 → W → result string string;          (* /proc/<pid>/status *)
  run_shim : string → prog W Empty_set unit;             (* containerd_shim::run *)
}.

Section main.
Context {W : Type} {PR : Process_ W} {O : OtelSdk W}
  (utf8 : string → bool) (protocol_default : string)
  (opentelemetry : bool)                                 (* the cargo feature *)
  (name version : string) (revision shim_version : option string).
Local Open Scope prog_scope.

(** [TRACECONTEXT] is inherited: the first process sets it, the others adopt it. *)
Definition inherit_trace_context {E : Type} : prog W E unit :=
  let! ctx := gets (λ w, env_var utf8 (proc_env w) "TRACECONTEXT") in
  match ctx with
  | Some ctx => unwrap (set_trace_context ctx)
  | None =>
      let! ctx := unwrap get_trace_context in
      modify (λ w, put_env (<["TRACECONTEXT" := ctx]> (proc_env w)) w)
  end.

(** The lines that [-v] prints. *)
Definition version_lines (argv0 : string) : list string :=
  [argv0 +:+ ":"; "  Runtime: " +:+ name; "  Version: " +:+ version;
   "  Revision: " +:+ unwrap_or revision "<none>"; ""].

Definition shim_main_inner : prog W Stop unit :=
  (if opentelemetry then inherit_trace_context else Ret tt) ;;
  let! os_args := gets args_os in
  match os_args with
  | [] => Panic "range start index 1 out of range for slice of length 0"
  | argv0 :: args =>
      let! flags := unwrap (lift_result (parse_flags args)) in
      let argv0 := unwrap_or (file_stem argv0) "" in
      if flag_version flags then
        modify (λ w, fold_left (λ w l, println l w) (version_lines argv0) w) ;;
        Throw (ProcessExit 0)
      else infallible (run_shim (shim_id name shim_version))
  end.

Definition memory_line_of (who : string) (m : usize * usize) : string :=
  who +:+ " peak memory usage was: peak resident set " +:+ pretty m.1 +:+ " kB, peak total " +:+
  pretty m.2 +:+ " kB".

(** [log_mem]: the memory of the shim and of the zygote. *)
Definition log_mem : prog W Stop unit :=
  let log_of (who : string) (pid : u32) : prog W Stop unit :=
    let! r := gets (proc_status pid) in
    let! text := unwrap (lift_result r) in
    modify (log_info (memory_line_of who (get_mem (lines text)))) in
  let! pid := gets own_id in
  log_of "Shim" pid ;;
  let! pid := infallible zygote_pid in
  log_of "Zygote" pid.

(** The guard is dropped when [p] returns and when it panics, not when the process
    exits. *)
Definition with_guard (p : prog W Stop unit) : prog W Stop unit :=
  let! r := finally (attempt (E' := Stop) p) (Ret tt) drop_otel in
  match r with
  | Ok _ => drop_otel
  | Err e => Throw e
  end.

Definition shim_main : prog W Stop unit :=
  infallible zygote_init ;;
  let! env := gets proc_env in
  (if opentelemetry && traces_enabled env then
     unwrap runtime_new ;;
     let! config := expect "Failed to build OtelConfig."
       (let! env := gets proc_env in lift_result (build_from_env utf8 protocol_default env)) in
     expect "Failed to initialize OpenTelemetry." (otel_init config) ;;
     with_guard shim_main_inner
   else shim_main_inner) ;;
  log_mem.
End main.

(** ** The commands of the four shims *)

(** [revision!()]: [git describe] at build time, if the source was in a repository. *)
Definition revision_macro (git_version : string) : option string :=
  match git_version with "" => None | version => Some version end.

Section mains.
Context {W : Type} {PR : Process_ W} {O : OtelSdk W}
  (utf8 : string → bool) (protocol_default : string) (opentelemetry : bool)
  (cargo_pkg_version git_version : string)                (* of the crate that is built *)
  (windows : bool).                                       (* the target *)

Definition wasmtime_main : prog W Stop unit :=
  shim_main utf8 protocol_default opentelemetry "wasmtime" cargo_pkg_version
    (revision_macro git_version) (Some "v1").
Definition wasmedge_main : prog W Stop unit :=
  shim_main utf8 protocol_default opentelemetry "wasmedge" cargo_pkg_version
    (revision_macro git_version) (Some "v1").
Definition wasmer_main : prog W Stop unit :=
  shim_main utf8 protocol_default opentelemetry "wasmer" cargo_pkg_version
    (revision_macro git_version) (Some "v1").
Definition wamr_main : prog W Stop unit :=
  if windows then Panic "WAMR shim is not supported on Windows"
  else shim_main utf8 protocol_default opentelemetry "wamr" cargo_pkg_version
         (revision_macro git_version) (Some "v1").
End mains.

(** ** events.rs *)

(** [RemoteEventSender]: publishing is best effort, a failure is logged. *)
Definition send_event {W : Type} (topic : Event → string)
    (publish : string → string → Event → prog W string unit) (warn : string → W → W)
    (namespace : string) (event : Event) : prog W Empty_set unit :=
  bind (attempt (publish (topic event) namespace event)) (λ r,
    match r with
    | Ok _ => Ret tt
    | Err e => modify (warn ("failed to publish event, topic: " +:+ topic event +:+ ": " +:+ e))
    end).

(** *** Properties of [shim_main] *)

Section main_properties.
Context {W : Type} {PR : Process_ W} {O : OtelSdk W} (utf8 : string → bool)
  (opentelemetry : bool) (name version : string) (revision shim_version : option string).
Implicit Types (w v : W).

(** C40: a trace spans the processes of a shim.  The process that containerd starts has
    no [TRACECONTEXT] and sets it to the context of its span; every process that
    inherits this environment gets that context, as the propagator carries it, as
    the parent of its span, and passes the environment on unchanged. *)
Theorem trace_context_is_inherited w v text :
  (∀ m t, map_to_json m = Ok t → utf8 t = true ∧ map_from_json t = Ok m) →
  env_var utf8 (proc_env w) "TRACECONTEXT" = None →
  map_to_json (inject (current_context w)) = Ok text →
  proc_env v = proc_env (run (inherit_trace_context utf8 (E := Stop)) w).1.2 →
  run (inherit_trace_context utf8 (E := Stop)) w =
    (Done tt, put_env (<["TRACECONTEXT" := text]> (proc_env w)) w, []) ∧
  run (inherit_trace_context utf8 (E := Stop)) v =
    (Done tt, set_parent (extract_map (inject (current_context w))) v, []).
Proof.
  intros Hjson Hnone Htext. destruct (Hjson _ _ Htext) as [Hutf Hback].
  assert (run (inherit_trace_context utf8 (E := Stop)) w =
    (Done tt, put_env (<["TRACECONTEXT" := text]> (proc_env w)) w, [])) as Hw.
  { unfold inherit_trace_context. rewrite run_bind. go. rewrite Hnone, run_bind.
    rewrite (run_expect _ _ _ text w []); [by go|].
    unfold get_trace_context. rewrite run_bind. go. by rewrite Htext. }
  rewrite Hw. cbn [fst snd]. rewrite (lens_get_put (Lens := env_lens)). intros Hv. split; [done|].
  unfold inherit_trace_context. rewrite run_bind. go. unfold env_var at 1.
  rewrite Hv, lookup_insert_eq, Hutf.
  rewrite (run_expect _ _ _ tt (set_parent (extract_map (inject (current_context w))) v) []); [done|].
  unfold set_trace_context. rewrite run_bind, Hback. by go.
Qed.

(** With [-v] the version is printed and the process exits with 0, before any shim
    runs; otherwise the shim runs under its id. *)
Lemma run_shim_main_inner w w1 ts argv0 args flags :
  run (if opentelemetry then inherit_trace_context utf8 (E := Stop) else Ret tt) w = (Done tt, w1, ts) →
  args_os w1 = argv0 :: args → parse_flags args = Ok flags →
  run (shim_main_inner utf8 opentelemetry name version revision shim_version) w =
  if flag_version flags then
    (Failed (ProcessExit 0),
     fold_left (λ w l, println l w) (version_lines name version revision (unwrap_or (file_stem argv0) "")) w1,
     ts)
  else and_then (Done tt, w1, ts) (λ _, run (infallible (run_shim (shim_id name shim_version)))).
Proof.
  intros Hw Hargs Hflags. unfold shim_main_inner. rewrite run_bind, Hw. unfold and_then.
  rewrite run_bind. go. rewrite Hargs, run_bind, Hflags, (run_expect _ _ _ flags w1 []) by done. go.
  destruct (flag_version flags); [rewrite run_bind; go; by rewrite app_nil_r|].
  by destruct (run (infallible _) w1) as [[??]?].
Qed.

(** The guard of the tracer: pending traces are flushed when the shim returns or
    panics, and are lost when it exits early. *)
Lemma run_with_guard (p : prog W Stop unit) w :
  run (with_guard p) w =
  let '(o, w1, ts) := run p w in
  match o with
  | Done _ => and_then (Done tt, w1, ts) (λ _, run drop_otel)
  | Panicked m => and_then (Done tt, w1, ts)
                    (λ _ w, and_then (run drop_otel w) (λ _ w, (Panicked m, w, [])))
  | o => (o, w1, ts)
  end.
Proof.
  unfold with_guard. rewrite run_bind, run_finally, run_attempt.
  destruct (run p w) as [[[[]|e|m|] w1] ts]; go; rewrite ?app_nil_r; try done.
  destruct (run drop_otel w1) as [[[?|?|?|] ?] ?]; go; by rewrite ?app_nil_r.
Qed.
End main_properties.

(** A shim without tracing that is not asked for its version serves under its id, and
    logs the memory figures when it returns. *)
Lemma run_shim_main_serves {W : Type} {PR : Process_ W} {O : OtelSdk W} utf8 protocol_default
    name version revision shim_version (w w1 w2 : W) ts1 ts2 argv0 args flags :
  run (infallible (E := Stop) zygote_init) w = (Done tt, w1, ts1) →
  args_os w1 = argv0 :: args → parse_flags args = Ok flags → flag_version flags = false →
  run (infallible (E := Stop) (run_shim (shim_id name shim_version))) w1 = (Done tt, w2, ts2) →
  run (shim_main utf8 protocol_default false name version revision shim_version) w =
  and_then (Done tt, w2, (ts1 ++ ts2)%list) (λ _, run log_mem).
Proof.
  intros Hz Ha Hf Hv Hs. unfold shim_main. rewrite run_bind, Hz. unfold and_then at 1.
  rewrite run_bind. go. cbn [andb]. rewrite run_bind.
  rewrite (run_shim_main_inner utf8 false name version revision shim_version w1 w1 [] argv0 args flags)
    by done.
  rewrite Hv. cbn [and_then]. rewrite Hs. cbn [and_then app].
  destruct (run log_mem w2) as [[o w3] ts3]. cbn. by rewrite <-app_assoc.
Qed.

(** The four shims register under different ids, [io.containerd.<engine>.v1]. *)
Lemma shim_ids_differ :
  let ids := (λ name, shim_id name (Some "v1")) <$> ["wasmtime"; "wasmedge"; "wasmer"; "wamr"] in
  NoDup ids ∧ ids = (λ name, "io.containerd." +:+ name +:+ ".v1") <$> ["wasmtime"; "wasmedge"; "wasmer"; "wamr"].
Proof. split; [|done]. apply (bool_decide_eq_true (NoDup _)). vm_compute. reflexivity. Qed.

(** A failure to publish does not stop the service. *)
Lemma run_send_event {W : Type} topic publish warn ns event (w w1 : W) ts r :
  run (publish (topic event) ns event) w = (r, w1, ts) → (∃ a, r = Done a) ∨ (∃ e, r = Failed e) →
  ∃ w2, run (send_event topic publish warn ns event) w = (Done tt, w2, ts).
Proof.
  intros Hp Hr. unfold send_event. rewrite run_bind, run_attempt, Hp.
  destruct Hr as [[a ->]|[e ->]]; go; rewrite app_nil_r; eauto.
Qed.

(** *** A process *)

Record toy_process := mkToyProcess { tp_env : Env; tp_context : string; tp_parent : option string }.

#[local] Instance tp_lens : Lens tp_env (λ e w, mkToyProcess e (tp_context w) (tp_parent w)).
Proof. by split; [..|intros []]. Qed.

#[local] Instance toy_proc : Process_ toy_process := {|
  proc_env := tp_env; put_env e w := mkToyProcess e (tp_context w) (tp_parent w);
  args_os _ := ["/bin/containerd-shim-wasmtime-v1"; "-v"]; println _ w := w; log_info _ w := w;
  parse_flags args := Ok (mkFlags_ (bool_decide (args = ["-v"])) "" "" "");
  zygote_init := Ret tt; runtime_new := Ret tt; zygote_pid := Ret 2%Z; own_id _ := 1%Z; proc_status _ _ := Ok "";
  run_shim _ := Ret tt |}.

(** One header, whose JSON is its value. *)
#[local] Instance toy_otel : OtelSdk toy_process := {|
  Tracer := unit; TraceContext := string; install_batch _ := Ret tt; set_propagator := Ret tt;
  env_filter _ := Ok tt; set_global_default _ := Ret tt; shutdown_tracer_provider := Ret tt;
  current_context := tp_context; set_parent c w := mkToyProcess (tp_env w) (tp_context w) (Some c);
  inject c := {["traceparent" := c]}; extract f l := default "" (f "traceparent");
  map_to_json m := if decide (m = {["traceparent" := default "" (m !! "traceparent")]})
                   then Ok (default "" (m !! "traceparent")) else Err "not text";
  map_from_json t := Ok {["traceparent" := t]} |}.

Lemma trace_context_is_inherited_witness :
  run (inherit_trace_context (λ _, true) (E := Stop)) (mkToyProcess ∅ "00-ab" None) =
    (Done tt, mkToyProcess {["TRACECONTEXT" := "00-ab"]} "00-ab" None, []) ∧
  run (inherit_trace_context (λ _, true) (E := Stop)) (mkToyProcess {["TRACECONTEXT" := "00-ab"]} "00-cd" None) =
    (Done tt, mkToyProcess {["TRACECONTEXT" := "00-ab"]} "00-cd" (Some "00-ab"), []).
Proof.
  destruct (trace_context_is_inherited (λ _, true) (mkToyProcess ∅ "00-ab" None)
    (mkToyProcess {["TRACECONTEXT" := "00-ab"]} "00-cd" None) "00-ab") as [H1 H2].
  - intros m t. simpl. destruct (decide _) as [Hm|]; [|discriminate]. intros [= <-].
    split; [reflexivity|]. by rewrite <-Hm.
  - reflexivity.
  - vm_compute. reflexivity.
  - vm_compute. reflexivity.
  - split; [rewrite H1|rewrite H2]; vm_compute; reflexivity.
Defined.
