(* ===== verification/StressTest.v ===== *)
(** The stress test (crates/stress-test/src/main.rs and utils.rs): many tasks are
    set up, wait for each other at a barrier, share a limited number of slots
    while they are created and started, and are counted as they finish.

    [sstep] is one step of [run_stress_test]: a future of the pool makes
    progress, or a branch of the [select!] of the main loop is taken. *)
From S2P Require Import Prelude.
Local Open Scope string_scope.

(** ** utils.rs *)

(** [make_task_id]: [COUNTER.fetch_add(1)] wraps at the width of [usize]. *)
Definition make_task_id (pid : u32) (counter : usize) : string * usize :=
  ("shim-stress-test-" +:+ pretty pid +:+ "-task-" +:+ pretty counter, as_usize (counter + 1)).

(** [RunOnce::try_run], once it holds its mutex, which it keeps to the end: the
    flag is set only when the future succeeded. *)
Definition try_run {S E : Type} (get : S → bool) (set : S → S) (fut : prog S E unit) : prog S E unit :=
  bind (gets get) (λ done : bool,
    if negb done then bind fut (λ _, modify set) else Ret tt).

(** [watchdog]: when it fires, if it does. *)
Definition watchdog (timeout : N) : option N := if bool_decide (timeout = 0%N) then None else Some timeout.

(** ** main.rs *)

(** Where the future of a task is. *)
Inductive Progress :=
| Setup                 (* shim.task(image, args) *)
| AtBarrier             (* barrier.wait() *)
| Acquiring             (* semaphore.acquire_owned() *)
| Holding               (* task.create, task.start: it holds a permit *)
| Waiting               (* task.wait *)
| Deleting_             (* task.delete *)
| Finished (ok : bool)  (* its result is in the pool *)
| Collected (ok : bool).  (* the main loop has taken it *)

#[export] Instance Progress_eq_dec : EqDecision Progress.
Proof. solve_decision. Defined.

Inductive Ending := AllCollected | TimedOut_ | Cancelled_.

Record Stress := mkStress {
  futures : list Progress;
  permits : nat;
  watched : bool;            (* the timeout is not zero *)
  barrier_open : bool;       (* count tasks and the main loop have arrived *)
  setup_done : bool;         (* the main loop has seen that *)
  started : bool;            (* the OnceCell start is set *)
  success : nat;
  failed : nat;
  incomplete : nat;
  ended : option Ending;
}.

(** [let permits = if parallel == 0 { count } else { parallel }] *)
Definition initial (count parallel : nat) (timeout : N) : Stress :=
  mkStress (replicate count Setup) (if bool_decide (parallel = 0%nat) then count else parallel)
    (bool_decide (watchdog timeout ≠ None)) false false false 0 0 count None.

Definition set_future (i : nat) (p : Progress) (s : Stress) : Stress :=
  mkStress (<[i:=p]> (futures s)) (permits s) (watched s) (barrier_open s) (setup_done s) (started s)
    (success s) (failed s) (incomplete s) (ended s).

Definition set_ended (e : Ending) (s : Stress) : Stress :=
  mkStress (futures s) (permits s) (watched s) (barrier_open s) (setup_done s) (started s)
    (success s) (failed s) (incomplete s) (Some e).

(** [start.set(Instant::now())], which keeps the first time. *)
Definition set_started (s : Stress) : Stress :=
  mkStress (futures s) (permits s) (watched s) (barrier_open s) (setup_done s) true
    (success s) (failed s) (incomplete s) (ended s).

Definition holding (s : Stress) : nat := length (filter (λ p, p = Holding) (futures s)).

(** A future of the pool goes from [p] to [p']; an error of a call ends it. *)
Inductive advance : Progress → Progress → Prop :=
| adv_setup : advance Setup AtBarrier
| adv_setup_err : advance Setup (Finished false)
| adv_started : advance Holding Waiting
| adv_start_err : advance Holding (Finished false)
| adv_waited : advance Waiting Deleting_
| adv_wait_err : advance Waiting (Finished false)
| adv_deleted : advance Deleting_ (Finished true)
| adv_delete_err : advance Deleting_ (Finished false).

Inductive sstep : Stress → Stress → Prop :=
| st_advance s i p p' :
    ended s = None → futures s !! i = Some p → advance p p' → sstep s (set_future i p' s)
| st_acquire s i :
    ended s = None → futures s !! i = Some Acquiring → (holding s < permits s)%nat →
    sstep s (set_started (set_future i Holding s))
| st_barrier s :
    ended s = None → barrier_open s = false → Forall (λ p, p = AtBarrier) (futures s) →
    sstep s (mkStress ((λ _, Acquiring) <$> futures s) (permits s) (watched s) true (setup_done s)
               (started s) (success s) (failed s) (incomplete s) None)
| st_setup_done s :
    ended s = None → barrier_open s = true → setup_done s = false →
    sstep s (mkStress (futures s) (permits s) (watched s) true true
               (started s) (success s) (failed s) (incomplete s) None)
| st_collect s i ok :
    ended s = None → futures s !! i = Some (Finished ok) →
    sstep s (mkStress (<[i:=Collected ok]> (futures s)) (permits s) (watched s) (barrier_open s)
               (setup_done s) (started s)
               (if ok then success s + 1 else success s)%nat
               (if ok then failed s else failed s + 1)%nat (incomplete s - 1) None)
| st_empty s :
    ended s = None → Forall (λ p, ∃ ok, p = Collected ok) (futures s) →
    sstep s (set_ended AllCollected s)
| st_timeout s :
    ended s = None → watched s = true → setup_done s = true → sstep s (set_ended TimedOut_ s)
| st_cancel s : ended s = None → sstep s (set_ended Cancelled_ s).

(** After the loop. *)
Definition verdict (count : nat) (s : Stress) : outcome string unit :=
  if negb (bool_decide (success s = count)) then Failed "Some tasks did not succeed"
  else if started s then Done tt
  else Panicked "called `Option::unwrap()` on a `None` value".

(** ** Counting *)

Definition collected (ok : bool) (s : Stress) : nat :=
  length (filter (λ p, p = Collected ok) (futures s)).

Lemma filter_insert_length (P : Progress → Prop) `{!∀ p, Decision (P p)} l i p p' :
  l !! i = Some p →
  (length (filter P (<[i:=p']> l)) + (if decide (P p) then 1 else 0) =
   length (filter P l) + (if decide (P p') then 1 else 0))%nat.
Proof.
  intros Hi. rewrite insert_take_drop by (by eapply lookup_lt_Some).
  rewrite <-(take_drop_middle l i p Hi) at 3.
  rewrite !list.filter_app, !filter_cons, !length_app. repeat case_decide; simpl; lia.
Qed.

(** The counters are right, before the barrier no task is past it, and the first
    task past it has set the start time. *)
Record sound (count : nat) (s : Stress) : Prop := {
  sound_length : length (futures s) = count;
  sound_success : success s = collected true s;
  sound_failed : failed s = collected false s;
  sound_total : (success s + failed s + incomplete s = count)%nat;
  sound_permits : (holding s ≤ permits s)%nat;
  sound_barrier : barrier_open s = false → setup_done s = false ∧
    Forall (λ p, p ∈ [Setup; AtBarrier; Finished false; Collected false]) (futures s);
  sound_started : started s = false →
    Forall (λ p, p ∉ [Holding; Waiting; Deleting_; Finished true; Collected true]) (futures s);
  sound_some : started s = true → (0 < count)%nat;
}.

Lemma collected_bound s :
  (collected true s + collected false s ≤ length (futures s))%nat.
Proof.
  unfold collected. induction (futures s) as [|p l IH]; [done|].
  rewrite !filter_cons. repeat case_decide; simplify_eq/=; lia.
Qed.

Lemma sound_initial count parallel timeout : sound count (initial count parallel timeout).
Proof.
  assert (∀ (P : Progress → Prop) `{!∀ p, Decision (P p)}, ¬ P Setup →
    length (filter P (replicate count Setup)) = 0%nat) as Hz.
  { intros P HP Hn. induction count as [|n IH]; [done|]. simpl. by rewrite filter_cons, decide_False. }
  split; unfold collected, holding; simpl; rewrite ?Hz by done; try done.
  - apply length_replicate.
  - lia.
  - intros _. split; [done|]. apply Forall_replicate. set_solver.
  - intros _. apply Forall_replicate. set_solver.
Qed.

(** The counts after the future [i] went from [p] to [p']. *)
Lemma counts_advance s i p p' :
  futures s !! i = Some p → (∀ ok, p ≠ Collected ok) → (∀ ok, p' ≠ Collected ok) →
  (∀ ok, collected ok (set_future i p' s) = collected ok s) ∧
  (holding (set_future i p' s) + (if decide (p = Holding) then 1 else 0) =
   holding s + (if decide (p' = Holding) then 1 else 0))%nat.
Proof.
  intros Hi Hp Hp'. split; [intros ok|].
  - pose proof (filter_insert_length (λ q, q = Collected ok) (futures s) i p p' Hi) as Hf.
    rewrite !decide_False in Hf by done. unfold collected; simpl. lia.
  - pose proof (filter_insert_length (λ q, q = Holding) (futures s) i p p' Hi) as Hf.
    unfold holding, set_future; simpl. repeat case_decide; lia.
Qed.

Lemma sound_set_future count s i p p' :
  sound count s → futures s !! i = Some p → (∀ ok, p ≠ Collected ok) → (∀ ok, p' ≠ Collected ok) →
  (holding (set_future i p' s) ≤ permits s)%nat →
  (barrier_open s = false → p' ∈ [Setup; AtBarrier; Finished false; Collected false]) →
  (started s = false → p' ∉ [Holding; Waiting; Deleting_; Finished true; Collected true]) →
  sound count (set_future i p' s).
Proof.
  intros [H1 H2 H3 H4 H5 H6 H7 H8] Hi Hp Hp' Hh Hb Hst.
  destruct (counts_advance s i p p' Hi Hp Hp') as [Hc _].
  split; rewrite ?Hc; try done.
  - simpl. by rewrite length_insert.
  - intros Hd. split; [by apply H6|]. apply Forall_insert; [by apply H6|by apply Hb].
  - intros Hd. apply Forall_insert; [by apply H7|by apply Hst].
Qed.

(** Once the start time is set, the rest of [sound] stays as it is. *)
Lemma sound_set_started count s : (0 < count)%nat → sound count s → sound count (set_started s).
Proof. intros ? []. by split. Qed.

Lemma sound_advance count s i p p' :
  sound count s → futures s !! i = Some p → advance p p' → sound count (set_future i p' s).
Proof.
  intros Hs Hi Ha.
  assert ((∀ ok, p ≠ Collected ok) ∧ (∀ ok, p' ≠ Collected ok)) as [Hp Hp']
    by (destruct Ha; split; done).
  destruct (counts_advance s i p p' Hi Hp Hp') as [_ Hh].
  apply (sound_set_future count s i p p'); try done.
  - pose proof (sound_permits _ _ Hs). destruct Ha; repeat case_decide; simplify_eq; lia.
  - intros Hd. destruct (sound_barrier _ _ Hs Hd) as [_ Hb].
    pose proof (Forall_lookup_1 _ _ _ _ Hb Hi) as Hin. destruct Ha; set_solver.
  - intros Hd. pose proof (Forall_lookup_1 _ _ _ _ (sound_started _ _ Hs Hd) Hi) as Hin.
    destruct Ha; set_solver.
Qed.

Lemma sound_acquire count s i :
  sound count s → futures s !! i = Some Acquiring → (holding s < permits s)%nat →
  sound count (set_started (set_future i Holding s)).
Proof.
  intros Hs Hi Hlt. destruct (counts_advance s i Acquiring Holding Hi) as [_ Hh]; [done..|].
  apply (sound_set_future count (set_started s) i Acquiring Holding); try done.
  - apply sound_set_started; [|done]. rewrite <-(sound_length _ _ Hs).
    apply lookup_lt_Some in Hi. lia.
  - unfold holding in *. simpl in *. repeat case_decide; simplify_eq; lia.
  - intros Hd. destruct (sound_barrier _ _ Hs Hd) as [_ Hb].
    pose proof (Forall_lookup_1 _ _ _ _ Hb Hi). set_solver.
Qed.

Lemma sound_open count s :
  sound count s → Forall (λ p, p = AtBarrier) (futures s) →
  sound count (mkStress ((λ _, Acquiring) <$> futures s) (permits s) (watched s) true (setup_done s)
                 (started s) (success s) (failed s) (incomplete s) None).
Proof.
  intros Hs Hall.
  assert (∀ (P : Progress → Prop) `{!∀ p, Decision (P p)}, ¬ P Acquiring →
    length (filter P ((λ _, Acquiring) <$> futures s)) = 0%nat) as Hz.
  { intros P HP Hn. clear -Hn. induction (futures s) as [|p l IH]; [done|].
    rewrite fmap_cons, filter_cons, decide_False by done. done. }
  assert (∀ ok, collected ok s = 0%nat) as Hc.
  { intros ok. unfold collected. clear -Hall. induction Hall as [|p l -> _ IH]; [done|].
    rewrite filter_cons, decide_False by done. done. }
  destruct Hs as [H1 H2 H3 H4 H5 H6 H7 H8]. rewrite !Hc in *.
  split; unfold collected, holding in *; simpl; rewrite ?Hz by done; try done; [|lia|].
  - by rewrite length_fmap.
  - intros _. apply Forall_fmap, Forall_true. intros p. simpl. set_solver.
Qed.

Lemma sound_collect count s i ok :
  sound count s → futures s !! i = Some (Finished ok) →
  sound count (mkStress (<[i:=Collected ok]> (futures s)) (permits s) (watched s) (barrier_open s)
                 (setup_done s) (started s)
                 (if ok then success s + 1 else success s)%nat
                 (if ok then failed s else failed s + 1)%nat (incomplete s - 1) None).
Proof.
  intros [H1 H2 H3 H4 H5 H6 H7 H8] Hi. set (s' := mkStress _ _ _ _ _ _ _ _ _ _).
  assert (∀ b, collected b s' = collected b s + (if decide (b = ok) then 1 else 0))%nat as Hc.
  { intros b. pose proof (filter_insert_length (λ q, q = Collected b) (futures s) i
      (Finished ok) (Collected ok) Hi) as Hf. rewrite decide_False in Hf by done.
    unfold collected; simpl. repeat case_decide; simplify_eq; lia. }
  pose proof (collected_bound s') as Hb. subst s'. simpl in Hb. rewrite length_insert in Hb.
  pose proof (Hc true) as Ht. pose proof (Hc false) as Hff.
  split; rewrite ?Hc; simpl.
  - by rewrite length_insert.
  - destruct ok; repeat case_decide; simplify_eq; lia.
  - destruct ok; repeat case_decide; simplify_eq; lia.
  - destruct ok; repeat case_decide; simplify_eq; lia.
  - pose proof (filter_insert_length (λ q, q = Holding) (futures s) i (Finished ok) (Collected ok) Hi) as Hf.
    rewrite !decide_False in Hf by done. unfold holding in *. simpl. lia.
  - intros Hd. destruct (H6 Hd) as [Hsd Hall]. split; [done|]. apply Forall_insert; [done|].
    pose proof (Forall_lookup_1 _ _ _ _ Hall Hi). destruct ok; set_solver.
  - intros Hd. specialize (H7 Hd). apply Forall_insert; [done|].
    pose proof (Forall_lookup_1 _ _ _ _ H7 Hi). destruct ok; set_solver.
  - done.
Qed.

Lemma sound_step count s s' : sound count s → sstep s s' → sound count s'.
Proof.
  intros Hs Hst. destruct Hst as [s i p p' _ Hi Ha|s i _ Hi Hlt|s _ Hd Hall|s _ Hb Hd|s i ok _ Hi|s _ _|s _ _ _|s _].
  - by eapply sound_advance.
  - by apply sound_acquire.
  - by apply sound_open.
  - destruct Hs. by split.
  - by apply sound_collect.
  - destruct Hs. by split.
  - destruct Hs. by split.
  - destruct Hs. by split.
Qed.

Lemma sound_reachable count parallel timeout s :
  rtc sstep (initial count parallel timeout) s → sound count s.
Proof.
  intros Hs. revert s Hs. apply rtc_ind_r; [apply sound_initial|].
  intros s1 s2 _ Hst IH. by eapply sound_step.
Qed.

Lemma all_collected count s :
  sound count s → success s = count → Forall (λ p, p = Collected true) (futures s).
Proof.
  intros [H1 H2 _ _ _ _ _ _] Hsucc. rewrite H2 in Hsucc. unfold collected in Hsucc.
  rewrite <-H1 in Hsucc. clear -Hsucc. induction (futures s) as [|p l IH]; [done|].
  rewrite filter_cons in Hsucc.
  pose proof (length_filter (λ p, p = Collected true) l) as Hle.
  case_decide; simpl in Hsucc; [|lia]. constructor; [done|]. apply IH. lia.
Qed.

(** The number of slots that the options give. *)
Definition slots (count parallel : nat) : nat :=
  match parallel with O => count | Datatypes.S _ => parallel end.

Lemma permits_kept count parallel timeout s :
  rtc sstep (initial count parallel timeout) s → permits s = slots count parallel.
Proof.
  intros Hs. assert (∀ s1 s2, rtc sstep s1 s2 → permits s2 = permits s1) as Hkept.
  { induction 1 as [|s1 s2 s3 H12 _ IH]; [done|]. rewrite IH. by destruct H12. }
  rewrite (Hkept _ _ Hs). simpl. by destruct parallel.
Qed.

(** C28: at any time the tasks are counted once each as succeeded, failed or not
    finished, and no more tasks are being created and started than the options allow:
    the given number, or all when that is 0.  The test passes exactly when there are tasks and every one of them
    has succeeded; it fails when one has not; and it panics, on a start time that
    was never set, when it was asked for no tasks at all. *)
Theorem stress_test_counts count parallel timeout s :
  rtc sstep (initial count parallel timeout) s →
  (success s + failed s + incomplete s = count)%nat ∧ (holding s ≤ slots count parallel)%nat ∧
  length (futures s) = count ∧
  match verdict count s with
  | Done _ => (0 < count)%nat ∧ Forall (λ p, p = Collected true) (futures s)
  | Failed _ => ¬ Forall (λ p, p = Collected true) (futures s)
  | Panicked _ => count = 0%nat
  | Blocked => False
  end.
Proof.
  intros Hs. pose proof (sound_reachable _ _ _ _ Hs) as Hsound.
  pose proof Hsound as [H1 H2 _ H4 H5 _ H7 H8]. split; [done|].
  split; [by rewrite <-(permits_kept _ _ _ _ Hs)|]. split; [done|].
  unfold verdict. case_bool_decide as Hc; simpl.
  - pose proof (all_collected _ _ Hsound Hc) as Hall. destruct (started s) eqn:Hst.
    + split; [by apply H8|done].
    + specialize (H7 eq_refl). rewrite <-H1. destruct (futures s) as [|p l]; [done|].
      apply Forall_cons_1 in Hall as [-> _]. apply Forall_cons_1 in H7 as [Hp _]. set_solver.
  - intros Hall. apply Hc. rewrite H2, <-H1. unfold collected. clear -Hall.
    induction Hall as [|p l -> _ IH]; [done|]. rewrite filter_cons, decide_True by done. simpl. lia.
Qed.

(** A failed set-up, as the barrier sees it: this future will never arrive. *)
Definition missing (p : Progress) : Prop := p = Finished false ∨ p = Collected false.

Lemma missing_kept s s' i j :
  sstep s s' → barrier_open s = false → setup_done s = false →
  (∃ p, futures s !! i = Some p ∧ missing p) →
  futures s !! j = Some AtBarrier → ended s' ≠ Some Cancelled_ →
  (barrier_open s' = false ∧ setup_done s' = false) ∧ ended s' = None ∧
  (∃ p, futures s' !! i = Some p ∧ missing p) ∧ futures s' !! j = Some AtBarrier.
Proof.
  intros Hst Hb Hd (p & Hi & Hp) Hj Hc.
  destruct Hst as [s k q q' He Hk Ha|s k He Hk Hlt|s He _ Hall|s _ Hb' _|s k ok He Hk|s He Hall|s _ _ Ht|s _]; simpl in *.
  - split; [done|]. split; [done|]. split.
    + destruct (decide (k = i)) as [->|]; [exfalso; simplify_eq; destruct Hp; subst; inversion Ha|].
      exists p. by rewrite list_lookup_insert_ne.
    + destruct (decide (k = j)) as [->|]; [exfalso; simplify_eq; inversion Ha|].
      by rewrite list_lookup_insert_ne.
  - split; [done|]. split; [done|]. split.
    + destruct (decide (k = i)) as [->|]; [destruct Hp; simplify_eq|].
      exists p. by rewrite list_lookup_insert_ne.
    + destruct (decide (k = j)) as [->|]; [simplify_eq|]. by rewrite list_lookup_insert_ne.
  - exfalso. pose proof (Forall_lookup_1 _ _ _ _ Hall Hi) as Heq. destruct Hp; simplify_eq.
  - congruence.
  - split; [done|]. split; [done|]. split.
    + destruct (decide (k = i)) as [->|]; [|exists p; by rewrite list_lookup_insert_ne].
      exists (Collected ok). rewrite list_lookup_insert_eq by (by eapply lookup_lt_Some).
      split; [done|]. destruct Hp; simplify_eq; by right.
    + destruct (decide (k = j)) as [->|]; [simplify_eq|]. by rewrite list_lookup_insert_ne.
  - exfalso. destruct (Forall_lookup_1 _ _ _ _ Hall Hj) as [ok Heq]. done.
  - congruence.
  - done.
Qed.

(** C29: one task whose set-up fails blocks the whole test: the others wait at the
    barrier, which also keeps the time-out from being armed, so nothing but
    Ctrl-C ends the test. *)
Theorem failed_setup_blocks_barrier count parallel timeout s s' i j :
  rtc sstep (initial count parallel timeout) s → barrier_open s = false → ended s = None →
  (∃ p, futures s !! i = Some p ∧ missing p) → futures s !! j = Some AtBarrier →
  rtc sstep s s' → ended s' ≠ Some Cancelled_ →
  setup_done s' = false ∧ ended s' = None ∧ futures s' !! j = Some AtBarrier.
Proof.
  intros Hr Hb He Hi Hj Hst.
  assert (setup_done s = false) as Hd by (by apply (sound_barrier _ _ (sound_reachable _ _ _ _ Hr))).
  clear Hr. revert Hb Hd He Hi Hj.
  induction Hst as [s|s1 s2 s3 H12 H23 IH]; intros Hb Hd He Hi Hj Hc; [done|].
  assert (ended s2 ≠ Some Cancelled_) as Hc2.
  { intros Hs2. apply Hc. inversion H23 as [|? s4 ? H24]; subst; [done|].
    destruct H24; simpl in *; congruence. }
  destruct (missing_kept s1 s2 i j H12 Hb Hd Hi Hj Hc2) as ([??]&?&?&?). by apply IH.
Qed.

(** ** Witnesses *)

Definition half_setup : Stress :=
  mkStress [Finished false; AtBarrier] 1 true false false false 0 0 2 None.
Definition half_collected : Stress :=
  mkStress [Collected false; AtBarrier] 1 true false false false 0 1 1 None.

Lemma half_setup_reachable : rtc sstep (initial 2 1 2) half_setup.
Proof.
  eapply rtc_l; [eapply (st_advance _ 0); [done|done|apply adv_setup_err]|].
  eapply rtc_l; [eapply (st_advance _ 1); [done|done|apply adv_setup]|]. constructor.
Qed.

(** A test of one task that succeeds. *)
Definition one_done : Stress :=
  mkStress [Collected true] 1 true true true true 1 0 0 (Some AllCollected).

Lemma one_done_reachable : rtc sstep (initial 1 0 2) one_done.
Proof.
  eapply rtc_l; [eapply (st_advance _ 0); [done|done|apply adv_setup]|].
  eapply rtc_l; [apply st_barrier; [done|done|by repeat constructor]|].
  eapply rtc_l; [eapply (st_acquire _ 0); [done|done|simpl; unfold holding; simpl; lia]|].
  eapply rtc_l; [by apply st_setup_done|].
  eapply rtc_l; [eapply (st_advance _ 0); [done|done|apply adv_started]|].
  eapply rtc_l; [eapply (st_advance _ 0); [done|done|apply adv_waited]|].
  eapply rtc_l; [eapply (st_advance _ 0); [done|done|apply adv_deleted]|].
  eapply rtc_l; [by apply (st_collect _ 0 true)|].
  eapply rtc_l; [apply st_empty; [done|by repeat econstructor]|]. constructor.
Qed.

Lemma stress_test_counts_witness :
  (success one_done + failed one_done + incomplete one_done = 1)%nat ∧
  (holding one_done ≤ slots 1 0)%nat ∧ length (futures one_done) = 1%nat ∧
  (0 < 1)%nat ∧ Forall (λ p, p = Collected true) (futures one_done).
Proof. apply (stress_test_counts 1 0 2 one_done one_done_reachable). Defined.

Lemma failed_setup_blocks_barrier_witness :
  setup_done half_collected = false ∧ ended half_collected = None ∧
  futures half_collected !! 1%nat = Some AtBarrier.
Proof.
  apply (failed_setup_blocks_barrier 2 1 2 half_setup half_collected 0%nat 1%nat);
    [exact half_setup_reachable|reflexivity|reflexivity| |reflexivity| |discriminate].
  - exists (Finished false). split; [reflexivity|left; reflexivity].
  - apply rtc_once. apply (st_collect half_setup 0%nat false); reflexivity.
Defined.
