(* ===== verification/StressClient.v ===== *)
(** The stress test on a real containerd (crates/stress-test/src/containerd and the
    [RunOnce] of utils.rs): a client that holds a lease, and the tasks that it
    creates, starts, waits for and deletes.

    The services of containerd are the parameter [Services]: one operation per
    gRPC call, with the metadata that the request carries.  The builders and
    parsers of the [oci_spec] crate are parameters too. *)
From S2P Require Import Prelude Errors Sync Instance Paths Oci Context Engine Client StressTest.
Local Open Scope string_scope.

(** ** Messages *)

(** The headers of a request. *)
Record Metadata := mkMetadata { md_namespace : string; md_lease : option string }.

(** [containerd_client::types::Mount] *)
Record CMount := mkCMount {
  cm_type : string; cm_source : string; cm_target : string; cm_options : list string }.

(** A message of the stream that answers a read. *)
Record ContentMsg := mkMsg { msg_offset : i64; msg_data : list byte }.

(** [Container] of a [CreateContainerRequest]. *)
Record SpecContainer := mkSpecContainer {
  sc_id : string; sc_image : string; sc_runtime : string; sc_spec : Spec }.

(** The parts of an [ImageConfiguration] that are read. *)
Record ImageConfiguration := mkImageConf {
  ic_config : option (option (list string));   (* config, and its entrypoint *)
  ic_diff_ids : list string;
}.

Class Services (W : Type) := {
  channel_connect : path → prog W string unit;
  metadata_valid : string → bool;               (* [MetadataValue::from_str] *)
  gc_expiry : W → string;                       (* now + 24 hours, in RFC 3339 *)
  lease_create : Metadata → gmap string string → prog W string (option string);
  lease_delete : Metadata → string → bool → prog W string unit;
  content_stream : Metadata → string → prog W string (list (result string ContentMsg));
  image_get : Metadata → string → prog W string (option (option string));
  snapshot_prepare : Metadata → string → string → string → prog W string (list CMount);
  container_create : Metadata → SpecContainer → prog W string unit;
  container_delete_ : Metadata → string → prog W string unit;
  task_create_ : Metadata → string → list CMount → string → prog W string unit;
  task_start_ : Metadata → string → prog W string unit;
  task_wait_ : Metadata → string → prog W string unit;
  task_kill_ : Metadata → string → u32 → bool → prog W string unit;
  task_delete_ : Metadata → string → prog W string unit;
  manifest_config_digest : list byte → result string string;
  image_configuration : list byte → result string ImageConfiguration;
  (* the builders of oci_spec: arguments, cwd, annotations and root path *)
  build_spec : list string → path → gmap string string → path → result string Spec;
  canonical_stdout : prog W string path;        (* canonicalize("/proc/self/fd/1") *)
  symlink : path → path → prog W string unit;
  remove_file : path → prog W string unit;
  canonicalize : path → prog W string path;
  task_counter : W → usize;                     (* where the static COUNTER lives *)
  set_task_counter : usize → W → W;
  own_pid : u32;                                (* std::process::id() *)
}.

(** ** client.rs *)

Record ClientInner := mkInner { inner_namespace : string; inner_lease : string }.

(** The loop over the messages of a read. *)
Fixpoint collect_content (data : list byte) (msgs : list (result string ContentMsg)) :
    result string (list byte) :=
  match msgs with
  | [] => Ok data
  | Err e :: _ => Err e
  | Ok m :: msgs =>
      if bool_decide (as_usize (msg_offset m) = Z.of_nat (length data))
      then collect_content (data ++ msg_data m) msgs
      else Err "bad offset!"
  end.

Section client.
Context {W : Type} {S : Services W}.
Local Open Scope prog_scope.

(** [with_metadata]: the values are parsed and unwrapped. *)
Definition with_metadata {E : Type} (c : ClientInner) : prog W E Metadata :=
  if negb (metadata_valid (inner_namespace c)) then Panic "invalid metadata value"
  else if bool_decide (inner_lease c = "") then Ret (mkMetadata (inner_namespace c) None)
  else if negb (metadata_valid (inner_lease c)) then Panic "invalid metadata value"
  else Ret (mkMetadata (inner_namespace c) (Some (inner_lease c))).

Definition inner_connect (socket : path) (namespace : string) : prog W string ClientInner :=
  channel_connect socket ;;
  Ret (mkInner namespace "").

Definition with_lease (c : ClientInner) : prog W string ClientInner :=
  let! expiry := gets gc_expiry in
  let! md := with_metadata c in
  let! r := lease_create md {["containerd.io/gc.expire" := expiry]} in
  let! l := lift_result (ok_or r "creating lease") in
  Ret (mkInner (inner_namespace c) l).

(** [drop_lease] takes the lease out of the client first, so the request that
    deletes it does not carry it. *)
Definition drop_lease (c : ClientInner) : prog W string unit :=
  if bool_decide (inner_lease c = "") then Ret tt
  else
    let! md := with_metadata (mkInner (inner_namespace c) "") in
    lease_delete md (inner_lease c) false.

(** [impl Drop for ClientInner] *)
Definition drop_inner {E : Type} (c : ClientInner) : prog W E unit :=
  let! _ := attempt (drop_lease c) in Ret tt.

Definition read_content (c : ClientInner) (digest : string) : prog W string (list byte) :=
  let! md := with_metadata c in
  let! msgs := content_stream md digest in
  lift_result (collect_content [] msgs).

Definition image_config (c : ClientInner) (image : string) : prog W string ImageConfiguration :=
  let! md := with_metadata c in
  let! i := image_get md image in
  let! target := lift_result (ok_or i "Could not find image") in
  let! digest := lift_result (ok_or target "Could not find image descriptor") in
  let! manifest := read_content c digest in
  let! config_digest := lift_result (manifest_config_digest manifest) in
  let! config := read_content c config_digest in
  lift_result (image_configuration config).

Definition snapshot (c : ClientInner) (id : string) (diffs : list string) :
    prog W string (list CMount) :=
  let! md := with_metadata c in
  snapshot_prepare md id (join " " diffs) "overlayfs".

Definition create_container (c : ClientInner) (id image runtime : string) (spec : Spec) :
    prog W string unit :=
  let! md := with_metadata c in
  container_create md (mkSpecContainer id image runtime spec).

Definition create_task (c : ClientInner) (id : string) (mounts : list CMount) (stdout : string) :
    prog W string unit :=
  let! md := with_metadata c in
  task_create_ md id mounts stdout.

Definition start_task (c : ClientInner) (id : string) : prog W string unit :=
  let! md := with_metadata c in task_start_ md id.

Definition wait_task (c : ClientInner) (id : string) : prog W string unit :=
  let! md := with_metadata c in task_wait_ md id.

Definition SIGKILL : u32 := 9%Z.

Definition kill_task (c : ClientInner) (id : string) : prog W string unit :=
  let! md := with_metadata c in task_kill_ md id SIGKILL true.

Definition delete_task (c : ClientInner) (id : string) : prog W string unit :=
  let! md := with_metadata c in task_delete_ md id.

Definition delete_container (c : ClientInner) (id : string) : prog W string unit :=
  let! md := with_metadata c in container_delete_ md id.

(** [Client::connect]; a [Client] is a shared [ClientInner]. *)
Definition client_connect (socket : path) (namespace : string) : prog W string ClientInner :=
  let! inner := inner_connect socket namespace in
  with_lease inner.

Definition client_default : prog W string ClientInner :=
  client_connect "/run/containerd/containerd.sock" "default".

Definition get_mounts (c : ClientInner) (id image : string) : prog W string (list CMount) :=
  let! config := image_config c image in
  snapshot c id (ic_diff_ids config).

Definition image_entrypoint (c : ClientInner) (image : string) : prog W string (list string) :=
  let! config := image_config c image in
  Ret match ic_config config with
      | Some (Some e) => e
      | _ => []
      end.
End client.

(** ** task.rs *)

(** The arguments of the container: those of the image when none are given,
    otherwise the given ones after the program of the image. *)
Definition task_args (entrypoint args : list string) : list string :=
  match args with
  | [] => entrypoint
  | _ => match entrypoint with
         | argv0 :: _ => argv0 :: args
         | [] => args
         end
  end.

Record StressTask := mkStressTask {
  st_client : ClientInner;
  st_runtime : string;
  st_id : string;
  st_image : string;
  st_mounts : list CMount;
  st_spec : Spec;
}.

(** The two [RunOnce] flags of a task, next to the state of the world. *)
Record Flags (W : Type) := mkFlags { fl_world : W; fl_first : bool; fl_second : bool }.
Arguments mkFlags {W}. Arguments fl_world {W}. Arguments fl_first {W}. Arguments fl_second {W}.

Section flags.
Context {W : Type}.

Definition set_fl_world (w : W) (s : Flags W) : Flags W := mkFlags w (fl_first s) (fl_second s).
Definition set_first (s : Flags W) : Flags W := mkFlags (fl_world s) true (fl_second s).
Definition set_second (s : Flags W) : Flags W := mkFlags (fl_world s) (fl_first s) true.

#[export] Instance flags_lens : Lens fl_world set_fl_world.
Proof. split; intros; unfold set_fl_world; simpl; by try destruct s. Qed.

Definition on_world {E A : Type} (p : prog W E A) : prog (Flags W) E A := zoom fl_world set_fl_world p.

(** [Result::and] *)
Definition result_and {E A B : Type} (r1 : result E A) (r2 : result E B) : result E B :=
  match r1 with Ok _ => r2 | Err e => Err e end.

Local Open Scope prog_scope.

(** [Task::delete] of both back ends: two clean-ups, each run until it has
    succeeded once; the second is tried also when the first fails. *)
Definition delete_both (p1 p2 : prog W string unit) : prog (Flags W) string unit :=
  let! res1 := attempt (try_run fl_first set_first (on_world p1)) in
  let! res2 := attempt (try_run fl_second set_second (on_world p2)) in
  lift_result (result_and res1 res2).
End flags.

Section task.
Context {W : Type} {S : Services W}.
Local Open Scope prog_scope.

(** [make_task_id], with the counter of the process. *)
Definition fresh_task_id {E : Type} : prog W E string :=
  atomically (λ w, let '(id, n) := make_task_id own_pid (task_counter w) in
                   (id, set_task_counter n w)).

(** [Task::new] *)
Definition Task_new (c : ClientInner) (runtime image : string) (args : list string) :
    prog W string StressTask :=
  let! id := fresh_task_id in
  let! entrypoint := image_entrypoint c image in
  let! mounts := get_mounts c id image in
  let annotations := {["io.kubernetes.cri.sandbox-id" := "sandbox-" +:+ pretty own_pid]} in
  let! spec := lift_result (build_spec (task_args entrypoint args) "/" annotations "rootfs") in
  Ret (mkStressTask c runtime id image mounts spec).

(** Where the output of a container goes: nowhere unless it is asked for. *)
Definition container_stdout {E : Type} (verbose : bool) : prog W E path :=
  if negb verbose then Ret ""
  else
    let! r := attempt canonical_stdout in
    Ret match r with Ok p => p | Err _ => "" end.

Definition Task_create (t : StressTask) (verbose : bool) : prog W string unit :=
  let! stdout := container_stdout verbose in
  create_container (st_client t) (st_id t) (st_image t) (st_runtime t) (st_spec t) ;;
  create_task (st_client t) (st_id t) (st_mounts t) stdout.

Definition Task_start (t : StressTask) : prog W string unit := start_task (st_client t) (st_id t).
Definition Task_wait (t : StressTask) : prog W string unit := wait_task (st_client t) (st_id t).

Definition Task_delete (t : StressTask) : prog (Flags W) string unit :=
  delete_both
    (let! _ := attempt (kill_task (st_client t) (st_id t)) in delete_task (st_client t) (st_id t))
    (delete_container (st_client t) (st_id t)).

(** [impl Drop for Task] *)
Definition drop_task {E : Type} (t : StressTask) : prog (Flags W) E unit :=
  let! _ := attempt (Task_delete t) in Ret tt.

(** ** shim.rs *)

Record StressShim := mkStressShim { shim_link : path; shim_runtime : string; shim_client : ClientInner }.

Definition Shim_new (c : ClientInner) (binary : path) : prog W string StressShim :=
  let runtime := "io.containerd.runwasi" +:+ pretty own_pid +:+ ".v1" in
  let link := "/usr/local/bin/containerd-shim-runwasi" +:+ pretty own_pid +:+ "-v1" in
  let! target := canonicalize binary in
  symlink target link ;;
  Ret (mkStressShim link runtime c).

Definition drop_shim {E : Type} (s : StressShim) : prog W E unit :=
  let! _ := attempt (remove_file (shim_link s)) in Ret tt.

Definition shim_task (s : StressShim) (image : string) (args : list string) :
    prog W string StressTask :=
  Task_new (shim_client s) (shim_runtime s) image args.
End task.

(** ** Reading content *)

(** Messages that continue each other from [start] on. *)
Fixpoint contiguous (start : nat) (ms : list ContentMsg) : Prop :=
  match ms with
  | [] => True
  | m :: ms => as_usize (msg_offset m) = Z.of_nat start ∧ contiguous (start + length (msg_data m)) ms
  end.

Lemma collect_content_contiguous data ms :
  contiguous (length data) ms →
  collect_content data (Ok <$> ms) = Ok (data ++ concat (msg_data <$> ms))%list.
Proof.
  revert data. induction ms as [|m ms IH]; intros data; simpl; [by rewrite app_nil_r|].
  intros [Ho Hms]. rewrite bool_decide_eq_true_2 by done.
  rewrite IH by (by rewrite length_app). by rewrite <-(assoc_L _).
Qed.

Lemma collect_content_sound data msgs r :
  collect_content data msgs = Ok r →
  ∃ ms, msgs = Ok <$> ms ∧ contiguous (length data) ms ∧ r = (data ++ concat (msg_data <$> ms))%list.
Proof.
  revert data. induction msgs as [|[m|e] msgs IH]; intros data; simpl; [| |done].
  - intros [= <-]. exists []. by rewrite app_nil_r.
  - case_bool_decide as Ho; [|done]. intros (ms & -> & Hc & ->)%IH.
    exists (m :: ms). rewrite length_app in Hc. split; [done|]. split; [done|].
    simpl. by rewrite <-(assoc_L _).
Qed.

Section reads.
Context {W : Type} {S : Services W}.

(** The client accepts exactly the streams whose messages continue each other
    from the beginning, and the content is then what they carry, in order. *)
Theorem read_content_reassembles c md digest w msgs w' ts :
  run (with_metadata (E := string) c) w = (Done md, w, []) →
  run (content_stream md digest) w = (Done msgs, w', ts) →
  ∀ data, (run (read_content c digest) w).1.1 = Done data ↔
    ∃ ms, msgs = Ok <$> ms ∧ contiguous 0 ms ∧ data = concat (msg_data <$> ms).
Proof.
  intros Hmd Hs data. unfold read_content. rewrite run_bind, Hmd. go.
  rewrite run_bind, Hs. go. split.
  - destruct (collect_content [] msgs) as [r|e] eqn:Hc; simpl; [|done]. intros [= <-].
    by apply (collect_content_sound []) in Hc.
  - intros (ms & -> & Hc & ->). by rewrite collect_content_contiguous.
Qed.
End reads.

(** ** Deleting *)

Section deleting.
Context {W : Type}.
Implicit Types (p : prog W string unit) (s : Flags W).

Lemma run_on_world {E A : Type} (p : prog W E A) s :
  run (on_world p) s =
  let '(o, w, ts) := run p (fl_world s) in (o, set_fl_world w s, on_world <$> ts).
Proof. unfold on_world. by rewrite run_zoom by apply _. Qed.

(** One clean-up, as its [RunOnce] sees it: whether it has to run, and the
    outcome if it does. *)
Lemma run_try_run (get : Flags W → bool) (set : Flags W → Flags W) p s :
  run (try_run get set (on_world p)) s =
  if get s then (Done tt, s, [])
  else let '(o, w, ts) := run p (fl_world s) in
       (o, match o with Done _ => set (set_fl_world w s) | _ => set_fl_world w s end,
        on_world <$> ts).
Proof.
  unfold try_run. rewrite run_bind. go. destruct (get s); go; [done|].
  rewrite run_bind, run_on_world. destruct (run p (fl_world s)) as [[[[]|e|m|] w] ts]; go; try done.
  by rewrite app_nil_r.
Qed.

Definition succeeded {E A : Type} (o : outcome E A) : bool :=
  match o with Done _ => true | _ => false end.
Definition returns {E A : Type} (o : outcome E A) : Prop :=
  match o with Done _ | Failed _ => True | _ => False end.

Lemma delete_both_done p1 p2 w :
  run (delete_both p1 p2) (mkFlags w true true) = (Done tt, mkFlags w true true, []).
Proof.
  unfold delete_both. rewrite run_bind, run_attempt, run_try_run. cbn [fl_first fl_second]. go.
  by rewrite run_bind, run_attempt, run_try_run.
Qed.

(** C36: deletion is complete and idempotent: both clean-ups are tried, the second
    also when the first fails; the call succeeds exactly when both have
    succeeded, now or before; one that has succeeded is never run again, so a
    call after a success does nothing. *)
Theorem delete_both_runs_each_once p1 p2 s :
  (∀ w, returns (run p1 w).1.1) → (∀ w, returns (run p2 w).1.1) →
  let w1 := if fl_first s then fl_world s else (run p1 (fl_world s)).1.2 in
  let w2 := if fl_second s then w1 else (run p2 w1).1.2 in
  let done1 := fl_first s || succeeded (run p1 (fl_world s)).1.1 in
  let done2 := fl_second s || succeeded (run p2 w1).1.1 in
  (run (delete_both p1 p2) s).1.2 = mkFlags w2 done1 done2 ∧
  (succeeded (run (delete_both p1 p2) s).1.1 = done1 && done2) ∧
  (done1 && done2 = true →
   run (delete_both p1 p2) (mkFlags w2 done1 done2) = (Done tt, mkFlags w2 done1 done2, [])).
Proof.
  intros H1 H2 w1 w2 done1 done2. apply and_assoc. split.
  2: { intros [-> ->]%andb_true_iff. apply delete_both_done. }
  subst w1 w2 done1 done2. unfold delete_both. rewrite run_bind, run_attempt, run_try_run.
  specialize (H1 (fl_world s)). destruct s as [w f1 f2].
  cbn [fl_world fl_first fl_second] in *.
  destruct f1; [|destruct (run p1 w) as [[[[]|e1|m1|] w1] ts1]; [| |done..]]; go;
    rewrite run_bind, run_attempt, run_try_run; simpl;
    (destruct f2; simpl; [done|]).
  - specialize (H2 w). by destruct (run p2 w) as [[[[]|e2|m2|] w2] ts2].
  - specialize (H2 w1). by destruct (run p2 w1) as [[[[]|e2|m2|] w2] ts2].
  - specialize (H2 w1). by destruct (run p2 w1) as [[[[]|e2|m2|] w2] ts2].
Qed.
End deleting.

(** ** Task ids *)

(** The ids that [n] calls of [make_task_id] return. *)
Fixpoint task_ids (n : nat) (pid : u32) (counter : usize) : list string :=
  match n with
  | O => []
  | Datatypes.S n => let '(id, counter) := make_task_id pid counter in id :: task_ids n pid counter
  end.

Lemma task_ids_lookup n pid counter i :
  (0 ≤ counter < 2 ^ 64)%Z → (i < n)%nat →
  task_ids n pid counter !! i = Some (make_task_id pid (as_usize (counter + Z.of_nat i))).1.
Proof.
  revert counter i. induction n as [|n IH]; intros counter i Hc Hi; [lia|]. simpl.
  destruct i as [|i]; simpl.
  - rewrite Z.add_0_r. unfold as_usize, as_unsigned. by rewrite Z.mod_small.
  - rewrite IH by (lia || (unfold as_usize, as_unsigned; apply Z.mod_pos_bound; lia)).
    unfold as_usize, as_unsigned. rewrite Zplus_mod_idemp_l. simpl.
    by replace (counter + 1 + Z.of_nat i)%Z with (counter + Z.of_nat (Datatypes.S i))%Z by lia.
Qed.

Lemma length_task_ids n pid counter : length (task_ids n pid counter) = n.
Proof. revert counter. induction n as [|n IH]; intros counter; simpl; [done|]. by rewrite IH. Qed.

Lemma make_task_id_inj pid m n : (make_task_id pid m).1 = (make_task_id pid n).1 → m = n.
Proof.
  unfold make_task_id. simpl. intros H. do 3 apply string_app_inj_l in H.
  by apply (inj pretty) in H.
Qed.

(** C38: the tasks of one process have different ids as long as the counter, which
    wraps around at the width of [usize], has not been through all its values;
    that many tasks and one more repeat an id. *)
Theorem task_ids_unique n pid counter :
  (0 ≤ counter < 2 ^ 64)%Z → NoDup (task_ids n pid counter) ↔ (Z.of_nat n ≤ 2 ^ 64)%Z.
Proof.
  intros Hc. rewrite NoDup_alt. split.
  - intros Hd. destruct (decide (Z.of_nat n ≤ 2 ^ 64)%Z) as [|Hn]; [done|exfalso].
    assert (0%nat = Z.to_nat (2 ^ 64)) as Heq; [|lia].
    eapply Hd; [rewrite task_ids_lookup by lia; done|].
    rewrite task_ids_lookup by lia. rewrite Z2Nat.id by lia. unfold as_usize, as_unsigned.
    by rewrite Z.add_0_r, <-(Z_mod_plus_full counter 1 (2 ^ 64)), Z.mul_1_l.
  - intros Hn i j id Hi Hj.
    assert (i < n)%nat as Hin by (apply lookup_lt_Some in Hi; by rewrite length_task_ids in Hi).
    assert (j < n)%nat as Hjn by (apply lookup_lt_Some in Hj; by rewrite length_task_ids in Hj).
    rewrite task_ids_lookup in Hi, Hj by done. rewrite <-Hi in Hj.
    apply (inj Some), make_task_id_inj in Hj. unfold as_usize, as_unsigned in Hj.
    assert ((Z.of_nat j - Z.of_nat i) `mod` 2 ^ 64 = 0)%Z as Hm.
    { replace (Z.of_nat j - Z.of_nat i)%Z
        with ((counter + Z.of_nat j) - (counter + Z.of_nat i))%Z by lia.
      by rewrite Zminus_mod, Hj, Z.sub_diag. }
    apply Z.mod_divide in Hm as [k Hk]; [|lia]. assert (k = 0)%Z by lia. lia.
Qed.

(** ** Witnesses *)

(** A containerd that knows one image and answers every other request. *)
#[export] Instance toy_services : Services (usize * list (result string ContentMsg)) := {|
  channel_connect _ := Ret tt;
  metadata_valid _ := true;
  gc_expiry _ := "tomorrow";
  lease_create _ _ := Ret (Some "l1");
  lease_delete _ _ _ := Ret tt;
  content_stream _ _ := gets snd;
  image_get _ _ := Ret (Some (Some "sha256:1"));
  snapshot_prepare _ _ _ _ := Ret [];
  container_create _ _ := Ret tt;
  container_delete_ _ _ := Ret tt;
  task_create_ _ _ _ _ := Ret tt;
  task_start_ _ _ := Ret tt;
  task_wait_ _ _ := Ret tt;
  task_kill_ _ _ _ _ := Throw "not running";
  task_delete_ _ _ := Throw "busy";
  manifest_config_digest _ := Ok "sha256:2";
  image_configuration _ := Ok (mkImageConf (Some (Some ["/app.wasm"])) []);
  build_spec args _ ann r := Ok (mkSpec (Some (mkProcess (Some args) None)) (Some (mkRoot r)) None (Some ann));
  canonical_stdout := Ret "/dev/pts/0";
  symlink _ _ := Ret tt;
  remove_file _ := Ret tt;
  canonicalize p := Ret p;
  task_counter := fst;
  set_task_counter n w := (n, snd w);
  own_pid := 42%Z;
|}.

Definition inner0 : ClientInner := mkInner "default" "l1".

Definition messages0 : list ContentMsg := [mkMsg 0 [5; 6]%Z; mkMsg 2 [7]%Z].

Lemma read_content_reassembles_witness :
  (run (read_content inner0 "sha256:1") (0%Z, Ok <$> messages0)).1.1 = Done [5; 6; 7]%Z ↔
  ∃ ms, Ok (E := string) <$> messages0 = Ok <$> ms ∧ contiguous 0 ms ∧
        [5; 6; 7]%Z = concat (msg_data <$> ms).
Proof.
  apply (read_content_reassembles inner0 (mkMetadata "default" (Some "l1")) "sha256:1"
    (0%Z, Ok <$> messages0) (Ok <$> messages0) (0%Z, Ok <$> messages0) []); reflexivity.
Defined.

Definition stress_task0 : StressTask :=
  mkStressTask inner0 "io.containerd.runwasi42.v1" "t" "image" []
    (mkSpec None None None None).

(** The task cannot be deleted, the container can: the call fails, and only the
    container is done with. *)
Lemma delete_both_runs_each_once_witness :
  let p1 := bind (attempt (kill_task inner0 "t")) (λ _, delete_task inner0 "t") in
  let p2 := delete_container inner0 "t" in
  (run (Task_delete stress_task0) (mkFlags (0%Z, []) false false)).1.2 =
    mkFlags (0%Z, []) false true ∧
  (succeeded (run (Task_delete stress_task0) (mkFlags (0%Z, []) false false)).1.1 = false) ∧
  (false = true →
   run (delete_both p1 p2) (mkFlags (0%Z, []) false true) =
     (Done tt, mkFlags (0%Z, []) false true, [])).
Proof.
  exact (delete_both_runs_each_once
    (bind (attempt (kill_task inner0 "t")) (λ _, delete_task inner0 "t"))
    (delete_container inner0 "t") (mkFlags (0%Z, []) false false) (λ _, I) (λ _, I)).
Defined.

Lemma task_ids_unique_witness : NoDup (task_ids 3 42 (2 ^ 64 - 1)) ↔ (Z.of_nat 3 ≤ 2 ^ 64)%Z.
Proof. apply (task_ids_unique 3 42 (2 ^ 64 - 1)). lia. Defined.
