(* ===== verification/StressMocks.v ===== *)
(** The stress test with containerd mocked (crates/stress-test/src/mocks): the test
    starts the shim itself and sends it task requests over ttrpc.

    [ShimClient] is the ttrpc client; its instance [local_client] is the task
    service of the file Local, so that the theorems here are about the stress
    test and the shim together.  What the mocks do on the host besides is the
    parameter [MockOs]. *)
From Stdlib Require Import Sorting.Sorted.
From S2P Require Import Prelude Errors TaskState Sync Instance InstanceData Paths Text Oci Local Context Engine StressTest StressClient.
Local Open Scope string_scope.

(** ** mocks/task.rs: unmounting *)

(** The second field of each line of /proc/mounts. *)
Definition proc_mounts (text : string) : list path :=
  omap (λ line, split_whitespace line !! 1%nat) (lines text).

Definition mounts_under (root : path) (text : string) : list path :=
  filter (λ m, path_starts_with m root = true) (proc_mounts text).

(** [sort_by_key(|p| p.len())], which is stable. *)
Fixpoint insert_by_len (p : path) (l : list path) : list path :=
  match l with
  | [] => [p]
  | q :: l' => if bool_decide (String.length p ≤ String.length q)%nat then p :: l
               else q :: insert_by_len p l'
  end.

Definition sort_by_len (l : list path) : list path := foldr insert_by_len [] l.

(** [mounts.iter().rev()] *)
Definition unmount_order (root : path) (text : string) : list path :=
  reverse (sort_by_len (mounts_under root text)).

(** [map_mount]: the service does not read the target of a mount. *)
Definition map_mount (m : CMount) : Mount := mkMount (cm_type m) (cm_source m) (cm_options m).
Definition map_mounts (ms : list CMount) : list Mount := map_mount <$> ms.

(** The command line of the shim. *)
Record ShimCommand := mkShimCommand {
  sh_binary : path; sh_args : list string; sh_env : gmap string string; sh_cwd : path }.

Class MockOs (W : Type) := {
  temp_dir : prog W string path;                      (* tempdir() *)
  tempdir_in : path → prog W string path;
  make_dir_all : path → prog W string unit;           (* create_dir_all *)
  write_file : path → string → prog W string unit;
  save_spec : path → Spec → prog W string unit;
  default_spec : result string Spec;                  (* SpecBuilder::default().build() *)
  read_proc_mounts : prog W string string;
  umount : path → prog W string unit;
  canonical_stderr : prog W string path;              (* canonicalize("/proc/self/fd/2") *)
  command_output : ShimCommand → prog W string (list byte);
  from_utf8 : list byte → result string string;
  bind_events : string → prog W string unit;          (* the server of EventsService *)
  ttrpc_connect : string → prog W string unit;
}.

(** The methods of the task service that the mocks call. *)
Class ShimClient (W : Type) := {
  rpc_create : CreateTaskRequest → prog W string CreateTaskResponse;
  rpc_start : TaskRequest → prog W string StartResponse;
  rpc_wait : TaskRequest → prog W string WaitResponse;
  rpc_delete : TaskRequest → prog W string DeleteResponse;
  rpc_shutdown : prog W string unit;
}.

Record MockTask := mkMockTask { mt_id : string; mt_dir : path; mt_mounts : list Mount }.

Section mocks.
Context {W : Type} {S : Services W} {M : MockOs W} {R : ShimClient W}.
Local Open Scope prog_scope.

(** [unmount_recursive]: the work is handed to another thread and its result is
    dropped. *)
Definition unmount_recursive {E : Type} (root : path) : prog W E unit :=
  Fork
    (let! _ := attempt (let! text := read_proc_mounts in
                        for_each umount (unmount_order root text)) in
     Ret tt)
    (Ret tt).

(** [Task::new] *)
Definition MockTask_new (c : ClientInner) (scratch : path) (image : string) (args : list string) :
    prog W string MockTask :=
  let! id := fresh_task_id in
  let! mounts := get_mounts c id image in
  let! entrypoint := image_entrypoint c image in
  let annotations := {["io.kubernetes.cri.sandbox-id" := "sandbox-" +:+ pretty own_pid]} in
  let! spec := lift_result (build_spec (task_args entrypoint args) "/" annotations "rootfs") in
  let! dir := tempdir_in scratch in
  make_dir_all (path_join dir "rootfs") ;;
  write_file (path_join dir "options.json")
    ("{" +:+ quote +:+ "root" +:+ quote +:+ ":" +:+ quote +:+ "rootfs" +:+ quote +:+ "}") ;;
  save_spec (path_join dir "config.json") spec ;;
  Ret (mkMockTask id dir (map_mounts mounts)).

Definition mock_create (t : MockTask) (verbose : bool) : prog W string unit :=
  let! stdout := container_stdout verbose in
  let! _ := rpc_create {|
    create_id := mt_id t; create_bundle := mt_dir t; create_rootfs := mt_mounts t;
    create_terminal := false; create_stdin := ""; create_stdout := stdout; create_stderr := "";
    create_checkpoint := ""; create_parent_checkpoint := "" |} in
  Ret tt.

Definition mock_start (t : MockTask) : prog W string unit :=
  let! _ := rpc_start (mkReq (mt_id t) "") in Ret tt.

Definition mock_wait (t : MockTask) : prog W string unit :=
  let! _ := rpc_wait (mkReq (mt_id t) "") in Ret tt.

Definition mock_delete (t : MockTask) : prog (Flags W) string unit :=
  delete_both
    (let! _ := rpc_delete (mkReq (mt_id t) "") in Ret tt)
    (unmount_recursive (path_join (mt_dir t) "rootfs")).

(** [impl Drop for Task] *)
Definition drop_mock_task {E : Type} (t : MockTask) : prog (Flags W) E unit :=
  let! _ := attempt (mock_delete t) in Ret tt.

(** ** mocks/shim.rs *)

Record MockShim := mkMockShim { ms_dir : path; ms_client : ClientInner }.

Definition shim_command (binary socket dir : path) : ShimCommand :=
  let name := "shim-benchmark-" +:+ pretty own_pid in
  {| sh_binary := binary;
     sh_args := ["-namespace"; name; "-id"; name; "-address"; "/run/containerd/containerd.sock"; "start"];
     sh_env := {["TTRPC_ADDRESS" := socket]}; sh_cwd := dir |}.

Definition MockShim_new (c : ClientInner) (scratch : path) (verbose : bool) (binary : path) :
    prog W string MockShim :=
  let socket := path_join scratch "containerd.sock.ttrpc" in
  let! dir := tempdir_in scratch in
  let! spec := lift_result default_spec in
  save_spec (path_join dir "config.json") spec ;;
  (if verbose then
     let! stderr := canonical_stderr in symlink stderr (path_join dir "log")
   else symlink "/dev/null" (path_join dir "log")) ;;
  let! output := command_output (shim_command binary socket dir) in
  let! address := lift_result (from_utf8 output) in
  ttrpc_connect (trim address) ;;
  Ret (mkMockShim dir c).

Definition mock_shim_task (s : MockShim) (image : string) (args : list string) :
    prog W string MockTask :=
  MockTask_new (ms_client s) (ms_dir s) image args.

(** [impl Drop for Shim] *)
Definition drop_mock_shim {E : Type} : prog W E unit :=
  let! _ := attempt rpc_shutdown in Ret tt.

(** ** mocks/containerd.rs *)

Record MockContainerd := mkMockContainerd { mc_dir : path; mc_verbose : bool; mc_client : ClientInner }.

Definition MockContainerd_new (verbose : bool) : prog W string MockContainerd :=
  let! dir := temp_dir in
  let socket := path_join dir "containerd.sock.ttrpc" in
  let! client := client_default in
  unless_ok (bind_events ("unix://" +:+ socket)) (drop_inner client) ;;
  Ret (mkMockContainerd dir verbose client).

Definition mock_start_shim (c : MockContainerd) (shim : path) : prog W string MockShim :=
  MockShim_new (mc_client c) (mc_dir c) (mc_verbose c) shim.
End mocks.

(** ** The shim behind the client *)

Section local_client.
Context {W : Type} {I : Instance W} {H : Host W} (disp : ShimError → string)
  (rpc_text : TtrpcError → string).
Local Open Scope prog_scope.

(** A call of the service, for the response [pick] expects. *)
Definition rpc_call {A : Type} (req : @Request) (pick : @Response W H → option A) :
    prog (Local I) string A :=
  let! resp := map_err rpc_text (serve disp req) in
  match pick resp with Some a => Ret a | None => Throw "unexpected response" end.

Definition local_client : ShimClient (Local I) := {|
  rpc_create r := rpc_call (RCreate r) (λ p, match p with PCreate x => Some x | _ => None end);
  rpc_start r := rpc_call (RStart r) (λ p, match p with PStart x => Some x | _ => None end);
  rpc_wait r := rpc_call (RWait r) (λ p, match p with PWait x => Some x | _ => None end);
  rpc_delete r := rpc_call (RDelete r) (λ p, match p with PDelete x => Some x | _ => None end);
  rpc_shutdown := rpc_call RShutdown (λ p, match p with PEmpty => Some tt | _ => None end);
|}.
End local_client.

(** ** Unmounting *)

Definition by_len (p q : path) : Prop := (String.length p ≤ String.length q)%nat.

Lemma insert_by_len_perm p l : insert_by_len p l ≡ₚ p :: l.
Proof.
  induction l as [|q l IH]; simpl; [done|]. case_bool_decide; [done|].
  rewrite IH. apply Permutation_swap.
Qed.

Lemma sort_by_len_perm l : sort_by_len l ≡ₚ l.
Proof. induction l as [|p l IH]; simpl; [done|]. by rewrite insert_by_len_perm, IH. Qed.

Lemma insert_by_len_sorted p l : StronglySorted by_len l → StronglySorted by_len (insert_by_len p l).
Proof.
  induction 1 as [|q l Hl IH Hq]; simpl; [by repeat constructor|].
  case_bool_decide as Hle; [|apply not_le in Hle].
  - constructor; [by constructor|]. constructor; [done|].
    eapply list.Forall_impl; [exact Hq|]. unfold by_len in *. intros x Hx. lia.
  - constructor; [done|]. rewrite insert_by_len_perm. constructor; [unfold by_len; lia|done].
Qed.

Lemma sort_by_len_sorted l : StronglySorted by_len (sort_by_len l).
Proof. induction l as [|p l IH]; simpl; [constructor|]. by apply insert_by_len_sorted. Qed.

Lemma sorted_lookup {A : Type} (R : A → A → Prop) l i j x y :
  StronglySorted R l → (i < j)%nat → l !! i = Some x → l !! j = Some y → R x y.
Proof.
  intros Hl. revert i j. induction Hl as [|z l Hl IH Hz]; intros i j Hij Hi Hj; [done|].
  destruct j as [|j]; [lia|]. simpl in Hj. destruct i as [|i]; simpl in Hi.
  - simplify_eq. by eapply Forall_lookup_1 in Hz.
  - by apply (IH i j); [lia|..].
Qed.

Lemma length_render_app a b : String.length (render (a ++ b)%list) =
  (String.length (render a) + String.length (render b))%nat.
Proof.
  induction a as [|n a IH]; [done|]. cbn [app render]. rewrite !string_length_app, IH. lia.
Qed.

(** A mount that lies inside another one comes before it. *)
Definition nested_first (l : list path) : Prop :=
  ∀ i j a b, Forall plain_name (a ++ b)%list → b ≠ [] →
    l !! i = Some (render a) → l !! j = Some (render (a ++ b)%list) → (j < i)%nat.

Lemma unmount_order_nested root text : nested_first (unmount_order root text).
Proof.
  unfold unmount_order. intros i j a b _ Hb Hi Hj.
  set (l := sort_by_len (mounts_under root text)) in *.
  assert (String.length (render a) < String.length (render (a ++ b)%list))%nat as Hlt.
  { rewrite length_render_app. destruct b as [|n b]; [done|].
    change (render (n :: b)) with (String "/" (n +:+ render b)). cbn [String.length]. lia. }
  pose proof (lookup_lt_Some _ _ _ Hi) as Hil. pose proof (lookup_lt_Some _ _ _ Hj) as Hjl.
  rewrite length_reverse in Hil, Hjl.
  rewrite reverse_lookup in Hi, Hj by done.
  destruct (decide (j < i)%nat) as [|Hge]; [done|exfalso].
  destruct (decide (i = j)) as [->|Hne]; [|].
  { assert (render a = render (a ++ b)%list) as Heq by congruence. rewrite <-Heq in Hlt. lia. }
  assert (by_len (render (a ++ b)%list) (render a)) as Hle.
  { eapply (sorted_lookup by_len l (length l - Datatypes.S j) (length l - Datatypes.S i));
      [apply sort_by_len_sorted|lia|done|done]. }
  unfold by_len in Hle. lia.
Qed.

Section unmounting.
Context {W : Type} {M : MockOs W}.

(** The mounts [l] are unmounted one after the other. *)
Inductive unmounts : list path → W → W → Prop :=
| unmounts_nil w : unmounts [] w w
| unmounts_cons m l w w1 w2 ts :
    run (umount m) w = (Done tt, w1, ts) → unmounts l w1 w2 → unmounts (m :: l) w w2.

(** The loop goes through [l] up to the first call that does not succeed. *)
Lemma run_umounts l w :
  ∃ ok rest w1, l = (ok ++ rest)%list ∧ unmounts ok w w1 ∧
    match rest with
    | [] => ∃ r ts, run (for_each umount l) w = (Done r, w1, ts)
    | m :: _ => ∃ o w2 ts, run (umount m) w1 = (o, w2, ts) ∧ o ≠ Done tt ∧
        (run (for_each umount l) w).1.2 = w2 ∧ ∀ r, (run (for_each umount l) w).1.1 ≠ Done r
    end.
Proof.
  revert w. induction l as [|m l IH]; intros w.
  { exists [], [], w. split; [done|]. split; [constructor|]. by exists [], []. }
  simpl. rewrite run_bind. destruct (run (umount m) w) as [[o w1] ts] eqn:Hm.
  destruct o as [[]|e|msg|].
  2-4: exists [], (m :: l), w; split; [done|]; split; [constructor|];
    eexists _, w1, ts; split; [exact Hm|]; by simpl.
  destruct (IH w1) as (ok & rest & w2 & -> & Hok & Hrest).
  exists (m :: ok), rest, w2. split; [done|]. split; [by econstructor|].
  simpl. rewrite run_bind. destruct rest as [|m' rest].
  - destruct Hrest as (r & ts' & ->). simpl. by eexists _, _.
  - destruct Hrest as (o & w3 & ts' & Hm' & Ho & Hw & Hn).
    exists o, w3, ts'. split; [done|]. split; [done|].
    destruct (run (for_each umount _) w1) as [[[r|?|?|] w4] ts4]; simpl in *; try done.
    by destruct (Hn r).
Qed.

(** C35: unmounting the root of a task returns at once and leaves the work to another
    thread.  When that thread runs and has read the mount table, it goes through exactly
    the mounts that lie under the root, a mount that lies inside another one before
    that one, so no mount is busy because of another when its turn comes.  It stops at
    the first mount that cannot be unmounted, and leaves that one and those after it;
    when there is none, all of them are unmounted. *)
Theorem unmount_nested_first {E : Type} root w :
  ∃ t, run (unmount_recursive (E := E) root) w = (Done tt, w, [t]) ∧
    ∀ w0 text w1, run read_proc_mounts w0 = (Done text, w1, []) →
      ∃ ok rest w2, (ok ++ rest)%list ≡ₚ mounts_under root text ∧ nested_first (ok ++ rest)%list ∧
        unmounts ok w1 w2 ∧
        match rest with
        | [] => (run t w0).1 = (Done tt, w2)
        | m :: _ => ∃ o w3 ts, run (umount m) w2 = (o, w3, ts) ∧ o ≠ Done tt ∧ (run t w0).1.2 = w3
        end.
Proof.
  eexists. split; [done|]. intros w0 text w1 Hread.
  destruct (run_umounts (unmount_order root text) w1) as (ok & rest & w2 & Hl & Hok & Hrest).
  exists ok, rest, w2. rewrite <-Hl. split.
  { unfold unmount_order. by rewrite reverse_Permutation, sort_by_len_perm. }
  split; [apply unmount_order_nested|]. split; [done|].
  rewrite run_bind, run_attempt, run_bind, Hread. simpl.
  destruct rest as [|m rest].
  - destruct Hrest as (r & ts & ->). done.
  - destruct Hrest as (o & w3 & ts & Hm & Ho & Hw & Hn).
    exists o, w3, ts. split; [done|]. split; [done|].
    by destruct (run (for_each umount _) w1) as [[[r|?|?|] w4] ts4].
Qed.
End unmounting.

(** ** A task of the stress test and the service *)

Section life_cycle.
Context {W : Type} {I : Instance W} {H : Host W} {L : InstanceLaws I}
  (disp : ShimError → string) (rpc_text : TtrpcError → string)
  {S : Services (Local I)} {M : MockOs (Local I)}.
Implicit Types (s : Local I) (d : InstanceData (Instance.T I)).

#[local] Instance client : ShimClient (Local I) := local_client disp rpc_text.

Lemma run_rpc {A : Type} req (pick : @Response W H → option A) s :
  run (rpc_call disp rpc_text req pick) s =
  let '(o, s', ts) := run (handle req) s in
  match o with
  | Done p => match pick p with
              | Some a => (Done a, s', ts)
              | None => (Failed "unexpected response", s', ts)
              end
  | Failed e => (Failed (rpc_text (into_ttrpc disp e)), s', ts)
  | Panicked m => (Panicked m, s', ts)
  | Blocked => (Blocked, s', ts)
  end.
Proof.
  unfold rpc_call, serve. rewrite run_bind, !run_map_err.
  destruct (run (handle req) s) as [[[p|e|m|] s'] ts]; go; try done.
  destruct (pick p); go; by rewrite app_nil_r.
Qed.

(** A call of the mocks is the request, when that is answered. *)
Lemma run_mock_start t s r s' ts :
  run (task_start (mkReq (mt_id t) "")) s = (Done r, s', ts) → run (mock_start t) s = (Done tt, s', ts).
Proof.
  intros Hr. unfold mock_start. cbn [rpc_start client local_client].
  rewrite run_bind, run_rpc. unfold handle. rewrite run_bind, Hr. go. by rewrite !app_nil_r.
Qed.

Lemma run_mock_wait t s r s' ts :
  run (task_wait (mkReq (mt_id t) "")) s = (Done r, s', ts) → run (mock_wait t) s = (Done tt, s', ts).
Proof.
  intros Hr. unfold mock_wait. cbn [rpc_wait client local_client].
  rewrite run_bind, run_rpc. unfold handle. rewrite run_bind, Hr. go. by rewrite !app_nil_r.
Qed.

Lemma run_mock_delete t s r s' ts :
  run (task_delete (mkReq (mt_id t) "")) s = (Done r, s', ts) →
  ∃ ts', run (mock_delete t) (mkFlags s false false) = (Done tt, mkFlags s' true true, ts').
Proof.
  intros Hr. unfold mock_delete, delete_both.
  rewrite run_bind, run_attempt, run_try_run. cbn [fl_first fl_world].
  cbn [rpc_delete client local_client]. rewrite run_bind, run_rpc. unfold handle.
  rewrite run_bind, Hr. go. rewrite !app_nil_r.
  rewrite run_bind, run_attempt, run_try_run. simpl. eauto.
Qed.

(** The request that [mock_create] sends. *)
Definition mock_request (t : MockTask) : CreateTaskRequest := {|
  create_id := mt_id t; create_bundle := mt_dir t; create_rootfs := mt_mounts t;
  create_terminal := false; create_stdin := ""; create_stdout := ""; create_stderr := "";
  create_checkpoint := ""; create_parent_checkpoint := "" |}.

Lemma run_mock_create t s s' ts :
  run (mock_create t false) s = (Done tt, s', ts) → registered (mock_request t) s s'.
Proof.
  unfold mock_create, container_stdout. cbn [negb bind rpc_create client local_client].
  rewrite run_bind, run_rpc. unfold handle. rewrite run_bind. fold (mock_request t).
  destruct (run (task_create (mock_request t)) s) as [[[r|e|m|] s1] ts1] eqn:Hc; go; try done.
  intros [= -> _]. by destruct (task_create_cases _ _ _ _ _ Hc) as [?|[_ Hno]]; [|destruct (Hno r)].
Qed.

(** The service while its host is in state [w]. *)
Definition host_at (w : W) s : Local I := set_heap (set_world w (heap s)) s.

Lemma ready_host_at s id l d w : ready s id l d → ready (host_at w s) id l d.
Proof. intros []. by split. Qed.

(** C33: the stress test and the shim work together.  A task that was created
    under a new id, whose instance can be started, ends at some time and can
    be deleted, gets through all calls of the test without an error, however long
    it ran; the thread that reports its exit was spawned, and afterwards the
    shim has the tasks that it had before, and has announced the creation, the
    start and the deletion, in this order. *)
Theorem stress_task_life_cycle t s0 s1 ts0 l d p w2 ts2 w3 ts3 w4 x w5 ts5 :
  run (mock_create t false) s0 = (Done tt, s1, ts0) →
  instances s1 !! mt_id t = Some l → arena (heap s1) !! l = Some d →
  run (Instance.start (instance d)) (world (heap s1)) = (Done p, w2, ts2) →
  run thread_spawn w2 = (Done tt, w3, ts3) →
  exit_status (instance d) w4 = Some x →
  run (Instance.delete (instance d)) w4 = (Done tt, w5, ts5) →
  ∃ s2 ts s3 s4 ts' code time,
    run (mock_start t) s1 = (Done tt, s2, ts) ∧ wait_thread (mt_id t) l p ∈ ts ∧
    run (mock_wait t) (host_at w4 s2) = (Done tt, s3, []) ∧
    run (mock_delete t) (mkFlags s3 false false) = (Done tt, mkFlags s4 true true, ts') ∧
    instances s0 !! mt_id t = None ∧ instances s4 = instances s0 ∧
    events s4 = (events s0 ++
      [TaskCreate (mt_id t) (mt_dir t) (mt_mounts t) "" "" ""; TaskStart (mt_id t) p;
       TaskDelete (mt_id t) p code time])%list.
Proof.
  intros Hcreate Hi Ha Hstart Hspawn Hx Hdel.
  destruct (run_mock_create _ _ _ _ Hcreate)
    as (Hnew & l' & d' & _ & Hins & Har & _ & Hpid & Hst & Hlk & Hev & _).
  cbn [create_id mock_request] in *. rewrite Hins, lookup_insert_eq in Hi. injection Hi as <-.
  rewrite Har, lookup_insert_eq in Ha. injection Ha as <-.
  assert (ready s1 (mt_id t) l' d') as Hr1.
  { split; [by rewrite Hins, lookup_insert_eq|by rewrite Har, lookup_insert_eq|done]. }
  pose proof (task_start_spec s1 _ l' d' Hr1) as H2. rewrite Hst, Hstart, Hspawn in H2.
  set (d2 := upd d' (Some (unwrap_or (pid d') p)) Started Free) in *.
  set (s2 := add_event _ _) in H2.
  assert (ready (host_at w4 s2) (mt_id t) l' d2) as Hr2.
  { apply ready_host_at. split; [exact (ready_instance _ _ _ _ Hr1)| |done].
    subst s2. simpl. by apply lookup_insert_eq. }
  pose proof (task_wait_spec _ _ _ _ Hr2) as H3. simpl in H3. rewrite Hx in H3.
  destruct x as [code0 time0]. set (s3 := moved _ _ _ _) in H3.
  assert (ready s3 (mt_id t) l' (upd d2 (pid d2) Exited Free)) as Hr3 by (by apply ready_moved with d2).
  pose proof (task_delete_spec s3 _ _ _ w5 ts5 Hr3 (or_intror eq_refl) Hdel) as H4.
  cbv zeta in H4. destruct (run_mock_delete t _ _ _ _ H4) as [ts' H4'].
  do 2 eexists. exists s3. do 4 eexists.
  split; [by apply (run_mock_start t _ _ _ _ H2)|]. split; [set_solver|].
  split; [by apply (run_mock_wait t _ _ _ _ H3)|]. split; [exact H4'|].
  split; [done|]. subst s2 s3. simpl. rewrite Hpid, Hins, Hev. simpl.
  split; [by rewrite delete_insert_id|]. by rewrite <-!(assoc_L (++)%list).
Qed.

(** Dropping the shim of the test shuts the service down exactly when no task
    is left in it. *)
Theorem dropped_shim_exits s :
  run (drop_mock_shim (E := string)) s =
  (Done tt, if decide (instances s = ∅) then signal_exit s else s, []).
Proof.
  unfold drop_mock_shim. cbn [rpc_shutdown client local_client].
  rewrite run_bind, run_attempt, run_rpc. unfold handle, shutdown, is_empty.
  rewrite !run_bind. go. destruct (decide (instances s = ∅)) as [He|He].
  - rewrite bool_decide_eq_true_2 by done. by go.
  - rewrite bool_decide_eq_false_2 by done. by go.
Qed.
End life_cycle.
