(* ===== verification/StressMain.v ===== *)
(** The command of the stress test (crates/stress-test/src/main.rs, traits.rs and
    [reap_children] of utils.rs): the back end that it drives, the futures of its
    tasks, its main loop, and the clean-up of the processes that it leaves.

    [Backend] is the three traits of traits.rs in one class, with what dropping a
    shim or a task does; the two back ends are instances of it.  A future is the
    state machine that its awaits make of it ([Fut]); a [Pick] is what the
    runtime chooses to do next, and [loop] makes a list of them.  [loop] refines
    the steps of the file StressTest, and [history] says through which states a task has
    come and what its calls returned.

    The kernel is the parameter [Processes]; [ProcessLaws] describes its signals and its
    waitpid by a table of processes. *)
From S2P Require Import Prelude Errors Instance Paths Text Oci Local Threads Context StressTest StressClient StressMocks.
Local Open Scope string_scope.

(** ** traits.rs *)

Class Backend (W : Type) := {
  Containerd_ : Type;
  Shim_ : Type;
  Task_ : Type;
  start_shim : Containerd_ → path → prog W string Shim_;
  new_task : Shim_ → string → list string → prog W string Task_;
  create : Task_ → bool → prog W string unit;
  start : Task_ → prog W string unit;
  wait : Task_ → prog W string unit;
  delete : Task_ → prog W string unit;
  drop_shim_ : Shim_ → prog W Empty_set unit;
  drop_task_ : Task_ → prog W Empty_set unit;
  drop_containerd_ : Containerd_ → prog W Empty_set unit;
}.

(** *** The flags of all tasks

    A task has two [RunOnce] flags; here they are kept by task id, next to the
    world. *)
Record Tasks (W : Type) := mkTasks { tk_world : W; tk_flags : gmap string (bool * bool) }.
Arguments mkTasks {W}. Arguments tk_world {W}. Arguments tk_flags {W}.

Section tasks.
Context {W : Type}.

Definition set_tk_world (w : W) (s : Tasks W) : Tasks W := mkTasks w (tk_flags s).
Definition on_tasks {E A : Type} (p : prog W E A) : prog (Tasks W) E A := zoom tk_world set_tk_world p.

(** An operation with the flags of the task [id]. *)
Definition get_flags (id : string) (s : Tasks W) : Flags W :=
  let '(a, b) := default (false, false) (tk_flags s !! id) in mkFlags (tk_world s) a b.
Definition put_flags (id : string) (f : Flags W) (s : Tasks W) : Tasks W :=
  mkTasks (fl_world f) (<[id := (fl_first f, fl_second f)]> (tk_flags s)).
Definition with_flags {E A : Type} (id : string) (p : prog (Flags W) E A) : prog (Tasks W) E A :=
  zoom (get_flags id) (put_flags id) p.
End tasks.

(** The back end that talks to containerd. *)
Definition containerd_backend {W : Type} {S : Services W} : Backend (Tasks W) := {|
  Containerd_ := ClientInner;
  Shim_ := StressShim;
  Task_ := StressTask;
  start_shim c p := on_tasks (Shim_new c p);
  new_task s image args := on_tasks (shim_task s image args);
  create t verbose := on_tasks (Task_create t verbose);
  start t := on_tasks (Task_start t);
  wait t := on_tasks (Task_wait t);
  delete t := with_flags (st_id t) (Task_delete t);
  drop_shim_ s := on_tasks (drop_shim s);
  drop_task_ t := with_flags (st_id t) (drop_task t);
  drop_containerd_ c := on_tasks (drop_inner c);
|}.

(** The back end that starts the shim itself. *)
Definition mock_backend {W : Type} {S : Services W} {M : MockOs W} {R : ShimClient W} :
    Backend (Tasks W) := {|
  Containerd_ := MockContainerd;
  Shim_ := MockShim;
  Task_ := MockTask;
  start_shim c p := on_tasks (mock_start_shim c p);
  new_task s image args := on_tasks (mock_shim_task s image args);
  create t verbose := on_tasks (mock_create t verbose);
  start t := on_tasks (mock_start t);
  wait t := on_tasks (mock_wait t);
  delete t := with_flags (mt_id t) (mock_delete t);
  drop_shim_ _ := on_tasks drop_mock_shim;
  drop_task_ t := with_flags (mt_id t) (drop_mock_task t);
  drop_containerd_ c := on_tasks (drop_inner (mc_client c));
|}.

(** ** main.rs *)

Record StressCli := mkStressCli {
  cli_containerd : bool;
  cli_verbose : bool;
  cli_container_output : bool;
  cli_parallel : nat;
  cli_count : nat;
  cli_timeout : N;
  cli_image : string;
  cli_shim : path;
  cli_args : list string;
}.

(** What a call leads to: its outcome, the state, the threads it spawned. *)
Abbreviation ran W A := (outcome string A * W * list (thread W))%type.

Section futures.
Context {W : Type} {B : Backend W}.
Local Open Scope prog_scope.

(** The future of a task: where it is, and what is left of the call it awaits. *)
Inductive Fut :=
| FSetup (p : prog W string Task_)
| FBarrier (t : Task_)
| FAcquire (t : Task_)
| FCreate (t : Task_) (p : prog W string unit)
| FStart (t : Task_) (p : prog W string unit)
| FWait (t : Task_) (p : prog W string unit)
| FDelete (t : Task_) (p : prog W string unit)
| FDrop (ok : bool) (p : thread W)          (* the task is dropped at the end *)
| FDone (ok : bool)
| FTaken (ok : bool).

Definition fut_progress (f : Fut) : Progress :=
  match f with
  | FSetup _ => Setup
  | FBarrier _ => AtBarrier
  | FAcquire _ => Acquiring
  | FCreate _ _ | FStart _ _ => Holding
  | FWait _ _ => Waiting
  | FDelete _ _ => Deleting_
  | FDrop ok _ | FDone ok => Finished ok
  | FTaken ok => Collected ok
  end.

(** One poll of an awaited call: [inl] is a panic. *)
Definition poll_call {E A : Type} (p : prog W E A) (ok : A → Fut) (err : E → Fut)
    (more : prog W E A → Fut) (w : W) : option ((string + Fut) * list (thread W) * W) :=
  match p with
  | Ret a => Some (inr (ok a), [], w)
  | Throw e => Some (inr (err e), [], w)
  | Panic m => Some (inl m, [], w)
  | _ => match pstep p w with
         | Some (p', w', ts) => Some (inr (more p'), ts, w')
         | None => None
         end
  end.

(** One step of a future between two awaits; the barrier and the semaphore are
    steps of the loop. *)
Definition poll (f : Fut) (w : W) : option ((string + Fut) * list (thread W) * W) :=
  match f with
  | FSetup p => poll_call p FBarrier (λ _, FDone false) FSetup w
  | FCreate t p => poll_call p (λ _, FStart t (start t)) (λ _, FDrop false (drop_task_ t)) (FCreate t) w
  | FStart t p => poll_call p (λ _, FWait t (wait t)) (λ _, FDrop false (drop_task_ t)) (FStart t) w
  | FWait t p => poll_call p (λ _, FDelete t (delete t)) (λ _, FDrop false (drop_task_ t)) (FWait t) w
  | FDelete t p =>
      poll_call p (λ _, FDrop true (drop_task_ t)) (λ _, FDrop false (drop_task_ t)) (FDelete t) w
  | FDrop ok p => poll_call p (λ _, FDone ok) (λ e : Empty_set, match e with end) (FDrop ok) w
  | FBarrier _ | FAcquire _ | FDone _ | FTaken _ => None
  end.

(** The variables of the main loop. *)
Record Loop := mkLoop {
  lp_futures : list Fut;
  lp_open : bool;
  lp_setup_done : bool;
  lp_started : bool;
  lp_success : nat;
  lp_failed : nat;
  lp_incomplete : nat;
  lp_ended : option Ending;
}.

(** What the runtime does next: it polls a future, completes the barrier, or takes
    a branch of the [select!]. *)
Inductive Pick :=
| Poll (i : nat)
| Acquire (i : nat)
| OpenBarrier
| SetupDone
| Next (i : nat)        (* tracker.next() gives the result of this future *)
| NoneLeft              (* tracker.next() gives None *)
| Watchdog
| CtrlC.

Context (cli : StressCli).

Definition cli_permits : nat :=
  if bool_decide (cli_parallel cli = 0%nat) then cli_count cli else cli_parallel cli.

Definition set_fut (i : nat) (f : Fut) (lp : Loop) : Loop :=
  mkLoop (<[i:=f]> (lp_futures lp)) (lp_open lp) (lp_setup_done lp) (lp_started lp)
    (lp_success lp) (lp_failed lp) (lp_incomplete lp) (lp_ended lp).
Definition end_loop (e : Ending) (lp : Loop) : Loop :=
  mkLoop (lp_futures lp) (lp_open lp) (lp_setup_done lp) (lp_started lp)
    (lp_success lp) (lp_failed lp) (lp_incomplete lp) (Some e).

Definition holding_permit (f : Fut) : bool :=
  match f with FCreate _ _ | FStart _ _ => true | _ => false end.
Definition permits_taken (lp : Loop) : nat :=
  length (filter (λ f, holding_permit f = true) (lp_futures lp)).

Definition at_barrier (f : Fut) : bool := match f with FBarrier _ => true | _ => false end.
Definition is_taken (f : Fut) : bool := match f with FTaken _ => true | _ => false end.
Definition pass_barrier (f : Fut) : Fut := match f with FBarrier t => FAcquire t | f => f end.

Definition pick (c : Pick) (lp : Loop) (w : W) : option ((string + Loop) * list (thread W) * W) :=
  match c with
  | Poll i =>
      f ← lp_futures lp !! i;
      '(r, ts, w') ← poll f w;
      Some (match r with inl m => inl m | inr f' => inr (set_fut i f' lp) end, ts, w')
  | Acquire i =>
      match lp_futures lp !! i with
      | Some (FAcquire t) =>
          if bool_decide (permits_taken lp < cli_permits)%nat then
            let lp := set_fut i (FCreate t (create t (cli_container_output cli))) lp in
            Some (inr (mkLoop (lp_futures lp) (lp_open lp) (lp_setup_done lp) true
                         (lp_success lp) (lp_failed lp) (lp_incomplete lp) (lp_ended lp)), [], w)
          else None
      | _ => None
      end
  | OpenBarrier =>
      if negb (lp_open lp) && forallb at_barrier (lp_futures lp) then
        Some (inr (mkLoop (pass_barrier <$> lp_futures lp) true (lp_setup_done lp) (lp_started lp)
                     (lp_success lp) (lp_failed lp) (lp_incomplete lp) (lp_ended lp)), [], w)
      else None
  | SetupDone =>
      if lp_open lp && negb (lp_setup_done lp) then
        Some (inr (mkLoop (lp_futures lp) true true (lp_started lp)
                     (lp_success lp) (lp_failed lp) (lp_incomplete lp) (lp_ended lp)), [], w)
      else None
  | Next i =>
      match lp_futures lp !! i with
      | Some (FDone ok) =>
          let lp := set_fut i (FTaken ok) lp in
          Some (inr (mkLoop (lp_futures lp) (lp_open lp) (lp_setup_done lp) (lp_started lp)
                       (if ok then lp_success lp + 1 else lp_success lp)%nat
                       (if ok then lp_failed lp else lp_failed lp + 1)%nat
                       (lp_incomplete lp - 1) (lp_ended lp)), [], w)
      | _ => None
      end
  | NoneLeft =>
      if forallb is_taken (lp_futures lp) then Some (inr (end_loop AllCollected lp), [], w) else None
  | Watchdog =>
      if bool_decide (watchdog (cli_timeout cli) ≠ None) && lp_setup_done lp
      then Some (inr (end_loop TimedOut_ lp), [], w) else None
  | CtrlC => Some (inr (end_loop Cancelled_ lp), [], w)
  end.

(** The tasks of the futures that are dropped with the tracker. *)
Definition fut_task (f : Fut) : option Task_ :=
  match f with
  | FBarrier t | FAcquire t | FCreate t _ | FStart t _ | FWait t _ | FDelete t _ => Some t
  | _ => None
  end.
Definition drop_tracker (lp : Loop) : thread W :=
  for_each drop_task_ (omap fut_task (lp_futures lp)) ;; Ret tt.

(** The end of the scope of a value whose [Drop] is [d]. *)
Definition dropping {A : Type} (d : thread W) (r : ran W A) : ran W A :=
  let '(o, w, ts) := r in
  match o with
  | Blocked => r
  | _ => and_then (Done tt, w, ts) (λ _ w, and_then (run (infallible d) w) (λ _ w, (o, w, [])))
  end.

(** The [loop], following the picks; a pick that is not enabled blocks, and so does
    the end of the list. *)
Fixpoint loop (picks : list Pick) (lp : Loop) (w : W) : ran W Loop :=
  match picks with
  | [] => (Blocked, w, [])
  | c :: picks =>
      match pick c lp w with
      | None => (Blocked, w, [])
      | Some (r, ts, w') =>
          and_then (Done tt, w', ts) (λ _ w,
            match r with
            | inl m => dropping (drop_tracker lp) (Panicked m, w, [])
            | inr lp' => match lp_ended lp' with
                         | Some _ => (Done lp', w, [])
                         | None => loop picks lp' w
                         end
            end)
      end
  end.

(** After the loop: [bail!], the [unwrap] of the start time, or [Ok(())]. *)
Definition loop_verdict (lp : Loop) : outcome string unit :=
  if negb (bool_decide (lp_success lp = cli_count cli)) then Failed "Some tasks did not succeed"
  else if lp_started lp then Done tt
  else Panicked "called `Option::unwrap()` on a `None` value".

Definition initial_loop (shim : Shim_) : Loop :=
  mkLoop (replicate (cli_count cli) (FSetup (new_task shim (cli_image cli) (cli_args cli))))
    false false false 0 0 (cli_count cli) None.

(** The shim and the tasks share the client of the back end, whose lease is deleted
    when the last of them is gone: at the end, when the back end is dropped. *)
Definition run_stress_test (picks : list Pick) (c8d : Containerd_) (w : W) : ran W unit :=
  dropping (drop_containerd_ c8d) (
  and_then (run (start_shim c8d (cli_shim cli)) w) (λ shim w,
  dropping (drop_shim_ shim) (
  and_then (run (new_task shim (cli_image cli) (cli_args cli)) w) (λ pause w,
  dropping (drop_task_ pause) (
  and_then (run (create pause false) w) (λ _ w,
  and_then (loop picks (initial_loop shim) w) (λ lp w,
  dropping (drop_tracker lp) (loop_verdict lp, w, [])))))))).
End futures.

(** ** The loop refines the steps of the test *)

Section refinement.
Context {W : Type} {B : Backend W} (cli : StressCli).

Definition loop_stress (lp : Loop (B := B)) : Stress :=
  mkStress (fut_progress <$> lp_futures lp) (cli_permits cli)
    (bool_decide (watchdog (cli_timeout cli) ≠ None)) (lp_open lp) (lp_setup_done lp)
    (lp_started lp) (lp_success lp) (lp_failed lp) (lp_incomplete lp) (lp_ended lp).

Lemma poll_call_inv {E A : Type} (p : prog W E A) ok err more w f ts w' :
  poll_call (B := B) p ok err more w = Some (inr f, ts, w') →
  (∃ a, p = Ret a ∧ f = ok a) ∨ (∃ e, p = Throw e ∧ f = err e) ∨
  ∃ p', pstep p w = Some (p', w', ts) ∧ f = more p'.
Proof.
  destruct p; simpl; try (intros [= <- <- <-]); eauto 10; try done.
  destruct (f0 w) as [[b w1]|]; [|done]. intros [= <- <- <-]. eauto 10.
Qed.

(** A poll leaves the future where it was, or is a step of it. *)
Lemma poll_progress f w f' ts w' :
  poll (B := B) f w = Some (inr f', ts, w') →
  fut_progress f' = fut_progress f ∨ advance (fut_progress f) (fut_progress f').
Proof.
  destruct f; simpl; try done;
    intros [(a & _ & ->)|[(e & _ & ->)|(p' & _ & ->)]]%poll_call_inv; simpl; eauto using advance; try done;
    by destruct e.
Qed.

Lemma loop_stress_set_fut i f lp :
  loop_stress (set_fut i f lp) = set_future i (fut_progress f) (loop_stress lp).
Proof. unfold loop_stress, set_future. simpl. by rewrite list_fmap_insert. Qed.

Lemma set_future_id i p s : futures s !! i = Some p → set_future i p s = s.
Proof. intros Hi. unfold set_future. rewrite list_insert_id by done. by destruct s. Qed.

Lemma permits_taken_holding lp : permits_taken lp = holding (loop_stress lp).
Proof.
  unfold permits_taken, holding. simpl. induction (lp_futures lp) as [|f l IH]; [done|].
  rewrite fmap_cons, !filter_cons. destruct f; simpl; repeat case_decide; simpl; congruence.
Qed.

Lemma sstep_to s s' s'' : sstep s s' → s'' = s' → rtc sstep s s''.
Proof. intros Hs ->. by apply rtc_once. Qed.

Lemma forallb_at_barrier l :
  forallb (at_barrier (B := B)) l = true → Forall (λ f, fut_progress f = AtBarrier) l.
Proof.
  induction l as [|f l IH]; simpl; [done|]. intros [Hf Hl]%andb_true_iff.
  constructor; [by destruct f|by apply IH].
Qed.

Lemma forallb_taken l :
  forallb (is_taken (B := B)) l = true → Forall (λ f, ∃ ok, fut_progress f = Collected ok) l.
Proof.
  induction l as [|f l IH]; simpl; [done|]. intros [Hf Hl]%andb_true_iff.
  constructor; [destruct f; try done; by eexists|by apply IH].
Qed.

Lemma pass_barrier_progress l :
  forallb (at_barrier (B := B)) l = true →
  fut_progress <$> (pass_barrier <$> l) = (λ _, Acquiring) <$> (fut_progress <$> l).
Proof.
  induction l as [|f l IH]; [done|]. intros Hb. apply andb_true_iff in Hb as [Hf Hl].
  rewrite !fmap_cons, IH by done. by destruct f.
Qed.

Lemma pick_poll_refines i lp w lp' ts w' :
  lp_ended lp = None → pick cli (Poll i) lp w = Some (inr lp', ts, w') →
  rtc sstep (loop_stress lp) (loop_stress lp').
Proof.
  intros He. simpl.
  destruct (lp_futures lp !! i) as [f|] eqn:Hi; simpl; [|done].
  destruct (poll f w) as [[[[m|f'] ts1] w1]|] eqn:Hp; simpl; try done. intros [= <- _ _].
  assert (futures (loop_stress lp) !! i = Some (fut_progress f)) as Hf
    by (simpl; by rewrite list_lookup_fmap, Hi).
  rewrite loop_stress_set_fut. destruct (poll_progress _ _ _ _ _ Hp) as [->|Ha].
  + by rewrite set_future_id.
  + apply rtc_once. by eapply st_advance.
Qed.

Lemma pick_acquire_refines i lp w lp' ts w' :
  lp_ended lp = None → pick cli (Acquire i) lp w = Some (inr lp', ts, w') →
  rtc sstep (loop_stress lp) (loop_stress lp').
Proof.
  intros He. simpl.
  destruct (lp_futures lp !! i) as [[]|] eqn:Hi; try done. case_bool_decide as Hlt; [|done].
  intros [= <- _ _]. rewrite permits_taken_holding in Hlt.
  assert (futures (loop_stress lp) !! i = Some Acquiring) as Hf
    by (simpl; by rewrite list_lookup_fmap, Hi).
  eapply sstep_to; [by apply (st_acquire (loop_stress lp) i)|].
  unfold loop_stress, set_started, set_future. simpl. by rewrite list_fmap_insert.
Qed.

Lemma pick_refines c lp w lp' ts w' :
  lp_ended lp = None → pick cli c lp w = Some (inr lp', ts, w') →
  rtc sstep (loop_stress lp) (loop_stress lp').
Proof.
  intros He. destruct c as [i|i| | |i| | |]; [..|simpl|simpl|simpl|simpl|simpl|simpl].
  - by apply pick_poll_refines.
  - by apply pick_acquire_refines.
  - destruct (lp_open lp) eqn:Ho; simpl; [done|].
    destruct (forallb at_barrier (lp_futures lp)) eqn:Hb; [|done]. intros [= <- _ _].
    eapply sstep_to; [apply (st_barrier (loop_stress lp)); [done|done|]|].
    + simpl. apply Forall_fmap. by apply forallb_at_barrier.
    + unfold loop_stress. simpl. rewrite He. f_equal. by apply pass_barrier_progress.
  - destruct (lp_open lp) eqn:Ho; simpl; [|done]. destruct (lp_setup_done lp) eqn:Hd; [done|].
    intros [= <- _ _]. eapply sstep_to; [by apply (st_setup_done (loop_stress lp))|].
    unfold loop_stress. simpl. by rewrite He.
  - destruct (lp_futures lp !! i) as [[]|] eqn:Hi; try done. intros [= <- _ _].
    assert (futures (loop_stress lp) !! i = Some (Finished ok)) as Hf
      by (simpl; by rewrite list_lookup_fmap, Hi).
    eapply sstep_to; [by apply (st_collect (loop_stress lp) i ok)|].
    unfold loop_stress. simpl. by rewrite list_fmap_insert, He.
  - destruct (forallb is_taken (lp_futures lp)) eqn:Ht; [|done]. intros [= <- _ _].
    eapply sstep_to; [apply (st_empty (loop_stress lp)); [done|]|done].
    simpl. apply Forall_fmap. by apply forallb_taken.
  - case_bool_decide as Hw; simpl; [|done]. destruct (lp_setup_done lp) eqn:Hd; [|done].
    intros [= <- _ _]. eapply sstep_to; [apply (st_timeout (loop_stress lp)); try done|].
    + simpl. by rewrite bool_decide_eq_true_2.
    + unfold loop_stress, set_ended. simpl. by rewrite Hd.
  - intros [= <- _ _]. by eapply sstep_to; [apply (st_cancel (loop_stress lp))|].
Qed.

(** Following picks is making steps of the test. *)
Lemma loop_refines picks lp w lp' w' ts :
  lp_ended lp = None → loop cli picks lp w = (Done lp', w', ts) →
  rtc sstep (loop_stress lp) (loop_stress lp') ∧ is_Some (lp_ended lp').
Proof.
  revert lp w ts. induction picks as [|c picks IH]; intros lp w ts He; simpl; [done|].
  destruct (pick cli c lp w) as [[[[m|lp1] ts1] w1]|] eqn:Hp; simpl; [|..|done].
  - destruct (run _ w1) as [[[?|?|?|] ?] ?]; done.
  - pose proof (pick_refines _ _ _ _ _ _ He Hp) as Hst.
    destruct (lp_ended lp1) eqn:He1; [intros [= <- _ _]; eauto|].
    destruct (loop cli picks lp1 w1) as [[o w2] ts2] eqn:Hl. intros [= -> -> _].
    destruct (IH _ _ _ He1 Hl) as [Hst' ?]. split; [by etrans|done].
Qed.

Lemma initial_loop_stress shim :
  loop_stress (initial_loop cli shim) = initial (cli_count cli) (cli_parallel cli) (cli_timeout cli).
Proof. unfold loop_stress, initial_loop, initial. simpl. by rewrite fmap_replicate. Qed.

Lemma and_then_done {A A' : Type} (r : ran W A) (k : A → W → ran W A') b w ts :
  and_then r k = (Done b, w, ts) →
  ∃ a w1 ts1 ts2, r = (Done a, w1, ts1) ∧ k a w1 = (Done b, w, ts2).
Proof.
  destruct r as [[[a|?|?|] w1] ts1]; simpl; try done.
  destruct (k a w1) as [[o w2] ts2] eqn:Hk. intros [= -> -> _]. eauto 10.
Qed.

Lemma dropping_done {A : Type} d (r : ran W A) a w ts :
  dropping d r = (Done a, w, ts) → ∃ w1 ts1, r = (Done a, w1, ts1).
Proof.
  destruct r as [[o w1] ts1]. unfold dropping. destruct o; try done.
  all: intros (? & w2 & ? & ? & _ & H1)%and_then_done;
    apply and_then_done in H1 as (? & w3 & ? & ? & _ & [= -> _ _]); eauto.
Qed.

Lemma loop_verdict_stress lp : loop_verdict cli lp = verdict (cli_count cli) (loop_stress lp).
Proof. done. Qed.

(** *** What the futures went through *)

Local Open Scope list_scope.

(** [p] is what is left of the call [p0] after some of its steps. *)
Inductive left_of {E A : Type} (p0 : prog W E A) : prog W E A → Prop :=
| left_all : left_of p0 p0
| left_step p w p' w' ts : left_of p0 p → pstep p w = Some (p', w', ts) → left_of p0 p'.

(** The call [p0] has returned [Ok]. *)
Abbreviation returned p0 := (left_of p0 (Ret tt)).

(** The states that the future went through before it got to [f], in their order: each
    call was made when the one before had returned [Ok]. *)
Definition came (h : list Fut) (f : Fut) : Prop :=
  let out := cli_container_output cli in
  match f with
  | FCreate t p => left_of (create t out) p
  | FStart t p => left_of (start t) p ∧ returned (create t out) ∧ sublist [FCreate t (Ret tt)] h
  | FWait t p => left_of (wait t) p ∧ (returned (create t out) ∧ returned (start t)) ∧
      sublist [FCreate t (Ret tt); FStart t (Ret tt)] h
  | FDelete t p => left_of (delete t) p ∧
      (returned (create t out) ∧ returned (start t) ∧ returned (wait t)) ∧
      sublist [FCreate t (Ret tt); FStart t (Ret tt); FWait t (Ret tt)] h
  | FDrop true _ | FDone true | FTaken true => ∃ t,
      (returned (create t out) ∧ returned (start t) ∧ returned (wait t) ∧ returned (delete t)) ∧
      sublist [FCreate t (Ret tt); FStart t (Ret tt); FWait t (Ret tt); FDelete t (Ret tt)] h
  | _ => True
  end.

Lemma came_later h f g : came h f → came (h ++ [g]) f.
Proof.
  assert (∀ l : list Fut, sublist l h → sublist l (h ++ [g])) as Hl by (intros l; by apply sublist_inserts_r).
  destruct f as [| | | | | | |[]|[]|[]]; simpl; naive_solver.
Qed.

Lemma sublist_snoc (l h : list (Fut (B := B))) f : sublist l h → sublist (l ++ [f]) (h ++ [f]).
Proof. intros Hl. by apply sublist_app. Qed.

Lemma came_poll h f w f' ts w' :
  poll f w = Some (inr f', ts, w') → came h f → came (h ++ [f]) f'.
Proof.
  destruct f as [p|t|t|t p|t p|t p|t p|ok p|ok|ok]; simpl; try done;
    intros [(a & -> & ->)|[(e & -> & ->)|(p' & Hp & ->)]]%poll_call_inv; try destruct a;
    try done; try by destruct e.
  - intros Hc. split; [constructor|]. split; [done|]. by apply (sublist_snoc []), sublist_nil_l.
  - intros Hc. by eapply left_step.
  - intros (Hl & Hc & Hs). split; [constructor|]. split; [done|].
    by apply (sublist_snoc [FCreate t (Ret tt)]).
  - intros (Hl & Hc & Hs). split; [by eapply left_step|]. split; [done|]. by apply sublist_inserts_r.
  - intros (Hl & [? ?] & Hs). split; [constructor|]. split; [done|].
    by apply (sublist_snoc [FCreate t (Ret tt); FStart t (Ret tt)]).
  - intros (Hl & Hc & Hs). split; [by eapply left_step|]. split; [done|]. by apply sublist_inserts_r.
  - intros (Hl & (? & ? & ?) & Hs). exists t. split; [done|].
    by apply (sublist_snoc [FCreate t (Ret tt); FStart t (Ret tt); FWait t (Ret tt)]).
  - intros (Hl & Hc & Hs). split; [by eapply left_step|]. split; [done|]. by apply sublist_inserts_r.
  - intros Hc. apply (came_later h (FDrop ok (Ret tt)) (FDrop ok (Ret tt))) in Hc. by destruct ok.
  - intros Hc. apply (came_later h (FDrop ok p) (FDrop ok p)) in Hc. by destruct ok.
Qed.

(** The loops that an execution goes through, the last one included. *)
Fixpoint loops (picks : list Pick) (lp : Loop) (w : W) : list Loop :=
  lp :: match picks with
        | [] => []
        | c :: picks =>
            match pick cli c lp w with
            | Some (inr lp', _, w') =>
                match lp_ended lp' with Some _ => [lp'] | None => loops picks lp' w' end
            | _ => []
            end
        end.

(** The states of the future at place [i]. *)
Definition history (i : nat) (lps : list Loop) : list Fut := omap (λ lp, lp_futures lp !! i) lps.

Lemma history_snoc i lps lp f :
  lp_futures lp !! i = Some f → history i (lps ++ [lp]) = (history i lps ++ [f])%list.
Proof. intros Hf. unfold history. rewrite omap_app. simpl. by rewrite Hf. Qed.

Definition all_came (lps : list Loop) (lp : Loop) : Prop :=
  ∀ i f, lp_futures lp !! i = Some f → came (history i lps) f.

(** A pick of another kind than a poll, or of another future, leaves a future with what
    it has come through. *)
Lemma pick_came c lps lp w lp' ts w' :
  all_came lps lp → pick cli c lp w = Some (inr lp', ts, w') → all_came (lps ++ [lp]) lp'.
Proof.
  intros Hc Hp.
  assert (∀ i f, lp_futures lp !! i = Some f → came (history i (lps ++ [lp])) f) as Hkeep.
  { intros i f Hf. rewrite (history_snoc _ _ _ _ Hf). by apply came_later, Hc. }
  assert (∀ i f g l, lp_futures lp !! i = Some f → (came (history i (lps ++ [lp])) g) →
    ∀ j k, <[i:=g]> (lp_futures lp) !! j = Some k → l = lp → came (history j (lps ++ [lp])) k) as Hset.
  { intros i f g l Hf Hg j k Hj ->. destruct (decide (i = j)) as [->|Hne].
    - rewrite list_lookup_insert_eq in Hj by (by eapply lookup_lt_Some). by injection Hj as <-.
    - rewrite list_lookup_insert_ne in Hj by done. by apply Hkeep. }
  destruct c as [i|i| | |i| | |]; simpl in Hp.
  - destruct (lp_futures lp !! i) as [f|] eqn:Hi; simpl in Hp; [|done].
    destruct (poll f w) as [[[[m|f'] ts1] w1]|] eqn:Hpoll; simpl in Hp; try done.
    injection Hp as <- _ _. intros j k Hj. eapply (Hset i f f'); [done| |exact Hj|reflexivity].
    rewrite (history_snoc _ _ _ _ Hi). eapply came_poll; [done|by apply Hc].
  - destruct (lp_futures lp !! i) as [[]|] eqn:Hi; try done. case_bool_decide; [|done].
    injection Hp as <- _ _. intros j k Hj. eapply (Hset i); [done| |exact Hj|reflexivity]. constructor.
  - destruct (_ && _); [|done]. injection Hp as <- _ _. intros j k Hj. simpl in Hj.
    rewrite list_lookup_fmap in Hj. apply fmap_Some in Hj as (f & Hf & ->).
    pose proof (Hkeep j f Hf). by destruct f.
  - destruct (_ && _); [|done]. injection Hp as <- _ _. exact Hkeep.
  - destruct (lp_futures lp !! i) as [[]|] eqn:Hi; try done. injection Hp as <- _ _.
    intros j k Hj. eapply (Hset i); [done| |exact Hj|reflexivity].
    pose proof (Hkeep i _ Hi) as Hk. by destruct ok.
  - destruct (forallb _ _); [|done]. injection Hp as <- _ _. exact Hkeep.
  - destruct (_ && _); [|done]. injection Hp as <- _ _. exact Hkeep.
  - injection Hp as <- _ _. exact Hkeep.
Qed.

Lemma loops_came picks lps lp w lp' w' ts :
  all_came lps lp → loop cli picks lp w = (Done lp', w', ts) →
  ∃ lps', (lps ++ loops picks lp w = lps' ++ [lp'])%list ∧ all_came lps' lp'.
Proof.
  revert lps lp w ts. induction picks as [|c picks IH]; intros lps lp w ts Hc; simpl; [done|].
  destruct (pick cli c lp w) as [[[[m|lp1] ts1] w1]|] eqn:Hp; simpl; [|..|done].
  { destruct (run _ w1) as [[[?|?|?|] ?] ?]; done. }
  pose proof (pick_came _ _ _ _ _ _ _ Hc Hp) as Hc1.
  destruct (lp_ended lp1) eqn:He1.
  { intros [= <- _ _]. exists (lps ++ [lp])%list. by rewrite <-(assoc_L _). }
  destruct (loop cli picks lp1 w1) as [[o w2] ts2] eqn:Hl. intros [= -> -> _].
  destruct (IH _ _ _ _ Hc1 Hl) as (lps' & Heq & ?). exists lps'. split; [|done].
  by rewrite <-Heq, <-(assoc_L _).
Qed.

(** C30: a test that passes had tasks, and for each of them its calls of create, start,
    wait and delete were made in this order on the same task, each has returned [Ok]
    before the next one was made, and the future has returned [Ok]: the states that
    the future went through show all of this. *)
Theorem passed_test_ran_every_task picks c8d w w' ts :
  run_stress_test cli picks c8d w = (Done tt, w', ts) →
  (0 < cli_count cli)%nat ∧
  ∃ shim lp w1 w2 ts', loop cli picks (initial_loop cli shim) w1 = (Done lp, w2, ts') ∧
    length (lp_futures lp) = cli_count cli ∧
    ∀ i, (i < cli_count cli)%nat → ∃ t,
      returned (create t (cli_container_output cli)) ∧ returned (start t) ∧
      returned (wait t) ∧ returned (delete t) ∧
      sublist [FCreate t (Ret tt); FStart t (Ret tt); FWait t (Ret tt); FDelete t (Ret tt); FTaken true]
        (history i (loops picks (initial_loop cli shim) w1)).
Proof.
  unfold run_stress_test. intros H1. apply dropping_done in H1 as (? & ? & H1).
  apply and_then_done in H1 as (shim & w1 & ? & ? & _ & H1).
  apply dropping_done in H1 as (? & ? & H1). apply and_then_done in H1 as (pause & ? & ? & ? & _ & H1).
  apply dropping_done in H1 as (? & ? & H1). apply and_then_done in H1 as (? & w2 & ? & ? & _ & H1).
  apply and_then_done in H1 as (lp & w3 & ts3 & ? & Hl & H1).
  apply dropping_done in H1 as (? & ? & [= Hv _ _]). rewrite loop_verdict_stress in Hv.
  destruct (loop_refines picks (initial_loop cli shim) w2 lp w3 ts3 eq_refl Hl) as [Hst _]. rewrite initial_loop_stress in Hst.
  pose proof (sound_reachable _ _ _ _ Hst) as Hs. unfold verdict in Hv.
  case_bool_decide as Hc; [|done]. simpl in Hv. destruct (lp_started lp) eqn:Hst'; [|done].
  split; [exact (sound_some _ _ Hs Hst')|]. exists shim, lp, w2, w3, ts3. split; [done|].
  pose proof (sound_length _ _ Hs) as Hlen. simpl in Hlen. rewrite length_fmap in Hlen.
  split; [done|]. pose proof (all_collected _ _ Hs Hc) as Hall. simpl in Hall.
  destruct (loops_came picks [] (initial_loop cli shim) w2 lp w3 ts3) as (lps & Heq & Hcame); [|done|].
  { intros i f Hf. simpl in Hf. apply lookup_replicate in Hf as [-> _]. done. }
  simpl in Heq. rewrite Heq. intros i Hi. rewrite <-Hlen in Hi.
  destruct (lookup_lt_is_Some_2 _ _ Hi) as [f Hf].
  assert (f = FTaken true) as ->.
  { pose proof (Forall_lookup_1 _ _ i (fut_progress f) Hall) as Hf'.
    rewrite list_lookup_fmap, Hf in Hf'. specialize (Hf' eq_refl). destruct f; simplify_eq/=; done. }
  destruct (Hcame i _ Hf) as (t & (? & ? & ? & ?) & Hsub). exists t.
  do 4 (split; [done|]). rewrite (history_snoc _ _ _ _ Hf). by apply (sublist_snoc [_; _; _; _]).
Qed.
End refinement.

(** ** utils.rs: the children that are left *)

Class Processes (W : Type) := {
  set_child_subreaper : prog W string unit;
  logger_init : prog W string unit;                   (* env_logger::try_init *)
  read_children : prog W string string;               (* /proc/<pid>/task/<pid>/children *)
  send_signal : i32 → Z → prog W string unit;         (* nix::sys::signal::kill *)
  waitpid_nohang : i32 → prog W string unit;
}.

(** A child that is read from /proc is killed, and waited for if it has ended. *)
Definition reap_one {W E : Type} {P : Processes W} (p : u32) : prog W E unit :=
  bind (attempt (send_signal (as_i32 p) SIGKILL)) (λ _,
  bind (attempt (waitpid_nohang (as_i32 p))) (λ _, Ret tt)).

(** [reap_children]; [fuel] bounds the rounds of the loop. *)
Fixpoint reap_children {W : Type} {P : Processes W} (fuel : nat) : prog W string unit :=
  match fuel with
  | O => Panic "out of fuel"
  | Datatypes.S fuel =>
      bind read_children (λ text,
        let list := omap (parse_unsigned 32) (split_whitespace text) in
        match list with
        | [] => Ret tt
        | _ => bind (for_each reap_one list) (λ _, reap_children fuel)
        end)
  end.

(** *** The process table of the kernel

    What the test leaves behind: a process with its parent, whether [SIGKILL] was sent
    to it, and for how many polls it is still there then. *)
Record Proc := mkProc { pr_parent : N; pr_killed : bool; pr_delay : nat }.

Abbreviation Table := (gmap N Proc).

(** [SIGKILL] cannot be caught or ignored. *)
Definition signalled (p : N) (t : Table) : Table :=
  alter (λ x, mkProc (pr_parent x) true (pr_delay x)) p t.

(** The children of a process that has ended are adopted by the subreaper [me]. *)
Definition adopt (me p : N) (x : Proc) : Proc :=
  mkProc (if bool_decide (pr_parent x = p) then me else pr_parent x) (pr_killed x) (pr_delay x).

(** A poll of [p]: one that was killed has ended, or is nearer to its end. *)
Definition polled (me p : N) (t : Table) : Table :=
  match t !! p with
  | Some (mkProc par true O) => adopt me p <$> base.delete p t
  | Some (mkProc par true (Datatypes.S n)) => <[p := mkProc par true n]> t
  | _ => t
  end.

(** What the kernel documents of the calls that [reap_children] makes: [kill] delivers
    the signal, [waitpid] with [WNOHANG] removes a child that has ended, whose children
    we get as the subreaper, and the file of /proc lists children of ours.  The file is
    not promised to list all of them.  The processes that are left do not start others
    in the meantime. *)
Class ProcessLaws {W : Type} (P : Processes W) := {
  me : N;
  processes : W → Table;
  listed : W → list N;
  law_read w : run read_children w = (Done (spaced (listed w)), w, []);
  law_distinct w : NoDup (listed w);
  law_child w p : p ∈ listed w →
    (Z.of_N p < 2 ^ 31)%Z ∧ ∃ x, processes w !! p = Some x ∧ pr_parent x = me;
  law_signal w p : is_Some (processes w !! p) → (Z.of_N p < 2 ^ 31)%Z →
    ∃ w', run (send_signal (Z.of_N p) SIGKILL) w = (Done tt, w', []) ∧
      processes w' = signalled p (processes w);
  law_waitpid w p x : processes w !! p = Some x → pr_parent x = me → (Z.of_N p < 2 ^ 31)%Z →
    ∃ w', run (waitpid_nohang (Z.of_N p)) w = (Done tt, w', []) ∧
      processes w' = polled me p (processes w);
}.

(** *** What one round does to the table *)

(** How many polls are left until all processes have ended. *)
Definition left_to_do (t : Table) : nat := map_fold (λ _ x n, Datatypes.S (pr_delay x) + n)%nat 0%nat t.

Lemma left_to_do_delete t p x :
  t !! p = Some x → left_to_do t = (Datatypes.S (pr_delay x) + left_to_do (base.delete p t))%nat.
Proof.
  intros Hp. unfold left_to_do. rewrite (map_fold_delete_L _ _ p x t); [done| |done].
  intros. lia.
Qed.

Lemma left_to_do_adopt me p t : left_to_do (adopt me p <$> t) = left_to_do t.
Proof. unfold left_to_do. by rewrite map_fold_fmap. Qed.

(** [p] has ended or was killed. *)
Definition doomed (t : Table) (p : N) : Prop := ∀ x, t !! p = Some x → pr_killed x = true.

Lemma doomed_signalled t p q : doomed t q → doomed (signalled p t) q.
Proof.
  intros Hq x. unfold signalled. destruct (decide (q = p)) as [->|Hne].
  - rewrite lookup_alter_eq. by intros (y & _ & ->)%fmap_Some.
  - rewrite lookup_alter_ne by done. apply Hq.
Qed.

Lemma doomed_polled me t p q : doomed t q → doomed (polled me p t) q.
Proof.
  intros Hq x. unfold polled. destruct (t !! p) as [[par [] [|n]]|] eqn:Hp; try apply Hq.
  - rewrite lookup_fmap. intros (y & [_ Hy]%lookup_delete_Some & ->)%fmap_Some. by apply Hq in Hy.
  - intros [[<- <-]|[_ Hx]]%lookup_insert_Some; [done|by apply Hq].
Qed.

Lemma doomed_self t p : doomed (signalled p t) p.
Proof. intros x. unfold signalled. rewrite lookup_alter_eq. by intros (y & _ & ->)%fmap_Some. Qed.

(** A child that is killed and polled: there is less left to do, and the other
    children stay. *)
Lemma polled_signalled me p t x :
  t !! p = Some x →
  (left_to_do (polled me p (signalled p t)) < left_to_do t)%nat ∧
  ∀ q y, t !! q = Some y → q ≠ p → pr_parent y = me →
    ∃ z, polled me p (signalled p t) !! q = Some z ∧ pr_parent z = me.
Proof.
  intros Hx. set (x' := mkProc (pr_parent x) true (pr_delay x)).
  assert (signalled p t = <[p := x']> t) as ->.
  { apply map_eq. intros k. unfold signalled. destruct (decide (k = p)) as [->|].
    - by rewrite lookup_alter_eq, lookup_insert_eq, Hx.
    - by rewrite lookup_alter_ne, lookup_insert_ne. }
  rewrite (left_to_do_delete t p x Hx). unfold polled. rewrite lookup_insert_eq.
  unfold x' in *. destruct (pr_delay x) as [|n] eqn:Hd.
  - rewrite left_to_do_adopt, delete_insert_eq. split; [lia|].
    intros q y Hq Hne Hme. exists (adopt me p y).
    rewrite lookup_fmap, lookup_delete_ne, Hq by done. split; [done|]. simpl.
    by case_bool_decide.
  - rewrite (left_to_do_delete _ p (mkProc (pr_parent x) true n)) by apply lookup_insert_eq.
    rewrite !delete_insert_eq. simpl. split; [lia|].
    intros q y Hq Hne Hme. exists y. by rewrite !lookup_insert_ne.
Qed.

Section reaping.
Context {W : Type} {P : Processes W} {L : ProcessLaws P}.

(** [p] is a child of ours. *)
Definition is_child (w : W) (p : N) : Prop :=
  (Z.of_N p < 2 ^ 31)%Z ∧ ∃ x, processes w !! p = Some x ∧ pr_parent x = me.

Lemma reap_one_spec w p :
  is_child w p →
  ∃ w', run (reap_one (E := string) (Z.of_N p)) w = (Done tt, w', []) ∧
    processes w' = polled me p (signalled p (processes w)).
Proof.
  intros (Hp & x & Hx & Hme). unfold reap_one. rewrite as_i32_id by (unfold in_i32; lia).
  destruct (law_signal w p) as (w1 & Hs & Ht1); [by rewrite Hx|done|].
  destruct (law_waitpid w1 p (mkProc (pr_parent x) true (pr_delay x))) as (w2 & Hw & Ht2); [|done|done|].
  { rewrite Ht1. unfold signalled. by rewrite lookup_alter_eq, Hx. }
  exists w2. split; [|by rewrite Ht2, Ht1].
  rewrite run_bind, run_attempt, Hs. simpl. by rewrite run_bind, run_attempt, Hw.
Qed.

(** One round: every child that was listed was killed, and is nearer to its end. *)
Lemma reap_round l w :
  NoDup l → (∀ p, p ∈ l → is_child w p) →
  ∃ r w', run (for_each (reap_one (E := string)) (Z.of_N <$> l)) w = (Done r, w', []) ∧
    (left_to_do (processes w') + length l ≤ left_to_do (processes w))%nat ∧
    (∀ q, doomed (processes w) q ∨ q ∈ l → doomed (processes w') q).
Proof.
  intros Hnd. revert w. induction Hnd as [|p l Hp Hnd IH]; intros w Hin; simpl.
  { exists [], w. split; [done|]. split; [lia|]. intros q [?|?%not_elem_of_nil]; done. }
  destruct (reap_one_spec w p) as (w1 & Hr & Ht); [apply Hin; by left|].
  destruct (Hin p) as (_ & x & Hx & _); [by left|].
  destruct (polled_signalled me p (processes w) x Hx) as [Hlt Hkeep].
  destruct (IH w1) as (r & w2 & Hr2 & Hle & Hdoom).
  { intros q Hq. destruct (Hin q) as (Hq31 & y & Hy & Hyme); [by right|]. split; [done|].
    rewrite Ht. apply (Hkeep q y); [done|by intros ->|done]. }
  exists (tt :: r), w2. split; [|split; [rewrite Ht in Hle; lia|]].
  - rewrite (run_bind_done _ _ _ _ _ Hr). by rewrite (run_bind_done _ _ _ _ _ Hr2).
  - intros q Hq. apply Hdoom. rewrite Ht. destruct Hq as [Hq|[->|Hq]%elem_of_cons]; [left..|by right].
    + by apply doomed_polled, doomed_signalled.
    + apply doomed_polled, doomed_self.
Qed.

(** The loop ends, in a bounded number of rounds, with a reading that lists no child;
    what was doomed or listed when it began is doomed. *)
Lemma reap_children_ends fuel w :
  (left_to_do (processes w) < fuel)%nat →
  ∃ w', run (reap_children fuel) w = (Done tt, w', []) ∧ listed w' = [] ∧
    ∀ q, doomed (processes w) q ∨ q ∈ listed w → doomed (processes w') q.
Proof.
  revert w. induction fuel as [|fuel IH]; intros w Hf; [lia|]. simpl.
  rewrite (run_bind_done _ _ _ _ _ (law_read w)).
  assert (omap (parse_unsigned 32) (split_whitespace (spaced (listed w))) = Z.of_N <$> listed w) as ->.
  { apply parse_spaced. apply list.Forall_forall. intros p Hp. apply law_child in Hp as [Hp _]. lia. }
  destruct (reap_round (listed w) w) as (r & w1 & Hr & Hle & Hdoom);
    [apply law_distinct|intros p; apply law_child|].
  destruct (listed w) as [|p l] eqn:Hc.
  { exists w. split; [done|]. split; [done|]. intros q [?|?%not_elem_of_nil]; done. }
  rewrite fmap_cons in *. rewrite (run_bind_done _ _ _ _ _ Hr).
  destruct (IH w1) as (w2 & Hr2 & Hl & Hdoom2); [simpl in Hle; lia|].
  exists w2. split; [done|]. split; [done|]. intros q Hq. apply Hdoom2. left. by apply Hdoom.
Qed.
End reaping.

(** ** main.rs: the command *)

Section command.
Context {W : Type} {S : Services W} {M : MockOs W} {R : ShimClient W} {P : Processes W}.
Local Open Scope prog_scope.

(** containerd/containerd.rs: [Containerd::new] *)
Definition Containerd_new : prog W string ClientInner := client_default.

Definition main_impl (cli : StressCli) (picks : list Pick) (s : Tasks W) : ran (Tasks W) unit :=
  and_then (run (on_tasks logger_init) s) (λ _ s,
  if cli_containerd cli then
    and_then (run (on_tasks Containerd_new) s) (λ c8d s,
    run_stress_test (B := containerd_backend) cli picks c8d s)
  else
    and_then (run (on_tasks (MockContainerd_new (cli_verbose cli))) s) (λ c8d s,
    run_stress_test (B := mock_backend) cli picks c8d s)).

(** The result of [main_impl] as a value: [None] when it panics or does not end. *)
Definition as_result {A : Type} (o : outcome string A) : option (result string A) :=
  match o with Done a => Some (Ok a) | Failed e => Some (Err e) | _ => None end.

Definition of_result {A : Type} (r : result string A) : outcome string A :=
  match r with Ok a => Done a | Err e => Failed e end.

(** [let res1 = main_impl().await; let res2 = reap_children().await; res1.and(res2)] *)
Definition stress_main (fuel : nat) (cli : StressCli) (picks : list Pick) (s : Tasks W) :
    ran (Tasks W) unit :=
  and_then (run (on_tasks set_child_subreaper) s) (λ _ s,
  let '(o, s, ts) := main_impl cli picks s in
  match as_result o with
  | None => (o, s, ts)
  | Some res1 =>
      and_then (Done tt, s, ts) (λ _ s,
      and_then (run (attempt (on_tasks (reap_children fuel))) s) (λ res2 s,
      (of_result (result_and res1 res2), s, [])))
  end).

#[export] Instance tasks_lens : Lens (tk_world (W := W)) set_tk_world.
Proof. split; intros; unfold set_tk_world; simpl; by try destruct s. Qed.

(** C31: when the test has returned, with its own result or with its own error, and
    whichever back end ran it, the command goes on until the file of the children
    lists none, which takes a bounded number of rounds, and then returns that result.
    Every child that was listed when the test returned has ended by then or has been
    killed.  Only a panic, or a test that hangs, leaves the children alone.  A child that
    the kernel does not list is not found. *)
Theorem main_reaps_listed_children {L : ProcessLaws P} cli picks s s1 ts1 o s2 ts2 :
  run (on_tasks set_child_subreaper) s = (Done tt, s1, ts1) →
  main_impl cli picks s1 = (o, s2, ts2) →
  ∃ n, ∀ fuel, (n ≤ fuel)%nat →
    ∃ s3, stress_main fuel cli picks s = (o, s3, (ts1 ++ ts2)%list) ∧
      match o with
      | Done _ | Failed _ =>
          listed (tk_world s3) = [] ∧
          ∀ p, p ∈ listed (tk_world s2) → doomed (processes (tk_world s3)) p
      | _ => s3 = s2
      end.
Proof.
  intros Hsub Hmain. exists (Datatypes.S (left_to_do (processes (tk_world s2)))). intros fuel Hf.
  unfold stress_main. rewrite Hsub. simpl. rewrite Hmain.
  destruct (reap_children_ends fuel (tk_world s2)) as (w & Hr & Hc & Hdoom); [lia|].
  assert (run (attempt (E' := string) (on_tasks (reap_children fuel))) s2 =
    (Done (Ok tt), set_tk_world w s2, [])) as Hrs.
  { unfold on_tasks. rewrite run_attempt, run_zoom by apply _. by rewrite Hr. }
  destruct o as [[]|e|m|]; cbn [as_result]; [..|by eauto|by eauto]; cbn [and_then]; rewrite Hrs; simpl;
    exists (set_tk_world w s2); rewrite app_nil_r; (split; [done|]); split; [done|auto|done|auto].
Qed.
End command.
