(* ===== verification/StressStub.v ===== *)
(** The stress test run against the task service of the file Stub, and the
    witnesses of the stress-test files that need a service or a store.  Its table of
    processes lists one child at a time, as the kernel may. *)
From S2P Require Import Prelude Errors TaskState Sync Instance Cells InstanceData Paths Text Oci Local Stub Context Engine Client Wasmtime ClientStub StressTest StressClient StressMocks StressMain.
Local Open Scope string_scope.

(** A host of the test on which every call succeeds. *)
Definition idle_services (W : Type) : Services W := {|
  channel_connect _ := Ret tt;
  metadata_valid _ := true;
  gc_expiry _ := "tomorrow";
  lease_create _ _ := Ret (Some "l1");
  lease_delete _ _ _ := Ret tt;
  content_stream _ _ := Ret [];
  image_get _ _ := Ret (Some (Some "sha256:1"));
  snapshot_prepare _ _ _ _ := Ret [];
  container_create _ _ := Ret tt;
  container_delete_ _ _ := Ret tt;
  task_create_ _ _ _ _ := Ret tt;
  task_start_ _ _ := Ret tt;
  task_wait_ _ _ := Ret tt;
  task_kill_ _ _ _ _ := Ret tt;
  task_delete_ _ _ := Ret tt;
  manifest_config_digest _ := Ok "sha256:2";
  image_configuration _ := Ok (mkImageConf None []);
  build_spec args _ ann r := Ok (mkSpec (Some (mkProcess (Some args) None)) (Some (mkRoot r)) None (Some ann));
  canonical_stdout := Ret "/dev/pts/0";
  symlink _ _ := Ret tt;
  remove_file _ := Ret tt;
  canonicalize p := Ret p;
  task_counter _ := 0%Z;
  set_task_counter _ w := w;
  own_pid := 42%Z;
|}.

#[export] Instance stub_services : Services (Local InstanceStub) := idle_services _.

Definition idle_mock_os (W : Type) : MockOs W := {|
  temp_dir := Ret "/tmp/1";
  tempdir_in p := Ret (path_join p "1");
  make_dir_all _ := Ret tt;
  write_file _ _ := Ret tt;
  save_spec _ _ := Ret tt;
  default_spec := Ok (mkSpec None None None None);
  read_proc_mounts := Ret "overlay /b/rootfs overlay rw 0 0";
  umount _ := Ret tt;
  canonical_stderr := Ret "/dev/pts/0";
  command_output _ := Ret [];
  from_utf8 _ := Ok "";
  bind_events _ := Ret tt;
  ttrpc_connect _ := Ret tt;
|}.

#[export] Instance stub_mock_os : MockOs (Local InstanceStub) := idle_mock_os _.

Definition mock_task0 : MockTask := mkMockTask "t" "/b" [].
Definition mock_client : ShimClient (Local InstanceStub) := local_client (λ _, "") (λ _, "rpc error").

(** The service after the task was created, and its host after the instance was
    killed. *)
Definition mock_created : Local InstanceStub :=
  (run (mock_create (R := mock_client) mock_task0 false) shim0).1.2.
Definition ended_world : ShimState Machine :=
  (run (Instance.kill (Instance := InstanceStub) 0%nat 9) (world (heap mock_created))).1.2.

Lemma stress_task_life_cycle_witness :
  ∃ s2 ts s3 s4 ts' code time,
    run (mock_start (R := mock_client) mock_task0) mock_created = (Done tt, s2, ts) ∧
    wait_thread "t" 0%nat 42%Z ∈ ts ∧
    run (mock_wait (R := mock_client) mock_task0) (host_at ended_world s2) = (Done tt, s3, []) ∧
    run (mock_delete (R := mock_client) mock_task0) (mkFlags s3 false false) =
      (Done tt, mkFlags s4 true true, ts') ∧
    instances shim0 !! "t" = None ∧ instances s4 = instances shim0 ∧
    events s4 = (events shim0 ++
      [TaskCreate "t" "/b" [] "" "" ""; TaskStart "t" 42; TaskDelete "t" 42 code time])%list.
Proof.
  apply (stress_task_life_cycle (λ _, "") (λ _, "rpc error") mock_task0 shim0 mock_created [] 0%nat
    (data_at mock_created) 42%Z (world (heap mock_created)) [] (world (heap mock_created)) []
    ended_world (1%Z, mkTime 1000 0) ended_world []); vm_compute; reflexivity.
Defined.

(** One mount under the root, which is unmounted. *)
Lemma unmount_nested_first_witness :
  ∃ t, run (unmount_recursive (W := Local InstanceStub) (E := string) "/b/rootfs") shim0 = (Done tt, shim0, [t]) ∧
    ∃ ok rest w2,
      (ok ++ rest)%list ≡ₚ mounts_under "/b/rootfs" "overlay /b/rootfs overlay rw 0 0" ∧
      nested_first (ok ++ rest)%list ∧ unmounts ok shim0 w2 ∧
      match rest with
      | [] => (run t shim0).1 = (Done tt, w2)
      | m :: _ => ∃ o w3 ts, run (umount m) w2 = (o, w3, ts) ∧ o ≠ Done tt ∧ (run t shim0).1.2 = w3
      end.
Proof.
  destruct (unmount_nested_first (W := Local InstanceStub) (E := string) "/b/rootfs" shim0) as (t & Hr & Ht).
  exists t. split; [exact Hr|].
  exact (Ht shim0 "overlay /b/rootfs overlay rw 0 0" shim0 eq_refl).
Defined.

(** Unmounting the root file system of a task with a nested mount. *)
Example unmount_example :
  unmount_order "/b/rootfs"
    ("proc /proc proc rw" +:+ String newline
     ("o /b/rootfs overlay rw" +:+ String newline
      ("t /b/rootfs/tmp tmpfs rw" +:+ String newline ("x /b/rootfs2 overlay rw" +:+ String newline "")))) =
  ["/b/rootfs/tmp"; "/b/rootfs"].
Proof. vm_compute. reflexivity. Qed.

(** ** A process table *)

Definition pid_max : Z := 2 ^ 22.

(** The children of process 1, and those that its file lists: here the first one only. *)
Definition mine (t : Table) : Table :=
  filter (λ '(p, x), pr_parent x = 1%N ∧ Z.of_N p < pid_max)%Z t.
Definition shown (t : Table) : list N := take 1 (map_to_list (mine t)).*1.

#[export] Instance table_processes : Processes Table := {|
  set_child_subreaper := Ret tt;
  logger_init := Ret tt;
  read_children := gets (λ t, spaced (shown t));
  send_signal p _ := modify (signalled (Z.to_N p));
  waitpid_nohang p := modify (polled 1 (Z.to_N p));
|}.

Lemma mine_elem p t :
  p ∈ (map_to_list (mine t)).*1 ↔ ∃ x, t !! p = Some x ∧ pr_parent x = 1%N ∧ (Z.of_N p < pid_max)%Z.
Proof.
  rewrite list_elem_of_fmap. split.
  - intros ([q x] & -> & Hin%elem_of_map_to_list). apply map_lookup_filter_Some in Hin as [??]. eauto.
  - intros (x & Hx & Hm). exists (p, x). split; [done|].
    apply elem_of_map_to_list, map_lookup_filter_Some. done.
Qed.

#[export] Instance table_laws : ProcessLaws table_processes.
Proof.
  refine (Build_ProcessLaws _ _ 1%N (λ t, t) shown _ _ _ _ _).
  - done.
  - intros t. apply (sublist_NoDup _ (map_to_list (mine t)).*1); [apply NoDup_fst_map_to_list|apply sublist_take].
  - intros t p Hp. assert (p ∈ (map_to_list (mine t)).*1) as (x & Hx & Hme & Hlt)%mine_elem
      by (eapply elem_of_sublist; [exact Hp|apply sublist_take]).
    unfold pid_max in Hlt. split; [lia|by exists x].
  - intros t p _ _. eexists. simpl. by rewrite N2Z.id.
  - intros t p x _ _ _. eexists. simpl. by rewrite N2Z.id.
Defined.

(** ** A whole run *)

#[export] Instance table_services : Services Table := idle_services _.
#[export] Instance table_mock_os : MockOs Table := idle_mock_os _.
#[export] Instance table_client : ShimClient Table := {|
  rpc_create _ := Ret (mkCreateResp 7); rpc_start _ := Ret (mkStartResp 7);
  rpc_wait _ := Ret (mkWaitResp 0 None); rpc_delete _ := Ret (mkDeleteResp 7 0 None);
  rpc_shutdown := Ret tt |}.

(** The shim is a child that takes a while to end and has a child of its own. *)
Definition table0 : Tasks Table :=
  mkTasks {[7%N := mkProc 1 false 2; 8%N := mkProc 7 false 0; 9%N := mkProc 2 false 0]} ∅.

Definition cli0 : StressCli := mkStressCli false false false 0 1 2000 "img" "/shim" ["echo"; "hello"].

Definition picks0 : list Pick :=
  ([Poll 0; Poll 0; OpenBarrier; Acquire 0; SetupDone] ++ replicate 12 (Poll 0) ++ [Next 0; NoneLeft])%list.

(** The test passes; the shim it leaves, and the child of that, are killed. *)
Example stress_main_run :
  let '(o, s, _) := stress_main 10 cli0 picks0 table0 in
  o = Done tt ∧ map_to_list (tk_world s) = [(9%N, mkProc 2 false 0)].
Proof. vm_compute. by split. Qed.

Lemma main_reaps_listed_children_witness :
  ∃ n, ∀ fuel, (n ≤ fuel)%nat →
    ∃ s3, stress_main fuel cli0 picks0 table0 =
        (Done tt, s3, ([] ++ (main_impl cli0 picks0 table0).2)%list) ∧
      listed (tk_world s3) = [] ∧
      ∀ p, p ∈ listed (tk_world (main_impl cli0 picks0 table0).1.2) → doomed (processes (tk_world s3)) p.
Proof.
  apply (main_reaps_listed_children cli0 picks0 table0 table0 [] (Done tt)
    (main_impl cli0 picks0 table0).1.2 (main_impl cli0 picks0 table0).2); [reflexivity|].
  assert ((main_impl cli0 picks0 table0).1.1 = Done tt) as Ho by (vm_compute; reflexivity).
  destruct (main_impl cli0 picks0 table0) as [[o s] ts]. simpl in *. by rewrite Ho.
Defined.

Definition mock0 : MockContainerd := mkMockContainerd "/tmp/1" false (mkInner "default" "l1").
Lemma as_triple {A B C : Type} (r : A * B * C) a : r.1.1 = a → r = (a, r.1.2, r.2).
Proof. destruct r as [[??]?]. simpl. by intros ->. Qed.

Lemma passed_test_ran_every_task_witness :
  (0 < 1)%nat ∧
  ∃ shim lp w1 w2 ts', loop (B := mock_backend (W := Table)) cli0 picks0 (initial_loop cli0 shim) w1 =
      (Done lp, w2, ts') ∧
    length (lp_futures lp) = 1%nat ∧
    ∀ i, (i < 1)%nat → ∃ t,
      left_of (create (Backend := mock_backend (W := Table)) t false) (Ret tt) ∧
      left_of (start (Backend := mock_backend (W := Table)) t) (Ret tt) ∧
      left_of (wait (Backend := mock_backend (W := Table)) t) (Ret tt) ∧
      left_of (delete (Backend := mock_backend (W := Table)) t) (Ret tt) ∧
      sublist [FCreate t (Ret tt); FStart t (Ret tt); FWait t (Ret tt); FDelete t (Ret tt); FTaken true]
        (history i (loops cli0 picks0 (initial_loop cli0 shim) w1)).
Proof.
  eapply (passed_test_ran_every_task (B := mock_backend (W := Table)) cli0 picks0 mock0 table0).
  apply as_triple. vm_compute. reflexivity.
Defined.
