(* ===== verification/ReadBack.v ===== *)
(** Two clients of one content store: what the client of the shims saves
    (sandbox/containerd/client.rs), the client of the stress test
    (stress-test/src/containerd/client.rs) reads back.

    The store is that of the file ContentStore.  [StreamLaws] adds how it answers a
    read as a stream: in messages that follow each other from the beginning of the
    content to its end, of whatever sizes. *)
From S2P Require Import Prelude Errors Sync Instance Paths Oci Threads Context Engine Client Wasmtime ContentStore ClientStub ContentStub StressTest StressClient StressMocks StressMain StressStub.
Local Open Scope string_scope.

Section two_clients.
Context {W : Type} {C : Containerd W} {L : ContentLaws C}.

Class StreamLaws (S : Services W) := {
  law_stream w md d x : v_content (view w (md_namespace md)) !! d = Some x →
    ∃ ms, run (content_stream md d) w = (Done (Ok <$> ms), w, []) ∧
      contiguous 0 ms ∧ concat (msg_data <$> ms) = c_data x;
}.

Context {S : Services W} {LS : StreamLaws S}.

(** The client of the stress test for a namespace, with or without a lease. *)
Definition usable (sc : ClientInner) : Prop :=
  metadata_valid (inner_namespace sc) = true ∧
  (inner_lease sc = "" ∨ metadata_valid (inner_lease sc) = true).

Lemma run_with_metadata {E : Type} sc w :
  usable sc → ∃ md, run (with_metadata (E := E) sc) w = (Done md, w, []) ∧
    md_namespace md = inner_namespace sc.
Proof.
  intros [Hn Hl]. unfold with_metadata. rewrite Hn. simpl. case_bool_decide as He; [by eexists|].
  destruct Hl as [?|Hl]; [done|]. rewrite Hl. by eexists.
Qed.

(** C37: content survives the way through the store: when the client of the shims has
    saved some bytes, in chunks and with a commit, both clients read these bytes under
    the digest that was returned, the client of the stress test from a stream of
    messages of any sizes; also when the store had the content already. *)
Theorem saved_content_is_read_back c sc data uid labels w :
  let v := view w (client_namespace c) in
  inner_namespace sc = client_namespace c → usable sc →
  v_ingests v !! ("precompile-" +:+ uid) = None → ("precompile-" +:+ uid) ∉ v_leases v →
  (Z.of_nat (length data) < 2 ^ 63)%Z →
  (∀ x, v_content v !! digest_string (sha256 data) = Some x → c_data x = data) →
  ∃ wc w', run (save_content c data uid labels) w = (Done wc, w', []) ∧
    run (StressClient.read_content sc (wc_digest wc)) w' = (Done data, w', []) ∧
    run (Client.read_content c (wc_digest wc)) w' = (Done data, w', []).
Proof.
  intros v Hns Hsc Hin Hl Hlen Hold.
  destruct (evolves_save_content c data uid labels v Hin Hl Hlen w eq_refl) as (w' & Hrun & Hv).
  eexists _, w'. split; [exact Hrun|]. cbn [wc_digest].
  assert (∃ x, v_content (view w' (client_namespace c)) !! digest_string (sha256 data) = Some x ∧
    c_data x = data) as (x & Hx & Hdata).
  { rewrite Hv. cbn [with_content v_content]. unfold save.
    destruct (v_content v !! digest_string (sha256 data)) as [x|] eqn:Hx; [by eauto|].
    rewrite lookup_insert_eq. by eexists. }
  split.
  - unfold StressClient.read_content. destruct (run_with_metadata (E := string) sc w' Hsc) as (md & Hmd & Hmdns).
    rewrite run_bind, Hmd. go. rewrite <-Hns, <-Hmdns in Hx.
    destruct (law_stream w' md _ x Hx) as (ms & Hs & Hc & Hms).
    rewrite run_bind, Hs. go. rewrite (collect_content_contiguous [] ms Hc), Hms. simpl. by rewrite Hdata.
  - pose proof (answers_read c _ _ x Hx w' eq_refl) as Hr. by rewrite Hdata in Hr.
Qed.
End two_clients.

(** ** The store of the file ContentStub, which sends the first byte by itself *)

Definition as_messages (data : list byte) : list ContentMsg :=
  match data with
  | [] => []
  | b :: data => [mkMsg 0 [b]; mkMsg 1 data]
  end.

#[export] Instance daemon_services : Services Daemon := {|
  channel_connect := channel_connect (Services := idle_services Daemon);
  metadata_valid := metadata_valid (Services := idle_services Daemon);
  gc_expiry := gc_expiry (Services := idle_services Daemon);
  lease_create := lease_create (Services := idle_services Daemon);
  lease_delete := lease_delete (Services := idle_services Daemon);
  content_stream md d := bind (gets (λ w, v_content (daemon_view w (md_namespace md)) !! d)) (λ o,
    match o with Some x => Ret (Ok <$> as_messages (c_data x)) | None => Throw "not found" end);
  image_get := image_get (Services := idle_services Daemon);
  snapshot_prepare := snapshot_prepare (Services := idle_services Daemon);
  container_create := container_create (Services := idle_services Daemon);
  container_delete_ := container_delete_ (Services := idle_services Daemon);
  task_create_ := task_create_ (Services := idle_services Daemon);
  task_start_ := task_start_ (Services := idle_services Daemon);
  task_wait_ := task_wait_ (Services := idle_services Daemon);
  task_kill_ := task_kill_ (Services := idle_services Daemon);
  task_delete_ := task_delete_ (Services := idle_services Daemon);
  manifest_config_digest := manifest_config_digest (Services := idle_services Daemon);
  image_configuration := image_configuration (Services := idle_services Daemon);
  build_spec := build_spec (Services := idle_services Daemon);
  canonical_stdout := canonical_stdout (Services := idle_services Daemon);
  symlink := symlink (Services := idle_services Daemon);
  remove_file := remove_file (Services := idle_services Daemon);
  canonicalize := StressClient.canonicalize (Services := idle_services Daemon);
  task_counter := task_counter (Services := idle_services Daemon);
  set_task_counter := set_task_counter (Services := idle_services Daemon);
  own_pid := own_pid (Services := idle_services Daemon);
|}.

#[export] Instance daemon_streams : StreamLaws daemon_services.
Proof.
  split. intros w md d x Hx. exists (as_messages (c_data x)). simpl in Hx. split.
  { unfold content_stream, daemon_services. rewrite run_bind. simpl. by rewrite Hx. }
  destruct (c_data x) as [|b data]; [done|]. simpl. by rewrite app_nil_r.
Qed.

Lemma saved_content_is_read_back_witness :
  ∃ wc w', run (save_content client0 [4; 5; 6]%Z "id" ∅) daemon0 = (Done wc, w', []) ∧
    run (StressClient.read_content (mkInner "ns" "l1") (wc_digest wc)) w' = (Done [4; 5; 6]%Z, w', []) ∧
    run (Client.read_content client0 (wc_digest wc)) w' = (Done [4; 5; 6]%Z, w', []).
Proof.
  apply (saved_content_is_read_back client0 (mkInner "ns" "l1") [4; 5; 6]%Z "id" ∅ daemon0).
  - reflexivity.
  - split; [reflexivity|by right].
  - vm_compute. reflexivity.
  - apply (bool_decide_eq_true (_ ∉ _)). vm_compute. reflexivity.
  - reflexivity.
  - intros x. vm_compute. discriminate.
Defined.
