(* ===== verification/Testing.v ===== *)
(** The test harness of the shims (containerd-shim-wasm/src/testing.rs): a bundle is
    laid out in a temporary directory, an instance runs on it, and images are
    imported with [ctr].

    The harness works on an [Instance]; the files of the host are part of the
    state, because the instance and the harness share them.  Processes, the clock,
    canonical paths and the crates that the harness calls are the parameter
    [TestHost]. *)
From S2P Require Import Prelude Errors Sync Instance Paths Files Text Oci Context Engine TarBuilder.
Local Open Scope string_scope.

(** ** The host *)

Inductive LinuxNamespaceType := MountNs | Cgroup | Uts | Ipc | User | Pid | Network | TimeNs.
#[export] Instance LinuxNamespaceType_eq_dec : EqDecision LinuxNamespaceType.
Proof. solve_decision. Defined.

Record LinuxNamespace := mkNamespace { typ : LinuxNamespaceType; ns_path : option path }.

(** The state of the host that the harness can reach. *)
Class TestHost (W C : Type) := {
  host_files :: HasFiles W;
  harness_init : prog W Empty_set unit;           (* Zygote::init and the logger *)
  tempdir : prog W string path;
  drop_tempdir : path → prog W Empty_set unit;
  canonicalize : path → W → result string path;
  now : W → Duration;                             (* Instant::now *)
  status : list string → prog W string bool;      (* spawn()?.wait()?.success() *)
  output : list string → prog W string (list byte);
  grep_of : list string → list string → prog W string (list byte);  (* ctr .. | grep .. *)
  utf8 : list byte → result string string;        (* String::from_utf8 *)
  default_namespaces : list LinuxNamespace;
  options_json : path → result string (list byte);
  build_test_spec : path → list LinuxNamespace → path → list string → result string Spec;
  spec_json : Spec → list byte;
  image_config : list string → string → string → list string → result string C;
  tar_bytes : list TarEntry → list byte;
}.

Record WasiTestBuilder := mkTestBuilder {
  container_name : string;
  start_fn : string;
  namespaces : list LinuxNamespace;
  tb_tempdir : path;
}.

Definition TEST_NAMESPACE : string := "runwasi-test".
Definition SIGINT : u32 := 2.
Definition SIGTERM : u32 := 15.
Definition SIGKILL : u32 := 9.

Definition with_name (name : string) (b : WasiTestBuilder) : WasiTestBuilder :=
  mkTestBuilder name (start_fn b) (namespaces b) (tb_tempdir b).

Definition with_host_network (b : WasiTestBuilder) : WasiTestBuilder :=
  mkTestBuilder (container_name b) (start_fn b)
    (filter (λ ns, typ ns ≠ Network) (namespaces b)) (tb_tempdir b).

Definition with_start_fn (f : string) (b : WasiTestBuilder) : WasiTestBuilder :=
  mkTestBuilder (container_name b) f (namespaces b) (tb_tempdir b).

(** The first argument of the container. *)
Definition test_entrypoint (b : WasiTestBuilder) : string :=
  match start_fn b with "" => "/hello.wasm" | s => "/hello.wasm#" +:+ s end.

(** The smallest wasm module: magic number and version. *)
Definition empty_module : list byte := [0; 97; 115; 109; 1; 0; 0; 0]%Z.

Section harness.
Context {W C : Type} {TH : TestHost W C} {TE : TarEnv} {OC : OciConfig C} {I : Instance W}
  (show : Error → string).
Local Open Scope prog_scope.

(** [self] and its directory are dropped when the call fails. *)
Definition consuming {A : Type} (dir : path) (p : prog W string A) : prog W string A :=
  unless_ok p (infallible (drop_tempdir dir)).

(** *** WasiTestBuilder *)

Definition with_wasm (wasm : list byte) (b : WasiTestBuilder) : prog W string WasiTestBuilder :=
  consuming (tb_tempdir b)
    (on_files (fs_write (path_join (path_join (tb_tempdir b) "rootfs") "hello.wasm") wasm) ;;
     Ret b).

Definition with_stdin (data : list byte) (b : WasiTestBuilder) : prog W string WasiTestBuilder :=
  consuming (tb_tempdir b)
    (on_files (fs_write (path_join (tb_tempdir b) "stdin") data) ;;
     Ret b).

(** [with_stdout] and [with_stderr]: the stream [name] becomes a link. *)
Definition with_stream (name : string) (target : path) (b : WasiTestBuilder) :
    prog W string WasiTestBuilder :=
  consuming (tb_tempdir b)
    (let! r := gets (canonicalize target) in
     let! target := lift_result r in
     on_files (remove_file (path_join (tb_tempdir b) name)) ;;
     on_files (make_symlink target (path_join (tb_tempdir b) name)) ;;
     Ret b).
Definition with_stdout := with_stream "stdout".
Definition with_stderr := with_stream "stderr".

Definition builder_new : prog W string WasiTestBuilder :=
  infallible harness_init ;;
  let! dir := tempdir in
  let! b := consuming dir
    (on_files (create_dir (path_join dir "rootfs")) ;;
     let rootdir := path_join dir "runwasi" in
     on_files (create_dir rootdir) ;;
     on_files (fs_write (path_join dir "options.json") []) ;;
     let! opts := lift_result (options_json rootdir) in
     on_files (fs_write (path_join dir "options.json") opts) ;;
     on_files (fs_write (path_join dir "stdout") []) ;;
     on_files (fs_write (path_join dir "stderr") []) ;;
     Ret (mkTestBuilder "test" "" default_namespaces dir)) in
  let! b := with_wasm empty_module b in
  with_stdin [] b.

(** *** oci_helpers *)

Record OCICleanup := mkCleanup { image_name : string; cleanup_container : string }.
Record ImageContent := mkImageContent { ic_bytes : list byte; ic_media_type : string }.

Definition ctr (args : list string) : list string := "ctr" :: "-n" :: TEST_NAMESPACE :: args.

(** [if !success { bail!(..) }] *)
Definition must_succeed (args : list string) (message : string) : prog W string unit :=
  let! success := status (ctr args) in
  if negb success then Throw message else Ret tt.

Definition clean_container (name : string) : prog W string unit :=
  must_succeed ["c"; "rm"; name] "failed to clean container".

Definition create_container (name image : string) : prog W string unit :=
  must_succeed ["c"; "create"; image; name] " failed to create container for image".

Definition remove_content (digest : string) : prog W string unit :=
  must_succeed ["content"; "rm"; digest] "failed to remove content".

(** The loop over the contents: each is written to a file and added as a layer. *)
Fixpoint add_contents (dir : path) (i : nat) (contents : list ImageContent) (b : Builder C) :
    prog W string (Builder C) :=
  match contents with
  | [] => Ret b
  | c :: contents =>
      let p := path_join dir (pretty i +:+ ".wasm") in
      on_files (fs_write p (ic_bytes c)) ;;
      add_contents dir (Datatypes.S i) contents (add_layer_with_media_type p (ic_media_type c) b)
  end.

Definition MEDIA_IMAGE_CONFIG : string := "application/vnd.oci.image.config.v1+json".

Definition import_image (image : string) (contents : list ImageContent) : prog W string unit :=
  let! dir := tempdir in
  finally
    (let! b := add_contents dir 0 contents builder_default in
     let! img := lift_result (image_config ["_start"] "wasip1" "wasm" []) in
     let b := add_config img image MEDIA_IMAGE_CONFIG b in
     let img_path := path_join dir "img.tar" in
     on_files (fs_write img_path []) ;;
     let! entries := from_files (λ fs, build (H := tar_env fs) b) in
     on_files (fs_write img_path (tar_bytes entries)) ;;
     must_succeed ["image"; "import"; "--all-platforms"; img_path] " failed to import image")
    (infallible (drop_tempdir dir)) (infallible (drop_tempdir dir)).

(** [wait_for_content_removal]: the loop has [fuel] iterations; without fuel it
    has not ended. *)
Definition REMOVAL_TIMEOUT : Duration := 60000000000.

Fixpoint removal_loop (fuel : nat) (begin : Duration) (sha : string) : prog W string unit :=
  match fuel with
  | O => await (λ _, None)
  | Datatypes.S fuel =>
      let! out := output (ctr ["content"; "get"; sha]) in
      match out with
      | [] => Ret tt
      | _ =>
          let! t := gets now in
          if bool_decide (REMOVAL_TIMEOUT < t - begin)%N then Ret tt
          else removal_loop fuel begin sha
      end
  end.

Definition wait_for_content_removal (fuel : nat) (sha : string) : prog W string unit :=
  let! begin := gets now in
  removal_loop fuel begin sha.

(** The third word of the line, when there is one; words are separated by one
    space. *)
Definition sha_of_listing (text : string) : result string string :=
  let parts := split " " (trim text) in
  if bool_decide (length parts < 3)%nat then Err "failed to get image sha"
  else ok_or (parts !! 2%nat) "index out of bounds".

Definition get_image_sha (image : string) : prog W string string :=
  let! out := grep_of [image] (ctr ["i"; "ls"]) in
  let! text := lift_result (utf8 out) in
  lift_result (sha_of_listing text).

(** What precedes the first and follows the last equals sign. *)
Definition label_of_text (text : string) : string * string :=
  let label := split "=" text in
  (trim (default "" (head label)), trim (default "" (list.last label))).

Definition get_image_label : prog W string (string * string) :=
  let! out := grep_of ["-ohE"; "runwasi.io/precompiled/.*"] (ctr ["i"; "ls"]) in
  let! text := lift_result (utf8 out) in
  Ret (label_of_text text).

Definition get_content_label : prog W string (string * string) :=
  let! out := grep_of ["-ohE"; "runwasi.io/precompiled/[[:alpha:]]*/[0-9]+=.*"]
                (ctr ["content"; "ls"]) in
  let! text := lift_result (utf8 out) in
  Ret (label_of_text text).

Definition clean_image (fuel : nat) (image : string) : prog W string unit :=
  let! sha := attempt (get_image_sha image) in
  match sha with
  | Err _ => Ret tt
  | Ok sha =>
      must_succeed ["i"; "rm"; image] "failed to clean image" ;;
      wait_for_content_removal fuel sha
  end.

Definition image_exists {E : Type} (image : string) : prog W E bool :=
  let! out := expect "failed to get output of image list" (output (ctr ["i"; "ls"; "--quiet"])) in
  let! text := expect "failed to parse stdout" (lift_result (utf8 out)) in
  Ret (contains image text).

(** [impl Drop for OCICleanup]: both results are unwrapped. *)
Definition drop_cleanup {E : Type} (fuel : nat) (c : OCICleanup) : prog W E unit :=
  unwrap (clean_container (cleanup_container c)) ;;
  unwrap (clean_image fuel (image_name c)).

Definition as_oci_image (image container : option string) (b : WasiTestBuilder) :
    prog W string (WasiTestBuilder * OCICleanup) :=
  consuming (tb_tempdir b)
    (let image := unwrap_or image "localhost/hello:latest" in
     let! found := image_exists image in
     (if negb found then
        let wasm_path := path_join (path_join (tb_tempdir b) "rootfs") "hello.wasm" in
        let! wasm := from_files (fs_read wasm_path) in
        import_image image [mkImageContent wasm WASM_LAYER_MEDIA_TYPE] ;;
        on_files (remove_file wasm_path)
      else Ret tt) ;;
     let container := unwrap_or container "test" in
     create_container container image ;;
     Ret (with_name container b, mkCleanup image container)).

(** *** WasiTest *)

Record WasiTest := mkWasiTest { wt_instance : Instance.T I; wt_tempdir : path }.

Definition test_config (dir : path) : InstanceConfig :=
  set_stdin (path_join dir "stdin")
    (set_stderr (path_join dir "stderr")
       (set_stdout (path_join dir "stdout")
          (set_bundle dir (config_new TEST_NAMESPACE "/run/containerd/containerd.sock")))).

Definition build_test (b : WasiTestBuilder) : prog W string WasiTest :=
  let dir := tb_tempdir b in
  consuming dir
    (let! spec := lift_result
       (build_test_spec "rootfs" (namespaces b) "/" [test_entrypoint b]) in
     on_files (fs_write (path_join dir "config.json") (spec_json spec)) ;;
     let! i := map_err show (Instance.new (container_name b) (test_config dir)) in
     Ret (mkWasiTest i dir)).

Definition test_start (t : WasiTest) : prog W string unit :=
  let! _ := map_err show (Instance.start (wt_instance t)) in Ret tt.
Definition test_delete (t : WasiTest) : prog W string unit :=
  map_err show (Instance.delete (wt_instance t)).
Definition test_signal (signal : u32) (t : WasiTest) : prog W string unit :=
  map_err show (Instance.kill (wt_instance t) signal).
Definition ctrl_c := test_signal SIGINT.
Definition terminate := test_signal SIGTERM.
Definition test_kill := test_signal SIGKILL.

(** [read_stdout] and [read_stderr]: a stream that is a link is not read. *)
Definition read_stream (name : string) (t : WasiTest) : prog W string (option string) :=
  let p := path_join (wt_tempdir t) name in
  let! link := gets (λ w, is_symlink p (files w)) in
  if link then Ret None else
  let! b := from_files (fs_read p) in
  let! text := lift_result (utf8 b) in
  Ret (Some text).
Definition read_stdout := read_stream "stdout".
Definition read_stderr := read_stream "stderr".

Definition test_wait (timeout : Duration) (t : WasiTest) : prog W string (u32 * string * string) :=
  let! r := infallible (Instance.wait_timeout (wt_instance t) (Some timeout)) in
  match r with
  | None =>
      map_err show (Instance.kill (wt_instance t) SIGKILL) ;;
      Throw "timeout while waiting for module to finish"
  | Some (code, _) =>
      let! out := read_stdout t in
      let! err := read_stderr t in
      map_err show (Instance.delete (wt_instance t)) ;;
      Ret (code, unwrap_or out "", unwrap_or err "")
  end.
End harness.

Section harness_properties.
Context {W C : Type} {TH : TestHost W C} {TE : TarEnv} {OC : OciConfig C} {I : Instance W}
  (show : Error → string).
Implicit Types (w : W) (fs : Files).
Local Open Scope prog_scope.

Lemma run_consuming {A : Type} d (p : prog W string A) w a w' ts :
  run p w = (Done a, w', ts) → run (consuming d p) w = (Done a, w', ts).
Proof. intros Hp. unfold consuming. by rewrite run_unless_ok, Hp. Qed.

(** What the files under [d] are when the builder is ready. *)
Definition base_files d (opts : list byte) fs : Files :=
  <[d +:+ "/stderr" := NFile []]> (<[d +:+ "/stdout" := NFile []]>
    (<[d +:+ "/options.json" := NFile opts]> (<[d +:+ "/runwasi" := NDir]>
      (<[d +:+ "/rootfs" := NDir]> fs)))).
Definition bundle d (opts wasm input : list byte) fs : Files :=
  <[d +:+ "/stdin" := NFile input]> (<[d +:+ "/rootfs/hello.wasm" := NFile wasm]>
    (base_files d opts fs)).

Lemma bundle_dir d opts wasm input fs : fresh_dir d fs →
  bundle d opts wasm input fs !! d = Some NDir.
Proof. intros Hd. unfold bundle, base_files. look_dir d. by apply Hd. Qed.

Lemma write_module d wasm fs fs' : fresh_dir d fs →
  fs' !! (d +:+ "/rootfs") = Some NDir →
  fs' !! (d +:+ "/rootfs/hello.wasm") = None ∨ (∃ c, fs' !! (d +:+ "/rootfs/hello.wasm") = Some (NFile c)) →
  fs_write (path_join (path_join d "rootfs") "hello.wasm") wasm fs' =
  Ok (<[d +:+ "/rootfs/hello.wasm" := NFile wasm]> fs').
Proof.
  intros Hd Hroot Hold. rewrite (join_in d "rootfs" fs), (join_join d "rootfs") by done.
  apply fs_write_plain; [|done]. apply dir_is_dir.
  change (d +:+ "/rootfs/hello.wasm") with (d +:+ "/rootfs" +:+ "/" +:+ "hello.wasm").
  by rewrite <-string_app_assoc, parent_in.
Qed.

Lemma run_with_wasm wasm b fs w : fresh_dir (tb_tempdir b) fs →
  files w !! (tb_tempdir b +:+ "/rootfs") = Some NDir →
  (files w !! (tb_tempdir b +:+ "/rootfs/hello.wasm") = None ∨
   ∃ c, files w !! (tb_tempdir b +:+ "/rootfs/hello.wasm") = Some (NFile c)) →
  run (with_wasm wasm b) w =
  (Done b, put_files (<[tb_tempdir b +:+ "/rootfs/hello.wasm" := NFile wasm]> (files w)) w, []).
Proof.
  intros Hd Hr Ho. apply run_consuming.
  by rewrite (run_file_step _ _ _ _ (write_module _ wasm _ _ Hd Hr Ho)).
Qed.

Lemma run_with_stdin input b fs w : fresh_dir (tb_tempdir b) fs →
  files w !! tb_tempdir b = Some NDir →
  (files w !! (tb_tempdir b +:+ "/stdin") = None ∨
   ∃ c, files w !! (tb_tempdir b +:+ "/stdin") = Some (NFile c)) →
  run (with_stdin input b) w =
  (Done b, put_files (<[tb_tempdir b +:+ "/stdin" := NFile input]> (files w)) w, []).
Proof.
  intros Hd Hr Ho. apply run_consuming.
  by rewrite (run_file_step _ _ _ _ (fs_write_in _ "stdin" input _ _ Hd Hr eq_refl eq_refl Ho)).
Qed.

Lemma run_builder_new w w0 ts0 d w1 ts1 opts :
  run harness_init w = (Done tt, w0, ts0) → run tempdir w0 = (Done d, w1, ts1) →
  fresh_dir d (files w1) → options_json (path_join d "runwasi") = Ok opts →
  run builder_new w =
  (Done (mkTestBuilder "test" "" default_namespaces d),
   put_files (bundle d opts empty_module [] (files w1)) w1, (ts0 ++ ts1)%list).
Proof.
  intros Hi Ht Hd Ho. pose proof (fresh_is_dir _ _ Hd) as Hdir.
  unfold builder_new. rewrite run_bind. unfold infallible. rewrite run_map_err, Hi. go.
  rewrite run_bind, Ht. go. rewrite run_bind.
  erewrite run_consuming; cycle 1.
  { step create_dir_in. step create_dir_in. step fs_write_in.
    rewrite Ho. cbn [lift_result bind].
    step fs_write_in. rewrite insert_insert_eq. step fs_write_in. step fs_write_in. reflexivity. }
  go. match goal with |- context [run _ (put_files ?x w1)] =>
        change x with (base_files d opts (files w1)) end.
  rewrite run_bind. erewrite run_with_wasm; cycle 1; [exact Hd|..].
  { rewrite files_put. unfold base_files. by look d. }
  { rewrite files_put. unfold base_files. look d. left. apply (fresh_empty _ _ Hd). }
  go. rewrite files_put, put_put. erewrite run_with_stdin; cycle 1; [exact Hd|..].
  { rewrite files_put. unfold base_files. look_dir d. by apply Hd. }
  { rewrite files_put. unfold base_files. look d. left. apply (fresh_empty _ _ Hd). }
  by rewrite files_put, put_put, !app_nil_r.
Qed.

(** Setting the module or the input again replaces it. *)
Lemma bundle_wasm d opts wasm wasm' input fs :
  <[d +:+ "/rootfs/hello.wasm" := NFile wasm']> (bundle d opts wasm input fs) =
  bundle d opts wasm' input fs.
Proof.
  unfold bundle. rewrite insert_insert_ne by (intros H%(string_app_inj_l d); discriminate).
  by rewrite insert_insert_eq.
Qed.

Lemma bundle_stdin d opts wasm input input' fs :
  <[d +:+ "/stdin" := NFile input']> (bundle d opts wasm input fs) = bundle d opts wasm input' fs.
Proof. unfold bundle. by rewrite insert_insert_eq. Qed.

Lemma bundle_lookup d opts wasm input fs :
  let fs' := bundle d opts wasm input fs in
  fs' !! (d +:+ "/rootfs") = Some NDir ∧ fs' !! (d +:+ "/runwasi") = Some NDir ∧
  fs' !! (d +:+ "/rootfs/hello.wasm") = Some (NFile wasm) ∧ fs' !! (d +:+ "/stdin") = Some (NFile input) ∧
  fs' !! (d +:+ "/stdout") = Some (NFile []) ∧ fs' !! (d +:+ "/stderr") = Some (NFile []) ∧
  fs' !! (d +:+ "/options.json") = Some (NFile opts).
Proof. unfold bundle, base_files. repeat split; by look d. Qed.

Lemma bundle_outside d opts wasm input fs p :
  (∀ s, p ≠ d +:+ "/" +:+ s) → bundle d opts wasm input fs !! p = fs !! p.
Proof.
  intros Hp. unfold bundle, base_files.
  repeat rewrite lookup_insert_ne; try done; intros <-;
    match goal with H : ∀ s, ?d +:+ String _ ?t ≠ _ |- _ => by apply (H t) end.
Qed.

Lemma run_build_test b sp fs w : fresh_dir (tb_tempdir b) fs → files w !! tb_tempdir b = Some NDir →
  files w !! (tb_tempdir b +:+ "/config.json") = None →
  build_test_spec "rootfs" (namespaces b) "/" [test_entrypoint b] = Ok sp →
  run (build_test show b) w =
  run (consuming (tb_tempdir b)
         (let! i := map_err show (Instance.new (container_name b) (test_config (tb_tempdir b))) in
          Ret (mkWasiTest i (tb_tempdir b))))
    (put_files (<[tb_tempdir b +:+ "/config.json" := NFile (spec_json sp)]> (files w)) w).
Proof.
  intros Hd Hdir Hnew Hsp. unfold build_test, consuming. rewrite Hsp, !run_unless_ok.
  cbn [lift_result bind].
  by rewrite (run_file_step _ _ _ _ (fs_write_in _ "config.json" _ _ _ Hd Hdir eq_refl eq_refl (or_introl Hnew))).
Qed.

(** C34: a test runs on the bundle that was asked for: the instance is created for the
    configuration of the temporary directory, in which config.json has the spec,
    rootfs/hello.wasm the module, stdin the input and options.json the options,
    the two output streams are empty, and nothing outside of the directory has
    changed; when the instance cannot be created the directory is dropped. *)
Theorem harness_lays_out_bundle w w0 ts0 d w1 ts1 opts wasm input f sp :
  run harness_init w = (Done tt, w0, ts0) → run tempdir w0 = (Done d, w1, ts1) →
  fresh_dir d (files w1) → options_json (path_join d "runwasi") = Ok opts →
  build_test_spec "rootfs" default_namespaces "/"
    [test_entrypoint (mkTestBuilder "test" f default_namespaces d)] = Ok sp →
  ∃ w2,
    run (let! b := builder_new in let! b := with_wasm wasm b in let! b := with_stdin input b in
         build_test show (with_start_fn f b)) w =
    and_then (Done tt, w2, (ts0 ++ ts1)%list) (λ _, run (consuming d
      (let! i := map_err show (Instance.new "test" (test_config d)) in Ret (mkWasiTest i d)))) ∧
    (∀ n b, (n, b) ∈ [("config.json", spec_json sp); ("rootfs/hello.wasm", wasm); ("stdin", input);
                      ("stdout", []); ("stderr", []); ("options.json", opts)] →
       files w2 !! (d +:+ "/" +:+ n) = Some (NFile b)) ∧
    (∀ p, (∀ s, p ≠ d +:+ "/" +:+ s) → files w2 !! p = files w1 !! p).
Proof.
  intros Hi Ht Hd Ho Hsp.
  exists (put_files (<[d +:+ "/config.json" := NFile (spec_json sp)]> (bundle d opts wasm input (files w1))) w1).
  destruct (bundle_lookup d opts wasm input (files w1)) as (? & ? & ? & ? & ? & ? & ?).
  split; [|split].
  - rewrite run_bind, (run_builder_new _ _ _ _ _ _ _ Hi Ht Hd Ho). go.
    rewrite run_bind. erewrite run_with_wasm; cycle 1; [exact Hd|..].
    { rewrite files_put. by apply bundle_lookup. }
    { rewrite files_put. right. eexists. by apply bundle_lookup. }
    go. rewrite files_put, put_put, bundle_wasm, run_bind. erewrite run_with_stdin; cycle 1; [exact Hd|..].
    { rewrite files_put. by apply bundle_dir. }
    { rewrite files_put. right. eexists. by apply bundle_lookup. }
    go. rewrite files_put, put_put, bundle_stdin.
    erewrite run_build_test; cycle 1; [exact Hd|..].
    { rewrite files_put. by apply bundle_dir. }
    { rewrite files_put. unfold bundle, base_files. look d. apply (fresh_empty _ _ Hd). }
    { exact Hsp. }
    rewrite files_put, put_put. by destruct (run (consuming _ _) _) as [[??]?].
  - intros n b Hn. rewrite files_put. set_unfold in Hn.
    repeat destruct Hn as [[= -> ->]|Hn]; cbn [append]; by look d.
  - intros p Hp. rewrite files_put, lookup_insert_ne by (intros <-; by apply (Hp "config.json")).
    by apply bundle_outside.
Qed.

(** What the harness relies on of the builders of the [oci_spec] crate. *)
Definition keeps_args : Prop :=
  ∀ r ns cwd args sp, build_test_spec r ns cwd args = Ok sp → process sp ≫= process_args = Some args.

(** C39: the function that a test asks for is the one that the engine is told to call:
    in the container that runs the spec of the test, the entry point is the file
    /hello.wasm with the given function, [_start] when none was given, also when
    its name has a hash. *)
Theorem start_fn_reaches_the_engine b sp c :
  keeps_args → build_test_spec "rootfs" (namespaces b) "/" [test_entrypoint b] = Ok sp →
  ctx_spec c = sp → wasm_layers c = [] →
  entrypoint c = {|
    func := if bool_decide (start_fn b = "") then "_start" else start_fn b;
    entry_name := Some "hello"; entry_arg0 := Some (test_entrypoint b);
    source := File "/hello.wasm" |}.
Proof.
  intros Hk Hsp Hc Hl. unfold entrypoint, ctx_args. rewrite Hc, (Hk _ _ _ _ _ Hsp), Hl. simpl.
  unfold test_entrypoint. by destruct (start_fn b) as [|a s].
Qed.

(** *** Waiting *)

(** The text of a stream: nothing when it was redirected. *)
Definition stream_text (t : WasiTest) (name : string) fs : result string string :=
  let p := path_join (wt_tempdir t) name in
  if is_symlink p fs then Ok ""
  else match fs_read p fs with Ok b => utf8 b | Err e => Err e end.

Lemma run_read_stream {A : Type} name t w (k : string → prog W string A) :
  run (let! o := read_stream name t in k (unwrap_or o "")) w =
  match stream_text t name (files w) with
  | Ok s => run (k s) w
  | Err e => (Failed e, w, [])
  end.
Proof.
  unfold read_stream, stream_text. rewrite run_bind, run_bind. go.
  destruct (is_symlink _ _); go; [by destruct (run (k _) w) as [[??]?]|].
  rewrite run_bind, run_from_files. destruct (fs_read _ _) as [b|e]; go; [|done].
  rewrite run_bind. destruct (utf8 b) as [s|e]; go; [|done]. by destruct (run (k _) w) as [[??]?].
Qed.

(** [wait] succeeds exactly when the instance has ended within the timeout, its
    streams could be read and it could be deleted: it returns the exit code and
    what the streams held when the instance had ended, so a test never passes
    with an instance left behind.  When the timeout has passed the instance is
    killed and the test fails. *)
Theorem test_wait_correct timeout t w :
  (∀ code out err w' ts,
     run (test_wait show timeout t) w = (Done (code, out, err), w', ts) ↔
     ∃ time w1 ts1 ts2,
       run (Instance.wait_timeout (wt_instance t) (Some timeout)) w =
         (Done (Some (code, time)), w1, ts1) ∧
       stream_text t "stdout" (files w1) = Ok out ∧ stream_text t "stderr" (files w1) = Ok err ∧
       run (Instance.delete (wt_instance t)) w1 = (Done tt, w', ts2) ∧ ts = (ts1 ++ ts2)%list) ∧
  (∀ w1 ts1 w2 ts2,
     run (Instance.wait_timeout (wt_instance t) (Some timeout)) w = (Done None, w1, ts1) →
     run (Instance.kill (wt_instance t) SIGKILL) w1 = (Done tt, w2, ts2) →
     run (test_wait show timeout t) w =
       (Failed "timeout while waiting for module to finish", w2, (ts1 ++ ts2)%list)).
Proof.
  unfold test_wait, infallible, read_stdout, read_stderr. split.
  - intros code out err w' ts. rewrite run_bind, run_map_err.
    destruct (run (Instance.wait_timeout _ _) w) as [[[[[c time]|]|[]|m|] w1] ts1] eqn:Hw; go;
      [| |split; [done|]; intros (? & ? & ? & ? & ? & ? & ? & ? & ->); simplify_eq; congruence..].
    + rewrite (run_read_stream "stdout" t w1 (λ out, let! err := read_stream "stderr" t in
        map_err show (Instance.delete (wt_instance t)) ;; Ret (c, out, unwrap_or err ""))).
      destruct (stream_text t "stdout" (files w1)) as [o|e] eqn:Ho; [|split; [done|]; intros (? & ? & ? & ? & ? & ? & ? & ? & ->); simplify_eq; congruence].
      rewrite (run_read_stream "stderr" t w1 (λ err,
        map_err show (Instance.delete (wt_instance t)) ;; Ret (c, o, err))).
      destruct (stream_text t "stderr" (files w1)) as [o'|e] eqn:He; [|split; [done|]; intros (? & ? & ? & ? & ? & ? & ? & ? & ->); simplify_eq; congruence].
      rewrite run_bind, run_map_err.
      destruct (run (Instance.delete _) w1) as [[[[]|?|?|] w2] ts2] eqn:Hdel; go; rewrite ?app_nil_r;
        (split; [try done|intros (? & ? & ? & ? & ? & ? & ? & ? & ->); simplify_eq; congruence]).
      intros ?; simplify_eq. eauto 10.
    + rewrite run_bind, run_map_err. split; [|intros (? & ? & ? & ? & ? & ? & ? & ? & ->); simplify_eq; congruence].
      by destruct (run (Instance.kill _ _) w1) as [[[?|?|?|] ?] ?]; go.
  - intros w1 ts1 w2 ts2 Hw Hk. rewrite run_bind, run_map_err, Hw. go.
    rewrite run_bind, run_map_err, Hk. go. by rewrite app_nil_r.
Qed.

(** *** Waiting for the garbage collector *)

(** [wait_for_content_removal] ends: when every [ctr content get] returns and
    takes at least [δ] nanoseconds, the loop is over after as many iterations as
    fit into the timeout of 60 seconds and one more.  It returns without an error
    only when the content is gone or the time has passed. *)
Theorem content_removal_ends δ fuel sha w :
  (∀ w o w' ts, run (output (ctr ["content"; "get"; sha])) w = (o, w', ts) →
     (now w + δ ≤ now w')%N ∧ ((∃ b, o = Done b) ∨ (∃ e, o = Failed e))) →
  (REMOVAL_TIMEOUT < δ * N.of_nat fuel)%N →
  runs_to (wait_for_content_removal fuel sha) w (λ o w',
    (∃ e, o = Failed e) ∨
    (o = Done tt ∧
     ((∃ v ts, run (output (ctr ["content"; "get"; sha])) v = (Done [], w', ts)) ∨
      (REMOVAL_TIMEOUT < now w' - now w)%N))).
Proof.
  intros Hout Hfuel. unfold wait_for_content_removal. apply runs_to_bind. simpl.
  assert (∀ n v, (now w + δ * N.of_nat (fuel - n) ≤ now v)%N → (n ≤ fuel)%nat → (0 < n)%nat →
    runs_to (removal_loop n (now w) sha) v (λ o w', (∃ e, o = Failed e) ∨
    (o = Done tt ∧
     ((∃ v ts, run (output (ctr ["content"; "get"; sha])) v = (Done [], w', ts)) ∨
      (REMOVAL_TIMEOUT < now w' - now w)%N)))) as Hloop.
  { induction n as [|n IH]; intros v Hv Hn Hpos; [lia|].
    cbn [removal_loop]. apply runs_to_bind. unfold runs_to at 1.
    destruct (run (output _) v) as [[o v1] ts1] eqn:Ho.
    destruct (Hout _ _ _ _ Ho) as [Ht [[b ->]|[e ->]]]; cbn [fst snd cont]; [|eauto].
    destruct b as [|x b]; [by right; eauto 6|]. apply runs_to_bind. unfold runs_to at 1. go.
    cbn [cont]. case_bool_decide as Hlate; [by right; eauto|].
    assert (δ * N.of_nat (fuel - n) = δ * N.of_nat (fuel - Datatypes.S n) + δ)%N as Hstep by nia.
    set (a := (δ * N.of_nat (fuel - Datatypes.S n))%N) in *.
    destruct n as [|n]; [exfalso; rewrite Nat.sub_0_r in Hstep; lia|].
    apply IH; [rewrite Hstep|..]; lia. }
  apply Hloop; [|lia|].
  - rewrite Nat.sub_diag. simpl. lia.
  - destruct fuel; simpl in *; lia.
Qed.

(** *** Importing an image *)

Definition content_path (d : path) (i : nat) : path := d +:+ "/" +:+ pretty i +:+ ".wasm".

(** The layers and the files of a list of contents. *)
Fixpoint content_layers (d : path) (i : nat) (cs : list ImageContent) : list (path * string) :=
  match cs with
  | [] => []
  | c :: cs => (content_path d i, ic_media_type c) :: content_layers d (Datatypes.S i) cs
  end.

Fixpoint write_contents (d : path) (i : nat) (cs : list ImageContent) fs : Files :=
  match cs with
  | [] => fs
  | c :: cs => write_contents d (Datatypes.S i) cs (<[content_path d i := NFile (ic_bytes c)]> fs)
  end.

Lemma has_char_pretty c (i : nat) : (∀ x, pretty_N_char x ≠ c) → has_char c (pretty i) = false.
Proof.
  intros Hc. assert (∀ x s, has_char c (String (pretty_N_char x) s) = has_char c s) as Hchar.
  { intros x s. cbn [has_char]. by rewrite bool_decide_eq_false_2. }
  unfold pretty, pretty_nat, pretty, pretty_N. case_decide as H0; [exact (Hchar 0%N "")|].
  generalize (N.of_nat i) as x. intros x. clear H0.
  assert (∀ s, has_char c s = false → has_char c (pretty_N_go x s) = false) as Hgo; [|by apply Hgo].
  induction (N.lt_wf_0 x) as [x _ IH]. intros s Hs.
  destruct (decide (x = 0)%N) as [->|Hx]; [done|].
  rewrite pretty_N_go_step by lia. apply IH; [apply N.div_lt; lia|]. by rewrite Hchar.
Qed.

Lemma content_name (i : nat) : has_char "/" (pretty i +:+ ".wasm") = false.
Proof.
  rewrite has_char_app, has_char_pretty; [done|]. intros x. unfold pretty_N_char. by repeat case_match.
Qed.

Lemma content_stem (i : nat) : split_once "." (pretty i +:+ ".wasm") = Some (pretty i, "wasm").
Proof.
  apply split_once_Some. split; [done|]. apply has_char_pretty.
  intros x. unfold pretty_N_char. by repeat case_match.
Qed.

Lemma content_path_inj d i j : content_path d i = content_path d j → i = j.
Proof.
  unfold content_path. intros H. do 2 apply string_app_inj_l in H.
  pose proof (content_stem i) as Hi. rewrite H, content_stem in Hi. injection Hi as Hi. by apply (inj pretty) in Hi.
Qed.

Lemma write_contents_ne d i cs fs p :
  (∀ j, (i ≤ j)%nat → p ≠ content_path d j) → write_contents d i cs fs !! p = fs !! p.
Proof.
  revert i fs. induction cs as [|c cs IH]; intros i fs Hp; [done|]. cbn [write_contents].
  rewrite IH by (intros j Hj; apply Hp; lia). apply lookup_insert_ne. intros Heq. by apply (Hp i).
Qed.

Lemma run_add_contents d i cs b w fs : fresh_dir d fs → files w !! d = Some NDir →
  (∀ j, (i ≤ j)%nat → files w !! content_path d j = None) →
  run (add_contents d i cs b) w =
  (Done (mkBuilder_ (configs b) (layers_ b ++ content_layers d i cs)),
   put_files (write_contents d i cs (files w)) w, []).
Proof.
  intros Hd. revert i b w. induction cs as [|c cs IH]; intros i b w Hdir Hnew.
  - cbn. rewrite app_nil_r, (lens_put_get (Lens := files_lens)). by destruct b.
  - cbn [add_contents]. 
    rewrite (run_file_step _ _ _ _ (fs_write_in d _ (ic_bytes c) fs _ Hd Hdir
      (not_absolute _ (content_name i)) (content_name i) (or_introl (Hnew i (le_n i))))).
    fold (content_path d i). rewrite IH; rewrite ?files_put.
    + rewrite put_put. unfold add_layer_with_media_type. cbn [configs layers_].
      rewrite <-(assoc_L (++)%list). cbn [app content_layers write_contents].
      by rewrite (join_in d _ fs) by (done || apply not_absolute, content_name).
    + rewrite lookup_insert_ne; [done|]. intros H. rewrite <-(string_app_nil_r d) in H at 2.
      by apply (string_app_inj_l d) in H.
    + intros j Hj. rewrite lookup_insert_ne; [apply Hnew; lia|].
      intros H%content_path_inj. lia.
Qed.

Lemma write_contents_lookup d i cs fs j c :
  cs !! j = Some c → write_contents d i cs fs !! content_path d (i + j)%nat = Some (NFile (ic_bytes c)).
Proof.
  revert i j fs. induction cs as [|c' cs IH]; intros i j fs Hj; [done|]. cbn [write_contents].
  destruct j as [|j]; simpl in Hj.
  - injection Hj as ->. rewrite Nat.add_0_r, write_contents_ne; [apply lookup_insert_eq|].
    intros k Hk H%content_path_inj. lia.
  - replace (i + Datatypes.S j)%nat with (Datatypes.S i + j)%nat by lia. by apply IH.
Qed.

Lemma contents_read d i cs fs :
  (∀ j c, cs !! j = Some c → fs !! content_path d (i + j)%nat = Some (NFile (ic_bytes c))) →
  Forall2 (λ l f, fs_read l.1 fs = Ok f) (content_layers d i cs) (ic_bytes <$> cs).
Proof.
  revert i. induction cs as [|c cs IH]; intros i Hj; [constructor|].
  cbn [content_layers]. rewrite fmap_cons. constructor.
  - apply fs_read_plain. specialize (Hj 0%nat c eq_refl). by rewrite Nat.add_0_r in Hj.
  - apply IH. intros j c' Hc. rewrite <-(Hj (Datatypes.S j) c') by done. f_equal. f_equal. lia.
Qed.

Lemma archive_path d j : d +:+ "/img.tar" ≠ content_path d j.
Proof.
  intros H. apply string_app_inj_l, (string_app_inj_l "/" "img.tar") in H.
  pose proof (content_stem j) as Hj. by rewrite <-H in Hj.
Qed.

Lemma write_contents_dir d i cs fs : fresh_dir d fs → write_contents d i cs fs !! d = Some NDir.
Proof.
  intros Hd. rewrite write_contents_ne; [by apply Hd|]. intros j _ H.
  rewrite <-(string_app_nil_r d) in H at 1. by apply (string_app_inj_l d) in H.
Qed.

(** [import_image] hands [ctr] an archive in which every content is a blob under
    its own digest; the archive and the contents are only in a temporary directory,
    which is dropped whatever [ctr] answers. *)
Theorem import_archives_every_content image cs w d w1 ts1 img :
  run tempdir w = (Done d, w1, ts1) → fresh_dir d (files w1) →
  image_config ["_start"] "wasip1" "wasm" [] = Ok img →
  ∃ fs' es,
    run (import_image image cs) w =
    and_then (Done tt, put_files fs' w1, ts1) (λ _, run
      (finally (must_succeed ["image"; "import"; "--all-platforms"; d +:+ "/img.tar"]
                  " failed to import image")
         (infallible (drop_tempdir d)) (infallible (drop_tempdir d)))) ∧
    fs' !! (d +:+ "/img.tar") = Some (NFile (tar_bytes es)) ∧
    (∀ c, c ∈ cs → blob (ic_bytes c) ∈ es) ∧
    (∀ p, (∀ s, p ≠ d +:+ "/" +:+ s) → fs' !! p = files w1 !! p).
Proof.
  intros Ht Hd Himg. set (fs1 := write_contents d 0 cs (files w1)).
  set (fs2 := <[d +:+ "/img.tar" := NFile []]> fs1).
  set (b := add_config img image MEDIA_IMAGE_CONFIG (mkBuilder_ [] (content_layers d 0 cs))).
  pose proof (archive_path d) as Htar.
  assert (fs1 !! d = Some NDir) as Hdir1 by (by apply write_contents_dir).
  destruct (build_layers_entries (H := tar_env fs2) (content_layers d 0 cs) (ic_bytes <$> cs) [])
    as (ds & ps & Hbl).
  { apply contents_read. intros j c Hj. unfold fs2. rewrite lookup_insert_ne by done.
    by apply write_contents_lookup. }
  destruct (build (H := tar_env fs2) b) as [es|e] eqn:Hb;
    [|unfold build in Hb; simpl in Hb; by rewrite Hbl in Hb].
  exists (<[d +:+ "/img.tar" := NFile (tar_bytes es)]> fs1), es. split; [|split; [|split]].
  - unfold import_image. rewrite run_bind, Ht. unfold and_then.
    match goal with |- match ?x with _ => _ end = match ?y with _ => _ end =>
      enough (x = y) as -> by done end.
    apply run_finally_cong.
    erewrite run_bind_done by (apply (run_add_contents d 0 cs _ w1 (files w1) Hd);
      intros; first [by apply Hd|apply (fresh_empty _ _ Hd)]).
    rewrite Himg. cbn [lift_result bind configs layers_ builder_default app].
    fold fs1. fold b.
    erewrite run_file_step by (rewrite files_put; apply (fs_write_in d "img.tar" _ _ _ Hd Hdir1); [done..|];
      left; unfold fs1; rewrite write_contents_ne by (intros; apply Htar); apply (fresh_empty _ _ Hd)).
    rewrite put_put. change (<[_ := _]> fs1) with fs2 at 1.
    erewrite run_bind_done by (rewrite run_from_files, files_put, Hb; reflexivity).
    erewrite run_file_step by (rewrite files_put; apply (fs_write_in d "img.tar" _ _ _ Hd);
      [unfold fs2; by look_dir d|done..|right; eexists; apply lookup_insert_eq]).
    rewrite put_put. unfold fs2. rewrite insert_insert_eq, (join_in d _ (files w1)) by done. done.
  - apply lookup_insert_eq.
  - intros c Hc. unfold build in Hb. simpl in Hb. rewrite Hbl in Hb. injection Hb as <-.
    apply elem_of_app. left. apply list_elem_of_fmap. exists (ic_bytes c). split; [done|].
    apply list_elem_of_fmap. eauto.
  - intros p Hp. rewrite lookup_insert_ne by (intros <-; by apply (Hp "img.tar")).
    apply write_contents_ne. intros j _. apply Hp.
Qed.
End harness_properties.

(** ** Listings *)

(** The digest is found when the columns of the listing are separated by one
    space; in a listing whose columns are padded to the width of a longer name it is
    not, and the answer is then the empty word, or another column. *)
Example padded_listing_loses_digest :
  sha_of_listing "localhost/hello:latest application/json sha256:12ab 1KiB" = Ok "sha256:12ab" ∧
  sha_of_listing "localhost/hello:latest     application/json sha256:12ab 1KiB" = Ok "" ∧
  sha_of_listing "localhost/hello:latest  application/json sha256:12ab 1KiB" = Ok "application/json" ∧
  sha_of_listing "" = Err "failed to get image sha".
Proof. done. Qed.

Example label_examples :
  label_of_text "runwasi.io/precompiled/wasmtime/123=sha256:ab " = ("runwasi.io/precompiled/wasmtime/123", "sha256:ab") ∧
  label_of_text "" = ("", "").
Proof. done. Qed.

(** ** A host *)

Record toy_world := mkToy { toy_files : Files; toy_clock : N; toy_calls : list string }.

#[local] Instance toy_lens : Lens toy_files (λ fs w, mkToy fs (toy_clock w) (toy_calls w)).
Proof. by split; [..|intros []]. Qed.

Definition toy_command (args : list string) (w : toy_world) : toy_world :=
  mkToy (toy_files w) (toy_clock w + 20000000000) (toy_calls w ++ [join " " args]).

#[local] Instance toy_host : TestHost toy_world unit := {|
  host_files := {| files := toy_files; put_files fs w := mkToy fs (toy_clock w) (toy_calls w) |};
  harness_init := Ret tt;
  tempdir := atomically (λ w, ("/tmp/t", mkToy (<["/tmp/t" := NDir]> (toy_files w)) (toy_clock w) (toy_calls w)));
  drop_tempdir d := modify (λ w, mkToy ∅ (toy_clock w) (toy_calls w));
  canonicalize p _ := Ok p;
  now := toy_clock;
  status args := atomically (λ w, (true, toy_command args w));
  output args := atomically (λ w, ([7]%Z, toy_command args w));
  grep_of g args := Ret [];
  utf8 b := Ok (fold_right (λ z s, String (ascii_of_nat (Z.to_nat z)) s) "" b);
  default_namespaces := [mkNamespace Pid None; mkNamespace Network None];
  options_json p := Ok [1]%Z;
  build_test_spec r ns cwd args := Ok (mkSpec (Some (mkProcess (Some args) None)) None None None);
  spec_json sp := [2]%Z;
  image_config entry os arch ids := Ok tt;
  tar_bytes es := [Z.of_nat (length es)];
|}.

(** An instance that prints [hi] and exits with 3. *)
#[local] Instance toy_instance : Instance toy_world := {|
  Instance.T := InstanceConfig;
  Instance.new id cfg := Ret cfg;
  Instance.start cfg := atomically (λ w,
    (42%Z, mkToy (<[stdout cfg := NFile [104; 105]%Z]> (toy_files w)) (toy_clock w) (toy_calls w)));
  Instance.kill cfg s := Ret tt;
  Instance.delete cfg := Ret tt;
  Instance.wait_timeout cfg t := Ret (Some (3%Z, mkTime 0 0));
|}.

Definition toy0 : toy_world := mkToy {["/etc" := NDir]} 0 [].
Definition toy_show (e : Error) : string := "".

Lemma toy_fresh : fresh_dir "/tmp/t" (<["/tmp/t" := NDir]> {["/etc" := NDir]}).
Proof.
  split; [done|done|done|]. intros s. change ("/tmp/t" +:+ "/" +:+ s) with (String "/" ("tmp/t/" +:+ s)).
  by rewrite lookup_insert_ne, lookup_singleton_ne.
Qed.

Lemma harness_lays_out_bundle_witness :
  ∃ w2,
    run (bind builder_new (λ b, bind (with_wasm [9]%Z b) (λ b, bind (with_stdin [8]%Z b) (λ b,
           build_test toy_show (with_start_fn "foo" b))))) toy0 =
      (Done (mkWasiTest (test_config "/tmp/t") "/tmp/t"), w2, []) ∧
    (∀ n b, (n, b) ∈ [("config.json", [2]%Z); ("rootfs/hello.wasm", [9]%Z); ("stdin", [8]%Z);
                      ("stdout", []); ("stderr", []); ("options.json", [1]%Z)] →
       files w2 !! ("/tmp/t" +:+ "/" +:+ n) = Some (NFile b)) ∧
    (∀ p, (∀ s, p ≠ "/tmp/t" +:+ "/" +:+ s) →
       files w2 !! p = (<["/tmp/t" := NDir]> {["/etc" := NDir]} : Files) !! p).
Proof.
  destruct (harness_lays_out_bundle (TH := toy_host) toy_show toy0 toy0 [] "/tmp/t" _ [] [1]%Z [9]%Z [8]%Z "foo" _
    eq_refl eq_refl toy_fresh eq_refl eq_refl) as (w2 & Hrun & Hf & Ho).
  exists w2. split; [exact Hrun|]. split; [exact Hf|exact Ho].
Defined.

Lemma start_fn_reaches_the_engine_witness :
  entrypoint (mkContext (mkSpec (Some (mkProcess (Some ["/hello.wasm#foo"]) None)) None None None) []
      (mkPlatform "wasi" "wasm")) =
  mkEntrypoint "foo" (Some "hello") (Some "/hello.wasm#foo") (File "/hello.wasm").
Proof.
  refine (start_fn_reaches_the_engine (TH := toy_host) (mkTestBuilder "test" "foo" [] "/tmp/t") _
    (mkContext _ [] (mkPlatform "wasi" "wasm")) _ eq_refl eq_refl eq_refl).
  intros r ns cwd args sp [= <-]. reflexivity.
Defined.

Lemma content_removal_ends_witness :
  runs_to (wait_for_content_removal (W := toy_world) (C := unit) 4 "sha") toy0 (λ o w',
    (∃ e, o = Failed e) ∨
    (o = Done tt ∧
     ((∃ v ts, run (output (C := unit) (ctr ["content"; "get"; "sha"])) v = (Done [], w', ts)) ∨
      (REMOVAL_TIMEOUT < now (C := unit) w' - now (C := unit) toy0)%N))).
Proof.
  apply (content_removal_ends (C := unit) 20000000000 4 "sha" toy0).
  - intros w o w' ts [= <- <- <-]. split; [simpl; lia|]. left. eexists. reflexivity.
  - vm_compute. reflexivity.
Defined.

Lemma import_archives_every_content_witness :
  ∃ (fs' : Files) es,
    (run (import_image "img" [mkImageContent [7]%Z "wasm"]) toy0).1.1 = Done tt ∧
    fs' !! ("/tmp/t" +:+ "/img.tar") = Some (NFile (tar_bytes (C := unit) es)) ∧
    (∀ c, c ∈ [mkImageContent [7]%Z "wasm"] → blob (ic_bytes c) ∈ es).
Proof.
  destruct (import_archives_every_content (TH := toy_host) (TE := toy_tar) "img"
    [mkImageContent [7]%Z "wasm"] toy0 "/tmp/t" _ [] tt eq_refl toy_fresh eq_refl)
    as (fs' & es & Hrun & Htar & Hin & _).
  exists fs', es. split; [rewrite Hrun; reflexivity|]. split; [exact Htar|exact Hin].
Defined.

(** A whole test: the exit code and the output of the instance. *)
Example toy_test :
  (run (bind builder_new (λ b, bind (build_test toy_show b) (λ t, bind (test_start toy_show t) (λ _,
     test_wait toy_show 10 t)))) toy0).1.1 = Done (3%Z, "hi", "").
Proof. vm_compute. reflexivity. Qed.
