(* ===== verification/EngineTests.v ===== *)
(** The test of an engine that refuses its container (container/tests.rs), on the
    harness of testing.rs and the Unix instance: the composition of both with the
    executor. *)
From S2P Require Import Prelude Errors TaskState Sync Instance Cells InstanceData Paths Files Text Oci Context Engine Container EndToEnd TarBuilder Testing.
Local Open Scope string_scope.

(** [EngineFailingValidation] *)
#[local] Instance failing_engine : Engine := {|
  engine_name := "wasi_instance";
  can_handle _ _ := Err "can't handle";
  run_wasi _ _ := Ok 0%Z;
  supported_layers_types := default_supported_layers_types;
  precompile := default_precompile;
  can_precompile := default_can_precompile;
|}.

Section validation.
Context {P : Type} {Y : Youki P} {L : RuntimeLaws Y failing_engine}.
Abbreviation W := (ShimState (ZHost P Y)).
Context {C : Type} {TH : TestHost W C} {TE : TarEnv} {OC : OciConfig C} (show : Error → string).
Local Open Scope prog_scope.

(** The bytes of a text, which [with_wasm] writes as the module. *)
Definition text_bytes (s : string) : list byte :=
  (λ c, Z.of_nat (nat_of_ascii c)) <$> list_ascii_of_string s.

Definition test_validation_error : prog W string unit :=
  let! b := builder_new in
  let b := with_start_fn "foo" b in
  let! b := with_wasm (text_bytes "/invalid_entrypoint.wasm") b in
  let! result := attempt (build_test (I := Unix) show b) in
  if is_err result then Ret tt else Panic "assertion failed: result.is_err()".

(** Whatever the harness is asked to build, a container whose engine refuses it and
    whose entry point is not a Linux program is not built. *)
Theorem refusing_engine_builds_nothing b w r w' ts :
  (∀ spec layers platform, bundle_spec (tb_tempdir b) = Some spec →
     is_linux_container (F := bundle_fs (tb_tempdir b))
       (ctx (Executor_new layers platform) spec) ≠ Ok tt) →
  run (attempt (E' := string) (build_test (I := Unix) show b)) w = (Done r, w', ts) → is_err r = true.
Proof.
  intros Hlinux. rewrite run_attempt. destruct r as [t|e]; [|done].
  destruct (run (build_test show b) w) as [[o w1] ts1] eqn:Hb. intros Ho. exfalso.
  assert (o = Done t) as -> by (by destruct o; simplify_eq/=).
  unfold build_test, consuming in Hb. apply run_unless_ok_inv in Hb.
  apply run_bind_inv in Hb as (spec & w2 & ? & ? & _ & Hb & _).
  apply run_bind_inv in Hb as ([] & w3 & ? & ? & _ & Hb & _).
  apply run_bind_inv in Hb as (i & w4 & ? & ? & Hnew & _ & _). apply run_map_err_inv in Hnew.
  revert Hnew. apply (unhandled_container_is_refused (container_name b) (test_config (tb_tempdir b)) w3 i w4).
  intros spec' layers platform Hs. unfold choose. specialize (Hlinux spec' layers platform Hs).
  by destruct (is_linux_container _) as [[]|e].
Qed.
End validation.
