(* ===== verification/TarCommand.v ===== *)
(** The command of the archive builder (crates/oci-tar-builder/src/bin.rs): what is
    read, built and written for a command line, on the files of the host. *)
From S2P Require Import Prelude Errors Sync Instance Paths Files Oci Context TarBuilder.
Local Open Scope string_scope.

(** The command line, as [clap] parses it. *)
Record CommandLine := mkCommandLine {
  out_path : option path;
  cl_name : string; cl_tag : string; cl_repo : string;
  cl_module : list string; cl_layer : list string;
  cl_components : option path;
  as_artifact : bool;
}.

(** What the command uses of the host and of other crates: [C] is the configuration
    of an image, [A] that of an artifact. *)
Class CommandHost (W C A : Type) := {
  command_files :: HasFiles W;
  print_out : string → W → W;
  working_dir : W → result string path;
  create_dirs : path → prog W string unit;                      (* fs::create_dir_all *)
  read_dir : path → W → result string (list (result string path));
  image_configuration : list string → gmap string string → result string C;
  from_component : path → prog W string A;                      (* WasmConfig *)
  from_module : path → prog W string A;
  tar_stream : list TarEntry → list byte;
  WASM_MANIFEST_CONFIG_MEDIA_TYPE : string;                     (* oci_wasm *)
  OCI_WASM_LAYER_MEDIA_TYPE : string;
}.

Definition IMAGE_CONFIG_MEDIA_TYPE : string := "application/vnd.oci.image.config.v1+json".

(** [Path::parent]: what precedes the last component; a root or an empty path has none. *)
Definition component_text (c : Component) : string :=
  match c with RootDir => "" | CurDir => "." | ParentDir => ".." | Normal s => s end.
Definition path_parent (p : path) : option path :=
  match reverse (components p) with
  | [] | [RootDir] => None
  | _ :: [RootDir] => Some "/"
  | _ :: cs => Some (join "/" (component_text <$> reverse cs))
  end.

Example parent_examples :
  path_parent "out/img.tar" = Some "out" ∧ path_parent "img.tar" = Some "" ∧
  path_parent "/img.tar" = Some "/" ∧ path_parent "/a/b/" = Some "/a" ∧ path_parent "/" = None.
Proof. done. Qed.

Section command.
Context {W C A : Type} {H : CommandHost W C A} {TE : TarEnv} {OC : OciConfig C} {OA : OciConfig A}.
Local Open Scope prog_scope.

Definition say {E : Type} (s : string) : prog W E unit := modify (print_out s).

(** [try_digest(path).context(..)?] *)
Definition try_digest (p : path) : prog W string string :=
  map_err (λ _, "failed to calculate digest for module")
    (from_files (λ fs, match fs_read p fs with Ok b => Ok (sha256_hex b) | Err e => Err e end)).

(** [match builder.build(f) {..}]: the archive goes to the file that was created, and
    a file whose archive could not be built is removed; the argument of [unwrap_or]
    is evaluated first, so its message is always printed. *)
Definition build_into {K : Type} `{!OciConfig K} (out : path) (b : Builder K) (message : string) :
    prog W string unit :=
  let! fs := gets files in
  match build (H := tar_env fs) b with
  | Ok entries =>
      on_files (fs_write out (tar_stream entries)) ;;
      say ("Successfully created oci tar file " +:+ out)
  | Err e =>
      say ("Building oci tar file " +:+ out +:+ " failed: " +:+ e) ;;
      say message ;;
      let! _ := attempt (on_files (remove_file out)) in
      Ret tt
  end.

(** The layers of the arguments: modules, then [--layer] options. *)
Definition named_layers (a : CommandLine) : list (path * string) :=
  (((λ p, (p, WASM_LAYER_MEDIA_TYPE)) <$> cl_module a) ++
   ((λ l, ((layer_option l).2, (layer_option l).1)) <$> cl_layer a))%list.

(** One entry of the components directory: its layer and digest, or nothing. *)
Definition component_layer (entry : result string path) :
    prog W string (option (path * string * string)) :=
  let! p := lift_result entry in
  if bool_decide (default "" (extension p) = "wasm") then
    let! d := try_digest p in Ret (Some (p, WASM_LAYER_MEDIA_TYPE, d))
  else
    say ("Skipping Unknown file type: " +:+ p) ;; Ret None.

Definition generate_wasi_image (a : CommandLine) (out : path) : prog W string unit :=
  say "Generating wasm oci image" ;;
  let! digests := for_each (λ l : path * string, try_digest l.1) (named_layers a) in
  let! components :=
    match cl_components a with
    | None => Ret []
    | Some dir =>
        let! r := gets (read_dir dir) in
        let! entries := lift_result r in
        for_each component_layer entries
    end in
  let components := omap (λ x, x) components in
  let layer_digests := (digests ++ (snd <$> components))%list in
  let unique_id := sha256_hex ((λ c, Z.of_nat (nat_of_ascii c)) <$>
                     String.list_ascii_of_string (join "" layer_digests)) in
  let! conf := lift_result (image_configuration [cl_name a +:+ ".wasm"]
                              {["containerd.runwasi.layers" := unique_id]}) in
  let b := add_config conf (cl_repo a +:+ "/" +:+ cl_name a +:+ ":" +:+ cl_tag a) IMAGE_CONFIG_MEDIA_TYPE
             (mkBuilder_ [] (named_layers a ++ (fst <$> components))) in
  say ("Creating oci tar file " +:+ out) ;;
  unwrap (on_files (fs_write out [])) ;;
  build_into out b "Failed to remove temporary file".

Definition generate_wasm_artifact (a : CommandLine) (out : path) : prog W string unit :=
  say "Generating wasm artifact" ;;
  let! (conf, p) :=
    match cl_components a with
    | Some p =>
        let! r := gets (read_dir p) in
        let! paths := lift_result r in
        (if negb (bool_decide (length paths = 1)%nat)
         then say ("Currently only supports a single component file " +:+ p) else Ret tt) ;;
        let! conf := from_component p in
        Ret (conf, p)
    | None =>
        match cl_module a with
        | [] => Panic "called `Option::unwrap()` on a `None` value"
        | p :: _ => let! conf := from_module p in Ret (conf, p)
        end
    end in
  let b := add_layer_with_media_type p OCI_WASM_LAYER_MEDIA_TYPE
             (add_config conf (cl_repo a +:+ "/" +:+ cl_name a +:+ ":" +:+ cl_tag a)
                WASM_MANIFEST_CONFIG_MEDIA_TYPE builder_default) in
  say ("Creating oci tar file " +:+ out) ;;
  on_files (fs_write out []) ;;
  build_into out b "Failed to clean up oci tar file on error".

Definition command_main (a : CommandLine) : prog W string unit :=
  let! out :=
    match out_path a with
    | Some p =>
        match path_parent p with
        | Some d => unwrap (create_dirs d) ;; Ret p
        | None => Panic "called `Option::unwrap()` on a `None` value"
        end
    | None => let! r := gets working_dir in unwrap (lift_result r)
    end in
  if negb (bool_decide (cl_module a = [])) && bool_decide (is_Some (cl_components a)) then
    say "Mutually exclusive flags: module and components"
  else if bool_decide (cl_module a = []) && bool_decide (cl_components a = None) then
    say "Must supply module or components"
  else if as_artifact a then unwrap (generate_wasm_artifact a out)
  else unwrap (generate_wasi_image a out).

(** ** Properties *)

(** Printing does not change files. *)
Definition print_keeps_files : Prop := ∀ m w, files (print_out m w) = files w.

(** What is left of a build: the archive in the file that was created for it, or,
    when it could not be built, no file. *)
Theorem build_into_correct {K : Type} `{!OciConfig K} out (b : Builder K) message w c :
  print_keeps_files → files w !! out = Some (NFile c) →
  ∃ w', run (build_into out b message) w = (Done tt, w', []) ∧
    files w' = match build (H := tar_env (files w)) b with
               | Ok entries => <[out := NFile (tar_stream entries)]> (files w)
               | Err _ => base.delete out (files w)
               end.
Proof.
  intros Hp Ho. unfold build_into. rewrite run_bind. go.
  destruct (build (H := tar_env (files w)) b) as [es|e].
  - rewrite (run_file_step _ _ _ (<[out := NFile (tar_stream es)]> (files w))).
    + eexists. split; [reflexivity|]. by rewrite Hp, files_put.
    + unfold fs_write. change 40%nat with (Datatypes.S 39). cbn [follow]. by rewrite !Ho.
  - do 2 erewrite run_bind_done by reflexivity. rewrite run_bind, run_attempt, run_on_files.
    unfold remove_file. rewrite !Hp, Ho. go.
    eexists. split; [reflexivity|]. by rewrite files_put.
Qed.

(** Runs that never succeed. *)
Definition never_done {B : Type} (p : prog W string B) (w : W) : Prop :=
  runs_to p w (λ o _, match o with Done _ => False | _ => True end).

Lemma never_done_bind {B D : Type} (p : prog W string B) (k : B → prog W string D) w :
  (∀ b w' ts, run p w = (Done b, w', ts) → never_done (k b) w') → never_done (bind p k) w.
Proof.
  intros Hk. apply runs_to_bind. unfold runs_to.
  destruct (run p w) as [[[b|e|m|] w'] ts] eqn:Hr; try done. by apply (Hk b w' ts).
Qed.

(** Steps that leave the files as they are. *)
Definition keeps {E B : Type} (p : prog W E B) : Prop := ∀ w, files (run p w).1.2 = files w.

Lemma keeps_files_bind {E B D : Type} (p : prog W E B) (k : B → prog W E D) :
  keeps p → (∀ b, keeps (k b)) → keeps (bind p k).
Proof.
  intros Hp Hk w. rewrite run_bind. specialize (Hp w).
  destruct (run p w) as [[[b|e|m|] w'] ts]; simpl in *; try done.
  rewrite <-Hp, <-(Hk b w'). by destruct (run (k b) w') as [[??]?].
Qed.

Lemma keeps_for_each {E X B : Type} (f : X → prog W E B) l : (∀ x, keeps (f x)) → keeps (for_each f l).
Proof.
  intros Hf. induction l as [|x l IH]; [done|]. apply keeps_files_bind; [done|]. intros b.
  apply keeps_files_bind; [done|]. by intros r w.
Qed.

Lemma keeps_say {E : Type} m : print_keeps_files → keeps (E := E) (say m).
Proof. intros Hp w. apply Hp. Qed.

Lemma keeps_try_digest p : keeps (try_digest p).
Proof.
  intros w. unfold try_digest. rewrite run_map_err, run_from_files. by destruct (fs_read p (files w)).
Qed.

Lemma keeps_component_layer e : print_keeps_files → keeps (component_layer e).
Proof.
  intros Hp. apply keeps_files_bind; [by intros w; destruct e|]. intros p. case_bool_decide.
  - apply keeps_files_bind; [apply keeps_try_digest|]. by intros d w.
  - apply keeps_files_bind; [by apply keeps_say|]. by intros d w.
Qed.

(** A step that keeps the files before one that never succeeds while [d] is a
    directory. *)
Lemma never_done_after {B D : Type} (p : prog W string B) (k : B → prog W string D) d w :
  keeps p → files w !! d = Some NDir →
  (∀ b w', files w' !! d = Some NDir → never_done (k b) w') → never_done (bind p k) w.
Proof.
  intros Hp Hd Hk. apply never_done_bind. intros b w' ts Hr. apply Hk.
  specialize (Hp w). rewrite Hr in Hp. simpl in Hp. by rewrite Hp.
Qed.

Lemma never_write_dir {E : Type} d b w : files w !! d = Some NDir →
  run (expect (E' := E) UNWRAP (on_files (fs_write d b))) w =
  (Panicked UNWRAP, w, []).
Proof.
  intros Hd. unfold expect. rewrite run_bind, run_attempt, run_on_files.
  unfold fs_write. change 40%nat with (Datatypes.S 39). cbn [follow]. by rewrite !Hd.
Qed.

(** Without an output path the image would have to be written to the working
    directory itself, which is not a file: the command never succeeds. *)
Theorem no_out_path_never_succeeds a d w :
  print_keeps_files → files w !! d = Some NDir → never_done (generate_wasi_image a d) w.
Proof.
  intros Hp Hd. unfold generate_wasi_image.
  eapply never_done_after; [by apply keeps_say|exact Hd|]. intros _ w1 H1.
  eapply never_done_after; [apply keeps_for_each; intros; apply keeps_try_digest|exact H1|].
  intros ds w2 H2.
  eapply never_done_after; [|exact H2|].
  { destruct (cl_components a); [|done]. apply keeps_files_bind; [done|]. intros r.
    apply keeps_files_bind; [by intros w'; destruct r|]. intros l. apply keeps_for_each.
    intros x. by apply keeps_component_layer. }
  intros cs w3 H3. cbv zeta.
  eapply never_done_after; [by intros w'; destruct (image_configuration _ _)|exact H3|].
  intros conf w4 H4. eapply never_done_after; [by apply keeps_say|exact H4|]. intros _ w5 H5.
  apply never_done_bind. intros b w6 ts. by rewrite never_write_dir.
Qed.

(** In artifact mode [--components] has to name a directory, since it is listed, and a
    file, since it is read as the component: the command never succeeds. *)
Theorem artifact_of_components_never_succeeds a p out w :
  cl_components a = Some p → print_keeps_files →
  (∀ w l, read_dir p w = Ok l → files w !! p = Some NDir) →
  (∀ w, files w !! p = Some NDir → ∃ e w' ts, run (from_component p) w = (Failed e, w', ts)) →
  never_done (generate_wasm_artifact a out) w.
Proof.
  intros Ha Hp Hdir Hfile. unfold generate_wasm_artifact. rewrite Ha.
  apply never_done_bind. intros _ w1 ts1 _. apply never_done_bind. intros [conf q] w2 ts2 Hr. exfalso.
  revert Hr. rewrite run_bind. go. destruct (read_dir p w1) as [l|e] eqn:Hl; [|by go].
  rewrite run_bind. go. apply Hdir in Hl.
  assert (∃ w', run (if negb (bool_decide (length l = 1%nat))
    then say (E := string) ("Currently only supports a single component file " +:+ p) else Ret tt) w1 =
    (Done tt, w', []) ∧ files w' !! p = Some NDir) as (w' & Hs & Hd).
  { destruct (negb _); eexists; (split; [reflexivity|]); [by rewrite Hp|done]. }
  rewrite (run_bind_done _ _ _ _ _ Hs), run_bind. destruct (Hfile w' Hd) as (e & w'' & ts & ->). by go.
Qed.
End command.
