(* ===== verification/BuildScripts.v ===== *)
(** The build scripts (crates/containerd-shim-wasm-test-modules/build.rs and
    crates/wasi-demo-app/build.rs), on the files of the host.

    The first compiles the test modules and writes a source file with a constant
    for each of them; the compilers are parameters.  The second packs the demo
    application into an image with the builder of the file TarBuilder. *)
From S2P Require Import Prelude Errors Sync Instance Paths Files Text Oci Context TarBuilder TarCommand.
Local Open Scope string_scope.

(** The bytes of a text. *)
Definition bytes_of (s : string) : list byte :=
  (λ c, Z.of_nat (nat_of_ascii c)) <$> String.list_ascii_of_string s.

(** [{:?}] of a path, for printable names: in quotes, with quotes and backslashes
    escaped. *)
Fixpoint escape (s : string) : string :=
  match s with
  | EmptyString => ""
  | String a s =>
      if bool_decide (a = ascii_of_nat 34 ∨ a = ascii_of_nat 92)
      then String (ascii_of_nat 92) (String a (escape s)) else String a (escape s)
  end.
Definition debug_path (p : path) : string :=
  String (ascii_of_nat 34) (escape p +:+ String (ascii_of_nat 34) "").

(** [Path::with_extension], for a path that does not end in a separator. *)
Definition with_extension (p : path) (ext : string) : path :=
  match file_stem p with
  | None => p
  | Some stem =>
      match rsplit_once "/" p with
      | Some (d, _) => d +:+ "/" +:+ stem +:+ "." +:+ ext
      | None => stem +:+ "." +:+ ext
      end
  end.

(** [char::to_ascii_uppercase] *)
Definition upper (a : ascii) : ascii :=
  let n := nat_of_ascii a in
  if bool_decide (97 ≤ n ≤ 122)%nat then ascii_of_nat (n - 32) else a.
Fixpoint to_ascii_uppercase (s : string) : string :=
  match s with EmptyString => "" | String a s => String (upper a) (to_ascii_uppercase s) end.

Definition is_alpha (a : ascii) : bool :=
  let n := nat_of_ascii a in bool_decide (65 ≤ n ≤ 90 ∨ 97 ≤ n ≤ 122)%nat.
Definition is_numeric (a : ascii) : bool :=
  let n := nat_of_ascii a in bool_decide (48 ≤ n ≤ 57)%nat.

Fixpoint map_chars (f : ascii → ascii) (s : string) : string :=
  match s with EmptyString => "" | String a s => String (f a) (map_chars f s) end.

(** ** The test modules *)

Definition ident_char (a : ascii) : ascii := if is_alpha a || is_numeric a then a else "_"%char.

(** [ident.starts_with(char::is_alphabetic)] *)
Definition starts_alphabetic (s : string) : bool :=
  match s with EmptyString => false | String a _ => is_alpha a end.

Definition path_to_ident (p : path) : result string string :=
  match file_stem p with
  | None => Err ("getting filename of " +:+ debug_path p)
  | Some stem =>
      let ident := map_chars ident_char stem in
      if negb (starts_alphabetic ident) then Err "please start the filename with [a-zA-Z]"
      else Ok ident
  end.

Definition output_for (out_dir src : path) : result string path :=
  match file_name src with
  | None => Err ("getting filename of " +:+ debug_path src)
  | Some f => Ok (with_extension (path_join out_dir f) "wasm")
  end.

Record RustcCommand := mkRustc { rc_program : path; rc_args : list string }.

Class ModuleHost (W : Type) := {
  module_files :: HasFiles W;
  env_var : string → W → option path;                          (* env::var_os *)
  list_dir : path → W → result string (list path);             (* read_dir(..)?.flatten() *)
  rustc_wait : RustcCommand → prog W string bool;              (* spawn()?.wait()?.success() *)
  wat_parse_file : path → prog W string (list byte);
  print_line : string → W → W;
}.

Section modules.
Context {W : Type} {H : ModuleHost W}.
Local Open Scope prog_scope.

Definition env_path {E : Type} (key : string) : prog W E (result string path) :=
  gets (λ w, ok_or (env_var key w) ("failed to read env-var " +:+ key)).

(** The lazy statics [OUT_DIR] and [PKG_DIR]. *)
Definition static_path {E : Type} (key : string) : prog W E path :=
  let! r := env_path key in unwrap (lift_result r).

Definition compile_rust (src : path) : prog W string path :=
  let! rustc := gets (env_var "RUSTC") in
  let! rustc := lift_result (ok_or rustc "reading RUSTC") in
  let! out_dir := static_path "OUT_DIR" in
  let! dst := lift_result (output_for out_dir src) in
  let! ok := rustc_wait (mkRustc rustc
    ["--target=wasm32-wasip1"; "-Copt-level=z"; "-Cstrip=symbols"; "-o"; dst; src]) in
  lift_result (if ok : bool then Ok dst else Err "running rustc").

Definition compile_wat (src : path) : prog W string path :=
  let! out_dir := static_path "OUT_DIR" in
  let! dst := lift_result (output_for out_dir src) in
  let! bytes := wat_parse_file src in
  on_files (fs_write dst bytes) ;;
  Ret dst.

(** [fs::copy] *)
Definition fs_copy (src dst : path) (fs : Files) : result string Files :=
  match fs_read src fs with Err e => Err e | Ok b => fs_write dst b fs end.

Definition move_wasm (src : path) : prog W string path :=
  let! out_dir := static_path "OUT_DIR" in
  let! dst := lift_result (output_for out_dir src) in
  on_files (fs_copy src dst) ;;
  Ret dst.

(** [writeln!(writer, ..)?] to the file that was created at [p]. *)
Definition write_line (p : path) (line : string) : prog W string unit :=
  on_files (λ fs, match fs_read p fs with
                  | Err e => Err e
                  | Ok b => fs_write p (b ++ bytes_of (line +:+ String newline ""))%list fs
                  end).

(** One turn of the loop over the directory. *)
Definition build_module (writer src : path) : prog W string unit :=
  let! ident := lift_result (path_to_ident src) in
  let name := to_ascii_uppercase ident in
  modify (print_line ("cargo:rerun-if-changed=" +:+ src)) ;;
  write_line writer ("pub const " +:+ name +:+ ": TestModule = TestModule {") ;;
  let source := "    source: Some(include_str!(" +:+ debug_path src +:+ "))," in
  let! dst :=
    (let ext := default "" (extension src) in
     if bool_decide (ext = "rs") then write_line writer source ;; compile_rust src
     else if bool_decide (ext = "wat") then write_line writer source ;; compile_wat src
     else if bool_decide (ext = "wasm") then write_line writer "    source: None," ;; move_wasm src
     else Throw ("unrecognized file format for source file " +:+ debug_path src)) in
  write_line writer ("    bytes: include_bytes!(" +:+ debug_path dst +:+ "),") ;;
  write_line writer "};".

Definition modules_main : prog W string unit :=
  let! out_dir := static_path "OUT_DIR" in
  let! pkg_dir := static_path "CARGO_MANIFEST_DIR" in
  let modules_file := path_join out_dir "modules.rs" in
  let modules_dir := path_join (path_join pkg_dir "src") "modules" in
  on_files (fs_write modules_file []) ;;
  let! paths := gets (list_dir modules_dir) in
  let! paths := lift_result paths in
  for_each (build_module modules_file) paths ;;
  Ret tt.
End modules.

(** *** Names and outputs *)

Definition is_word (a : ascii) : bool := is_alpha a || is_numeric a || bool_decide (a = "_"%char).

Fixpoint all_chars (f : ascii → bool) (s : string) : bool :=
  match s with EmptyString => true | String a s => f a && all_chars f s end.

(** A name that Rust accepts for a constant: no lower-case letter, and a letter at
    the front. *)
Definition is_constant_name (s : string) : bool :=
  starts_alphabetic s && all_chars is_word s &&
  all_chars (λ a, negb (bool_decide (97 ≤ nat_of_ascii a ≤ 122)%nat)) s.

Lemma ident_char_word a : is_word (upper (ident_char a)) = true ∧
  negb (bool_decide (97 ≤ nat_of_ascii (upper (ident_char a)) ≤ 122)%nat) = true ∧
  is_alpha (upper (ident_char a)) = is_alpha (ident_char a).
Proof. destruct a as [[] [] [] [] [] [] [] []]; by vm_compute. Qed.

Lemma upper_map_chars s :
  all_chars is_word (to_ascii_uppercase (map_chars ident_char s)) = true ∧
  all_chars (λ a, negb (bool_decide (97 ≤ nat_of_ascii a ≤ 122)%nat))
    (to_ascii_uppercase (map_chars ident_char s)) = true.
Proof.
  induction s as [|a s [IH1 IH2]]; [done|].
  destruct (ident_char_word a) as (H1 & H2 & _). cbn [map_chars to_ascii_uppercase all_chars].
  by rewrite H1, H2, IH1, IH2.
Qed.

(** The name of a module's constant is a valid one. *)
Theorem module_names_are_valid p ident :
  path_to_ident p = Ok ident → is_constant_name (to_ascii_uppercase ident) = true.
Proof.
  unfold path_to_ident. destruct (file_stem p) as [s|]; [|done].
  destruct (starts_alphabetic (map_chars ident_char s)) eqn:Hs; simpl; [|done]. intros [= <-].
  unfold is_constant_name. destruct (upper_map_chars s) as [-> ->]. rewrite !andb_true_r.
  destruct s as [|a s]; [done|]. simpl in *. destruct (ident_char_word a) as (_ & _ & Ha).
  by rewrite Ha.
Qed.

(** Where an output goes: a directory that is named without a final separator. *)
Definition plain_dir (d : path) : Prop := d ≠ "" ∧ ends_with_sep d = false.

Lemma file_stem_Some p f : file_name p = Some f → ∃ stem, file_stem p = Some stem.
Proof.
  intros Hf. unfold file_stem. rewrite Hf. simpl. unfold rsplit_file_at_dot.
  case_bool_decide; [by eauto|]. destruct (rsplit_once "." f) as [[[|] ?]|]; eauto.
Qed.

Lemma output_for_in out src f stem :
  plain_dir out → file_name src = Some f → file_stem src = Some stem →
  output_for out src = Ok (out +:+ "/" +:+ stem +:+ ".wasm").
Proof.
  intros [Hne Hsep] Hf Hs. pose proof (file_name_plain _ _ Hf) as Hp.
  pose proof Hp as (_ & _ & _ & Hsl). unfold output_for. rewrite Hf. f_equal.
  assert (path_join out f = out +:+ "/" +:+ f) as ->.
  { unfold path_join. by rewrite not_absolute, bool_decide_eq_false_2, Hsep by done. }
  unfold with_extension, file_stem. rewrite file_name_in by done. simpl.
  unfold file_stem in Hs. rewrite Hf in Hs. simpl in Hs.
  destruct (rsplit_file_at_dot f) as [before after]. rewrite Hs.
  by rewrite (proj2 (rsplit_once_Some "/" (out +:+ "/" +:+ f) out f)).
Qed.

(** Two modules that would be compiled to the same file have the same name, so the
    second cannot replace the bytes of the first without the compiler seeing two
    constants of that name. *)
Theorem outputs_are_told_apart out p q d :
  plain_dir out → output_for out p = Ok d → output_for out q = Ok d →
  file_stem p = file_stem q ∧ path_to_ident p = path_to_ident q.
Proof.
  intros Ho Hp Hq.
  destruct (file_name p) as [f|] eqn:Hf; [|unfold output_for in Hp; by rewrite Hf in Hp].
  destruct (file_name q) as [g|] eqn:Hg; [|unfold output_for in Hq; by rewrite Hg in Hq].
  destruct (file_stem_Some p f Hf) as [s Hs]. destruct (file_stem_Some q g Hg) as [t Ht].
  rewrite (output_for_in out p f s) in Hp by done. rewrite (output_for_in out q g t) in Hq by done.
  rewrite <-Hq in Hp. injection Hp as Heq. do 2 apply string_app_inj_l in Heq.
  apply string_app_inj_r in Heq as ->. split; [congruence|]. unfold path_to_ident. by rewrite Hs, Ht.
Qed.

(** ** The image of the demo application *)

Record DemoConfig := mkDemoConfig {
  dc_entrypoint : list string; dc_os : string; dc_architecture : string; dc_diff_ids : list string }.

Class DemoHost (W : Type) := {
  demo_files :: HasFiles W;
  demo_env : string → W → option path;
  layer_tar : string → list byte → list byte;          (* tar::Builder, for one entry *)
  archive_tar : list TarEntry → list byte;             (* the stream of [build] *)
  image_config_bytes : DemoConfig → list byte;
}.

Section demo.
Context {W : Type} {H : DemoHost W} {TE : TarEnv}.
Local Open Scope prog_scope.

#[local] Instance demo_config : OciConfig DemoConfig := {|
  config_os := dc_os; config_architecture := dc_architecture; config_layers := dc_diff_ids;
  config_bytes := image_config_bytes |}.

(** [fs::rename], of a file. *)
Definition fs_rename (p q : path) (fs : Files) : result string Files :=
  match fs !! p with
  | None => Err "No such file or directory"
  | Some x =>
      match fs !! q with
      | Some NDir => Err "Is a directory"
      | _ => if Files.is_dir fs (parent q) then Ok (<[q := x]> (base.delete p fs))
             else Err "No such file or directory"
      end
  end.

(** [Option::unwrap] *)
Definition unwrap_some {E A : Type} (o : option A) : prog W E A :=
  match o with Some a => Ret a | None => Panic "called `Option::unwrap()` on a `None` value" end.

Definition demo_image (layer_digest : string) : DemoConfig :=
  mkDemoConfig ["/wasi-demo-app.wasm"] "wasip1" "wasm" ["sha256:" +:+ layer_digest].

Definition demo_builder (layer_path : path) (layer_digest : string) : Builder DemoConfig :=
  add_config (demo_image layer_digest) "ghcr.io/containerd/runwasi/wasi-demo-app:latest"
    IMAGE_CONFIG_MEDIA_TYPE (add_layer layer_path builder_default).

Definition demo_main : prog W string unit :=
  let! out := gets (demo_env "OUT_DIR") in
  let! out_dir := unwrap (lift_result (ok_or out "environment variable not found")) in
  let p := path_join out_dir "img.tar" in
  let! d1 := unwrap_some (path_parent out_dir) in
  let! d2 := unwrap_some (path_parent d1) in
  let! bin_output_dir := unwrap_some (path_parent d2) in
  let app_path := path_join bin_output_dir "wasi-demo-app.wasm" in
  let layer_path := path_join out_dir "layer.tar" in
  unwrap (on_files (fs_write layer_path [])) ;;
  unwrap (let! b := from_files (fs_read app_path) in
          on_files (fs_write layer_path (layer_tar "wasi-demo-app.wasm" b))) ;;
  let! layer_digest := unwrap (from_files (λ fs, match fs_read layer_path fs with
                                                 | Ok b => Ok (sha256_hex b) | Err e => Err e end)) in
  unwrap (on_files (fs_write p [])) ;;
  unwrap (let! fs := gets files in
          let! entries := lift_result (build (H := tar_env fs) (demo_builder layer_path layer_digest)) in
          on_files (fs_write p (archive_tar entries))) ;;
  unwrap (on_files (fs_rename p (path_join bin_output_dir "img.tar"))).

(** Both directories exist, and neither output is there yet. *)
Record demo_dirs (out bin : path) (fs : Files) : Prop := {
  dd_out : plain_dir out ∧ fs !! out = Some NDir;
  dd_bin : plain_dir bin ∧ fs !! bin = Some NDir;
  dd_apart n m : out +:+ "/" +:+ n = bin +:+ "/" +:+ m → has_char "/" m = true;
  dd_layer : fs !! (out +:+ "/layer.tar") = None;
  dd_img : fs !! (out +:+ "/img.tar") = None;
  dd_archive : fs !! (bin +:+ "/img.tar") = None;
}.

Lemma join_plain d n : plain_dir d → has_char "/" n = false → path_join d n = d +:+ "/" +:+ n.
Proof.
  intros [Hne Hsep] Hn. unfold path_join. by rewrite not_absolute, bool_decide_eq_false_2, Hsep by done.
Qed.

Lemma run_unwrap_files {A : Type} f (k : unit → prog W string A) w fs :
  f (files w) = Ok fs →
  run (bind (unwrap (on_files f)) k) w = run (k tt) (put_files fs w).
Proof.
  intros Hf. apply run_bind_done, run_expect. by rewrite run_on_files, Hf.
Qed.

(** The entries of the archive for a layer with the bytes [l]. *)
Lemma demo_build layer_path l fs :
  fs !! layer_path = Some (NFile l) →
  ∃ entries, build (H := tar_env fs) (demo_builder layer_path (sha256_hex l)) = Ok entries ∧
    blob l ∈ entries ∧ blob (image_config_bytes (demo_image (sha256_hex l))) ∈ entries.
Proof.
  intros Hl. unfold build, demo_builder. simpl. rewrite (fs_read_plain _ _ _ Hl). simpl.
  eexists. split; [reflexivity|]. split; [left|right; left].
Qed.

(** The paths of the script are different, and lie in its two directories. *)
Lemma demo_apart out bin app fs :
  demo_dirs out bin fs → fs !! (bin +:+ "/wasi-demo-app.wasm") = Some (NFile app) →
  let lp := out +:+ "/layer.tar" in let ip := out +:+ "/img.tar" in
  let ap := bin +:+ "/img.tar" in let wp := bin +:+ "/wasi-demo-app.wasm" in
  lp ≠ ip ∧ (lp ≠ ap ∧ lp ≠ wp ∧ ip ≠ ap ∧ ip ≠ wp) ∧ (lp ≠ out ∧ ip ≠ out ∧ lp ≠ bin ∧ ip ≠ bin) ∧
  parent lp = out ∧ parent ip = out ∧ parent ap = bin.
Proof.
  intros [[Hpo Hdo] [Hpb Hdb] Hap Hl Hi Ha] Happ. cbv zeta.
  assert (∀ n m, has_char "/" m = false → out +:+ "/" +:+ n ≠ bin +:+ "/" +:+ m) as Hne.
  { intros n m Hm He. apply Hap in He. congruence. }
  split; [intros He; by apply string_app_inj_l in He|]. split; [|split].
  - split; [exact (Hne "layer.tar" "img.tar" eq_refl)|].
    split; [exact (Hne "layer.tar" "wasi-demo-app.wasm" eq_refl)|].
    split; [exact (Hne "img.tar" "img.tar" eq_refl)|exact (Hne "img.tar" "wasi-demo-app.wasm" eq_refl)].
  - repeat split; intros He; congruence.
  - split; [exact (parent_in out "layer.tar" eq_refl)|].
    split; [exact (parent_in out "img.tar" eq_refl)|exact (parent_in bin "img.tar" eq_refl)].
Qed.

(** The archive of the demo application holds the application as its layer, and the
    configuration that it holds names that layer by its digest. *)
Theorem demo_image_is_complete out d1 d2 bin app w :
  demo_env "OUT_DIR" w = Some out →
  path_parent out = Some d1 → path_parent d1 = Some d2 → path_parent d2 = Some bin →
  demo_dirs out bin (files w) → files w !! (bin +:+ "/wasi-demo-app.wasm") = Some (NFile app) →
  let l := layer_tar "wasi-demo-app.wasm" app in
  ∃ entries w', run demo_main w = (Done tt, w', []) ∧
    files w' !! (bin +:+ "/img.tar") = Some (NFile (archive_tar entries)) ∧
    blob l ∈ entries ∧ blob (image_config_bytes (demo_image (sha256_hex l))) ∈ entries.
Proof.
  intros Hout H1 H2 H3 Hdirs Happ l.
  destruct (demo_apart _ _ _ _ Hdirs Happ) as (Hli & (?&?&?&?) & (?&?&?&?) & Hpl & Hpi & Hpa).
  destruct Hdirs as [[Hpo Hdo] [Hpb Hdb] _ Hl Hi Ha].
  set (lp := out +:+ "/layer.tar") in *. set (ip := out +:+ "/img.tar") in *.
  set (ap := bin +:+ "/img.tar") in *. set (wp := bin +:+ "/wasi-demo-app.wasm") in *.
  unfold demo_main. erewrite run_bind_done by reflexivity.
  erewrite run_bind_done by (apply run_expect; by rewrite Hout).
  rewrite H1; erewrite run_bind_done by reflexivity. rewrite H2; erewrite run_bind_done by reflexivity.
  rewrite H3; erewrite run_bind_done by reflexivity.
  rewrite !join_plain by done.
  change (out +:+ "/" +:+ "layer.tar") with lp. change (out +:+ "/" +:+ "img.tar") with ip.
  change (bin +:+ "/" +:+ "img.tar") with ap. change (bin +:+ "/" +:+ "wasi-demo-app.wasm") with wp.
  clearbody lp ip ap wp.
  rewrite (run_unwrap_files _ _ _ (<[lp := NFile []]> (files w))).
  2:{ apply fs_write_plain; [|by left]. rewrite Hpl. by apply dir_is_dir. }
  erewrite run_bind_done.
  2:{ apply run_expect. erewrite run_bind_done.
      2:{ rewrite run_from_files, files_put, (fs_read_plain _ app); [done|]. by rewrite lookup_insert_ne. }
      rewrite run_on_files, files_put, fs_write_plain; [done| |].
      - rewrite Hpl. apply dir_is_dir. by rewrite lookup_insert_ne.
      - right. exists []. by rewrite lookup_insert_eq. }
  rewrite put_put, insert_insert_eq. fold l.
  erewrite run_bind_done.
  2:{ apply run_expect. rewrite run_from_files, files_put, (fs_read_plain _ l); [done|].
      by rewrite lookup_insert_eq. }
  set (fs2 := <[lp := NFile l]> (files w)).
  rewrite (run_unwrap_files _ _ _ (<[ip := NFile []]> fs2)).
  2:{ rewrite files_put. apply fs_write_plain; [rewrite Hpi; apply dir_is_dir|left];
      unfold fs2; by rewrite lookup_insert_ne. }
  rewrite put_put.
  destruct (demo_build lp l (<[ip := NFile []]> fs2)) as (entries & Hb & Hbl & Hbc).
  { unfold fs2. by rewrite lookup_insert_ne, lookup_insert_eq. }
  erewrite run_bind_done.
  2:{ apply run_expect. erewrite run_bind_done by reflexivity. rewrite files_put.
      erewrite run_bind_done by (by rewrite Hb).
      rewrite run_on_files, files_put, fs_write_plain; [done| |].
      - rewrite Hpi. apply dir_is_dir. unfold fs2. by rewrite !lookup_insert_ne.
      - right. exists []. by rewrite lookup_insert_eq. }
  rewrite put_put, insert_insert_eq. exists entries. eexists. split.
  { apply run_expect. rewrite run_on_files, files_put. unfold fs_rename.
    rewrite lookup_insert_eq, lookup_insert_ne by done.
    replace (fs2 !! ap) with (None (A := Node)) by (unfold fs2; by rewrite lookup_insert_ne).
    rewrite Hpa, dir_is_dir; [done|]. unfold fs2. by rewrite !lookup_insert_ne. }
  split; [|done]. by rewrite files_put, lookup_insert_eq.
Qed.
End demo.

(** ** A host *)

Record BuildHost := mkBuildHost { bh_files : Files; bh_printed : list string }.

#[export] Instance build_host_files : HasFiles BuildHost.
Proof.
  refine {| files := bh_files; put_files fs w := mkBuildHost fs (bh_printed w) |}.
  split; intros; simpl; by try destruct s.
Defined.

Definition build_env (key : string) (_ : BuildHost) : option path :=
  if bool_decide (key = "OUT_DIR") then Some "/t/build/x/out"
  else if bool_decide (key = "CARGO_MANIFEST_DIR") then Some "/pkg"
  else if bool_decide (key = "RUSTC") then Some "/bin/rustc" else None.

(** The compilers put a marker in front of the source. *)
#[export] Instance build_module_host : ModuleHost BuildHost := {|
  env_var := build_env;
  list_dir _ w := Ok (filter (λ p, path_starts_with p "/pkg/src/modules" = true)
                        (map_to_list (bh_files w)).*1);
  rustc_wait c :=
    match rc_args c with
    | [_; _; _; _; dst; src] =>
        bind (attempt (bind (from_files (fs_read src)) (λ b, on_files (fs_write dst (1 :: b)%Z))))
          (λ r, Ret (negb (is_err r)))
    | _ => Ret false
    end;
  wat_parse_file p := bind (from_files (fs_read p)) (λ b, Ret (2 :: b)%Z);
  print_line s w := mkBuildHost (bh_files w) (bh_printed w ++ [s]);
|}.

Definition build_host0 : BuildHost := mkBuildHost
  {["/t/build/x/out" := NDir; "/t" := NDir; "/t/wasi-demo-app.wasm" := NFile [7]%Z;
    "/pkg/src/modules/my-app.rs" := NFile [10]%Z; "/pkg/src/modules/exit.wat" := NFile [20]%Z;
    "/pkg/src/modules/raw.wasm" := NFile [30]%Z]} [].

Definition text_of (b : list byte) : string :=
  String.string_of_list_ascii ((λ z, ascii_of_nat (Z.to_nat z)) <$> b).

(** Every module is compiled its own way, and each constant refers to its output. *)
Example modules_built :
  let '(o, w, _) := run modules_main build_host0 in
  o = Done tt ∧
  ((λ p, bh_files w !! p) <$>
    ["/t/build/x/out/my-app.wasm"; "/t/build/x/out/exit.wasm"; "/t/build/x/out/raw.wasm"]) =
    [Some (NFile [1; 10]); Some (NFile [2; 20]); Some (NFile [30])]%Z ∧
  ∃ l, bh_files w !! "/t/build/x/out/modules.rs" = Some (NFile l) ∧
    contains ("pub const MY_APP: TestModule = TestModule {" +:+ String newline
      ("    source: Some(include_str!(" +:+ debug_path "/pkg/src/modules/my-app.rs" +:+ "))," +:+
       String newline ("    bytes: include_bytes!(" +:+ debug_path "/t/build/x/out/my-app.wasm" +:+ "),"))) 
      (text_of l) = true.
Proof.
  destruct (run modules_main build_host0) as [[o w] ts] eqn:Hr. vm_compute in Hr.
  injection Hr as <- <- <-. split; [done|]. split; [by vm_compute|].
  eexists. split; [by vm_compute|]. by vm_compute.
Qed.

#[export] Instance build_demo_host : DemoHost BuildHost := {|
  demo_env := build_env;
  layer_tar name b := (bytes_of name ++ b)%list;
  archive_tar es := concat (e_data <$> es);
  image_config_bytes c := bytes_of (join "" (dc_diff_ids c));
|}.

Lemma demo_image_is_complete_witness :
  let l := layer_tar "wasi-demo-app.wasm" [7]%Z in
  ∃ entries w', run demo_main build_host0 = (Done tt, w', []) ∧
    files w' !! "/t/img.tar" = Some (NFile (archive_tar entries)) ∧
    blob l ∈ entries ∧ blob (image_config_bytes (demo_image (sha256_hex l))) ∈ entries.
Proof.
  refine (demo_image_is_complete "/t/build/x/out" "/t/build/x" "/t/build" "/t" [7]%Z build_host0
    eq_refl eq_refl eq_refl eq_refl _ eq_refl).
  split; [by repeat split|by repeat split| |reflexivity..].
  intros n m He. injection He as He. change ("" +:+ m) with m in He. by rewrite <-He.
Defined.

Lemma outputs_are_told_apart_witness :
  file_stem "/pkg/a.rs" = file_stem "/pkg/a.wat" ∧ path_to_ident "/pkg/a.rs" = path_to_ident "/pkg/a.wat".
Proof.
  apply (outputs_are_told_apart "/out" "/pkg/a.rs" "/pkg/a.wat" "/out/a.wasm"); [by split|reflexivity..].
Defined.
