(* ===== verification/UnitTests.v ===== *)
(** The unit tests of the repository, as tests of the model: each test is a
    definition that makes the calls and assertions of the Rust test, on the same
    inputs, and returns whether all of them hold.  That they pass is evidence, next
    to the proofs, that the definitions are those of the code.

    The modules are the test modules of container/context.rs, sandbox/error.rs,
    sandbox/shim/otel.rs and sandbox/shim/local.rs. *)
From S2P Require Import Prelude Errors TaskState Sync Instance Cells InstanceData Paths Oci Local Telemetry Stub Context.
Local Open Scope string_scope.

(** [assert_eq!] *)
Abbreviation eqb x y := (bool_decide (x = y)).

#[export] Instance Source_eq_file (p : path) (s : Source) : Decision (s = File p).
Proof. destruct s as [q|l]; [destruct (decide (q = p)); [left|right]; congruence|by right]. Defined.

(** ** container/context.rs *)

Module ContextTests.

(** A context for a process with these arguments or variables and no layers. *)
Definition context_of (args env : option (list string)) (layers : list WasmLayer) : WasiContext :=
  mkContext (mkSpec (Some (mkProcess args env)) (Some (mkRoot "rootfs")) None None) layers
    (mkPlatform "linux" "amd64").

Definition test_get_args : bool :=
  let args := ctx_args (context_of (Some ["hello.wat"]) None []) in
  eqb (length args) 1%nat && eqb (args !! 0%nat) (Some "hello.wat").

Definition test_get_args_return_empty : bool :=
  eqb (length (ctx_args (context_of (Some []) None []))) 0%nat.

Definition test_get_args_returns_all : bool :=
  let args := ctx_args (context_of (Some ["hello.wat"; "echo"; "hello"]) None []) in
  eqb (length args) 3%nat && eqb (args !! 0%nat) (Some "hello.wat") &&
  eqb (args !! 1%nat) (Some "echo") && eqb (args !! 2%nat) (Some "hello").

Definition test_get_module_returns_none_when_not_present : bool :=
  eqb (source (entrypoint (context_of (Some []) None []))) (File "").

Definition test_get_module_returns_function : bool :=
  let e := entrypoint (context_of (Some ["hello.wat#foo"; "echo"; "hello"]) None []) in
  eqb (entry_name e) (Some "hello") && eqb (func e) "foo" &&
  eqb (entry_arg0 e) (Some "hello.wat#foo") && eqb (source e) (File "hello.wat").

Definition test_get_module_returns_start : bool :=
  let e := entrypoint (context_of (Some ["/root/hello.wat"; "echo"; "hello"]) None []) in
  eqb (entry_name e) (Some "hello") && eqb (func e) "_start" &&
  eqb (entry_arg0 e) (Some "/root/hello.wat") && eqb (source e) (File "/root/hello.wat").

Definition test_loading_strategy_is_file_when_no_layers : bool :=
  let c := context_of (Some ["/root/hello.wat#foo"; "echo"; "hello"]) None [] in
  eqb (source (entrypoint c)) (File "/root/hello.wat").

Definition test_loading_strategy_is_oci_when_layers_present : bool :=
  let zeros := String.concat "" (repeat "0" 64) in
  let c := context_of (Some ["/root/hello.wat"; "echo"; "hello"]) None
             [mkLayer (mkDescriptor "" ("sha256:" +:+ zeros) 10) []] in
  match source (entrypoint c) with OciLayers _ => true | File _ => false end.

Definition test_get_envs : bool :=
  let envs := envs (context_of None (Some ["KEY1=VALUE1"; "KEY2=VALUE2"]) []) in
  eqb (length envs) 2%nat && eqb (envs !! 0%nat) (Some "KEY1=VALUE1") &&
  eqb (envs !! 1%nat) (Some "KEY2=VALUE2").

Definition test_get_envs_return_empty : bool :=
  eqb (length (envs (context_of None (Some []) []))) 0%nat.

Lemma context_tests_pass :
  forallb (λ b, b)
    [test_get_args; test_get_args_return_empty; test_get_args_returns_all;
     test_get_module_returns_none_when_not_present; test_get_module_returns_function;
     test_get_module_returns_start; test_loading_strategy_is_file_when_no_layers;
     test_loading_strategy_is_oci_when_layers_present; test_get_envs; test_get_envs_return_empty] = true.
Proof. vm_compute. reflexivity. Qed.
End ContextTests.

(** ** sandbox/error.rs *)

Module ErrorTests.

#[export] Instance TtrpcError_eq_dec : EqDecision TtrpcError.
Proof. solve_decision. Defined.

Definition test_error_to_ttrpc_status (display : ShimError → string) : bool :=
  let into := into_ttrpc display in
  eqb (into (InvalidArgument "invalid argument")) (RpcStatus CODE_INVALID_ARGUMENT "invalid argument") &&
  eqb (into (NotFound "not found")) (RpcStatus CODE_NOT_FOUND "not found") &&
  eqb (into (AlreadyExists "already exists")) (RpcStatus CODE_ALREADY_EXISTS "already exists") &&
  eqb (into (FailedPrecondition "failed precondition"))
    (RpcStatus CODE_FAILED_PRECONDITION "failed precondition") &&
  eqb (into (Shim (ShimInvalidArgument "invalid argument")))
    (RpcStatus CODE_INVALID_ARGUMENT "invalid argument") &&
  eqb (into (AnyErr "any error")) (RpcStatus CODE_UNKNOWN "any error").

Lemma error_tests_pass display : test_error_to_ttrpc_status display = true.
Proof. reflexivity. Qed.
End ErrorTests.

(** ** sandbox/shim/otel.rs *)

Module OtelTests.

#[export] Instance Protocol_eq_dec : EqDecision Protocol.
Proof. solve_decision. Defined.

(** [with_vars]: the variables that are set. *)
Definition vars (l : list (string * option string)) : Env :=
  foldl (λ e kv, match kv.2 with Some v => <[kv.1 := v]> e | None => base.delete kv.1 e end) ∅ l.

Definition endpoints (traces general disabled : option string) : Env :=
  vars [(OTEL_EXPORTER_OTLP_TRACES_ENDPOINT, traces); (OTEL_EXPORTER_OTLP_ENDPOINT, general);
        (OTEL_SDK_DISABLED, disabled)].

Definition test_traces_enabled : bool :=
  traces_enabled (endpoints (Some "trace_endpoint") (Some "general_endpoint") None) &&
  traces_enabled (endpoints (Some "") (Some "general_endpoint") (Some "t")) &&
  traces_enabled (endpoints None (Some "general_endpoint") (Some "false")) &&
  traces_enabled (endpoints (Some "trace_endpoint") (Some "") (Some "1")) &&
  negb (traces_enabled (endpoints (Some "") (Some "") None)) &&
  negb (traces_enabled (endpoints None None None)) &&
  negb (traces_enabled (endpoints (Some "trace_endpoint") (Some "general_endpoint") (Some "true"))).

Section text.
(** Every variable of the tests is text. *)
Let utf8 (_ : string) : bool := true.

Definition endpoint (e : Env) : option string :=
  match traces_endpoint_from_env utf8 e with Ok s => Some s | Err _ => None end.
Definition protocol (e : Env) : option Protocol :=
  match traces_protocol_from_env utf8 "http/protobuf" e with Ok s => Some s | Err _ => None end.

Definition test_otel_endpoint_from_env : bool :=
  eqb (endpoint (vars [(OTEL_EXPORTER_OTLP_TRACES_ENDPOINT, Some "trace_endpoint")]))
    (Some "trace_endpoint").

Definition test_otel_endpoint_from_env_fallback : bool :=
  eqb (endpoint (vars [(OTEL_EXPORTER_OTLP_ENDPOINT, Some "fallback_endpoint")]))
    (Some "fallback_endpoint").

Definition test_otel_endpoint_from_env_missing : bool := eqb (endpoint (vars [])) None.

Definition test_otel_protocol_from_env : bool :=
  eqb (protocol (vars [(OTEL_EXPORTER_OTLP_TRACES_PROTOCOL, Some "grpc")])) (Some Grpc).

Definition test_otel_protocol_from_env_fail : bool :=
  eqb (protocol (vars [(OTEL_EXPORTER_OTLP_PROTOCOL, Some "something-else")])) None.

Definition test_otel_protocol_from_env_default : bool := eqb (protocol (vars [])) (Some HttpBinary).

Definition test_build_with_both_specific_and_general_env_vars : bool :=
  match build_from_env utf8 "http/protobuf"
    (vars [(OTEL_EXPORTER_OTLP_TRACES_ENDPOINT, Some "trace_endpoint");
           (OTEL_EXPORTER_OTLP_ENDPOINT, Some "general_endpoint");
           (OTEL_EXPORTER_OTLP_TRACES_PROTOCOL, Some "grpc");
           (OTEL_EXPORTER_OTLP_PROTOCOL, Some "http/protobuf")]) with
  | Ok c => eqb (traces_endpoint c) "trace_endpoint" && eqb (traces_protocol c) Grpc
  | Err _ => false
  end.

Definition test_build_missing_endpoint : bool :=
  is_err (build_from_env utf8 "http/protobuf" (vars [])).
End text.

Definition test_metadata_extractor : bool :=
  let metadata := <["key2" := ["value2"]]> (<["key" := ["value"]]> (∅ : gmap string (list string))) in
  eqb (metadata_get metadata "key") (Some "value") &&
  bool_decide (metadata_keys metadata ≡ₚ ["key"; "key2"]) &&
  eqb (metadata_get metadata "key2") (Some "value2").

Lemma otel_tests_pass :
  forallb (λ b, b)
    [test_traces_enabled; test_otel_endpoint_from_env; test_otel_endpoint_from_env_fallback;
     test_otel_endpoint_from_env_missing; test_otel_protocol_from_env;
     test_otel_protocol_from_env_fail; test_otel_protocol_from_env_default;
     test_build_with_both_specific_and_general_env_vars; test_build_missing_endpoint;
     test_metadata_extractor] = true.
Proof. vm_compute. reflexivity. Qed.
End OtelTests.

(** ** sandbox/shim/local/tests.rs

    A test is a sequence of requests to the service on [InstanceStub].  The thread
    that calls [task_wait] is run where the test looks at its channel: while the
    channel is empty the call is blocked, and when the message arrives it has
    returned. *)

Module ServiceTests.

#[export] Instance Status_eq_dec : EqDecision Status.
Proof. solve_decision. Defined.

Abbreviation service := (Local InstanceStub).

(** [p.unwrap()], or [p?]: the state after a call that succeeds. *)
Definition succeeds {A : Type} (p : prog service Error A) (s : service) : option service :=
  match run p s with (Done _, s', _) => Some s' | _ => None end.

(** [p.unwrap_err()] with a check of the error. *)
Definition fails {A : Type} (p : prog service Error A) (q : Error → bool) (s : service) : option service :=
  match run p s with (Failed e, s', _) => if q e then Some s' else None | _ => None end.

Definition blocks {A : Type} (p : prog service Error A) (s : service) : option service :=
  match run p s with (Blocked, _, _) => Some s | _ => None end.

Definition is_not_found (e : Error) : bool := match e with NotFound _ => true | _ => false end.
Definition is_already_exists (e : Error) : bool := match e with AlreadyExists _ => true | _ => false end.

Definition create (id bundle : string) : prog service Error CreateTaskResponse :=
  task_create {| create_id := id; create_bundle := bundle; create_rootfs := []; create_terminal := false;
    create_stdin := ""; create_stdout := ""; create_stderr := "";
    create_checkpoint := ""; create_parent_checkpoint := "" |}.

(** [task_state] and the assertion about its status. *)
Definition has_status (id : string) (st : Status) (s : service) : option service :=
  match run (task_state (mkReq id "")) s with
  | (Done r, s', _) => if eqb (state_status r) st then Some s' else None
  | _ => None
  end.

(** [impl Drop for LocalWithDestructor]: every instance left is killed and deleted;
    the result of the first is ignored, the second is unwrapped. *)
Definition drop_local (s : service) : option service :=
  foldl (λ o l, s ← o; s ← succeeds (bind (attempt (on_heap (InstanceData.kill l 9))) (λ _, Ret tt)) s;
                succeeds (on_heap (InstanceData.delete l)) s)
    (Some s) (map_to_list (instances s)).*2.

Section tests.
(** [Spec::default()] of the [oci_spec] crate has a root and no hooks. *)
Context (default_process : option Process) (default_root : Root)
  (default_annotations : option (gmap string string)).

Definition spec_default : Spec := mkSpec default_process (Some default_root) None default_annotations.

(** [with_cri_sandbox]: the iterator that would copy the annotations of [spec] is
    never run. *)
Definition with_cri_sandbox (spec : option Spec) (id : string) : Spec :=
  let s := default spec_default spec in
  mkSpec (process s) (root s) (hooks s) (Some {["io.kubernetes.cri.sandbox-id" := id]}).

(** The service on a host with these bundles, [create_bundle] of each done. *)
Definition service_with (bs : list (path * option Spec)) : service :=
  Local_new (mkShim (mkMachine 0
    (list_to_map ((λ b, (path_join b.1 "config.json", default spec_default b.2)) <$> bs)) ∅ []) [])
    "test_namespace" "/test/address".

Definition test_delete_after_create : option service :=
  let id := "test-delete-after-create" in
  s ← succeeds (create id "/tmp/b") (service_with [("/tmp/b", None)]);
  s ← succeeds (task_delete (mkReq id "")) s;
  drop_local s.

Definition test_cri_task : option service :=
  let spec := with_cri_sandbox None "test-cri-task" in
  let s := service_with [("/tmp/a", Some spec); ("/tmp/b", Some spec)] in
  s ← succeeds (create "testbase" "/tmp/a") s;
  s ← has_status "testbase" CREATED s;
  s ← succeeds (get_instance "testbase") s;
  s ← succeeds (task_start (mkReq "testbase" "")) s;
  s ← has_status "testbase" RUNNING s;
  s ← blocks (task_wait (mkReq "testbase" "")) s;
  s ← succeeds (create "testinstance" "/tmp/b") s;
  s ← has_status "testinstance" CREATED s;
  s ← succeeds (get_instance "testinstance") s;
  s ← succeeds (task_start (mkReq "testinstance" "")) s;
  s ← has_status "testinstance" RUNNING s;
  s ← succeeds (task_stats (mkIdReq "testinstance")) s;
  s ← blocks (task_wait (mkReq "testinstance" "")) s;
  s ← succeeds (task_kill (mkKill "testinstance" "" 9)) s;
  s ← succeeds (task_wait (mkReq "testinstance" "")) s;
  s ← has_status "testinstance" STOPPED s;
  s ← succeeds (task_delete (mkReq "testinstance" "")) s;
  s ← fails (task_state (mkReq "testinstance" "")) is_not_found s;
  s ← blocks (task_wait (mkReq "testbase" "")) s;
  s ← has_status "testbase" RUNNING s;
  s ← succeeds (task_kill (mkKill "testbase" "" 9)) s;
  s ← succeeds (task_wait (mkReq "testbase" "")) s;
  s ← has_status "testbase" STOPPED s;
  s ← succeeds (task_delete (mkReq "testbase" "")) s;
  s ← fails (task_state (mkReq "testbase" "")) is_not_found s;
  drop_local s.

Definition test_task_lifecycle : option service :=
  let s := service_with [("/tmp/b", None)] in
  s ← fails (task_state (mkReq "test" "")) is_not_found s;
  s ← succeeds (create "test" "/tmp/b") s;
  s ← fails (create "test" "/tmp/b") is_already_exists s;
  s ← has_status "test" CREATED s;
  s ← succeeds (task_start (mkReq "test" "")) s;
  s ← has_status "test" RUNNING s;
  s ← blocks (task_wait (mkReq "test" "")) s;
  s ← succeeds (task_stats (mkIdReq "test")) s;
  s ← succeeds (task_kill (mkKill "test" "" 9)) s;
  s ← succeeds (task_wait (mkReq "test" "")) s;
  s ← has_status "test" STOPPED s;
  s ← succeeds (task_delete (mkReq "test" "")) s;
  s ← fails (task_state (mkReq "test" "")) is_not_found s;
  drop_local s.

(** The unit tests of the task service pass: tasks are created, started, watched,
    killed and deleted with the documented status at each point, two tasks of one
    sandbox do not disturb each other, and every test leaves the service without
    a task. *)
Theorem service_tests_pass :
  Forall (λ o : option service, ∃ s, o = Some s ∧ instances s = ∅)
    [test_delete_after_create; test_cri_task; test_task_lifecycle].
Proof.
  assert (∀ o : option service, (λ s, bool_decide (instances s = ∅)) <$> o = Some true →
    ∃ s, o = Some s ∧ instances s = ∅) as Hok.
  { intros [s|] [= Hs]. exists s. by apply bool_decide_eq_true in Hs. }
  constructor; [apply Hok; vm_compute; reflexivity|].
  constructor; [apply Hok; vm_compute; reflexivity|].
  constructor; [apply Hok; vm_compute; reflexivity|constructor].
Qed.
End tests.

(** The destructor of the tests is only safe when no task is left: a task that still
    runs is killed, but has not been waited for, so its deletion is refused and the
    [unwrap] panics. *)
Example destructor_refuses_running_task :
  (s ← succeeds (create "t" "/tmp/b") (service_with None (mkRoot "rootfs") None [("/tmp/b", None)]);
   s ← succeeds (task_start (mkReq "t" "")) s;
   drop_local s) = None.
Proof. vm_compute. reflexivity. Qed.
End ServiceTests.

(** ** sandbox/sync.rs *)

Module CellTests.

(** A call that runs alone to its end: [expired] is what its timeout does. *)
Fixpoint finish (fuel : nat) (expired : bool) (i : nat) (σ : WaitableCell Z) : WaitableCell Z :=
  match fuel with
  | O => σ
  | Datatypes.S fuel => match exec i expired σ with Some σ' => finish fuel expired i σ' | None => σ end
  end.

Definition call (p : pc Z) (i : nat) (σ : WaitableCell Z) : WaitableCell Z :=
  finish 10 true i (mkCell (Sync.mutex σ) (cell σ) (<[i := p]> (threads σ))).

(** Whether the call [i] returned [Ok(())], [Err(v)], or a value. *)
Definition returned_set (i : nat) (r : result Z unit) (σ : WaitableCell Z) : bool :=
  match threads σ !! i, r with
  | Some (SetDone _ (Ok _)), Ok _ => true
  | Some (SetDone _ (Err x)), Err y => eqb x y
  | _, _ => false
  end.
Definition returned_wait (i : nat) (o : option Z) (σ : WaitableCell Z) : bool :=
  match threads σ !! i with Some (WaitDone _ x) => eqb x o | _ => false end.

(** [cell.set(42).unwrap()], then a wait. *)
Definition set_then_wait (t : timeout) : bool :=
  let σ := call (WaitLock t) 1 (call (SetLock 42%Z) 0 Sync.new) in
  returned_set 0 (Ok tt) σ && returned_wait 1 (Some 42%Z) σ.

Definition basic : bool := set_then_wait NoTimeout.
Definition basic_timeout_zero : bool := set_then_wait ZeroTimeout.
Definition basic_timeout_1ms : bool := set_then_wait Timeout.
Definition basic_timeout_none : bool := set_then_wait NoTimeout.

Definition unset_timeout_zero : bool :=
  returned_wait 0 None (call (WaitLock ZeroTimeout) 0 Sync.new).
Definition unset_timeout_1ms : bool :=
  returned_wait 0 None (call (WaitLock Timeout) 0 Sync.new).

(** A clone shares the cell. *)
Definition clone : bool :=
  returned_wait 1 (Some 42%Z) (call (WaitLock NoTimeout) 1 (call (SetLock 42%Z) 0 Sync.new)).

(** The wait sleeps until the other thread has set the cell. *)
Definition basic_threaded : bool :=
  let σ := finish 2 false 0 (mkCell None None {[0 := WaitLock NoTimeout]}) in
  let σ := call (SetLock 42%Z) 1 σ in
  returned_wait 0 (Some 42%Z) (finish 10 false 0 σ).

Definition basic_double_set : bool :=
  let σ := call (SetLock 24%Z) 1 (call (SetLock 42%Z) 0 Sync.new) in
  returned_set 0 (Ok tt) σ && returned_set 1 (Err 24%Z) σ.

(** The guard is dropped at the end of its block: a call of [set]. *)
Definition guard : bool :=
  let σ := call (SetLock 42%Z) 0 Sync.new in
  returned_wait 1 (Some 42%Z) (call (WaitLock NoTimeout) 1 σ).

Definition guard_no_op : bool :=
  let σ := call (SetLock 42%Z) 1 (call (SetLock 24%Z) 0 Sync.new) in
  returned_wait 2 (Some 24%Z) (call (WaitLock NoTimeout) 2 σ).

Lemma cell_tests_pass :
  forallb (λ b, b)
    [basic; basic_timeout_zero; basic_timeout_1ms; basic_timeout_none; unset_timeout_zero;
     unset_timeout_1ms; clone; basic_threaded; basic_double_set; guard; guard_no_op] = true.
Proof. vm_compute. reflexivity. Qed.
End CellTests.
