(* ===== verification/ClientTests.v ===== *)
(** The tests of the containerd client (the test module of
    sandbox/containerd/client.rs), run on the content store of ClientStub instead of
    a containerd: each test makes the calls and assertions of the Rust test.

    The random bytes and numbers of the tests are parameters; the engine is the
    one of the tests, [FakePrecomiplerEngine].  Its two counters are read off the
    loads: whether [precompile] is called is seen by replacing it with one whose
    answer [load_modules] must reject, and with which layers by one that fails,
    after which the layers are returned as they were read. *)
From S2P Require Import Prelude Errors Sync Instance Paths Oci Context Engine Client Wasmtime ClientStub TarBuilder.
Local Open Scope string_scope.

Abbreviation eqb x y := (bool_decide (x = y)).

(** ** The engine *)

Record FakePrecomiplerEngine := mkFake {
  precompile_id : option string;
  precompiled_layers : gmap string (list byte);   (* by the digest of the original *)
}.

Definition fake_new (can_precompile : option unit) (random : Z) : FakePrecomiplerEngine :=
  mkFake (match can_precompile with Some _ => Some ("uuid-" +:+ pretty random) | None => None end) ∅.

Definition add_precompiled_bits (original precompiled : list byte) (e : FakePrecomiplerEngine) :
    FakePrecomiplerEngine :=
  mkFake (precompile_id e) (<[text original := precompiled]> (precompiled_layers e)).

(** The answer for one layer; the outer [None] is the panic of an index that is not in
    the map. *)
Definition fake_layer (e : FakePrecomiplerEngine) (l : WasmLayer) : option (option (list byte)) :=
  if eqb (media_type (config l)) "textfile" then Some None
  else if existsb (λ x, eqb (text x) (text (layer l))) (map_to_list (precompiled_layers e)).*2
       then Some None
  else Some <$> precompiled_layers e !! text (layer l).

Definition fake_precompile (e : FakePrecomiplerEngine) (layers : list WasmLayer) :
    result string (list (option (list byte))) :=
  ok_or (mapM (fake_layer e) layers) "panic".

(** The engine with [p] for its [precompile]; the tests run no container. *)
Definition fake_engine (p : list WasmLayer → result string (list (option (list byte))))
    (e : FakePrecomiplerEngine) : Engine := {|
  engine_name := "fake";
  run_wasi _ _ := Err "not implemented";
  can_handle F := default_can_handle (F := F) (λ _, Err "not wat");
  supported_layers_types := [WASM_LAYER_MEDIA_TYPE; "textfile"];
  precompile := p;
  can_precompile := precompile_id e |}.

(** ** Images and containers *)

Record ImageContent := mkImageContent { ic_bytes : list byte; ic_type : Z }.

Definition WASM_LAYER : Z := 3.
Definition TEXTFILE : Z := 1.

Definition seed_bytes (s : string) : list byte :=
  (λ a, Z.of_nat (nat_of_ascii a)) <$> String.list_ascii_of_string s.

(** [generate_content]: the seed and random bytes. *)
Definition generate_content (seed : string) (random : list byte) (media_type : Z) : ImageContent :=
  mkImageContent (seed_bytes seed ++ random) media_type.

(** [ctr image import]: the manifest refers to its layers with labels, the image to
    the manifest; content that exists keeps its labels. *)
Definition import_image (name : string) (cs : list ImageContent) (s : Store) : Store :=
  let manifest := concat ((λ c, ic_type c :: Z.of_nat (length (ic_bytes c)) :: ic_bytes c) <$> cs) in
  let add b labels s := set_content (<[digest_of b := b]> (blobs s))
    (<[digest_of b := default labels (blob_labels s !! digest_of b)]> (blob_labels s)) s in
  let refs := list_to_map (imap (λ i c, ("containerd.io/gc.ref.content.l." +:+ pretty i, digest_of (ic_bytes c))) cs) in
  let s := foldl (λ s c, add (ic_bytes c) ∅ s) s cs in
  let s := add manifest refs s in
  mkStore (<[config_digest := [3]%Z]> (blobs s)) (blob_labels s) (leases s) (writes s)
    (<[name := digest_of manifest]> (images s)) (containers s).

Definition create_container (name image : string) (s : Store) : Store :=
  mkStore (blobs s) (blob_labels s) (leases s) (writes s) (images s) (<[name := image]> (containers s)).

Definition generate_test_container (name : option string) (random : Z) (original : list ImageContent)
    (s : Store) : string * string * Store :=
  let image := unwrap_or name ("localhost/test:latest" +:+ pretty random) in
  let container := "test-container-" +:+ pretty random in
  (image, container, create_container container image (import_image image original s)).

(** The garbage collector of containerd: what no image refers to, directly or through
    the labels of content, is removed. *)
Definition refs_of (s : Store) (d : string) : list string :=
  omap (λ kv, if starts_with "containerd.io/gc.ref.content" kv.1 then Some kv.2 else None)
    (map_to_list (default ∅ (blob_labels s !! d))).

Fixpoint reachable (n : nat) (s : Store) (ds : list string) : list string :=
  match n with
  | O => ds
  | Datatypes.S n => reachable n s (ds ++ concat (refs_of s <$> ds))
  end.

Definition collect (s : Store) : Store :=
  let live := config_digest :: reachable 3 s (map_to_list (images s)).*2 in
  set_content (filter (λ kv, kv.1 ∈ live) (blobs s)) (filter (λ kv, kv.1 ∈ live) (blob_labels s)) s.

(** ** Assertions *)

(** The state after a call that succeeds, and its value. *)
Definition call {A : Type} (p : prog Store Error A) (s : Store) : option (A * Store) :=
  match run p s with (Done a, s', _) => Some (a, s') | _ => None end.

Definition call_err {A : Type} (p : prog Store Error A) (s : Store) : option Store :=
  match run p s with (Failed _, s', _) => Some s' | _ => None end.

(** [client.load_modules]: the layers, and what the counters of the engine show. *)
Record Loaded := mkLoaded { l_layers : list (list byte); l_called : nat; l_compiled : nat; l_store : Store }.

Definition load (c : Client) (e : FakePrecomiplerEngine) (container : string) (s : Store) : option Loaded :=
  r ← call (load_modules (En := fake_engine (fake_precompile e) e) c container) s;
  as_read ← call (load_modules (En := fake_engine (λ _, Err "") e) c container) s;
  let probe := (run (load_modules (En := fake_engine (λ _, Ok []) e) c container) s).1.1 in
  let called := match probe with Failed (FailedPrecondition _) => true | _ => false end in
  answer ← (if called then mapM (fake_layer e) as_read.1.1 else Some []);
  Some (mkLoaded (layer <$> r.1.1) (if called then 1 else 0) (length (omap (λ x, x) answer)) r.2).

Definition empty_store : Store := mkStore ∅ ∅ ∅ [] ∅ ∅.

Section tests.
Context (random : list byte) (n m : Z).
Let c : Client := mkClient "runwasi-test".

Definition test_save_content : option bool :=
  let data := seed_bytes "hello world" in
  let expected := "sha256:" +:+ text data in
  let label := {[precompile_label "test" "hasdfh" := "original"]} in
  '(returned, s) ← call (save_content c data "test" label) empty_store;
  '(read, s) ← call (read_content c (wc_digest returned)) s;
  s ← call_err (save_content c data "test" label) s;
  '(_, s) ← call (lease_release (wc_lease returned)) s;
  '(returned2, s) ← call (save_content c read "test" label) s;
  '(_, s) ← call (delete_content c expected) s;
  s ← call_err (read_content c expected) s;
  '(_, s) ← call (lease_release (wc_lease returned2)) s;
  Some (eqb (wc_digest returned) expected && eqb read data && eqb (wc_digest returned2) expected &&
        eqb (leases s) ∅).

Definition test_layers_when_precompile_not_supported : option bool :=
  let fake := generate_content "original" random WASM_LAYER in
  let '(_, container, s) := generate_test_container None n [fake] empty_store in
  r ← load c (fake_new None n) container s;
  Some (eqb (l_layers r) [ic_bytes fake] && eqb (l_called r) 0%nat).

(** The engine and the store of most tests: one layer and its compiled form. *)
Definition original : ImageContent := generate_content "original" random WASM_LAYER.
Definition precompiled : ImageContent := generate_content "precompiled" random WASM_LAYER.
Definition engine0 : FakePrecomiplerEngine :=
  add_precompiled_bits (ic_bytes original) (ic_bytes precompiled) (fake_new (Some tt) n).

Definition test_layers_are_precompiled_once : option bool :=
  let '(_, container, s) := generate_test_container None n [original] empty_store in
  r1 ← load c engine0 container s;
  r2 ← load c engine0 container (l_store r1);
  Some (eqb (l_called r1) 1%nat && eqb (l_called r1 + l_called r2)%nat 1%nat &&
        eqb (l_layers r2) [ic_bytes precompiled]).

Definition test_layers_are_recompiled_if_version_changes : option bool :=
  let '(_, container, s) := generate_test_container None n [original] empty_store in
  r1 ← load c engine0 container s;
  let engine := mkFake (Some "new_version") (precompiled_layers engine0) in
  r2 ← load c engine container (l_store r1);
  Some (eqb (l_called r1) 1%nat && eqb (l_called r1 + l_called r2)%nat 2%nat).

(** The digest that the label of the engine gives for a layer of an image. *)
Definition label_of (e : FakePrecomiplerEngine) (image : string) (i : nat) (s : Store) : option string :=
  '(manifest, _, s) ← call (get_image_manifest_and_digest c image) s;
  d ← manifest_layers manifest !! i;
  '(info, _) ← call (get_info c (digest d)) s;
  v ← precompile_id e;
  info_labels info !! precompile_label "fake" v.

Definition test_layers_are_precompiled : option bool :=
  let '(image, container, s) := generate_test_container None n [original] empty_store in
  r ← load c engine0 container s;
  actual ← label_of engine0 image 0 (l_store r);
  Some (eqb (l_called r) 1%nat && eqb (l_layers r) [ic_bytes precompiled] &&
        eqb actual ("sha256:" +:+ text (ic_bytes precompiled))).

Definition test_layers_are_precompiled_but_not_for_all_layers : option bool :=
  let non_wasm := generate_content "original_dont_compile" random TEXTFILE in
  let '(_, container, s) := generate_test_container None n [original; non_wasm] empty_store in
  r ← load c engine0 container s;
  Some (eqb (l_called r) 1%nat && eqb (l_compiled r) 1%nat &&
        eqb (l_layers r) [ic_bytes precompiled; ic_bytes non_wasm]).

(** The last two tests add a layer, to the image of the same name or to a new one. *)
Definition original2 : ImageContent := generate_content "image2" random WASM_LAYER.
Definition engine2 : FakePrecomiplerEngine :=
  add_precompiled_bits (ic_bytes original2)
    (ic_bytes (generate_content "precompiled2" random WASM_LAYER)) engine0.

Definition test_layers_do_not_need_precompiled_if_new_layers_are_added_to_existing_image : option bool :=
  let '(image, container, s) := generate_test_container None n [original] empty_store in
  r1 ← load c engine0 container s;
  '(got, s) ← call (get_image c image) (l_store r1);
  image_sha ← image_target got;
  let '(_, container2, s) := generate_test_container (Some image) m [original; original2] s in
  let s := collect s in
  r2 ← load c engine2 container2 s;
  Some (eqb (l_called r1) 1%nat && eqb (l_layers r1) [ic_bytes precompiled] &&
        eqb (blobs s !! image_sha) None &&
        eqb (l_called r1 + l_called r2)%nat 2%nat && eqb (length (l_layers r2)) 2%nat &&
        eqb (l_compiled r2) 1%nat).

Definition test_layers_do_not_need_precompiled_if_new_layers_are_add_to_new_image : option bool :=
  let '(_, container, s) := generate_test_container None n [original] empty_store in
  r1 ← load c engine0 container s;
  let '(_, container2, s) := generate_test_container None m [original; original2] (l_store r1) in
  r2 ← load c engine2 container2 s;
  Some (eqb (l_called r1) 1%nat && eqb (l_layers r1) [ic_bytes precompiled] &&
        eqb (l_called r1 + l_called r2)%nat 2%nat && eqb (length (l_layers r2)) 2%nat &&
        eqb (l_compiled r2) 1%nat).

Definition test_layers_are_precompiled_for_multiple_layers : option bool :=
  let fake2 := generate_content "original1" random WASM_LAYER in
  let pre2 := generate_content "precompiled1" random WASM_LAYER in
  let engine := add_precompiled_bits (ic_bytes fake2) (ic_bytes pre2) engine0 in
  let '(image, container, s) := generate_test_container None n [original; fake2] empty_store in
  r ← load c engine container s;
  actual1 ← label_of engine image 0 (l_store r);
  actual2 ← label_of engine image 1 (l_store r);
  Some (eqb (l_called r) 1%nat && eqb (l_compiled r) 2%nat &&
        eqb (l_layers r) [ic_bytes precompiled; ic_bytes pre2] &&
        eqb actual1 ("sha256:" +:+ text (ic_bytes precompiled)) &&
        eqb actual2 ("sha256:" +:+ text (ic_bytes pre2))).

Definition client_tests : list (option bool) :=
  [test_save_content; test_layers_when_precompile_not_supported; test_layers_are_precompiled_once;
   test_layers_are_recompiled_if_version_changes; test_layers_are_precompiled;
   test_layers_are_precompiled_but_not_for_all_layers;
   test_layers_do_not_need_precompiled_if_new_layers_are_added_to_existing_image;
   test_layers_do_not_need_precompiled_if_new_layers_are_add_to_new_image;
   test_layers_are_precompiled_for_multiple_layers].
End tests.

(** The tests of the client pass on the store: layers are compiled once per version
    of the compiler and layer, also when an image is rebuilt with more layers, what
    was compiled survives the garbage collector, and content is guarded by its
    lease. *)
Theorem client_tests_pass :
  forallb (λ random, forallb (λ o, eqb o (Some true)) (client_tests random 7 8))
    [[]; [1; 2; 3]; [255; 0; 35; 47]]%Z = true.
Proof. vm_compute. reflexivity. Qed.
