(* ===== verification/Benchmarks.v ===== *)
(** The end-to-end benchmark (src/benches/containerd-shim-benchmarks): every shim runs
    the demo images with [ctr], and the output is checked.  Processes and the clock are
    parameters; the measuring of the criterion crate is left out. *)
From S2P Require Import Prelude Text Cli.
Local Open Scope string_scope.

Record TestCase := mkTestCase {
  tc_image : string; tc_entrypoint : string; tc_args : list string; tc_expected : string }.

Definition RUNTIMES : list string := ["wasmtime"; "wasmedge"; "wasmer"; "wamr"].

Definition TEST_CASES : list TestCase :=
  [mkTestCase "ghcr.io/containerd/runwasi/wasi-demo-app:latest" "wasi-demo-app.wasm"
     ["echo"; "hello"] "hello";
   mkTestCase "ghcr.io/containerd/runwasi/wasi-demo-oci:latest" "wasi-demo-oci.wasm"
     ["echo"; "hello"] "hello"].

(** The arguments of [sudo]. *)
Definition ctr_run (runtime : string) (tc : TestCase) : list string :=
  (["ctr"; "run"; "--rm"; "--runtime=io.containerd." +:+ runtime +:+ ".v1"; tc_image tc; "testwasm";
    tc_entrypoint tc] ++ tc_args tc)%list.

(** [std::process::Output], as text. *)
Record Output := mkOutput { out_success : bool; out_stdout : string; out_stderr : string }.

Section bench.
Context {W E : Type} (sudo : list string → prog W string Output) (instant : W → N).
Local Open Scope prog_scope.

Definition run_container (runtime : string) (tc : TestCase) (verify_output : string → prog W E unit) :
    prog W E N :=
  let! start := gets instant in
  let! output := expect "Failed to execute command" (sudo (ctr_run runtime tc)) in
  if negb (out_success output) then Panic ("Container failed to run: " +:+ out_stderr output) else
  verify_output (out_stdout output) ;;
  let! now := gets instant in
  Ret (now - start)%N.

(** The name of a benchmark: [rsplit('/').next()] of the image. *)
Definition bench_name (runtime : string) (tc : TestCase) : string :=
  runtime +:+ "/" +:+ default (tc_image tc) (list.last (split "/" (tc_image tc))).

(** One iteration: the closure that is measured. *)
Definition bench_iteration (runtime : string) (tc : TestCase) : prog W E N :=
  run_container runtime tc (λ stdout,
    if contains (tc_expected tc) stdout then Ret tt else
    Panic "assertion failed: stdout.contains(test_case.expected)").

(** [benchmark_image]: what is measured, by name. *)
Definition benchmark_image : list (string * prog W E N) :=
  flat_map (λ runtime, (λ tc, (bench_name runtime tc, bench_iteration runtime tc)) <$> TEST_CASES) RUNTIMES.
End bench.

(** Every benchmark asks for the id under which its shim is registered, and the
    benchmarks have different names. *)
Lemma benchmarks_run_the_shims :
  Forall (λ runtime, ∀ tc, ctr_run runtime tc !! 3%nat =
    Some ("--runtime=" +:+ shim_id runtime (Some "v1"))) RUNTIMES ∧
  NoDup (fst <$> benchmark_image (W := unit) (E := Empty_set) (λ _, Throw "") (λ _, 0%N)).
Proof.
  split; [by repeat constructor|]. apply (bool_decide_eq_true (NoDup _)). vm_compute. reflexivity.
Qed.

(** A measured run has ended well and printed what was expected. *)
Theorem measured_run_is_verified {W E : Type} (sudo : list string → prog W string Output) instant
    runtime tc (w w' : W) d ts :
  run (bench_iteration (E := E) sudo instant runtime tc) w = (Done d, w', ts) →
  ∃ out w1 ts1, run (sudo (ctr_run runtime tc)) w = (Done out, w1, ts1) ∧
    out_success out = true ∧ contains (tc_expected tc) (out_stdout out) = true.
Proof.
  unfold bench_iteration, run_container. intros (start & w0 & ? & ? & H0 & H & _)%run_bind_inv.
  simpl in H0. injection H0 as _ <- _.
  apply run_bind_inv in H as (out & w1 & ? & ? & H1 & H & _). unfold expect in H1.
  apply run_bind_inv in H1 as (r & w2 & ts2 & ? & H1 & Hr & _). rewrite run_attempt in H1.
  destruct (run (sudo (ctr_run runtime tc)) w) as [[[o|e|m|] w3] ts3] eqn:Hs; simpl in H1; try done;
    injection H1 as <- <- <-; simpl in Hr; [|done]. injection Hr as -> <- _.
  exists out, w3, ts3. split; [done|]. destruct (out_success out); simpl in H; [|done].
  apply run_bind_inv in H as ([] & w4 & ? & ? & Hv & _ & _). by destruct (contains _ _).
Qed.
