(* ===== verification/DemoApp.v ===== *)
(** Guests: the demo application that the images of the repository run
    (src/crates/wasi-demo-app/src/main.rs), and the two test modules that are written in
    Rust (src/crates/containerd-shim-wasm-test-modules/src/modules).

    One command of the demo never ends, so a guest is an interaction tree: it prints,
    sleeps and asks for files, and ends, if it does, in an exit code or in a panic. *)
From S2P Require Import Prelude Text Cli Benchmarks.
From ITree Require Import ITree ITreeFacts Props.Leaf.
Local Open Scope string_scope.

(** What the guest asks of its host: [println!], [eprintln!], [sleep], and files. *)
Variant guestE : Type → Type :=
| Stdout (s : string) : guestE unit
| Stderr (s : string) : guestE unit
| Sleep (nanos : N) : guestE unit
| FileCreate (p : string) : guestE (result string nat)
| WriteAll (f : nat) (s : string) : guestE (result string unit)
| PathExists (p : string) : guestE bool
| CurrentDir : guestE (result string string).

(** How it ends. *)
Inductive GuestEnd := Exits (code : Z) | Panics (message : string).

Abbreviation guest := (itree guestE GuestEnd).
Notation "'do!' x := p 'in' k" := (ITree.bind p (λ x, k))
  (at level 10, x pattern, p at level 200, k at level 200).

(** [str::parse::<i32>] *)
Definition parse_i32 (s : string) : option Z :=
  let in_range v := if bool_decide (- 2 ^ 31 ≤ v < 2 ^ 31)%Z then Some v else None in
  match s with
  | String "-" body =>
      if bool_decide (body = "") then None else v ← parse_digits 0 body; in_range (- v)%Z
  | _ => v ← parse_unsigned 31 s; Some v
  end.

Section demo.
(** [f64] with its parser, and [Duration::from_secs_f64], which panics for what is not
    a duration. *)
Context {F64 : Type} (parse_f64 : string → option F64) (from_secs_f64 : F64 → result string N).

Definition song : string :=
  let nl := String newline "" in
  "This is a song that never ends." +:+ nl +:+ "Yes, it goes on and on my friends." +:+ nl +:+
  "Some people started singing it not knowing what it was," +:+ nl +:+
  "So they'll continue singing it forever just because..." +:+ nl.

(** [args[i]], or the panic of an index out of bounds. *)
Definition with_arg (args : list string) (i : nat) (k : string → guest) : guest :=
  match args !! i with
  | Some a => k a
  | None => Ret (Panics "index out of bounds")
  end.

(** [.unwrap()] *)
Definition unwrapped {A : Type} (o : option A) (k : A → guest) : guest :=
  match o with Some a => k a | None => Ret (Panics UNWRAP) end.

Definition ok {E A : Type} (r : result E A) : option A := match r with Ok a => Some a | Err _ => None end.

Definition command (args : list string) : string :=
  match args with _ :: cmd :: _ => cmd | _ => "daemon" end.

(** [loop { println!(..); sleep(1s) }] *)
Definition daemon : guest :=
  ITree.iter (λ _ : unit,
    do! _ := ITree.trigger (Stdout song) in
    do! _ := ITree.trigger (Sleep 1000000000) in
    Ret (inl tt)) tt.

(** The end of [main]. *)
Definition exiting : guest :=
  do! _ := ITree.trigger (Stderr "exiting") in
  Ret (Exits 0).

Definition demo_main (args : list string) : guest :=
  let cmd := command args in
  if bool_decide (cmd = "echo") then
    do! _ := ITree.trigger (Stdout (Prelude.join " " (drop 2 args))) in exiting
  else if bool_decide (cmd = "sleep") then
    with_arg args 2 (λ a, unwrapped (parse_f64 a) (λ s,
      match from_secs_f64 s with
      | Ok d => do! _ := ITree.trigger (Sleep d) in exiting
      | Err m => Ret (Panics m)
      end))
  else if bool_decide (cmd = "exit") then
    with_arg args 2 (λ a, unwrapped (parse_i32 a) (λ c, Ret (Exits c)))
  else if bool_decide (cmd = "write") then
    with_arg args 2 (λ p,
      do! f := ITree.trigger (FileCreate p) in
      unwrapped (ok f) (λ f,
        do! r := ITree.trigger (WriteAll f (Prelude.join " " (drop 3 args))) in
        unwrapped (ok r) (λ _, exiting)))
  else if bool_decide (cmd = "daemon") then daemon
  else
    do! _ := ITree.trigger (Stderr ("unknown command: " +:+ cmd)) in
    Ret (Exits 1).

(** ** What the guest ends in *)

Lemma trigger_leaf {A : Type} (e : guestE A) (k : A → guest) r :
  Leaf r (do! x := ITree.trigger e in k x) → ∃ x, Leaf r (k x).
Proof. intros (x & _ & Hx)%Leaf_bind_inv. eauto. Qed.

Lemma with_arg_leaf args i k r :
  Leaf r (with_arg args i k) → (∃ m, r = Panics m) ∨ ∃ a, args !! i = Some a ∧ Leaf r (k a).
Proof.
  unfold with_arg. destruct (args !! i) as [a|]; [eauto|]. intros ->%Leaf_Ret_inv. eauto.
Qed.

Lemma unwrapped_leaf {A : Type} (o : option A) k r :
  Leaf r (unwrapped o k) → (∃ m, r = Panics m) ∨ ∃ a, o = Some a ∧ Leaf r (k a).
Proof.
  unfold unwrapped. destruct o as [a|]; [eauto|]. intros ->%Leaf_Ret_inv. eauto.
Qed.

Lemma exiting_leaf r : Leaf r exiting → r = Exits 0.
Proof. intros (x & Hx)%trigger_leaf. by apply Leaf_Ret_inv in Hx. Qed.

(** The song has no end. *)
Lemma daemon_leaf r : ¬ Leaf r daemon.
Proof.
  unfold daemon. intros Hr. revert r Hr.
  apply (Leaf_iter_inv (λ _ : unit, _) tt (λ _, True) (λ _, False)); [|done].
  intros [] r' _ (x & _ & (y & _ & Hy)%Leaf_bind_inv)%Leaf_bind_inv. by apply Leaf_Ret_inv in Hy as ->.
Qed.

(** The cases of a chain of comparisons with literals, in its order. *)
Ltac by_command H := match type of H with
  | context [bool_decide (?c = ?s)] =>
      destruct (decide (c = s)) as [->|];
      [rewrite (bool_decide_eq_true_2 (s = s)) in H by done
      |rewrite (bool_decide_eq_false_2 (c = s)) in H by done; try by_command H]
  end.

(** How the demo ends: not at all as a daemon, which it is when no command is given;
    with the code it was told for [exit], with 1 for a command it does not know, and
    with 0 otherwise, unless it panics. *)
Theorem demo_exit_code args c :
  Leaf (Exits c) (demo_main args) →
  command args ≠ "daemon" ∧
  c = (if bool_decide (command args = "exit") then default 0 (args !! 2%nat ≫= parse_i32)
       else if bool_decide (command args ∈ ["echo"; "sleep"; "write"]) then 0 else 1)%Z.
Proof.
  unfold demo_main. generalize (command args) as cmd. intros cmd Hl.
  by_command Hl.
  - apply trigger_leaf in Hl as (_ & [= ->]%exiting_leaf). done.
  - apply with_arg_leaf in Hl as [[m [=]]|(a & _ & Hl)].
    apply unwrapped_leaf in Hl as [[m [=]]|(x & _ & Hl)].
    destruct (from_secs_f64 x); [|by apply Leaf_Ret_inv in Hl].
    apply trigger_leaf in Hl as (_ & [= ->]%exiting_leaf). done.
  - apply with_arg_leaf in Hl as [[m [=]]|(a & Ha & Hl)].
    apply unwrapped_leaf in Hl as [[m [=]]|(d & Hd & Hl)].
    apply Leaf_Ret_inv in Hl. injection Hl as ->. split; [done|]. simpl. rewrite Ha. simpl. by rewrite Hd.
  - apply with_arg_leaf in Hl as [[m [=]]|(a & _ & Hl)]. apply trigger_leaf in Hl as (f & Hl).
    apply unwrapped_leaf in Hl as [[m [=]]|(d & _ & Hl)]. apply trigger_leaf in Hl as (x & Hl).
    apply unwrapped_leaf in Hl as [[m [=]]|(u & _ & [= ->]%exiting_leaf)]. done.
  - by apply daemon_leaf in Hl.
  - apply trigger_leaf in Hl as (_ & Hl%Leaf_Ret_inv). injection Hl as ->. split; [done|].
    rewrite !bool_decide_eq_false_2; [done|set_solver|done].
Qed.

(** [exit] ends at once with the code that it is given. *)
Lemma demo_exits app s c : parse_i32 s = Some c → demo_main [app; "exit"; s] = Ret (Exits c).
Proof. intros Hs. unfold demo_main, with_arg, unwrapped. simpl. by rewrite Hs. Qed.

(** The demo prints what the benchmarks of its images look for. *)
Lemma demo_prints_expected tc :
  tc ∈ TEST_CASES →
  demo_main (tc_entrypoint tc :: tc_args tc) =
    (do! _ := ITree.trigger (Stdout (tc_expected tc)) in exiting).
Proof. intros [->|[->|[]%elem_of_nil]%elem_of_cons]%elem_of_cons; done. Qed.
End demo.

(** ** The test modules *)

(** modules/has_default_devices.rs *)
Definition devices : list string :=
  ["/dev/null"; "/dev/zero"; "/dev/full"; "/dev/random"; "/dev/urandom"; "/dev/tty"].

Fixpoint find_devices (l : list string) : guest :=
  match l with
  | [] => Ret (Exits 0)
  | d :: l =>
      do! found := ITree.trigger (PathExists d) in
      if found : bool then (do! _ := ITree.trigger (Stdout (d +:+ " found")) in find_devices l)
      else Ret (Panics (d +:+ " not found"))
  end.

Definition has_default_devices : guest := find_devices devices.

(** modules/seccomp.rs *)
Definition seccomp : guest :=
  do! cwd := ITree.trigger CurrentDir in
  unwrapped (ok cwd) (λ cwd,
    do! _ := ITree.trigger (Stdout ("current working dir: " +:+ cwd)) in
    Ret (Exits 0)).

(** The answers of a host where exactly the paths with [exist p] exist, and the working
    directory is the root. *)
Definition answer (exist : string → bool) : guestE ~> itree void1 :=
  λ _ e, match e with
         | Stdout _ | Stderr _ | Sleep _ => Ret tt
         | FileCreate _ => Ret (Err "Read-only file system")
         | WriteAll _ _ => Ret (Err "Bad file descriptor")
         | PathExists p => Ret (exist p)
         | CurrentDir => Ret (Ok "/")
         end.

Lemma interp_answer {A : Type} exist (e : guestE A) (k : A → guest) a :
  answer exist A e = Ret a →
  interp (answer exist) (do! x := ITree.trigger e in k x) ≈ interp (answer exist) (k a).
Proof. intros He. by rewrite interp_bind, interp_trigger, He, bind_ret_l. Qed.

(** The module that looks for the devices ends well exactly where all of them are, and
    names the first that is missing otherwise. *)
Theorem devices_are_found exist :
  interp (answer exist) has_default_devices ≈
  Ret (match List.find (λ d, negb (exist d)) devices with
       | None => Exits 0
       | Some d => Panics (d +:+ " not found")
       end).
Proof.
  unfold has_default_devices. induction devices as [|d l IH]; simpl; [by rewrite interp_ret|].
  rewrite (interp_answer _ _ _ (exist d)) by done. destruct (exist d); simpl; [|by rewrite interp_ret].
  by rewrite (interp_answer _ _ _ tt) by done.
Qed.

(** The module that asks for its working directory exits with 0 once it has it. *)
Lemma seccomp_ends exist : interp (answer exist) seccomp ≈ Ret (Exits 0).
Proof.
  unfold seccomp. rewrite (interp_answer _ _ _ (Ok "/")) by done. simpl.
  by rewrite (interp_answer _ _ _ tt), interp_ret by done.
Qed.
